(* ===== verification/_CoqProject ===== *)
-Q . S2P
Prelude.v
Errors.v
Monad.v
GoStrings.v
Domain.v
MemUsers.v
MemPosts.v
MemLikes.v
MemTags.v
MemBadges.v
Paging.v
Feeds.v
Cursor.v
MemFollows.v
MemOGP.v
Repository.v
Backend.v
PostUC.v
PostInv.v
PostThms.v
NetUrl.v
BadgeUC.v
FollowUC.v
UserUC.v
AuthCache.v
Json.v
NetIP.v
Sha256.v
OgpUrl.v
OgpUrlThms.v
JsonOut.v
Logging.v
OgpHtml.v
OgpUC.v
WorkerThms.v
ImageUC.v
Frames.v
Server.v
LikeRace.v
Dispatcher.v
ContractSuite.v
PgSql.v
PgSchema.v
PgSocial.v
PgPosts.v
PgOgp.v
PgSim.v
PgSimSocial.v
PgSimBadges.v
PgSimPosts.v
PgSimLinks.v
PgSimMedia.v
PgSimJobs.v
PgSimTags.v
PgThms.v
PgWorker.v
HydrateThms.v
Contracts.v
TagExtract.v
Http.v
AuthClient.v
FujuClient.v
Config.v
Handlers.v
HttpThms.v
ApiThms.v
SessionThms.v
AuthThms.v
ConfigThms.v
Boot.v
DsnThms.v
Demo.v
PostProps.v
SocialProps.v
RaceProps.v
OgpProps.v
HttpProps.v
ConfigProps.v
PgProps.v
OpsProps.v
