(* ===== verification/Prelude.v ===== *)
(** * FUJU backend: a verification library

    The program is the backend of a social network: users, posts, replies,
    likes, follows, badges, images, tags and link previews behind an HTTP
    API, with an account service (AuthCore), an object store (R2), a
    recommendation service (fuju-emotion-model) and the web pages of link
    previews as its outside. This library models it in Rocq from the sources
    under src/ and proves what makes it correct.

    ** The parts and how they interact

    A request passes the middlewares and reaches a handler; the handler
    parses it and calls one use case, or two; a use case is a sequence of
    calls to repositories, the storage service, the account service and the
    commit hooks; a repository call is one atomic step on the tables. Two
    loops run beside the requests: the worker that fetches link previews and
    the dispatcher that batches events to the recommendation service.

    A Go function is a value of [Monad.M S A]: from a state to a state and
    an [Ok], an [Err] or a [Panic], where an error keeps the writes made
    before it. [S] is the state of the collaborators and stays abstract in
    the use cases: they take the repositories and services as instances of
    classes, one per Go interface. Machine integers wrap at their width;
    strings are byte strings; a [map] whose iteration order can be seen is
    read through a seed; the clock and the ULID generator belong to
    [GoRuntime].

    ** The files

    Foundations.
    - Prelude: generic lemmas, tactics, [GoRuntime]; Errors: pkg/errors and
      the sentinels; Monad: effects; GoStrings: strings and utf8;
      Domain: internal/domain, one Module per Go type.

    The in-memory backend, internal/repository/inmemory: MemUsers, MemPosts
    (posts, link store), MemLikes (likes, images), MemTags, MemBadges,
    MemFollows, MemOGP (preview cache, job queue), with Cursor for
    internal/repository/sharedcursor. Each Module has the Go struct's maps as
    its state and one Definition per method.
    - Paging and Feeds: cursor pagination, once for all listings.

    The interfaces.
    - Repository: internal/repository/repository.go, a Class per interface
      and its specification on the logical database [DB]; Backend: what a
      backend promises ([Backend S]), the calculus [vwp] in which clients are
      proved, and the instances [World] (in-memory) and [Flaky] (the same
      store behind a connection that may break at any call).

    The Postgres backend, internal/repository/postgres.
    - PgSql: SELECT, JOIN, UPDATE, DELETE, ORDER BY and LIMIT on tables as
      finite maps, column types, and the class [Postgres] of what only the
      database knows (its collation, clock, order of scans, and what becomes
      of each message sent to it); PgSchema: the tables of db/migrations and WithTx of
      pkg/db/tx.go; PgSocial, PgPosts, PgOgp: every method, its SQL written
      with these combinators.
    - PgSim and the PgSim* files, one per group of tables: each method
      simulates its specification in Repository; PgThms: together; PgWorker:
      the worker on a page that the columns refuse.
    - ContractSuite: the 54 tests of internal/repository/testsupport as
      programs over the interfaces.

    The use cases, internal/usecase: PostUC (post and timeline), FollowUC,
    UserUC, BadgeUC (badge and admin), ImageUC (image and pkg/storage),
    OgpUC (ogp: the enqueue hook and the worker), Dispatcher (fuju and
    cmd/server/fuju_hooks.go). Their theorems are beside them or in PostInv,
    PostThms, HydrateThms, WorkerThms; Frames says what each leaves alone
    and Contracts which answer each gives.

    Libraries of the program: NetUrl, OgpUrl, OgpUrlThms (net/url,
    pkg/ogp/extractor.go and normalizer.go), OgpHtml (parser.go,
    fetcher.go), NetIP (safe_http.go), Sha256, TagExtract
    (internal/tagextractor), AuthCache and AuthClient, AuthThms
    (pkg/authcore), Json (the decoder of encoding/json as the handlers use
    it), JsonOut (its encoder, for the bodies and the log), Logging
    (pkg/logger and the middlewares that log), FujuClient (pkg/fujumodel), Config, ConfigThms, DsnThms (config).

    The server.
    - Server: every request the handlers can make, [handle], [reachable] and
      the invariant [server_inv]; LikeRace: likes and unlikes interleaved
      call by call.
    - Http (pkg/auth, pkg/cookie, internal/middleware, the helpers of
      internal/handler), Handlers (every endpoint, the routes and the
      middleware chains of cmd/server/main.go), HttpThms, SessionThms,
      ApiThms (the schemas and operations of docs/swagger.yaml, and that the
      answers of the routes follow them).
    - Boot: what main does before and after it serves: construction from the
      configuration, the loops, the signal and the teardown.

    The properties, with their witnesses, are in PostProps, SocialProps,
    RaceProps, OgpProps, HttpProps, ConfigProps, PgProps and OpsProps, on
    the concrete server of Demo.

    ** What the theorems show

    - Invariants: every state a server reaches from an empty store has
      consistent tables (counters, threads, attachments, ownership, indexes),
      and no request panics; the introspection cache and the dispatcher's
      streams keep theirs under any interleaving.
    - Refinement: an HTTP request does what at most three requests of the
      server do, each allowed to the session's user; without a session
      nothing is written. Every method of the Postgres repositories does to
      its tables what the interface promises of the logical database, as long
      as the columns can hold the values. As a check of the model, the
      repository's contract tests run and pass on both backends.
    - Functional contracts: for each write the answer it gives, as a function
      of request and database, and what it leaves in the tables; for the
      listings that following the cursors visits every row once; for the
      hydrator that batching changes nothing; for the session cookie, the
      cached client of the account service, as main wires it, and the
      configuration what they accept.
    - Errors: on a backend that fails at any call, which writes settle; which
      counters drift, and when; where a retry is unbounded. A method of the
      Postgres repositories that fails leaves the tables as they were, unless
      the answer to it was lost and it was done in full (the upsert of tags,
      which commits name by name, keeps the first ones); and
      one page whose title the column refuses stops all previews.
    - Round trips: follow cursors, normalised queries, the connection string;
      the log, read line by line; the events and contents, as the
      recommendation service decodes them, over a network that loses
      requests and answers.
    - The process: what starts, what is closed in which order, and that main
      finishes once the signal has come.
    - Types: every answer of the API is the JSON of the schema documented
      for its operation, with a documented status; where the code goes beyond
      the document, [beyond] says how.
    - Bounds: extracted URLs and tags, page sizes, counters under
      interleaving, the age of the cookie.

    ** Bounds and fuel

    Loops with fuel take it from the input (the length of the text, the size
    of the table), and a theorem of each says it suffices. [small] bounds
    every table by what an int64 counter can hold (2^63 rows); it is a
    hypothesis wherever counters are exact. A page walk takes one step per
    page, at most the size of the feed.

    ** Parameters

    Code outside src/ is a class or a variable: [GoRuntime] (clock, ULIDs,
    sort order of map iteration), [UnicodeTables], [HostTables] (IDNA),
    [HtmlLib], [MultipartLib], [AuthHTTP.Transport], [Fetcher.HttpClient],
    the S3 client. What the theorems rely on is a named hypothesis
    ([UniqueULIDs], [CivilClock], [remote_client], [remote_storage],
    [remote_http], [pure_extractor], [remote_session], [storage_errors]), and
    Demo has a concrete value of each.

    ** Not modelled

    - pgxpool, the AWS SDK and net/http themselves: parameters ([Boot.Drivers],
      [Postgres], [AuthHTTP.Transport]); the seeds of migration 005.
    - The time-outs of requests and of the HTTP server: a time-out shows as a
      failing call; the log lines of main and of the loops.
    - The text of the errors of encoding/json; of the OpenAPI document, the
      patterns, lengths and ranges of its types and the request schemas. *)

From stdpp Require Export base gmap sets list strings sorting pretty.
From stdpp Require Import options.
#[export] Set Warnings "-register-all,-clear-no-such-hyp".

#[global] Set Default Goal Selector "1".
#[global] Unset Default Proof Using.

(** ** Go integers

    Go's [int64] (and [int] on the 64-bit targets the server is built for)
    wraps around; [wrap64] is the two's complement reduction. *)

Definition int64_max : Z := 9223372036854775807.
Definition int64_min : Z := -9223372036854775808.

Definition wrap64 (z : Z) : Z :=
  ((z + 9223372036854775808) mod 18446744073709551616) - 9223372036854775808.

Lemma wrap64_small z : (int64_min <= z <= int64_max)%Z -> wrap64 z = z.
Proof.
  unfold wrap64, int64_min, int64_max. intros H.
  rewrite Z.mod_small; lia.
Qed.

Lemma wrap64_range z : (int64_min <= wrap64 z <= int64_max)%Z.
Proof.
  unfold wrap64, int64_min, int64_max.
  pose proof (Z.mod_pos_bound (z + 9223372036854775808) 18446744073709551616).
  lia.
Qed.

(** ** Time

    [time.Time] is an instant in nanoseconds counted from Go's zero time
    (so [IsZero] is [0]); [time.Duration] is a count of nanoseconds, and
    [Time.Sub] saturates at the int64 bounds. *)

Abbreviation Time := Z (only parsing).
Abbreviation Duration := Z (only parsing).

Definition time_zero : Time := 0%Z.
Definition IsZero (t : Time) : bool := bool_decide (t = time_zero).
Definition Before (t u : Time) : bool := bool_decide (t < u)%Z.
Definition After (t u : Time) : bool := bool_decide (t > u)%Z.
Definition time_Sub (t u : Time) : Duration :=
  Z.max int64_min (Z.min int64_max (t - u)).
Definition time_Add (t : Time) (d : Duration) : Time := (t + d)%Z.

Definition Nanosecond : Duration := 1%Z.
Definition Second : Duration := 1000000000%Z.
Definition Minute : Duration := (60 * Second)%Z.
Definition Hour : Duration := (60 * Minute)%Z.

Lemma time_Sub_lt t u d :
  (int64_min < d <= int64_max)%Z -> (time_Sub t u < d <-> t - u < d)%Z.
Proof. unfold time_Sub, int64_min, int64_max. lia. Qed.

(** ** Strings

    Go strings are byte strings; [<] and [>] compare them byte by byte. *)

Definition str_lt (s1 s2 : string) : bool := String.ltb s1 s2.
Definition str_gt (s1 s2 : string) : bool := String.ltb s2 s1.

#[export] Instance str_gt_dec : RelDecision (fun s1 s2 => str_gt s1 s2 = true).
Proof. intros s1 s2. apply _. Defined.

Lemma str_compare_refl s : (s ?= s)%string = Eq.
Proof.
  induction s as [|a s IH]; [done|]; simpl.
  assert (Ascii.compare a a = Eq) as ->; [|done].
  unfold Ascii.compare. by rewrite N.compare_refl.
Qed.

Lemma str_ltb_irrefl s : String.ltb s s = false.
Proof. unfold String.ltb. by rewrite str_compare_refl. Qed.

Lemma str_lt_le s1 s2 : String.ltb s1 s2 = true <-> String.le s1 s2 /\ s1 <> s2.
Proof.
  unfold String.le, String.leb, String.ltb.
  destruct (s1 ?= s2)%string eqn:E; simpl.
  - apply String.compare_eq_iff in E as ->. split; [done|]. by intros [_ ?].
  - split; [|done]. intros _. split; [done|]. intros ->.
    by rewrite str_compare_refl in E.
  - split; [done|]. by intros [? _].
Qed.

Lemma str_not_lt_le s1 s2 : String.ltb s1 s2 = false <-> String.le s2 s1.
Proof.
  split.
  - intros H. destruct (String.le_total s1 s2) as [Hle|?]; [|done].
    destruct (decide (s1 = s2)) as [->|Hne]; [done|].
    assert (String.ltb s1 s2 = true) by (apply str_lt_le; done). congruence.
  - intros Hle. destruct (String.ltb s1 s2) eqn:E; [|done].
    apply str_lt_le in E as [Hle' Hne]. exfalso. apply Hne. by apply (anti_symm String.le).
Qed.

(** ** Sorting by a string key

    [sort.Slice(xs, func(i, j) bool { return xs[i].K > xs[j].K })] and its
    ascending twin. [sort.Slice] is not stable; when the keys of [xs] are
    distinct every correct algorithm returns the same list
    ([sorted_by_unique]), so the merge sort below stands for it. *)

Section sort_by.
Context {A : Type} (key : A -> string).

Definition desc_by : relation A := fun x y => String.le (key y) (key x).
Definition asc_by : relation A := fun x y => String.le (key x) (key y).

#[export] Instance desc_by_dec : RelDecision desc_by.
Proof. intros x y. unfold desc_by. apply _. Defined.
#[export] Instance asc_by_dec : RelDecision asc_by.
Proof. intros x y. unfold asc_by. apply _. Defined.

Definition sort_desc (l : list A) : list A := merge_sort desc_by l.
Definition sort_asc (l : list A) : list A := merge_sort asc_by l.

#[export] Instance desc_by_trans : Transitive desc_by.
Proof. intros x y z H1 H2. unfold desc_by in *. by etrans. Qed.
#[export] Instance asc_by_trans : Transitive asc_by.
Proof. intros x y z H1 H2. unfold asc_by in *. by etrans. Qed.
#[export] Instance desc_by_total : Total desc_by.
Proof. intros x y. unfold desc_by. destruct (String.le_total (key x) (key y)); auto. Qed.
#[export] Instance asc_by_total : Total asc_by.
Proof. intros x y. unfold asc_by. destruct (String.le_total (key x) (key y)); auto. Qed.

Lemma sort_desc_perm l : sort_desc l ≡ₚ l.
Proof. apply merge_sort_Permutation. Qed.
Lemma sort_asc_perm l : sort_asc l ≡ₚ l.
Proof. apply merge_sort_Permutation. Qed.
Lemma sort_desc_sorted l : StronglySorted desc_by (sort_desc l).
Proof. apply StronglySorted_merge_sort; apply _. Qed.
Lemma sort_asc_sorted l : StronglySorted asc_by (sort_asc l).
Proof. apply StronglySorted_merge_sort; apply _. Qed.
Lemma elem_of_sort_desc x l : x ∈ sort_desc l <-> x ∈ l.
Proof. by rewrite sort_desc_perm. Qed.
Lemma elem_of_sort_asc x l : x ∈ sort_asc l <-> x ∈ l.
Proof. by rewrite sort_asc_perm. Qed.

(** Distinct keys: there is one sorted arrangement. *)
Definition key_inj (l : list A) : Prop :=
  forall x y, x ∈ l -> y ∈ l -> key x = key y -> x = y.

Lemma sorted_desc_unique l1 l2 :
  key_inj l1 -> l1 ≡ₚ l2 ->
  StronglySorted desc_by l1 -> StronglySorted desc_by l2 -> l1 = l2.
Proof.
  intros Hinj Hp H1 H2. apply (StronglySorted_unique_strong desc_by); [|done..].
  intros x y Hx Hy Hxy Hyx. rewrite <-Hp in Hy.
  apply Hinj; [done..|]. by apply (anti_symm String.le).
Qed.

Lemma sorted_asc_unique l1 l2 :
  key_inj l1 -> l1 ≡ₚ l2 ->
  StronglySorted asc_by l1 -> StronglySorted asc_by l2 -> l1 = l2.
Proof.
  intros Hinj Hp H1 H2. apply (StronglySorted_unique_strong asc_by); [|done..].
  intros x y Hx Hy Hxy Hyx. rewrite <-Hp in Hy.
  apply Hinj; [done..|]. by apply (anti_symm String.le).
Qed.

Lemma key_inj_perm l1 l2 : l1 ≡ₚ l2 -> key_inj l1 -> key_inj l2.
Proof. intros Hp H x y. rewrite <-!Hp. apply H. Qed.

Lemma sort_desc_proper l1 l2 :
  key_inj l1 -> l1 ≡ₚ l2 -> sort_desc l1 = sort_desc l2.
Proof.
  intros Hinj Hp. apply sorted_desc_unique.
  - eapply key_inj_perm; [symmetry; apply sort_desc_perm|done].
  - by rewrite !sort_desc_perm.
  - apply sort_desc_sorted.
  - apply sort_desc_sorted.
Qed.

Lemma sort_asc_proper l1 l2 :
  key_inj l1 -> l1 ≡ₚ l2 -> sort_asc l1 = sort_asc l2.
Proof.
  intros Hinj Hp. apply sorted_asc_unique.
  - eapply key_inj_perm; [symmetry; apply sort_asc_perm|done].
  - by rewrite !sort_asc_perm.
  - apply sort_asc_sorted.
  - apply sort_asc_sorted.
Qed.
End sort_by.

(** The same fact for any sort order that is antisymmetric on the slice. *)
Section sort_rel.
Context {A : Type} (R : relation A) `{!RelDecision R, !Transitive R, !Total R}.

Lemma merge_sort_proper l1 l2 :
  (forall x y, x ∈ l1 -> y ∈ l1 -> R x y -> R y x -> x = y) ->
  l1 ≡ₚ l2 -> merge_sort R l1 = merge_sort R l2.
Proof.
  intros Hanti Hp. apply (StronglySorted_unique_strong R).
  - intros x y Hx Hy. apply Hanti.
    + by rewrite merge_sort_Permutation in Hx.
    + rewrite merge_sort_Permutation in Hy. by rewrite Hp.
  - by apply StronglySorted_merge_sort.
  - by apply StronglySorted_merge_sort.
  - by rewrite !merge_sort_Permutation.
Qed.

Lemma elem_of_merge_sort x l : x ∈ merge_sort R l <-> x ∈ l.
Proof. by rewrite merge_sort_Permutation. Qed.
End sort_rel.

(** ** The runtime the code reads

    [time.Now], [ulid.Make] (a third-party package) and the order of a
    [range] over a map are supplied by the environment: the [n]-th reading
    of the clock, the [n]-th identifier minted, and a permutation of the
    map's entries that may differ at every loop. *)

Class GoRuntime := {
  clock : nat -> Time;
  ulid_Make : nat -> string;
  go_range : nat -> forall {A : Type}, list A -> list A;
  go_range_perm : forall n A (l : list A), go_range n l ≡ₚ l;
}.

Definition range_map `{GoRuntime} {K V} `{Countable K} (n : nat) (m : gmap K V) : list (K * V) :=
  go_range n (map_to_list m).

Lemma elem_of_range_map `{GoRuntime} {K V} `{Countable K} n (m : gmap K V) k v :
  (k, v) ∈ range_map n m <-> m !! k = Some v.
Proof. unfold range_map. rewrite go_range_perm. apply elem_of_map_to_list. Qed.

Lemma range_map_perm `{GoRuntime} {K V} `{Countable K} n n' (m : gmap K V) :
  range_map n m ≡ₚ range_map n' m.
Proof. unfold range_map. by rewrite !go_range_perm. Qed.

Lemma NoDup_range_map `{GoRuntime} {K V} `{Countable K} n (m : gmap K V) :
  NoDup (range_map n m).*1.
Proof. unfold range_map. rewrite go_range_perm. apply NoDup_fst_map_to_list. Qed.

(** What the documentation of the ulid package promises: identifiers are
    unique and are not the empty string. *)
Class UniqueULIDs `{GoRuntime} : Prop := {
  ulid_inj : forall i j, ulid_Make i = ulid_Make j -> i = j;
  ulid_nonempty : forall n, ulid_Make n <> "";
}.

(** The clock shows a date of the years 1 to 9999. *)
Definition max_time : Time := (3652059 * (86400 * 1000000000))%Z.
Class CivilClock `{GoRuntime} : Prop := {
  clock_range : forall n, (0 <= clock n < max_time)%Z;
}.

(** A concrete runtime, used by the witnesses: the clock ticks once per
    reading, the first hundred identifiers are 26-digit ULIDs, and maps are
    visited in [map_to_list] order. *)

Fixpoint dec_digits (k n : nat) (acc : string) : string :=
  match k with
  | O => acc
  | S k => dec_digits k (n / 10) (String (Ascii.ascii_of_nat (48 + n mod 10)) acc)
  end.

Definition ulid_seq (n : nat) : string :=
  if decide (n < 100) then dec_digits 26 n "" else String (Ascii.ascii_of_nat 90) (pretty n).

#[export] Instance test_runtime : GoRuntime | 100 := {
  clock n := Z.min (1000 + Z.of_nat n) 1000000;
  ulid_Make := ulid_seq;
  go_range _ A l := l;
  go_range_perm n A l := Permutation_refl l;
}.

Lemma ulid_seq_table :
  forallb (fun s => bool_decide (String.get 0 s = Some (Ascii.ascii_of_nat 48))) (ulid_seq <$> seq 0 100) = true /\
  NoDup (ulid_seq <$> seq 0 100).
Proof. split; [reflexivity|]. apply (bool_decide_unpack _). vm_compute. exact I. Qed.

#[export] Instance test_ulids : UniqueULIDs (H := test_runtime).
Proof.
  destruct ulid_seq_table as [Hz Hnd]. rewrite forallb_forall in Hz.
  assert (Hlk : forall n, n < 100 -> (ulid_seq <$> seq 0 100) !! n = Some (ulid_seq n)).
  { intros n Hn. rewrite list_lookup_fmap, lookup_seq_lt by done. done. }
  assert (Hhead : forall n, n < 100 -> String.get 0 (ulid_seq n) = Some (Ascii.ascii_of_nat 48)).
  { intros n Hn. apply (bool_decide_unpack _), Is_true_true, Hz.
    rewrite <-list_elem_of_In. by eapply list_elem_of_lookup_2, Hlk. }
  assert (Hbig : forall n, ~ n < 100 -> ulid_seq n = String (Ascii.ascii_of_nat 90) (pretty n)).
  { intros n Hn. unfold ulid_seq. by rewrite decide_False. }
  split; cbn [ulid_Make test_runtime].
  - intros i j E. destruct (decide (i < 100)) as [Hi|Hi], (decide (j < 100)) as [Hj|Hj].
    + eapply NoDup_lookup; [exact Hnd|by apply Hlk|]. rewrite E. by apply Hlk.
    + pose proof (Hhead i Hi) as Hh. by rewrite E, Hbig in Hh.
    + pose proof (Hhead j Hj) as Hh. by rewrite <-E, Hbig in Hh.
    + rewrite !Hbig in E by done. injection E as E. by apply (inj pretty) in E.
  - intros n E. destruct (decide (n < 100)) as [Hn|Hn]; [|by rewrite Hbig in E].
    pose proof (Hhead n Hn) as Hh. by rewrite E in Hh.
Qed.

#[export] Instance test_clock : CivilClock (H := test_runtime).
Proof. split. intros n. cbn [clock test_runtime]. unfold max_time. lia. Qed.

(** ** Lists used as Go slices *)

(** [xs[:n]] for [n <= len(xs)]. *)
Definition slice_to {A} (n : Z) (l : list A) : list A := take (Z.to_nat n) l.

(** Building a Go map from a slice, as [wanted := make(map[string]struct{})]. *)
Definition set_of (l : list string) : gset string := list_to_set l.

Lemma elem_of_set_of s l : s ∈ set_of l <-> s ∈ l.
Proof. unfold set_of. set_solver. Qed.

(** The batch lookups of the repositories: [for _, k := range keys] fills a
    map with the keys that have an answer. *)
Definition collect_map {V} (f : string -> option V) (keys : list string) : gmap string V :=
  foldl (fun out k => match f k with Some v => <[k := v]> out | None => out end) ∅ keys.

Lemma collect_map_lookup {V} (f : string -> option V) keys k :
  collect_map f keys !! k = if bool_decide (k ∈ keys) then f k else None.
Proof.
  unfold collect_map. assert (Hgen : forall out : gmap string V,
    (forall j, is_Some (out !! j) -> out !! j = f j) ->
    foldl (fun out k => match f k with Some v => <[k := v]> out | None => out end) out keys !! k =
    if bool_decide (k ∈ keys) then f k else out !! k).
  { induction keys as [|x keys IH]; intros out Hout; cbn [foldl].
    { by rewrite bool_decide_eq_false_2 by apply not_elem_of_nil. }
    rewrite IH; clear IH; last first.
    { intros j. destruct (f x) as [v|] eqn:Ev; [|apply Hout].
      destruct (decide (x = j)) as [->|]; [by rewrite lookup_insert_eq|].
      rewrite lookup_insert_ne by done. apply Hout. }
    destruct (decide (k ∈ keys)) as [Hk|Hk].
    { by rewrite !bool_decide_eq_true_2 by (by try right). }
    rewrite (bool_decide_eq_false_2 (k ∈ keys)) by done.
    destruct (decide (k = x)) as [->|Hne].
    - rewrite bool_decide_eq_true_2 by left.
      destruct (f x) as [v|] eqn:Ev; [apply lookup_insert_eq|].
      destruct (out !! x) as [w|] eqn:Ew; [|done].
      specialize (Hout x). rewrite Ew, Ev in Hout. by apply Hout.
    - rewrite (bool_decide_eq_false_2 (k ∈ x :: keys)) by (rewrite elem_of_cons; tauto).
      destruct (f x); [by rewrite lookup_insert_ne|done]. }
  rewrite Hgen; [by rewrite lookup_empty|]. intros j. rewrite lookup_empty. by intros [].
Qed.

Section filters.
Context {A : Type} (P : A -> Prop) {Pdec : forall x, Decision (P x)}.

Lemma list_filter_all (l : list A) : (forall x, x ∈ l -> P x) -> filter P l = l.
Proof.
  induction l as [|x l IH]; intros H; [done|].
  rewrite filter_cons_True by (apply H; left). f_equal. apply IH. intros y Hy. apply H. by right.
Qed.

Lemma list_filter_none (l : list A) : (forall x, x ∈ l -> ~ P x) -> filter P l = [].
Proof.
  induction l as [|x l IH]; intros H; [done|].
  rewrite filter_cons_False by (apply H; left). apply IH. intros y Hy. apply H. by right.
Qed.

Lemma StronglySorted_filter (R : relation A) (l : list A) :
  StronglySorted R l -> StronglySorted R (filter P l).
Proof.
  induction 1 as [|x l Hs IH Hall]; [constructor|]. rewrite filter_cons.
  case_decide; [|done]. constructor; [done|]. rewrite Forall_forall in *.
  intros y [_ Hy]%list_elem_of_filter. auto.
Qed.

Lemma filter_perm (l1 l2 : list A) : l1 ≡ₚ l2 -> filter P l1 ≡ₚ filter P l2.
Proof. by intros ->. Qed.
End filters.

(** ** Automation shared by the development *)

Create HintDb fuju.
Create Rewrite HintDb fuju.
#[export] Hint Rewrite @lookup_insert_eq @lookup_delete_eq @lookup_empty : fuju.

(** Case analysis on the scrutinee of a [match] or [if] of a hypothesis or
    of the goal, innermost first. *)
Ltac break_match_in H :=
  match type of H with
  | context [match ?x with _ => _ end] =>
      lazymatch x with
      | context [match _ with _ => _ end] => fail
      | _ => let E := fresh "E" in destruct x eqn:E
      end
  end.
Ltac break_goal :=
  match goal with
  | |- context [match ?x with _ => _ end] =>
      lazymatch x with
      | context [match _ with _ => _ end] => fail
      | _ => let E := fresh "E" in destruct x eqn:E
      end
  end.

(** Linear arithmetic with division and remainder by constants. *)
Ltac lia_div := Z.to_euclidean_division_equations; lia.

(** Turn boolean tests of the code into propositions. *)
Ltac to_prop :=
  repeat match goal with
  | H : bool_decide _ = true |- _ => apply bool_decide_eq_true_1 in H
  | H : bool_decide _ = false |- _ => apply bool_decide_eq_false_1 in H
  | H : (_ && _)%bool = true |- _ => apply andb_true_iff in H as [? ?]
  | H : (_ || _)%bool = true |- _ => apply orb_true_iff in H
  | H : (_ || _)%bool = false |- _ => apply orb_false_iff in H as [? ?]
  | H : negb _ = true |- _ => apply negb_true_iff in H
  | H : negb _ = false |- _ => apply negb_false_iff in H
  | H : (_ =? _)%string = true |- _ => apply String.eqb_eq in H
  | H : (_ =? _)%string = false |- _ => apply String.eqb_neq in H
  end.
