(* ===== verification/Errors.v ===== *)
(** * Errors: [pkg/errors], the error types of [internal/domain] and the
    sentinels of the client packages, as values of one Go [error] type. *)

From S2P Require Import Prelude.
From stdpp Require Import pretty.

(** A non-nil Go [error]; a nil-able [error] result is an [option goerror]. *)
Inductive goerror :=
  | AppError (Code Message : string) (StatusCode : Z) (Err : option goerror)
  | UserNotFoundError (Sub : string)
  | PostNotFoundError (ID : string)
  | InvalidUserError (Reason : string)
  | InvalidPostError (Reason : string)
  | AccessDeniedError (Resource Sub : string)
  | ValidationError (Reason : string)
  | ErrBadStatus (Status : Z)
  | ErrorString (msg : string)                      (* errors.New(msg) *)
  | Wrapped (pre : string) (e : goerror) (post : string). (* fmt.Errorf("<pre>%w<post>", e) *)

Definition NewValidationError (reason : string) : goerror := ValidationError reason.

(** The [Error() string] methods. *)
Fixpoint Error (e : goerror) : string :=
  (match e with
  | AppError c m _ (Some e') => c +:+ ": " +:+ m +:+ " (" +:+ Error e' +:+ ")"
  | AppError c m _ None => c +:+ ": " +:+ m
  | UserNotFoundError sub => "user not found: sub=" +:+ sub
  | PostNotFoundError id => "post not found: id=" +:+ id
  | InvalidUserError r => "invalid user: " +:+ r
  | InvalidPostError r => "invalid post: " +:+ r
  | AccessDeniedError resource sub => "access denied: sub=" +:+ sub +:+ ", resource=" +:+ resource
  | ValidationError r => "validation error: " +:+ r
  | ErrBadStatus n => "ogp: bad status " +:+ pretty n
  | ErrorString m => m
  | Wrapped pre e post => pre +:+ Error e +:+ post
  end)%string.

(** [errors.Unwrap]. *)
Definition Unwrap (e : goerror) : option goerror :=
  match e with
  | AppError _ _ _ e' => e'
  | Wrapped _ e' _ => Some e'
  | _ => None
  end.

(** Error codes. *)
Definition ErrInvalidRequest : string := "INVALID_REQUEST".
Definition ErrUnauthorized : string := "UNAUTHORIZED".
Definition ErrForbidden : string := "FORBIDDEN".
Definition ErrNotFound : string := "NOT_FOUND".
Definition ErrConflict : string := "CONFLICT".
Definition ErrValidationFailed : string := "VALIDATION_FAILED".
Definition ErrInternal : string := "INTERNAL_ERROR".
Definition ErrDatabaseError : string := "DATABASE_ERROR".
Definition ErrExternalService : string := "EXTERNAL_SERVICE_ERROR".

Definition New (code message : string) (statusCode : Z) (err : option goerror) : goerror :=
  AppError code message statusCode err.
Definition NewWithStatus (code message : string) (statusCode : Z) : goerror :=
  AppError code message statusCode None.

Definition InvalidRequest (message : string) (err : option goerror) : goerror :=
  New ErrInvalidRequest message 400 err.
Definition Unauthorized (message : string) : goerror :=
  NewWithStatus ErrUnauthorized message 401.
Definition Forbidden (message : string) : goerror :=
  NewWithStatus ErrForbidden message 403.
Definition NotFound (message : string) : goerror :=
  NewWithStatus ErrNotFound message 404.
Definition Conflict (message : string) : goerror :=
  NewWithStatus ErrConflict message 409.
Definition ValidationFailed (message : string) : goerror :=
  NewWithStatus ErrValidationFailed message 400.
Definition InternalServer (message : string) (err : option goerror) : goerror :=
  New ErrInternal message 500 err.
Definition DatabaseError (message : string) (err : option goerror) : goerror :=
  New ErrDatabaseError message 500 err.
Definition ExternalServiceError (message : string) (err : option goerror) : goerror :=
  New ErrExternalService message 502 err.

(** [IsAppError]: [errors.As] finds the first [*AppError] of the unwrap
    chain. The result is its code, message and status. *)
Fixpoint IsAppError (e : goerror) : option (string * string * Z) :=
  match e with
  | AppError c m s _ => Some (c, m, s)
  | Wrapped _ e' _ => IsAppError e'
  | _ => None
  end.

Definition ToHTTPStatus (e : goerror) : Z :=
  match IsAppError e with
  | Some (_, _, s) => s
  | None => 500
  end.

(** [errors.Is(e, ErrorString m)] for a package-level sentinel: the chain
    holds the sentinel. Sentinels are told apart by their message, which is
    distinct for each of them in this code base. *)
Fixpoint is_sentinel (m : string) (e : goerror) : bool :=
  match e with
  | ErrorString m' => bool_decide (m' = m)
  | AppError _ _ _ (Some e') => is_sentinel m e'
  | Wrapped _ e' _ => is_sentinel m e'
  | _ => false
  end.

(** [errors.As(e, **ErrBadStatus)]. *)
Fixpoint as_bad_status (e : goerror) : option Z :=
  match e with
  | ErrBadStatus n => Some n
  | AppError _ _ _ (Some e') => as_bad_status e'
  | Wrapped _ e' _ => as_bad_status e'
  | _ => None
  end.

(** An error reported as a failure of the database layer. *)
Definition is_DatabaseError (e : goerror) : bool :=
  match e with
  | AppError c _ _ _ => bool_decide (c = ErrDatabaseError)
  | _ => false
  end.

Lemma ToHTTPStatus_wrapped pre e post :
  ToHTTPStatus (Wrapped pre e post) = ToHTTPStatus e.
Proof. done. Qed.
