(* ===== verification/Monad.v ===== *)
(** * The effects of a Go call

    A Go function with an [error] result, run against the state [S] of the
    repositories, is a state transformer that ends in [Ok], in [Err] (a
    non-nil [error]; the writes made before it are kept, as in Go) or in
    [Panic] (a nil dereference or an index out of range). *)

From S2P Require Import Prelude Errors.

Inductive res (A : Type) :=
  | Ok (a : A)
  | Err (e : goerror)
  | Panic (why : string).
Arguments Ok {A} a.
Arguments Err {A} e.
Arguments Panic {A} why.

Definition M (S A : Type) : Type := S -> S * res A.

Section ops.
Context {S : Type}.

Definition ret {A} (a : A) : M S A := fun s => (s, Ok a).
Definition fail {A} (e : goerror) : M S A := fun s => (s, Err e).
Definition panic {A} (why : string) : M S A := fun s => (s, Panic why).

Definition bind {A B} (m : M S A) (f : A -> M S B) : M S B := fun s =>
  match m s with
  | (s', Ok a) => f a s'
  | (s', Err e) => (s', Err e)
  | (s', Panic p) => (s', Panic p)
  end.

(** [x, err := m(); if err != nil { return f(err) }] *)
Definition map_err {A} (f : goerror -> goerror) (m : M S A) : M S A := fun s =>
  match m s with
  | (s', Err e) => (s', Err (f e))
  | r => r
  end.

(** [x, err := m()] with [err] inspected by the caller. *)
Definition try {A} (m : M S A) : M S (goerror + A) := fun s =>
  match m s with
  | (s', Ok a) => (s', Ok (inr a))
  | (s', Err e) => (s', Ok (inl e))
  | (s', Panic p) => (s', Panic p)
  end.

(** [if b { return nil, e }] *)
Definition guard (b : bool) (e : goerror) : M S unit := if b then fail e else ret tt.

(** [for _, x := range xs { f(x) }] with an early return on error. *)
Fixpoint for_each {A} (f : A -> M S unit) (l : list A) : M S unit :=
  match l with
  | [] => ret tt
  | x :: l => bind (f x) (fun _ => for_each f l)
  end.
End ops.

Declare Scope go_scope.
Delimit Scope go_scope with go.
Notation "'let!' x := m 'in' k" := (bind m (fun x => k))
  (at level 10, x pattern, m at level 100, k at level 200,
   format "'[v' 'let!'  x  :=  m  'in' '/' k ']'") : go_scope.
Notation "m ;;; k" := (bind m (fun _ => k))
  (at level 199, right associativity, format "'[v' m  ;;; '/' k ']'") : go_scope.

(** ** Weakest preconditions

    [wp m s Q]: running [m] from [s] ends with a result and a state that
    satisfy [Q]. Every run ends, so this is total correctness. *)

Definition wp {S A} (m : M S A) (s : S) (Q : res A -> S -> Prop) : Prop :=
  Q (m s).2 (m s).1.

(** The same for the [Ok] outcome only, the others keeping [E]. *)
Definition on_ok {S A} (Q : A -> S -> Prop) (E : res A -> S -> Prop) (r : res A) (s : S) : Prop :=
  match r with
  | Ok a => Q a s
  | r => E r s
  end.

Section wp.
Context {S : Type}.

Lemma wp_mono {A} (m : M S A) s (Q Q' : res A -> S -> Prop) :
  wp m s Q -> (forall r s', Q r s' -> Q' r s') -> wp m s Q'.
Proof. unfold wp. auto. Qed.

Lemma wp_and {A} (m : M S A) s (Q Q' : res A -> S -> Prop) :
  wp m s Q -> wp m s Q' -> wp m s (fun r s' => Q r s' /\ Q' r s').
Proof. unfold wp. auto. Qed.

Lemma wp_ret {A} (a : A) s (Q : res A -> S -> Prop) : Q (Ok a) s -> wp (ret a) s Q.
Proof. done. Qed.

Lemma wp_fail {A} e s (Q : res A -> S -> Prop) : Q (Err e) s -> wp (fail e) s Q.
Proof. done. Qed.

Lemma wp_bind {A B} (m : M S A) (f : A -> M S B) s (Q : res B -> S -> Prop) :
  wp m s (fun r s' =>
    match r with
    | Ok a => wp (f a) s' Q
    | Err e => Q (Err e) s'
    | Panic p => Q (Panic p) s'
    end) ->
  wp (bind m f) s Q.
Proof. unfold wp, bind. by destruct (m s) as [s' [a|e|p]]. Qed.

Lemma wp_map_err {A} f (m : M S A) s (Q : res A -> S -> Prop) :
  wp m s (fun r s' =>
    match r with
    | Err e => Q (Err (f e)) s'
    | r => Q r s'
    end) ->
  wp (map_err f m) s Q.
Proof. unfold wp, map_err. by destruct (m s) as [s' [a|e|p]]. Qed.

Lemma wp_try {A} (m : M S A) s (Q : res (goerror + A) -> S -> Prop) :
  wp m s (fun r s' =>
    match r with
    | Ok a => Q (Ok (inr a)) s'
    | Err e => Q (Ok (inl e)) s'
    | Panic p => Q (Panic p) s'
    end) ->
  wp (try m) s Q.
Proof. unfold wp, try. by destruct (m s) as [s' [a|e|p]]. Qed.

Lemma wp_guard b e s (Q : res unit -> S -> Prop) :
  (b = true -> Q (Err e) s) -> (b = false -> Q (Ok tt) s) -> wp (guard b e) s Q.
Proof. unfold wp, guard. destruct b; simpl; auto. Qed.

(** Loop rule: [I] holds before each iteration. *)
Lemma wp_for_each {A} (f : A -> M S unit) l s
    (I : list A -> S -> Prop) (Q : res unit -> S -> Prop) :
  I l s ->
  (forall x l' s', I (x :: l') s' ->
    wp (f x) s' (fun r s'' => match r with
                          | Ok _ => I l' s''
                          | Err e => Q (Err e) s''
                          | Panic p => Q (Panic p) s''
                          end)) ->
  (forall s', I [] s' -> Q (Ok tt) s') ->
  wp (for_each f l) s Q.
Proof.
  intros HI Hstep Hend. revert s HI.
  induction l as [|x l IH]; intros s HI; simpl.
  - apply wp_ret. auto.
  - apply wp_bind. eapply wp_mono; [apply Hstep, HI|].
    intros [[]|e|p] s'; auto.
Qed.
End wp.

(** One step of a symbolic run: peel the control operators. *)
Ltac wp_step :=
  lazymatch goal with
  | |- wp (bind _ _) _ _ => apply wp_bind
  | |- wp (map_err _ _) _ _ => apply wp_map_err
  | |- wp (try _) _ _ => apply wp_try
  | |- wp (ret _) _ _ => apply wp_ret
  | |- wp (fail _) _ _ => apply wp_fail
  | |- wp (guard _ _) _ _ => apply wp_guard; intros
  | |- wp (if ?b then _ else _) _ _ => destruct b eqn:?
  | |- wp (match ?x with _ => _ end) _ _ => destruct x eqn:?
  end.
