(* ===== verification/GoStrings.v ===== *)
(** * The parts of Go's [strings] and [unicode/utf8] packages the code uses

    Strings are byte strings; everything here computes. *)

From S2P Require Import Prelude.
From Stdlib Require Import Ascii.

Definition byte_of (a : ascii) : N := N_of_ascii a.

Fixpoint string_drop (n : nat) (s : string) : string :=
  match n, s with
  | S n, String _ s => string_drop n s
  | _, _ => s
  end.

Fixpoint string_take (n : nat) (s : string) : string :=
  match n, s with
  | S n, String a s => String a (string_take n s)
  | _, _ => EmptyString
  end.

Definition byte_at (n : nat) (s : string) : option N := byte_of <$> String.get n s.

(** ** utf8.RuneCountInString

    [rune_size s] is the number of bytes one decoding step consumes: the
    length of a well-formed encoding, or 1 for an invalid byte. *)

Definition in_range (lo hi : N) (b : option N) : bool :=
  match b with Some b => (lo <=? b)%N && (b <=? hi)%N | None => false end.

Definition cont (b : option N) : bool := in_range 128 191 b.

Definition rune_size (s : string) : nat :=
  match s with
  | EmptyString => 0
  | String a _ =>
      let c := byte_of a in
      let b1 := byte_at 1 s in
      let b2 := byte_at 2 s in
      let b3 := byte_at 3 s in
      let size3 lo hi := if in_range lo hi b1 && cont b2 then 3 else 1 in
      let size4 lo hi := if in_range lo hi b1 && cont b2 && cont b3 then 4 else 1 in
      if (c <? 128)%N then 1
      else if (c <? 194)%N then 1
      else if (c <=? 223)%N then (if cont b1 then 2 else 1)
      else if (c =? 224)%N then size3 160%N 191%N
      else if (c =? 237)%N then size3 128%N 159%N
      else if (c <=? 239)%N then size3 128%N 191%N
      else if (c =? 240)%N then size4 144%N 191%N
      else if (c <=? 243)%N then size4 128%N 191%N
      else if (c =? 244)%N then size4 128%N 143%N
      else 1
  end.

Fixpoint rune_count_fuel (fuel : nat) (s : string) : nat :=
  match fuel, s with
  | S fuel, String _ _ => S (rune_count_fuel fuel (string_drop (rune_size s) s))
  | _, _ => 0
  end.

Definition RuneCountInString (s : string) : nat := rune_count_fuel (String.length s) s.

Lemma length_string_drop n s : String.length (string_drop n s) = String.length s - n.
Proof.
  revert s. induction n as [|n IH]; intros [|a s]; simpl; try done; apply IH.
Qed.

Lemma rune_size_pos a s : 1 <= rune_size (String a s).
Proof. unfold rune_size. repeat case_match; lia. Qed.

(** More fuel than bytes changes nothing: the count is the one of the loop. *)
Lemma rune_count_fuel_enough f s :
  String.length s <= f -> rune_count_fuel f s = RuneCountInString s.
Proof.
  unfold RuneCountInString. revert s.
  induction f as [f IH] using lt_wf_ind. intros s Hf.
  destruct s as [|a s]; [by destruct f|].
  destruct f as [|f]; [simpl in Hf; lia|].
  cbn [rune_count_fuel String.length]. f_equal. set (t := string_drop _ _).
  assert (String.length t <= String.length s).
  { subst t. rewrite length_string_drop. pose proof (rune_size_pos a s). cbn [String.length]. lia. }
  simpl in Hf. rewrite (IH f) by lia.
  destruct (decide (String.length s < S f)); [|lia].
  by rewrite (IH (String.length s)) by lia.
Qed.

Lemma RuneCountInString_cons a s :
  RuneCountInString (String a s) =
  S (RuneCountInString (string_drop (rune_size (String a s)) (String a s))).
Proof.
  unfold RuneCountInString at 1. cbn [rune_count_fuel String.length]. f_equal.
  apply rune_count_fuel_enough. rewrite length_string_drop.
  pose proof (rune_size_pos a s). cbn [String.length]. lia.
Qed.

Lemma RuneCountInString_le s : RuneCountInString s <= String.length s.
Proof.
  unfold RuneCountInString. generalize (String.length s) as f. intros f.
  revert s. induction f as [|f IH]; intros [|a s]; cbn [rune_count_fuel]; try lia.
  specialize (IH (string_drop (rune_size (String a s)) (String a s))). lia.
Qed.

Fixpoint ascii_only (s : string) : bool :=
  match s with
  | EmptyString => true
  | String a s => (byte_of a <? 128)%N && ascii_only s
  end.

Lemma RuneCountInString_ascii s : ascii_only s = true -> RuneCountInString s = String.length s.
Proof.
  induction s as [|a s IH]; [done|]. cbn [ascii_only]. intros [Ha Hs]%andb_true_iff.
  rewrite RuneCountInString_cons. unfold rune_size. rewrite Ha. cbn [string_drop String.length]. by rewrite IH.
Qed.

Example rune_count_kanji :
  RuneCountInString (String "230" (String "151" (String "165" (String "065" "")))) = 2.
Proof. reflexivity. Qed.
