(* ===== verification/Domain.v ===== *)
(** * [internal/domain]: entities, request types and their validators

    One Module per Go type, holding its Record and its methods. A pointer
    field that may be nil is an [option]; timestamps are [Time]. *)

From S2P Require Import Prelude Errors GoStrings.
From stdpp Require Import pretty.
From Stdlib Require Import Ascii.

(** ** ULIDs *)

(** The character class [[0-9A-HJKMNP-TV-Z]] (Crockford Base32). *)
Definition crockford (a : ascii) : bool :=
  let c := byte_of a in
  let r lo hi := ((lo <=? c)%N && (c <=? hi)%N) in
  r 48%N 57%N || r 65%N 72%N || r 74%N 75%N || r 77%N 78%N || r 80%N 84%N || r 86%N 90%N.

Fixpoint string_forallb (f : ascii -> bool) (s : string) : bool :=
  match s with
  | EmptyString => true
  | String a s => f a && string_forallb f s
  end.

(** [regexp.MustCompile(`^[0-9A-HJKMNP-TV-Z]{26}$`).MatchString]. *)
Definition IsULID (s : string) : bool :=
  bool_decide (String.length s = 26) && string_forallb crockford s.

(** ** User *)

Module User.
Record t := mk {
  Sub : string;
  DisplayNameCached : string;
  DisplayIDCached : string;
  IconURLCached : string;
  ProfileRefreshedAt : Time;
  Bio : string;
  BannerURL : string;
  IsAdmin : bool;
  FollowersCount : Z;
  FollowingCount : Z;
  CreatedAt : Time;
  UpdatedAt : Time;
  DeletedAt : option Time;
}.

#[export] Instance eq_dec : EqDecision t.
Proof. solve_decision. Defined.

(** The zero value [User{}]. *)
Definition zero : t :=
  mk "" "" "" "" time_zero "" "" false 0 0 time_zero time_zero None.

(** Field assignments. *)
Definition set_FollowersCount (n : Z) (u : t) : t :=
  mk (Sub u) (DisplayNameCached u) (DisplayIDCached u) (IconURLCached u) (ProfileRefreshedAt u)
     (Bio u) (BannerURL u) (IsAdmin u) n (FollowingCount u) (CreatedAt u) (UpdatedAt u) (DeletedAt u).
Definition set_FollowingCount (n : Z) (u : t) : t :=
  mk (Sub u) (DisplayNameCached u) (DisplayIDCached u) (IconURLCached u) (ProfileRefreshedAt u)
     (Bio u) (BannerURL u) (IsAdmin u) (FollowersCount u) n (CreatedAt u) (UpdatedAt u) (DeletedAt u).
Definition set_DeletedAt (d : option Time) (u : t) : t :=
  mk (Sub u) (DisplayNameCached u) (DisplayIDCached u) (IconURLCached u) (ProfileRefreshedAt u)
     (Bio u) (BannerURL u) (IsAdmin u) (FollowersCount u) (FollowingCount u) (CreatedAt u) (UpdatedAt u) d.
Definition set_Bio (b : string) (u : t) : t :=
  mk (Sub u) (DisplayNameCached u) (DisplayIDCached u) (IconURLCached u) (ProfileRefreshedAt u)
     b (BannerURL u) (IsAdmin u) (FollowersCount u) (FollowingCount u) (CreatedAt u) (UpdatedAt u) (DeletedAt u).
Definition set_BannerURL (b : string) (u : t) : t :=
  mk (Sub u) (DisplayNameCached u) (DisplayIDCached u) (IconURLCached u) (ProfileRefreshedAt u)
     (Bio u) b (IsAdmin u) (FollowersCount u) (FollowingCount u) (CreatedAt u) (UpdatedAt u) (DeletedAt u).
Definition set_UpdatedAt (n : Time) (u : t) : t :=
  mk (Sub u) (DisplayNameCached u) (DisplayIDCached u) (IconURLCached u) (ProfileRefreshedAt u)
     (Bio u) (BannerURL u) (IsAdmin u) (FollowersCount u) (FollowingCount u) (CreatedAt u) n (DeletedAt u).

Definition Validate (u : t) : option goerror :=
  if (500 <? Z.of_nat (String.length (Bio u)))%Z
  then Some (InvalidUserError "bio must be 500 characters or fewer")
  else if (1024 <? Z.of_nat (String.length (BannerURL u)))%Z
  then Some (InvalidUserError "banner url must be 1024 characters or fewer")
  else None.
End User.

Module UpdateUserProfileRequest.
Record t := mk { Bio : option string; BannerURL : option string }.
End UpdateUserProfileRequest.

(** ** Follow *)

Module Follow.
Record t := mk { FollowerSub : string; FolloweeSub : string; CreatedAt : Time }.

#[export] Instance eq_dec : EqDecision t.
Proof. solve_decision. Defined.

Definition Validate (f : t) : option goerror :=
  if bool_decide (FollowerSub f = "") || bool_decide (FolloweeSub f = "")
  then Some (NewValidationError "follower_sub and followee_sub are required")
  else if bool_decide (FollowerSub f = FolloweeSub f)
  then Some (NewValidationError "cannot follow yourself")
  else None.
End Follow.

(** ** Post *)

Definition MaxContentLen : Z := 120.
Definition MaxImagesPerPost : Z := 4.

Definition content_error : goerror :=
  NewValidationError ("content must be 1.." +:+ pretty MaxContentLen +:+ " chars").

Module Post.
Record t := mk {
  ID : string;
  UserID : string;
  Content : string;
  ParentPostID : option string;
  RootPostID : option string;
  LikesCount : Z;
  RepliesCount : Z;
  Visibility : string;
  CreatedAt : Time;
  UpdatedAt : Time;
  DeletedAt : option Time;
}.

#[export] Instance eq_dec : EqDecision t.
Proof. solve_decision. Defined.

Definition set_LikesCount (n : Z) (p : t) : t :=
  mk (ID p) (UserID p) (Content p) (ParentPostID p) (RootPostID p) n (RepliesCount p)
     (Visibility p) (CreatedAt p) (UpdatedAt p) (DeletedAt p).
Definition set_RepliesCount (n : Z) (p : t) : t :=
  mk (ID p) (UserID p) (Content p) (ParentPostID p) (RootPostID p) (LikesCount p) n
     (Visibility p) (CreatedAt p) (UpdatedAt p) (DeletedAt p).
Definition set_DeletedAt (d : option Time) (p : t) : t :=
  mk (ID p) (UserID p) (Content p) (ParentPostID p) (RootPostID p) (LikesCount p) (RepliesCount p)
     (Visibility p) (CreatedAt p) (UpdatedAt p) d.
Definition set_times (now : Time) (p : t) : t :=
  mk (ID p) (UserID p) (Content p) (ParentPostID p) (RootPostID p) (LikesCount p) (RepliesCount p)
     (Visibility p) now now (DeletedAt p).

Definition Validate (p : t) : option goerror :=
  if bool_decide (Content p = "") || (MaxContentLen <? Z.of_nat (RuneCountInString (Content p)))%Z
  then Some content_error
  else if bool_decide (UserID p = "")
  then Some (NewValidationError "user_id is required")
  else match ParentPostID p with
       | Some pid =>
           if bool_decide (pid = "")
           then Some (NewValidationError "parent_post_id must be non-empty if present")
           else None
       | None => None
       end.
End Post.

Module CreatePostRequest.
Record t := mk {
  Content : string;
  ImageIDs : list string;
  ParentPostID : option string;
}.

(** The [for _, id := range r.ImageIDs] loop with its [seen] map. *)
Fixpoint check_image_ids (seen : gset string) (ids : list string) : option goerror :=
  match ids with
  | [] => None
  | id :: ids =>
      if negb (IsULID id) then Some (NewValidationError "image_ids must be ULIDs")
      else if bool_decide (id ∈ seen) then Some (NewValidationError "image_ids must be unique")
      else check_image_ids ({[id]} ∪ seen) ids
  end.

Definition check_parent (p : option string) : option goerror :=
  match p with
  | Some pid =>
      if bool_decide (pid = "")
      then Some (NewValidationError "parent_post_id must be non-empty if present")
      else if negb (IsULID pid) then Some (NewValidationError "parent_post_id must be a ULID")
      else None
  | None => None
  end.

Definition Validate (r : t) : option goerror :=
  if bool_decide (Content r = "") || (MaxContentLen <? Z.of_nat (RuneCountInString (Content r)))%Z
  then Some content_error
  else if (MaxImagesPerPost <? Z.of_nat (length (ImageIDs r)))%Z
  then Some (NewValidationError ("at most " +:+ pretty MaxImagesPerPost +:+ " images per post"))
  else match check_image_ids ∅ (ImageIDs r) with
       | Some e => Some e
       | None => check_parent (ParentPostID r)
       end.

Lemma check_image_ids_None seen ids :
  check_image_ids seen ids = None <->
  (forall id, id ∈ ids -> IsULID id = true /\ id ∉ seen) /\ NoDup ids.
Proof.
  revert seen. induction ids as [|id ids IH]; intros seen; simpl.
  { split; [|done]. intros _. split; [|constructor]. intros id Hid. by apply not_elem_of_nil in Hid. }
  rewrite NoDup_cons. destruct (IsULID id) eqn:Hu; simpl; last first.
  { split; [done|]. intros [H _]. destruct (H id) as [? _]; [left|congruence]. }
  case_bool_decide as Hs.
  { split; [done|]. intros [H _]. destruct (H id); [left|done]. }
  rewrite IH. split.
  - intros [H Hnd]. split; [|split; [|done]].
    + intros x [->|Hx]%elem_of_cons; [done|]. destruct (H x Hx). set_solver.
    + intros Hin. destruct (H id Hin). set_solver.
  - intros (H & Hni & Hnd). split; [|done]. intros x Hx.
    destruct (H x) as [? ?]; [by right|]. split; [done|]. set_solver.
Qed.
End CreatePostRequest.

(** ** Tag *)

Definition MaxTagsPerPost : Z := 10.
Definition MaxTagNameLen : Z := 64.

Module Tag.
Record t := mk { ID : string; Name : string; CreatedAt : Time }.

#[export] Instance eq_dec : EqDecision t.
Proof. solve_decision. Defined.
End Tag.

(** ** Image *)

Definition MaxImageBytes : Z := 5 * 1024 * 1024.

Module Image.
Record t := mk {
  ID : string;
  StorageKey : string;
  FileName : string;
  MimeType : string;
  FileSize : Z;
  PublicURL : string;
  UserID : string;
  CreatedAt : Time;
  UpdatedAt : Time;
  DeletedAt : option Time;
}.

#[export] Instance eq_dec : EqDecision t.
Proof. solve_decision. Defined.

Definition set_times (now : Time) (i : t) : t :=
  mk (ID i) (StorageKey i) (FileName i) (MimeType i) (FileSize i) (PublicURL i) (UserID i)
     now now (DeletedAt i).
Definition set_DeletedAt (d : option Time) (i : t) : t :=
  mk (ID i) (StorageKey i) (FileName i) (MimeType i) (FileSize i) (PublicURL i) (UserID i)
     (CreatedAt i) (UpdatedAt i) d.
End Image.

(** ** Badge and grants *)

Module Badge.
Record t := mk {
  ID : string;
  Key : string;
  Label : string;
  Description : string;
  IconURL : string;
  Color : string;
  Priority : Z;     (* int32 *)
  CreatedAt : Time;
  UpdatedAt : Time;
}.

#[export] Instance eq_dec : EqDecision t.
Proof. solve_decision. Defined.

Definition set_ID (id : string) (b : t) : t :=
  mk id (Key b) (Label b) (Description b) (IconURL b) (Color b) (Priority b) (CreatedAt b) (UpdatedAt b).
End Badge.

Module UserBadge.
Record t := mk {
  UserID : string;
  BadgeID : string;
  GrantedAt : Time;
  GrantedBy : string;
  ExpiresAt : option Time;
  Reason : string;
}.

#[export] Instance eq_dec : EqDecision t.
Proof. solve_decision. Defined.
End UserBadge.

Module GrantBadgeRequest.
Record t := mk { BadgeKey : string; ExpiresAt : option Time; Reason : string }.

Definition maxBadgeKeyLen : Z := 64.
Definition maxGrantReasonLen : Z := 255.

Definition Validate (r : t) : option goerror :=
  if bool_decide (BadgeKey r = "") || (maxBadgeKeyLen <? Z.of_nat (String.length (BadgeKey r)))%Z
  then Some (NewValidationError "badge_key must be 1..64 chars")
  else if (maxGrantReasonLen <? Z.of_nat (String.length (Reason r)))%Z
  then Some (NewValidationError "reason must be at most 255 chars")
  else None.
End GrantBadgeRequest.

(** ** Open Graph previews and jobs *)

Definition OGPStatusOK : string := "ok".
Definition OGPStatusError : string := "error".
Definition OGPStatusPending : string := "pending".
Definition OGPJobQueued : string := "queued".
Definition OGPJobRunning : string := "running".
Definition OGPJobDone : string := "done".
Definition OGPJobFailed : string := "failed".

Module OGPPreview.
Record t := mk {
  URLHash : string;
  URL : string;
  Title : string;
  Description : string;
  ImageURL : string;
  SiteName : string;
  CanonicalURL : string;
  FetchedAt : Time;
  ExpiresAt : Time;
  Status : string;
  ErrorReason : string;
}.

#[export] Instance eq_dec : EqDecision t.
Proof. solve_decision. Defined.

Definition IsExpired (now : Time) (p : t) : bool := negb (Before now (ExpiresAt p)).

(** [preview.Status = ok; preview.ExpiresAt = e] *)
Definition set_ok (e : Time) (p : t) : t :=
  mk (URLHash p) (URL p) (Title p) (Description p) (ImageURL p) (SiteName p) (CanonicalURL p)
     (FetchedAt p) e OGPStatusOK (ErrorReason p).
End OGPPreview.

Module OGPJob.
Record t := mk {
  ID : string;
  URLHash : string;
  URL : string;
  PostID : string;
  Position : Z;
  EnqueuedAt : Time;
  StartedAt : option Time;
  FinishedAt : option Time;
  Status : string;
  Attempts : Z;
  LastError : string;
}.

#[export] Instance eq_dec : EqDecision t.
Proof. solve_decision. Defined.
End OGPJob.
