(* ===== verification/MemUsers.v ===== *)
(** * [inmemory.UserRepository]: the users mirror

    The state is the [users] map. Each operation takes the clock reading and
    the map-iteration seed it uses as arguments; the mutex makes each call
    one atomic step. *)

From S2P Require Import Prelude Errors Monad Domain.

Module Users.
Abbreviation state := (gmap string User.t).

Definition GetBySub (sub : string) (users : state) : option User.t := users !! sub.

(** Server-owned fields survive an update; SNS-owned fields survive when
    the caller left them empty. *)
Definition merge (existing u : User.t) (now : Time) : User.t :=
  User.mk (User.Sub u) (User.DisplayNameCached u) (User.DisplayIDCached u)
    (User.IconURLCached u) (User.ProfileRefreshedAt u)
    (if bool_decide (User.Bio u = "") then User.Bio existing else User.Bio u)
    (if bool_decide (User.BannerURL u = "") then User.BannerURL existing else User.BannerURL u)
    (User.IsAdmin existing)
    (User.FollowersCount existing) (User.FollowingCount existing)
    (User.CreatedAt existing) now (User.DeletedAt existing).

Definition insert_new (u : User.t) (now : Time) : User.t :=
  User.mk (User.Sub u) (User.DisplayNameCached u) (User.DisplayIDCached u)
    (User.IconURLCached u) (User.ProfileRefreshedAt u)
    (User.Bio u) (User.BannerURL u) (User.IsAdmin u)
    (User.FollowersCount u) (User.FollowingCount u)
    (if IsZero (User.CreatedAt u) then now else User.CreatedAt u) now (User.DeletedAt u).

Definition Upsert (now : Time) (user : User.t) (users : state) : state * User.t :=
  let stored :=
    match users !! User.Sub user with
    | Some existing => merge existing user now
    | None => insert_new user now
    end in
  (<[User.Sub user := stored]> users, stored).

Definition UpdateProfile (now : Time) (sub : string) (req : UpdateUserProfileRequest.t)
    (users : state) : state * option User.t :=
  match users !! sub with
  | None => (users, None)
  | Some u =>
      let u := match UpdateUserProfileRequest.Bio req with
               | Some b => User.set_Bio b u | None => u end in
      let u := match UpdateUserProfileRequest.BannerURL req with
               | Some b => User.set_BannerURL b u | None => u end in
      let u := User.set_UpdatedAt now u in
      (<[sub := u]> users, Some u)
  end.

(** [users[offset:end]] panics unless [0 <= offset <= end]. *)
Definition List `{GoRuntime} (seed : nat) (limit offset : Z) (users : state)
    : res (list User.t * Z) :=
  let live := filter (fun u => User.DeletedAt u = None) (range_map seed users).*2 in
  let total := Z.of_nat (length live) in
  let offset := if (total <? offset)%Z then total else offset in
  let end_ := wrap64 (offset + limit) in
  let end_ := if (total <? end_)%Z then total else end_ in
  if ((0 <=? offset) && (offset <=? end_))%Z
  then Ok (drop (Z.to_nat offset) (take (Z.to_nat end_) live), total)
  else Panic "slice bounds out of range".

Definition live_user (users : state) (sub : string) : option User.t :=
  match users !! sub with
  | Some u => if bool_decide (User.DeletedAt u = None) then Some u else None
  | None => None
  end.

Definition ListBySubs (subs : list string) (users : state) : gmap string User.t :=
  collect_map (live_user users) subs.

Definition IncrementFollowersCount (sub : string) (users : state) : state :=
  match users !! sub with
  | Some u => <[sub := User.set_FollowersCount (wrap64 (User.FollowersCount u + 1)) u]> users
  | None => users
  end.

Definition DecrementFollowersCount (sub : string) (users : state) : state :=
  match users !! sub with
  | Some u => if (0 <? User.FollowersCount u)%Z
              then <[sub := User.set_FollowersCount (User.FollowersCount u - 1) u]> users
              else users
  | None => users
  end.

Definition IncrementFollowingCount (sub : string) (users : state) : state :=
  match users !! sub with
  | Some u => <[sub := User.set_FollowingCount (wrap64 (User.FollowingCount u + 1)) u]> users
  | None => users
  end.

Definition DecrementFollowingCount (sub : string) (users : state) : state :=
  match users !! sub with
  | Some u => if (0 <? User.FollowingCount u)%Z
              then <[sub := User.set_FollowingCount (User.FollowingCount u - 1) u]> users
              else users
  | None => users
  end.

Definition Delete (now : Time) (sub : string) (users : state) : state :=
  match users !! sub with
  | Some u => <[sub := User.set_DeletedAt (Some now) u]> users
  | None => users
  end.

(** ** Lemmas *)

(** The rows that are not soft-deleted. *)
Definition live_users (users : state) : list User.t :=
  filter (fun u => User.DeletedAt u = None) (map_to_list users).*2.

(** The page arguments the use case can produce never panic, and cut one
    page out of some order of the live rows. *)
Lemma List_page `{GoRuntime} seed limit offset users :
  (0 <= offset)%Z -> (0 <= limit <= 100)%Z ->
  (Z.of_nat (size users) <= int64_max - 100)%Z ->
  exists l, l ≡ₚ live_users users /\
    List seed limit offset users =
      Ok (take (Z.to_nat limit) (drop (Z.to_nat offset) l), Z.of_nat (length l)).
Proof.
  intros Ho Hl Hsz. exists (filter (fun u => User.DeletedAt u = None) (range_map seed users).*2).
  assert (Hp : filter (fun u => User.DeletedAt u = None) (range_map seed users).*2 ≡ₚ live_users users).
  { unfold live_users, range_map. by rewrite go_range_perm. }
  split; [done|]. unfold List. set (live := filter _ _) in *.
  assert (Hlive : length live <= size users).
  { rewrite Hp. unfold live_users. etrans; [apply length_filter|]. by rewrite length_fmap, length_map_to_list. }
  unfold int64_max in *.
  set (o := if (_ <? offset)%Z then _ else _).
  assert (o = Z.min (Z.of_nat (length live)) offset) as -> by (subst o; case_match; lia).
  rewrite wrap64_small by (unfold int64_min, int64_max; lia).
  set (e := if (_ <? _)%Z then _ else _).
  assert (e = Z.min (Z.of_nat (length live)) (Z.min (Z.of_nat (length live)) offset + limit)) as ->
    by (subst e; case_match; lia).
  rewrite (proj2 (andb_true_iff _ _)) by lia. f_equal. f_equal. rewrite take_drop_commute.
  destruct (Z.le_gt_cases offset (Z.of_nat (length live))) as [Hle|Hgt].
  - replace (Z.to_nat (Z.min (Z.of_nat (length live)) offset)) with (Z.to_nat offset) by lia. f_equal.
    destruct (Z.le_gt_cases (offset + limit) (Z.of_nat (length live))); [f_equal; lia|].
    rewrite !take_ge by lia. done.
  - rewrite !drop_ge; rewrite ?length_take; try lia; done.
Qed.

(** *** Follow counters *)

Section counters.
Context (users : state) (sub : string).

Lemma inc_followers_lookup x :
  IncrementFollowersCount sub users !! x =
  (if bool_decide (x = sub)
   then (fun u => User.set_FollowersCount (wrap64 (User.FollowersCount u + 1)) u) <$> users !! x
   else users !! x).
Proof.
  unfold IncrementFollowersCount. case_bool_decide as Hx; subst.
  - destruct (users !! sub) eqn:E; simpl; [apply lookup_insert_eq|done].
  - destruct (users !! sub); [by rewrite lookup_insert_ne|done].
Qed.

Lemma inc_following_lookup x :
  IncrementFollowingCount sub users !! x =
  (if bool_decide (x = sub)
   then (fun u => User.set_FollowingCount (wrap64 (User.FollowingCount u + 1)) u) <$> users !! x
   else users !! x).
Proof.
  unfold IncrementFollowingCount. case_bool_decide as Hx; subst.
  - destruct (users !! sub) eqn:E; simpl; [apply lookup_insert_eq|done].
  - destruct (users !! sub); [by rewrite lookup_insert_ne|done].
Qed.

Lemma dec_followers_lookup x :
  DecrementFollowersCount sub users !! x =
  (if bool_decide (x = sub)
   then (fun u => if (0 <? User.FollowersCount u)%Z
                  then User.set_FollowersCount (User.FollowersCount u - 1) u else u) <$> users !! x
   else users !! x).
Proof.
  unfold DecrementFollowersCount. case_bool_decide as Hx; subst.
  - destruct (users !! sub) eqn:E; simpl; [|done].
    case_match; [apply lookup_insert_eq|done].
  - destruct (users !! sub); [|done]. case_match; [by rewrite lookup_insert_ne|done].
Qed.

Lemma dec_following_lookup x :
  DecrementFollowingCount sub users !! x =
  (if bool_decide (x = sub)
   then (fun u => if (0 <? User.FollowingCount u)%Z
                  then User.set_FollowingCount (User.FollowingCount u - 1) u else u) <$> users !! x
   else users !! x).
Proof.
  unfold DecrementFollowingCount. case_bool_decide as Hx; subst.
  - destruct (users !! sub) eqn:E; simpl; [|done].
    case_match; [apply lookup_insert_eq|done].
  - destruct (users !! sub); [|done]. case_match; [by rewrite lookup_insert_ne|done].
Qed.
End counters.
End Users.
