(* ===== verification/MemPosts.v ===== *)
(** * [inmemory.LinkStore] and [inmemory.PostRepository] *)

From S2P Require Import Prelude Errors Monad Domain.

(** ** The shared link store: post_images, post_tags and post_ogp *)

Module Links.
Record postOGPLink := mkLink { URLHash : string; Position : Z }.

#[export] Instance postOGPLink_eq_dec : EqDecision postOGPLink.
Proof. solve_decision. Defined.

Record t := mk {
  postImages : gmap string (list string);
  postTags : gmap string (gset string);
  postOGPs : gmap string (list postOGPLink);
}.

Definition NewLinkStore : t := mk ∅ ∅ ∅.

Definition by_position : relation postOGPLink := fun a b => (Position a <= Position b)%Z.
#[export] Instance by_position_dec : RelDecision by_position.
Proof. intros a b. unfold by_position. apply _. Defined.

Definition ogps (postID : string) (s : t) : list postOGPLink :=
  default [] (postOGPs s !! postID).

(** The scan over the existing links returns early when the hash or the
    position is taken. *)
Definition attachOGP (postID urlHash : string) (position : Z) (s : t) : t :=
  let links := ogps postID s in
  if existsb (fun l => bool_decide (URLHash l = urlHash) || bool_decide (Position l = position)) links
  then s
  else mk (postImages s) (postTags s)
         (<[postID := merge_sort by_position (links ++ [mkLink urlHash position])]> (postOGPs s)).

Definition ogpLinksByPost (postID : string) (s : t) : list postOGPLink := ogps postID s.

Definition attachImages (postID : string) (imageIDs : list string) (s : t) : t :=
  mk (<[postID := imageIDs]> (postImages s)) (postTags s) (postOGPs s).

Definition attachTags (postID : string) (tagIDs : list string) (s : t) : t :=
  if bool_decide (tagIDs = []) then s
  else
    let set := default ∅ (postTags s !! postID) in
    mk (postImages s) (<[postID := set ∪ set_of tagIDs]> (postTags s)) (postOGPs s).

Definition imageIDsByPost (postID : string) (s : t) : list string :=
  default [] (postImages s !! postID).

Definition tagIDsByPost `{GoRuntime} (seed : nat) (postID : string) (s : t) : list string :=
  go_range seed (elements (default ∅ (postTags s !! postID))).

(** The link lists that [attachOGP] builds: sorted by position, with
    neither a hash nor a position twice. *)
Definition links_wf (l : list postOGPLink) : Prop :=
  StronglySorted (fun a b => (Position a < Position b)%Z) l /\ NoDup (URLHash <$> l).

Definition wf (s : t) : Prop := forall pid, links_wf (ogps pid s).

#[export] Instance by_position_trans : Transitive by_position.
Proof. intros a b c H1 H2. unfold by_position in *. lia. Qed.
#[export] Instance by_position_total : Total by_position.
Proof. intros a b. unfold by_position. lia. Qed.

Lemma sorted_lt_of_le l :
  StronglySorted by_position l -> NoDup (Position <$> l) ->
  StronglySorted (fun a b => (Position a < Position b)%Z) l.
Proof.
  induction 1 as [|x l Hs IH Hall]; [constructor|].
  rewrite fmap_cons, NoDup_cons. intros [Hni Hnd]. constructor; [auto|].
  rewrite Forall_forall in Hall |- *. intros y Hy.
  specialize (Hall y Hy). unfold by_position in Hall.
  assert (Position x <> Position y); [|lia].
  intros E. apply Hni. rewrite E. by apply list_elem_of_fmap_2.
Qed.

Lemma sorted_lt_NoDup l :
  StronglySorted (fun a b => (Position a < Position b)%Z) l -> NoDup (Position <$> l).
Proof.
  induction 1 as [|x l Hs IH Hall]; [constructor|].
  rewrite fmap_cons, NoDup_cons. split; [|done].
  intros (y & E & Hy)%list_elem_of_fmap. rewrite Forall_forall in Hall.
  specialize (Hall y Hy). simpl in Hall. lia.
Qed.

Lemma attachOGP_existsb_false urlHash position l :
  existsb (fun l => bool_decide (URLHash l = urlHash) || bool_decide (Position l = position)) l = false <->
  (urlHash ∉ (URLHash <$> l)) /\ (position ∉ (Position <$> l)).
Proof.
  induction l as [|x l IH]; simpl; [split; [set_solver|done]|].
  rewrite !orb_false_iff, IH, !bool_decide_eq_false, !not_elem_of_cons.
  naive_solver.
Qed.

Lemma attachOGP_ogps pid h pos s q :
  ogps q (attachOGP pid h pos s) =
  (if bool_decide (q = pid /\ (h ∉ (URLHash <$> ogps pid s)) /\ (pos ∉ (Position <$> ogps pid s)))
   then merge_sort by_position (ogps pid s ++ [mkLink h pos])
   else ogps q s).
Proof.
  unfold attachOGP. destruct (existsb _ _) eqn:E.
  - rewrite bool_decide_eq_false_2; [done|]. intros (_ & Hn).
    apply attachOGP_existsb_false in Hn. congruence.
  - apply attachOGP_existsb_false in E. unfold ogps at 1. simpl.
    destruct (decide (q = pid)) as [->|Hne].
    + rewrite lookup_insert_eq, bool_decide_eq_true_2 by done. done.
    + rewrite lookup_insert_ne by done. by rewrite bool_decide_eq_false_2 by tauto.
Qed.

Lemma attachOGP_wf pid h pos s : wf s -> wf (attachOGP pid h pos s).
Proof.
  intros Hwf q. rewrite attachOGP_ogps. case_bool_decide as Hq; [|apply Hwf].
  destruct Hq as (-> & Hh & Hp). destruct (Hwf pid) as [Hs Hnd].
  pose proof (merge_sort_Permutation by_position (ogps pid s ++ [mkLink h pos])) as Hperm.
  split.
  - apply sorted_lt_of_le.
    + apply StronglySorted_merge_sort; apply _.
    + rewrite Hperm, fmap_app. apply NoDup_app. split; [by apply sorted_lt_NoDup|].
      split; [set_solver|]. apply NoDup_singleton.
  - rewrite Hperm, fmap_app. apply NoDup_app. split; [done|].
    split; [set_solver|]. apply NoDup_singleton.
Qed.
End Links.

(** ** Posts *)

Module Posts.
Abbreviation state := (gmap string Post.t).

Definition live (p : Post.t) : bool := bool_decide (Post.DeletedAt p = None).

Definition GetByID (id : string) (posts : state) : option Post.t :=
  match posts !! id with
  | Some p => if live p then Some p else None
  | None => None
  end.

(** Link rows are written before the post row is published. *)
Definition Create (now : Time) (post : Post.t) (imageIDs tagIDs : list string)
    (st : Links.t * state) : (Links.t * state) * Post.t :=
  let links := st.1 in
  let links := if bool_decide (imageIDs = []) then links
               else Links.attachImages (Post.ID post) imageIDs links in
  let links := if bool_decide (tagIDs = []) then links
               else Links.attachTags (Post.ID post) tagIDs links in
  let post := Post.set_times now post in
  ((links, <[Post.ID post := post]> st.2), post).

Definition Delete (now : Time) (id : string) (posts : state) : state :=
  match posts !! id with
  | Some p => <[id := Post.set_DeletedAt (Some now) p]> posts
  | None => posts
  end.

Definition below (cursor : option string) (p : Post.t) : bool :=
  match cursor with
  | Some c => str_lt (Post.ID p) c
  | None => true
  end.

(** [p.ID >= *cursor] skips the row; the sort is by [ID] descending. *)
Definition collectDescending `{GoRuntime} (seed : nat) (flt : Post.t -> bool)
    (cursor : option string) (posts : state) : list Post.t :=
  sort_desc Post.ID
    (filter (fun p => flt p = true /\ below cursor p = true) (range_map seed posts).*2).

Definition paginate (posts : list Post.t) (limit : Z) : res (list Post.t * string) :=
  if (limit <=? 0)%Z then Ok ([], "")
  else if (Z.of_nat (length posts) <=? limit)%Z then Ok (posts, "")
  else
    let page := slice_to limit posts in
    match page !! Z.to_nat (limit - 1) with
    | Some last => Ok (page, Post.ID last)
    | None => Panic "index out of range"
    end.

Definition feed_filter (userID : option string) (p : Post.t) : bool :=
  live p &&
  match userID with Some u => bool_decide (Post.UserID p = u) | None => true end &&
  bool_decide (Post.ParentPostID p = None).

Definition List `{GoRuntime} (seed : nat) (userID cursor : option string) (limit : Z)
    (posts : state) : res (list Post.t * string) :=
  paginate (collectDescending seed (feed_filter userID) cursor posts) limit.

Definition authors_filter (userIDs : list string) (p : Post.t) : bool :=
  let wanted := set_of userIDs in
  live p && bool_decide (Post.UserID p ∈ wanted) && bool_decide (Post.ParentPostID p = None).

Definition ListByUserIDs `{GoRuntime} (seed : nat) (userIDs : list string)
    (cursor : option string) (limit : Z) (posts : state) : res (list Post.t * string) :=
  paginate (collectDescending seed (authors_filter userIDs) cursor posts) limit.

Definition replies_filter (postID : string) (p : Post.t) : bool :=
  live p && bool_decide (Post.ParentPostID p = Some postID).

Definition ListReplies `{GoRuntime} (seed : nat) (postID : string) (cursor : option string)
    (limit : Z) (posts : state) : res (list Post.t * string) :=
  paginate (collectDescending seed (replies_filter postID) cursor posts) limit.

(** The counter updates touch live rows only; decrements stop at 0. *)
Definition update_live (id : string) (f : Post.t -> Post.t) (posts : state) : state :=
  match posts !! id with
  | Some p => if live p then <[id := f p]> posts else posts
  | None => posts
  end.

Definition inc_replies (p : Post.t) : Post.t :=
  Post.set_RepliesCount (wrap64 (Post.RepliesCount p + 1)) p.
Definition dec_replies (p : Post.t) : Post.t :=
  if (0 <? Post.RepliesCount p)%Z then Post.set_RepliesCount (Post.RepliesCount p - 1) p else p.
Definition inc_likes (p : Post.t) : Post.t :=
  Post.set_LikesCount (wrap64 (Post.LikesCount p + 1)) p.
Definition dec_likes (p : Post.t) : Post.t :=
  if (0 <? Post.LikesCount p)%Z then Post.set_LikesCount (Post.LikesCount p - 1) p else p.

Definition IncrementRepliesCount (id : string) (posts : state) : state :=
  update_live id inc_replies posts.
Definition DecrementRepliesCount (id : string) (posts : state) : state :=
  update_live id dec_replies posts.
Definition IncrementLikesCount (id : string) (posts : state) : state :=
  update_live id inc_likes posts.
Definition DecrementLikesCount (id : string) (posts : state) : state :=
  update_live id dec_likes posts.

Definition AttachOGP (postID urlHash : string) (position : Z) (links : Links.t) : Links.t :=
  Links.attachOGP postID urlHash position links.
End Posts.
