(* ===== verification/MemLikes.v ===== *)
(** * [inmemory.LikeRepository] and [inmemory.ImageRepository] *)

From S2P Require Import Prelude Errors Monad Domain MemPosts.

(** ** Likes: user -> post -> created_at *)

Module Likes.
Abbreviation state := (gmap string (gmap string Time)).

Definition Create (now : Time) (userID postID : string) (likes : state) : state * bool :=
  let byUser := default ∅ (likes !! userID) in
  let likes := <[userID := byUser]> likes in
  match byUser !! postID with
  | Some _ => (likes, false)
  | None => (<[userID := <[postID := now]> byUser]> likes, true)
  end.

Definition Delete (userID postID : string) (likes : state) : state * bool :=
  match likes !! userID with
  | None => (likes, false)
  | Some byUser =>
      match byUser !! postID with
      | None => (likes, false)
      | Some _ => (<[userID := delete postID byUser]> likes, true)
      end
  end.

Definition IsLikedBy (userID postID : string) (likes : state) : bool :=
  match likes !! userID with
  | None => false
  | Some byUser => bool_decide (is_Some (byUser !! postID))
  end.

Definition ListLikedPostIDsByUser (userID : string) (postIDs : list string) (likes : state)
    : gmap string bool :=
  match likes !! userID with
  | None => ∅
  | Some byUser =>
      collect_map (fun pid => if bool_decide (is_Some (byUser !! pid)) then Some true else None) postIDs
  end.

(** ** The relation the table stands for *)

Definition liked (likes : state) (u p : string) : Prop := IsLikedBy u p likes = true.

#[export] Instance liked_dec likes u p : Decision (liked likes u p).
Proof. unfold liked. apply _. Defined.

(** The users who like post [p]. *)
Definition likers (likes : state) (p : string) : gset string :=
  filter (fun u => liked likes u p) (dom likes).

Lemma elem_of_likers likes u p : u ∈ likers likes p <-> liked likes u p.
Proof.
  unfold likers. rewrite elem_of_filter, elem_of_dom. split; [naive_solver|].
  intros Hl. split; [done|]. unfold liked, IsLikedBy in Hl. by destruct (likes !! u).
Qed.

Lemma liked_lookup likes u p :
  liked likes u p <-> exists m, likes !! u = Some m /\ is_Some (m !! p).
Proof.
  unfold liked, IsLikedBy. destruct (likes !! u) as [m|]; [|naive_solver].
  rewrite bool_decide_eq_true. naive_solver.
Qed.

Lemma Create_spec now u p likes :
  (Create now u p likes).2 = negb (IsLikedBy u p likes) /\
  forall u' p', liked (Create now u p likes).1 u' p' <-> (u' = u /\ p' = p) \/ liked likes u' p'.
Proof.
  assert (Hd : IsLikedBy u p likes = bool_decide (is_Some (default ∅ (likes !! u) !! p))).
  { unfold IsLikedBy. destruct (likes !! u); simpl; [done|].
    symmetry. apply bool_decide_eq_false. rewrite lookup_empty. by intros []. }
  assert (Hrow : forall q, liked likes u q <-> is_Some (default ∅ (likes !! u) !! q)).
  { intros q. rewrite liked_lookup. destruct (likes !! u); simpl; [naive_solver|].
    rewrite lookup_empty. split; [naive_solver|]. by intros []. }
  assert (Hother : forall m u' q, u' <> u ->
    liked (<[u := m]> likes) u' q <-> liked likes u' q).
  { intros m u' q Hne. rewrite !liked_lookup. by rewrite lookup_insert_ne. }
  assert (Hsame : forall m (l : state) q, liked (<[u := m]> l) u q <-> is_Some (m !! q)).
  { intros m l q. rewrite liked_lookup, lookup_insert_eq. naive_solver. }
  unfold Create. rewrite Hd.
  destruct (default ∅ (likes !! u) !! p) as [t|] eqn:Ep; simpl.
  - split; [done|]. intros u' p'. destruct (decide (u' = u)) as [->|Hne].
    + rewrite Hsame, Hrow. split; [by right|]. intros [[_ ->]|?]; [by rewrite Ep|done].
    + rewrite Hother by done. naive_solver.
  - split; [done|]. intros u' p'. rewrite insert_insert_eq.
    destruct (decide (u' = u)) as [->|Hne].
    + rewrite Hsame, Hrow. destruct (decide (p' = p)) as [->|Hp].
      * rewrite lookup_insert_eq. naive_solver.
      * rewrite lookup_insert_ne by done. naive_solver.
    + rewrite Hother by done. naive_solver.
Qed.

Lemma Delete_spec u p likes :
  (Delete u p likes).2 = IsLikedBy u p likes /\
  forall u' p', liked (Delete u p likes).1 u' p' <-> liked likes u' p' /\ ~ (u' = u /\ p' = p).
Proof.
  unfold Delete, IsLikedBy. destruct (likes !! u) as [m|] eqn:Eu; simpl; last first.
  { split; [done|]. intros u' p'. split; [|tauto]. intros Hl. split; [done|].
    intros [-> ->]. apply liked_lookup in Hl. naive_solver. }
  destruct (m !! p) as [t|] eqn:Ep; simpl.
  - split; [done|]. intros u' p'. rewrite !liked_lookup.
    destruct (decide (u' = u)) as [->|Hne].
    + rewrite lookup_insert_eq, Eu. destruct (decide (p' = p)) as [->|Hp].
      * split; [|naive_solver]. intros (m' & [= <-] & Hs). rewrite lookup_delete_eq in Hs. by destruct Hs.
      * split.
        -- intros (m' & [= <-] & Hs). rewrite lookup_delete_ne in Hs by done. naive_solver.
        -- intros [(m' & [= <-] & Hs) _]. eexists. split; [done|]. by rewrite lookup_delete_ne.
    + rewrite lookup_insert_ne by done. naive_solver.
  - split; [done|]. intros u' p'. split; [|tauto]. intros Hl. split; [done|].
    intros [-> ->]. apply liked_lookup in Hl as (m' & Hm & Hs). rewrite Eu in Hm.
    simplify_eq. rewrite Ep in Hs. by destruct Hs.
Qed.

Lemma Create_likers now u p likes q :
  likers (Create now u p likes).1 q =
  (if bool_decide (q = p) then {[u]} ∪ likers likes q else likers likes q).
Proof.
  apply set_eq. intros v. rewrite elem_of_likers, (proj2 (Create_spec now u p likes)).
  case_bool_decide as Hq; [rewrite elem_of_union, elem_of_singleton|]; rewrite elem_of_likers;
    naive_solver.
Qed.

Lemma Delete_likers u p likes q :
  likers (Delete u p likes).1 q =
  (if bool_decide (q = p) then likers likes q ∖ {[u]} else likers likes q).
Proof.
  apply set_eq. intros v. rewrite elem_of_likers, (proj2 (Delete_spec u p likes)).
  case_bool_decide as Hq; [rewrite elem_of_difference, elem_of_singleton|]; rewrite elem_of_likers;
    naive_solver.
Qed.

Lemma ListLiked_lookup u pids likes p :
  ListLikedPostIDsByUser u pids likes !! p =
  (if bool_decide (p ∈ pids /\ liked likes u p) then Some true else None).
Proof.
  pose proof (liked_lookup likes u p) as Hl. unfold ListLikedPostIDsByUser.
  destruct (likes !! u) as [m|]; [rewrite collect_map_lookup|rewrite lookup_empty];
    repeat case_bool_decide; naive_solver.
Qed.
End Likes.

(** ** Images *)

Module Images.
Abbreviation state := (gmap string Image.t).

Definition live (i : Image.t) : bool := bool_decide (Image.DeletedAt i = None).

Definition GetByID (id : string) (images : state) : option Image.t :=
  match images !! id with
  | Some i => if live i then Some i else None
  | None => None
  end.

Definition GetByUserID `{GoRuntime} (seed : nat) (userID : string) (images : state)
    : list Image.t :=
  filter (fun i => Image.UserID i = userID /\ Image.DeletedAt i = None)
    (range_map seed images).*2.

Definition Create (now : Time) (image : Image.t) (images : state) : state * Image.t :=
  let image := Image.set_times now image in
  (<[Image.ID image := image]> images, image).

Definition Delete (now : Time) (id : string) (images : state) : state :=
  match images !! id with
  | Some i => <[id := Image.set_DeletedAt (Some now) i]> images
  | None => images
  end.

Definition attached (links : Links.t) (images : state) (postID : string) : list Image.t :=
  omap (fun id => GetByID id images) (Links.imageIDsByPost postID links).

Definition ListByPostID (links : Links.t) (postID : string) (images : state) : list Image.t :=
  attached links images postID.

Definition ListByPostIDs (links : Links.t) (postIDs : list string) (images : state)
    : gmap string (list Image.t) :=
  collect_map (fun pid =>
    if bool_decide (Links.imageIDsByPost pid links = []) then None
    else
      let imgs := attached links images pid in
      if bool_decide (imgs = []) then None else Some imgs) postIDs.
End Images.
