(* ===== verification/MemTags.v ===== *)
(** * [inmemory.TagRepository]: the tag master and its unique-name index *)

From S2P Require Import Prelude Errors Monad Domain MemPosts.

Module Tags.
Record state := mk {
  tags : gmap string Tag.t;      (* id -> tag *)
  byName : gmap string string;   (* name -> id *)
}.

Definition empty : state := mk ∅ ∅.

Section ops.
Context `{GoRuntime}.

(** One turn of the loop for a name not seen before: the stored tag, or a
    new one under the [n]-th identifier. Dereferencing [r.tags[id]] when
    the row is missing panics. *)
Definition upsert_one (now : Time) (n : nat) (name : string) (st : state)
    : nat * state * res Tag.t :=
  match byName st !! name with
  | Some id =>
      match tags st !! id with
      | Some tag => (n, st, Ok tag)
      | None => (n, st, Panic "nil pointer dereference")
      end
  | None =>
      let tag := Tag.mk (ulid_Make n) name now in
      (S n, mk (<[Tag.ID tag := tag]> (tags st)) (<[name := Tag.ID tag]> (byName st)), Ok tag)
  end.

Fixpoint upsert_loop (now : Time) (seen : gset string) (names : list string)
    (n : nat) (st : state) : nat * state * res (list Tag.t) :=
  match names with
  | [] => (n, st, Ok [])
  | name :: names =>
      if bool_decide (name = "") then upsert_loop now seen names n st
      else if bool_decide (name ∈ seen) then upsert_loop now seen names n st
      else
        match upsert_one now n name st with
        | (n, st, Ok tag) =>
            match upsert_loop now ({[name]} ∪ seen) names n st with
            | (n, st, Ok out) => (n, st, Ok (tag :: out))
            | r => r
            end
        | (n, st, Err e) => (n, st, Err e)
        | (n, st, Panic p) => (n, st, Panic p)
        end
  end.

Definition UpsertByNames (now : Time) (n : nat) (names : list string) (st : state)
    : nat * state * res (list Tag.t) :=
  upsert_loop now ∅ names n st.

Definition attached (seed : nat) (links : Links.t) (st : state) (postID : string) : list Tag.t :=
  sort_asc Tag.Name (omap (fun id => tags st !! id) (Links.tagIDsByPost seed postID links)).

Definition ListByPostID (seed : nat) (links : Links.t) (postID : string) (st : state)
    : list Tag.t :=
  attached seed links st postID.

Definition ListByPostIDs (seed : nat) (links : Links.t) (postIDs : list string) (st : state)
    : gmap string (list Tag.t) :=
  collect_map (fun pid =>
    if bool_decide (Links.tagIDsByPost seed pid links = []) then None
    else
      let ts := attached seed links st pid in
      if bool_decide (ts = []) then None else Some ts) postIDs.

(** ** The unique-name invariant *)

Definition wf (st : state) : Prop :=
  (forall name id, byName st !! name = Some id ->
     exists t, tags st !! id = Some t /\ Tag.Name t = name) /\
  (forall id t, tags st !! id = Some t ->
     Tag.ID t = id /\ byName st !! Tag.Name t = Some id /\ Tag.Name t <> "").

(** Identifiers that have not been minted yet are not in use. *)
Definition fresh_from (n : nat) (st : state) : Prop :=
  forall k, n <= k -> tags st !! ulid_Make k = None.

(** The names the loop keeps: non-empty, first occurrence only. *)
Fixpoint wanted_names (seen : gset string) (names : list string) : list string :=
  match names with
  | [] => []
  | name :: names =>
      if bool_decide (name = "") then wanted_names seen names
      else if bool_decide (name ∈ seen) then wanted_names seen names
      else name :: wanted_names ({[name]} ∪ seen) names
  end.

Context `{!UniqueULIDs}.

Lemma upsert_one_spec now n name st :
  wf st -> fresh_from n st -> name <> "" ->
  exists n' st' tag, upsert_one now n name st = (n', st', Ok tag) /\
    wf st' /\ fresh_from n' st' /\ n <= n' /\ tags st ⊆ tags st' /\
    Tag.Name tag = name /\ tags st' !! Tag.ID tag = Some tag /\
    (byName st !! name = None -> Tag.CreatedAt tag = now /\ n' = S n) /\
    (is_Some (byName st !! name) -> st' = st /\ n' = n).
Proof using All.
  intros [Hn Ht] Hfresh Hne. unfold upsert_one.
  destruct (byName st !! name) as [id|] eqn:E.
  - destruct (Hn _ _ E) as (t & Htag & Hname). rewrite Htag.
    exists n, st, t. destruct (Ht _ _ Htag) as (Hid & _).
    do 6 (split; [done|]).
    rewrite Hid. split; [done|]. split; done.
  - set (tag := Tag.mk (ulid_Make n) name now).
    assert (Hnone : tags st !! ulid_Make n = None) by (apply Hfresh; lia).
    assert (HID : Tag.ID tag = ulid_Make n) by done. assert (Hnm : Tag.Name tag = name) by done.
    assert (Hnow : Tag.CreatedAt tag = now) by done. clearbody tag.
    eexists _, _, tag. split; [done|]. rewrite HID. cbn [tags byName]. split; [split; cbn [tags byName]|].
    + intros nm id. destruct (decide (nm = name)) as [->|Hnm'].
      * rewrite lookup_insert_eq. intros [= <-]. exists tag. split; [apply lookup_insert_eq|done].
      * rewrite lookup_insert_ne by done. intros Hid. destruct (Hn _ _ Hid) as (t & Htt & <-).
        exists t. split; [|done]. rewrite lookup_insert_ne; [done|]. congruence.
    + intros id t. destruct (decide (id = ulid_Make n)) as [->|Hid'].
      * rewrite lookup_insert_eq. intros [= <-]. rewrite Hnm, (lookup_insert_eq (byName st)). done.
      * rewrite lookup_insert_ne by done. intros Htt. destruct (Ht _ _ Htt) as (? & Hb & ?).
        split; [done|]. split; [|done]. rewrite lookup_insert_ne; [done|]. congruence.
    + split; [|split; [lia|split; [by apply insert_subseteq|]]].
      * intros k Hk. cbn [tags]. rewrite lookup_insert_ne; [apply Hfresh; lia|].
        intros Hu%ulid_inj. lia.
      * split; [done|]. rewrite (lookup_insert_eq (tags st)). split; [done|]. split; [done|]. by intros [].
Qed.

Lemma upsert_loop_spec now names : forall seen n st,
  wf st -> fresh_from n st ->
  exists n' st' out, upsert_loop now seen names n st = (n', st', Ok out) /\
    wf st' /\ fresh_from n' st' /\ n <= n' /\ tags st ⊆ tags st' /\
    Tag.Name <$> out = wanted_names seen names /\
    (forall t, t ∈ out -> tags st' !! Tag.ID t = Some t).
Proof using All.
  induction names as [|name names IH]; intros seen n st Hwf Hfr; cbn [upsert_loop wanted_names].
  { exists n, st, []. do 6 (split; [done|]). by intros t ?%not_elem_of_nil. }
  case_bool_decide as He; [by apply IH|]. case_bool_decide as Hs; [by apply IH|].
  destruct (upsert_one_spec now n name st Hwf Hfr He)
    as (n1 & st1 & tag & -> & Hwf1 & Hfr1 & Hn1 & Hsub1 & Hname & Htag & _).
  destruct (IH ({[name]} ∪ seen) n1 st1 Hwf1 Hfr1)
    as (n2 & st2 & out & -> & Hwf2 & Hfr2 & Hn2 & Hsub2 & Hnames & Hout).
  exists n2, st2, (tag :: out). split; [done|]. split; [done|]. split; [done|].
  split; [lia|]. split; [by etrans|]. split; [rewrite fmap_cons; by f_equal|].
  intros t [->|?]%elem_of_cons; [by eapply lookup_weaken|auto].
Qed.

Lemma wanted_names_spec seen names :
  NoDup (wanted_names seen names) /\
  (forall x, x ∈ wanted_names seen names <-> x ∈ names /\ x <> "" /\ x ∉ seen).
Proof.
  revert seen. induction names as [|x names IH]; intros seen; cbn [wanted_names].
  { split; [constructor|]. intros x. rewrite !elem_of_nil. tauto. }
  destruct (IH seen) as [Hnd Hel]. case_bool_decide as He.
  { split; [done|]. intros y. rewrite Hel, elem_of_cons. naive_solver. }
  case_bool_decide as Hs.
  { split; [done|]. intros y. rewrite Hel, elem_of_cons. naive_solver. }
  destruct (IH ({[x]} ∪ seen)) as [Hnd' Hel']. split.
  - constructor; [|done]. rewrite Hel'. set_solver.
  - intros y. rewrite !elem_of_cons, Hel'. destruct (decide (y = x)) as [->|]; set_solver.
Qed.

(** The order of the answer does not depend on the runtime. *)
Lemma attached_seed seed seed' links st pid :
  wf st -> attached seed links st pid = attached seed' links st pid.
Proof.
  intros [_ Ht]. apply sort_asc_proper.
  - intros x y (i & _ & Hx)%list_elem_of_omap (j & _ & Hy)%list_elem_of_omap E.
    destruct (Ht _ _ Hx) as (_ & Hbx & _), (Ht _ _ Hy) as (_ & Hby & _). congruence.
  - apply omap_Permutation. unfold Links.tagIDsByPost. by rewrite !go_range_perm.
Qed.
End ops.
End Tags.
