(* ===== verification/MemBadges.v ===== *)
(** * [inmemory.BadgeRepository]: badge master rows and grants *)

From S2P Require Import Prelude Errors Monad Domain.

Module Badges.
Record state := mk {
  badges : gmap string Badge.t;                       (* id -> badge *)
  byKey : gmap string string;                         (* key -> id *)
  userBadges : gmap (string * string) UserBadge.t;    (* (user, badge) -> grant *)
}.

Definition empty : state := mk ∅ ∅ ∅.

(** The order of [sortBadgesByPriority]: priority, then key. *)
Definition by_priority : relation Badge.t := fun a b =>
  (Badge.Priority a < Badge.Priority b)%Z \/
  (Badge.Priority a = Badge.Priority b /\ String.le (Badge.Key a) (Badge.Key b)).

#[export] Instance by_priority_dec : RelDecision by_priority.
Proof. intros a b. unfold by_priority. apply _. Defined.
#[export] Instance by_priority_trans : Transitive by_priority.
Proof.
  intros a b c [H1|[H1 H1']] [H2|[H2 H2']]; unfold by_priority;
    [left; lia|left; lia|left; lia|right; split; [lia|by etrans]].
Qed.
#[export] Instance by_priority_total : Total by_priority.
Proof.
  intros a b. unfold by_priority.
  destruct (Z.lt_total (Badge.Priority a) (Badge.Priority b)) as [|[|]]; [tauto| |tauto].
  destruct (String.le_total (Badge.Key a) (Badge.Key b)); [left|right]; right; split; done.
Qed.

Definition sortBadgesByPriority (l : list Badge.t) : list Badge.t := merge_sort by_priority l.

Section ops.
Context `{GoRuntime}.

Definition ListAll (seed : nat) (st : state) : list Badge.t :=
  sortBadgesByPriority (range_map seed (badges st)).*2.

(** [*r.badges[id]] panics when the index names a missing row. *)
Definition GetByKey (key : string) (st : state) : res (option Badge.t) :=
  match byKey st !! key with
  | None => Ok None
  | Some id =>
      match badges st !! id with
      | Some b => Ok (Some b)
      | None => Panic "nil pointer dereference"
      end
  end.

Definition GetByID (id : string) (st : state) : option Badge.t := badges st !! id.

Definition Create (now : Time) (badge : Badge.t) (st : state) : state * option Badge.t :=
  match byKey st !! Badge.Key badge with
  | Some _ => (st, None)
  | None =>
      let stored :=
        Badge.mk (Badge.ID badge) (Badge.Key badge) (Badge.Label badge) (Badge.Description badge)
          (Badge.IconURL badge) (Badge.Color badge) (Badge.Priority badge)
          (if IsZero (Badge.CreatedAt badge) then now else Badge.CreatedAt badge) now in
      (mk (<[Badge.ID stored := stored]> (badges st))
          (<[Badge.Key stored := Badge.ID stored]> (byKey st)) (userBadges st), Some stored)
  end.

Definition updated (now : Time) (existing badge : Badge.t) : Badge.t :=
  Badge.mk (Badge.ID existing) (Badge.Key existing) (Badge.Label badge) (Badge.Description badge)
    (Badge.IconURL badge) (Badge.Color badge) (Badge.Priority badge) (Badge.CreatedAt existing) now.

Definition Update (now : Time) (badge : Badge.t) (st : state) : state * option Badge.t :=
  match badges st !! Badge.ID badge with
  | None => (st, None)
  | Some existing =>
      let stored := updated now existing badge in
      (mk (<[Badge.ID stored := stored]> (badges st)) (byKey st) (userBadges st), Some stored)
  end.

Definition Grant (now : Time) (userID badgeID grantedBy : string) (expiresAt : option Time)
    (reason : string) (st : state) : state :=
  mk (badges st) (byKey st)
    (<[(userID, badgeID) := UserBadge.mk userID badgeID now grantedBy expiresAt reason]>
       (userBadges st)).

Definition Revoke (userID badgeID : string) (st : state) : state :=
  mk (badges st) (byKey st) (delete (userID, badgeID) (userBadges st)).

(** [ub.ExpiresAt != nil && !ub.ExpiresAt.After(now)] skips the grant. *)
Definition active (now : Time) (ub : UserBadge.t) : bool :=
  match UserBadge.ExpiresAt ub with
  | Some e => After e now
  | None => true
  end.

Definition grant_badge (now : Time) (st : state) (kv : (string * string) * UserBadge.t)
    : option Badge.t :=
  if active now kv.2 then badges st !! kv.1.2 else None.

Definition ListByUserID (now : Time) (seed : nat) (userID : string) (st : state) : list Badge.t :=
  sortBadgesByPriority
    (omap (fun kv => if bool_decide (kv.1.1 = userID) then grant_badge now st kv else None)
      (range_map seed (userBadges st))).

(** [out[k.userID] = append(out[k.userID], &bc)], then one sort per user. *)
Definition ListByUserIDs (now : Time) (seed : nat) (userIDs : list string) (st : state)
    : gmap string (list Badge.t) :=
  let want := set_of userIDs in
  let out := foldl (fun (out : gmap string (list Badge.t)) kv =>
    if bool_decide (kv.1.1 ∈ want)
    then match grant_badge now st kv with
         | Some b => <[kv.1.1 := default [] (out !! kv.1.1) ++ [b]]> out
         | None => out
         end
    else out) ∅ (range_map seed (userBadges st)) in
  sortBadgesByPriority <$> out.

(** ** Invariant: the key index and the rows agree *)

Definition wf (st : state) : Prop :=
  (forall key id, byKey st !! key = Some id ->
     exists b, badges st !! id = Some b /\ Badge.Key b = key) /\
  (forall id b, badges st !! id = Some b ->
     Badge.ID b = id /\ byKey st !! Badge.Key b = Some id).

Lemma wf_empty : wf empty.
Proof. split; intros ? ?; cbn [byKey badges empty]; rewrite lookup_empty; done. Qed.

Lemma GetByKey_ok key st :
  wf st -> exists b, GetByKey key st = Ok b /\
    (forall x, b = Some x <-> (badges st !! Badge.ID x = Some x /\ Badge.Key x = key)).
Proof.
  intros [Hk Hb]. unfold GetByKey. destruct (byKey st !! key) as [id|] eqn:E.
  - destruct (Hk _ _ E) as (b & Eb & Ekey). rewrite Eb. exists (Some b). split; [done|].
    destruct (Hb _ _ Eb) as [Hid Hidx]. intros x. split.
    + intros [= <-]. by rewrite Hid.
    + intros [Hx Hkx]. destruct (Hb _ _ Hx) as [_ Hix]. congruence.
  - exists None. split; [done|]. intros x. split; [done|]. intros [Hx Hkx].
    destruct (Hb _ _ Hx) as [_ Hix]. congruence.
Qed.

Lemma Create_badge_wf now badge st :
  wf st -> badges st !! Badge.ID badge = None -> wf (Create now badge st).1.
Proof.
  intros Hwf Hfresh. unfold Create. destruct (byKey st !! Badge.Key badge) eqn:E; [done|].
  destruct Hwf as [Hk Hb]. set (stored := Badge.mk _ _ _ _ _ _ _ _ _).
  assert (Hid : Badge.ID stored = Badge.ID badge) by done.
  assert (Hkey : Badge.Key stored = Badge.Key badge) by done. clearbody stored.
  rewrite Hid, Hkey. split; cbn [fst byKey badges].
  - intros key id. destruct (decide (key = Badge.Key badge)) as [->|Hne].
    + rewrite (lookup_insert_eq (byKey st)). intros [= <-]. exists stored.
      split; [apply lookup_insert_eq|done].
    + rewrite (lookup_insert_ne (byKey st)) by done. intros Hl.
      destruct (Hk _ _ Hl) as (b & Hl' & Hb'). exists b. split; [|done].
      rewrite (lookup_insert_ne (badges st)); [done|]. congruence.
  - intros id b. destruct (decide (id = Badge.ID badge)) as [->|Hne].
    + rewrite (lookup_insert_eq (badges st)). intros [= <-]. split; [done|].
      rewrite Hkey. apply lookup_insert_eq.
    + rewrite (lookup_insert_ne (badges st)) by done. intros Hl. destruct (Hb _ _ Hl) as [? Hi].
      split; [done|]. rewrite (lookup_insert_ne (byKey st)); [done|]. congruence.
Qed.

Lemma Update_wf now badge st : wf st -> wf (Update now badge st).1.
Proof.
  intros [Hk Hb]. unfold Update. destruct (badges st !! Badge.ID badge) as [ex|] eqn:E; [|done].
  destruct (Hb _ _ E) as [Hid Hidx]. unfold updated. cbn [fst Badge.ID]. rewrite Hid.
  split; cbn [byKey badges].
  - intros key id Hl. destruct (Hk _ _ Hl) as (b & Hl' & Hb').
    destruct (decide (id = Badge.ID badge)) as [->|Hne].
    + eexists. split; [apply lookup_insert_eq|]. simpl. congruence.
    + exists b. by rewrite (lookup_insert_ne (badges st)).
  - intros id b. destruct (decide (id = Badge.ID badge)) as [->|Hne].
    + rewrite (lookup_insert_eq (badges st)). intros [= <-]. simpl. done.
    + rewrite (lookup_insert_ne (badges st)) by done. apply Hb.
Qed.

(** ** Listings *)

Lemma badge_keys_anti st (l : list Badge.t) :
  wf st -> (forall b, b ∈ l -> badges st !! Badge.ID b = Some b) ->
  forall x y, x ∈ l -> y ∈ l -> by_priority x y -> by_priority y x -> x = y.
Proof.
  intros [_ Hb] Hl x y Hx Hy Hxy Hyx.
  destruct (Hb _ _ (Hl x Hx)) as [_ Ex], (Hb _ _ (Hl y Hy)) as [_ Ey].
  assert (Badge.Key x = Badge.Key y).
  { destruct Hxy as [|[? ?]], Hyx as [|[? ?]]; try lia. by apply (anti_symm String.le). }
  pose proof (Hl x Hx). pose proof (Hl y Hy). congruence.
Qed.

Lemma grant_badge_row now st kv b :
  wf st -> grant_badge now st kv = Some b -> badges st !! Badge.ID b = Some b.
Proof.
  intros [_ Hb]. unfold grant_badge. case_match; [|done]. intros Hl.
  by destruct (Hb _ _ Hl) as [-> _].
Qed.

(** What one user's badge list holds. *)
Lemma elem_of_ListByUserID now seed uid st b :
  b ∈ ListByUserID now seed uid st <->
  exists bid ub, userBadges st !! (uid, bid) = Some ub /\ active now ub = true /\
    badges st !! bid = Some b.
Proof.
  unfold ListByUserID, sortBadgesByPriority. rewrite elem_of_merge_sort, list_elem_of_omap. split.
  - intros ([[u bid] ub] & Hin%elem_of_range_map & Hg). simpl in Hg.
    case_bool_decide; [subst|done]. unfold grant_badge in Hg. simpl in Hg.
    destruct (active now ub) eqn:E; [|done]. eauto.
  - intros (bid & ub & Hin & Ha & Hb). exists ((uid, bid), ub).
    split; [by apply elem_of_range_map|]. unfold grant_badge. simpl.
    by rewrite bool_decide_eq_true_2, Ha.
Qed.

Lemma ListByUserID_seed now seed seed' uid st :
  wf st -> ListByUserID now seed uid st = ListByUserID now seed' uid st.
Proof.
  intros Hwf. apply merge_sort_proper; [apply _..| |].
  - apply (badge_keys_anti st); [done|]. intros b (kv & _ & Hb)%list_elem_of_omap.
    case_bool_decide; [|done]. by eapply grant_badge_row.
  - apply omap_Permutation, range_map_perm.
Qed.

(** The batch listing answers, for each wanted user, the single one. *)
Lemma batch_fold now st (uids : list string) (l : list ((string * string) * UserBadge.t))
    (out : gmap string (list Badge.t)) uid :
  foldl (fun (out : gmap string (list Badge.t)) kv =>
    if bool_decide (kv.1.1 ∈ set_of uids)
    then match grant_badge now st kv with
         | Some b => <[kv.1.1 := default [] (out !! kv.1.1) ++ [b]]> out
         | None => out
         end
    else out) out l !! uid =
  (let add := if bool_decide (uid ∈ uids)
    then omap (fun kv => if bool_decide (kv.1.1 = uid) then grant_badge now st kv else None) l
    else [] in
   if bool_decide (add = []) then out !! uid else Some (default [] (out !! uid) ++ add)).
Proof.
  revert out. induction l as [|kv l IH]; intros out; cbn [foldl omap list_omap].
  { by destruct (bool_decide (uid ∈ uids)). }
  rewrite IH. clear IH. cbn zeta.
  assert (Hw : bool_decide (kv.1.1 ∈ set_of uids) = bool_decide (kv.1.1 ∈ uids)).
  { apply bool_decide_ext, elem_of_set_of. }
  rewrite Hw. clear Hw. destruct (decide (kv.1.1 = uid)) as [<-|Hne].
  - rewrite (bool_decide_eq_true_2 (kv.1.1 = kv.1.1)) by done.
    destruct (bool_decide (kv.1.1 ∈ uids)); [|done].
    destruct (grant_badge now st kv) as [b|]; [|done].
    rewrite lookup_insert_eq, (bool_decide_eq_false_2 (b :: _ = [])) by done.
    case_bool_decide as Ho; [by rewrite Ho|]. simpl. by rewrite <-(assoc_L (++)).
  - rewrite (bool_decide_eq_false_2 (kv.1.1 = uid)) by done.
    destruct (bool_decide (kv.1.1 ∈ uids)); [|done].
    destruct (grant_badge now st kv) as [b|]; [|done].
    by rewrite lookup_insert_ne.
Qed.

Lemma ListByUserIDs_lookup now seed uids st uid :
  ListByUserIDs now seed uids st !! uid =
  (if bool_decide (uid ∈ uids /\ ListByUserID now seed uid st <> [])
   then Some (ListByUserID now seed uid st) else None).
Proof.
  unfold ListByUserIDs. cbn zeta. rewrite lookup_fmap, batch_fold, lookup_empty. cbn zeta.
  unfold ListByUserID, sortBadgesByPriority. set (l := omap _ _).
  assert (Hnil : merge_sort by_priority l = [] <-> l = []).
  { split; intros E; [|by rewrite E]. apply Permutation_nil_r. rewrite <-E.
    symmetry. apply merge_sort_Permutation. }
  destruct (decide (uid ∈ uids)) as [Hu|Hu].
  - rewrite (bool_decide_eq_true_2 (uid ∈ uids)) by done.
    destruct (decide (l = [])) as [Hl|Hl].
    + rewrite (bool_decide_eq_true_2 (l = [])) by done.
      rewrite bool_decide_eq_false_2; [done|]. intros [_ Hn]. by apply Hn, Hnil.
    + rewrite (bool_decide_eq_false_2 (l = [])) by done.
      rewrite bool_decide_eq_true_2; [done|]. split; [done|]. by intros ?%Hnil.
  - rewrite (bool_decide_eq_false_2 (uid ∈ uids)) by done.
    rewrite bool_decide_eq_true_2 by done. by rewrite bool_decide_eq_false_2 by naive_solver.
Qed.
End ops.
End Badges.
