(* ===== verification/Paging.v ===== *)
(** * Cursor pagination

    A query returns the first [n] rows that come after the cursor in a fixed
    strict order, and a cursor to its last row when rows remain. This file
    proves, once for every listing of the code base, that following the
    cursors visits every row exactly once and that the walk ends. *)

From S2P Require Import Prelude.

Section paging.
Context {A C : Type} (R : relation A) (after : C -> A -> bool) (mk : A -> C).
Context (l : list A) (n : nat).

Hypothesis sorted : StronglySorted R l.
Hypothesis irrefl : forall x, ~ R x x.
Hypothesis asym : forall x y, R x y -> ~ R y x.
(** The cursor of a row selects the rows that sort strictly after it. *)
Hypothesis after_spec : forall x y, x ∈ l -> y ∈ l -> after (mk x) y = true <-> R x y.
Hypothesis n_pos : 0 < n.

Definition rest (c : option C) : list A :=
  match c with
  | None => l
  | Some c => filter (fun y => after c y = true) l
  end.

(** What one request answers. *)
Definition page (c : option C) : list A := take n (rest c).
Definition next (c : option C) : option C :=
  if bool_decide (length (rest c) <= n) then None else mk <$> last (page c).

(** A client that follows the cursors, at most [fuel] requests. *)
Fixpoint walk (fuel : nat) (c : option C) : option (list A) :=
  match fuel with
  | O => None
  | S fuel =>
      match next c with
      | None => Some (page c)
      | Some c' => (page c ++.) <$> walk fuel (Some c')
      end
  end.

Lemma rest_after l1 x l2 : l = l1 ++ x :: l2 -> rest (Some (mk x)) = l2.
Proof using sorted irrefl asym after_spec.
  intros E. simpl. subst l. clear n_pos.
  pose proof sorted as Hs. apply StronglySorted_app in Hs as (Hcross & _ & H2).
  apply StronglySorted_cons in H2 as [Hx H2].
  assert (Hspec : forall y, y ∈ l1 ++ x :: l2 -> after (mk x) y = true <-> R x y).
  { intros y Hy. apply after_spec; [set_solver|done]. }
  rewrite filter_app, filter_cons.
  assert (filter (fun y => after (mk x) y = true) l1 = []) as ->.
  { apply list_filter_none. intros y Hy Ha.
    apply Hspec in Ha; [|set_solver]. apply (asym x y Ha).
    apply Hcross; [done|left]. }
  rewrite decide_False by (rewrite Hspec by set_solver; apply irrefl).
  simpl. apply list_filter_all. intros y Hy. apply Hspec; [set_solver|].
  by rewrite Forall_forall in Hx; apply Hx.
Qed.

Lemma page_split c l1 :
  l = l1 ++ rest c -> n < length (rest c) ->
  exists x l2, next c = Some (mk x) /\ rest c = page c ++ l2 /\
    l = (l1 ++ page c) ++ l2 /\ rest (Some (mk x)) = l2.
Proof using All.
  intros El Hlen. unfold next. rewrite bool_decide_eq_false_2 by lia.
  assert (Hp : page c ≠ []).
  { unfold page. destruct (rest c); simpl in *; [lia|]. by destruct n; [lia|]. }
  destruct (last (page c)) as [x|] eqn:Hlast; [|by apply last_None in Hlast].
  pose proof Hlast as [p' Hp']%last_Some.
  exists x, (drop n (rest c)).
  assert (Er : rest c = page c ++ drop n (rest c)) by (unfold page; by rewrite take_drop).
  split; [done|]. split; [done|].
  assert (El' : l = (l1 ++ page c) ++ drop n (rest c)).
  { rewrite <-(assoc_L (++)), <-Er. done. }
  split; [done|]. apply (rest_after (l1 ++ p')).
  etrans; [exact El'|]. rewrite Hp'. by rewrite <-!(assoc_L (++)).
Qed.

Lemma walk_rest fuel c l1 :
  l = l1 ++ rest c -> length (rest c) < fuel -> walk fuel c = Some (rest c).
Proof using All.
  revert c l1. induction fuel as [|fuel IH]; intros c l1 El Hf; [lia|]. cbn [walk].
  destruct (decide (length (rest c) <= n)) as [Hle|Hgt].
  - unfold next. rewrite bool_decide_eq_true_2 by done. unfold page. by rewrite take_ge.
  - destruct (page_split c l1) as (x & l2 & -> & Er & El' & E2); [done|lia|].
    assert (Hpl : length (page c) = n).
    { unfold page. rewrite length_take. lia. }
    rewrite (IH (Some (mk x)) (l1 ++ page c)).
    + rewrite E2. simpl. by rewrite Er.
    + by rewrite E2.
    + rewrite E2. rewrite Er, length_app in Hf. lia.
Qed.

(** Every row once, in order; [S (length l)] requests are enough. *)
Lemma walk_all fuel : length l < fuel -> walk fuel None = Some l.
Proof using All. intros Hf. by apply (walk_rest fuel None []). Qed.
End paging.
