(* ===== verification/Feeds.v ===== *)
(** * Feeds: the cursor-paginated post listings

    [Posts.List], [Posts.ListByUserIDs] and [Posts.ListReplies] filter the
    posts map, sort by identifier and cut a page. Here: what a listing
    holds, that it does not depend on map iteration order, and that
    following its cursors reads the whole feed. *)

From S2P Require Import Prelude Errors Monad Domain MemPosts Paging.

(** The map is keyed by the row's own identifier, which is never empty. *)
Definition keyed (posts : gmap string Post.t) : Prop :=
  forall id p, posts !! id = Some p -> Post.ID p = id /\ id <> "".

(** The order of a feed: newest (largest identifier) first, strictly. *)
Definition newer (p q : Post.t) : Prop := str_gt (Post.ID p) (Post.ID q) = true.

Lemma newer_irrefl p : ~ newer p p.
Proof. unfold newer, str_gt. by rewrite str_ltb_irrefl. Qed.

Lemma newer_asym p q : newer p q -> ~ newer q p.
Proof.
  unfold newer, str_gt. rewrite !str_lt_le. intros [H1 Hne] [H2 _].
  apply Hne. by apply (anti_symm String.le).
Qed.

Section feeds.
Context `{GoRuntime}.
Context (flt : Post.t -> bool) (posts : gmap string Post.t).

Definition feed (seed : nat) : list Post.t := Posts.collectDescending seed flt None posts.

Lemma elem_of_collect seed cursor p :
  p ∈ Posts.collectDescending seed flt cursor posts <->
  exists id, posts !! id = Some p /\ flt p = true /\ Posts.below cursor p = true.
Proof.
  unfold Posts.collectDescending. rewrite elem_of_sort_desc, list_elem_of_filter.
  rewrite list_elem_of_fmap. split.
  - intros ([? ?] & [id q] & -> & Hq). apply elem_of_range_map in Hq. naive_solver.
  - intros (id & Hid & ? & ?). split; [done|]. exists (id, p). split; [done|].
    by apply elem_of_range_map.
Qed.

Hypothesis Hkeyed : keyed posts.

Lemma rows_key_inj seed : key_inj Post.ID (range_map seed posts).*2.
Proof using Hkeyed.
  intros p q ([i p'] & -> & Hp)%list_elem_of_fmap ([j q'] & -> & Hq)%list_elem_of_fmap E.
  apply elem_of_range_map in Hp, Hq. simpl in *.
  destruct (Hkeyed _ _ Hp) as [<- _], (Hkeyed _ _ Hq) as [<- _]. congruence.
Qed.

Lemma key_inj_filter (P : Post.t -> Prop) `{!forall x, Decision (P x)} l :
  key_inj Post.ID l -> key_inj Post.ID (filter P l).
Proof.
  intros Hl p q [_ Hp]%list_elem_of_filter [_ Hq]%list_elem_of_filter. by apply Hl.
Qed.

(** The answer does not depend on the iteration order of the map. *)
Lemma collect_seed seed seed' cursor :
  Posts.collectDescending seed flt cursor posts = Posts.collectDescending seed' flt cursor posts.
Proof using Hkeyed.
  apply sort_desc_proper.
  - apply key_inj_filter, rows_key_inj.
  - apply filter_perm, fmap_Permutation, range_map_perm.
Qed.

Lemma NoDup_rows seed : NoDup (Post.ID <$> (range_map seed posts).*2).
Proof using Hkeyed.
  assert (Post.ID <$> (range_map seed posts).*2 = (range_map seed posts).*1) as ->.
  { rewrite <-list_fmap_compose. apply list_fmap_ext. intros i [id p] Hi.
    apply list_elem_of_lookup_2, elem_of_range_map, Hkeyed in Hi. naive_solver. }
  apply NoDup_range_map.
Qed.

Lemma NoDup_fmap_filter (P : Post.t -> Prop) `{!forall x, Decision (P x)} l :
  NoDup (Post.ID <$> l) -> NoDup (Post.ID <$> filter P l).
Proof.
  induction l as [|x l IH]; [done|]. rewrite fmap_cons, NoDup_cons. intros [Hni Hnd].
  rewrite filter_cons. case_decide; [|auto]. rewrite fmap_cons, NoDup_cons.
  split; [|auto]. intros (y & E & [_ Hy]%list_elem_of_filter)%list_elem_of_fmap.
  apply Hni. rewrite E. by apply list_elem_of_fmap_2.
Qed.

Lemma NoDup_collect seed cursor :
  NoDup (Post.ID <$> Posts.collectDescending seed flt cursor posts).
Proof using Hkeyed.
  unfold Posts.collectDescending. rewrite sort_desc_perm.
  apply NoDup_fmap_filter, NoDup_rows.
Qed.

Lemma desc_strict l :
  NoDup (Post.ID <$> l) -> StronglySorted (desc_by Post.ID) l -> StronglySorted newer l.
Proof.
  intros Hnd Hs. induction Hs as [|x l Hs IH Hall]; [constructor|].
  rewrite fmap_cons, NoDup_cons in Hnd. destruct Hnd as [Hni Hnd].
  constructor; [auto|]. rewrite Forall_forall in *. intros y Hy.
  apply str_lt_le. split; [by apply Hall|]. intros E. apply Hni.
  rewrite <-E. by apply list_elem_of_fmap_2.
Qed.

Lemma collect_sorted seed cursor :
  StronglySorted newer (Posts.collectDescending seed flt cursor posts).
Proof using Hkeyed.
  apply desc_strict; [apply NoDup_collect|apply sort_desc_sorted].
Qed.

(** A cursor answers the part of the feed below it. *)
Lemma collect_below seed seed' c :
  Posts.collectDescending seed flt (Some c) posts =
  filter (fun p => str_lt (Post.ID p) c = true) (feed seed').
Proof using Hkeyed.
  unfold feed. apply (sorted_desc_unique Post.ID).
  - eapply key_inj_perm; [symmetry; apply sort_desc_perm|].
    apply key_inj_filter, rows_key_inj.
  - apply NoDup_Permutation.
    + eapply (NoDup_fmap_1 Post.ID), NoDup_collect.
    + apply NoDup_filter. eapply (NoDup_fmap_1 Post.ID), NoDup_collect.
    + intros p. rewrite list_elem_of_filter, !elem_of_collect. simpl. naive_solver.
  - apply sort_desc_sorted.
  - apply StronglySorted_filter, sort_desc_sorted.
Qed.

(** A feed is no longer than the table. *)
Lemma feed_size seed : length (feed seed) <= size posts.
Proof using Type.
  unfold feed, Posts.collectDescending. erewrite Permutation_length; [|apply sort_desc_perm].
  etrans; [apply length_filter|]. rewrite length_fmap. unfold range_map.
  erewrite Permutation_length; [|apply go_range_perm]. by rewrite length_map_to_list.
Qed.

Lemma ID_nonempty seed p : p ∈ feed seed -> Post.ID p <> "".
Proof using Hkeyed.
  intros (id & Hid & _)%elem_of_collect. destruct (Hkeyed _ _ Hid) as [-> ?]. done.
Qed.
End feeds.

(** ** The paginated answer *)

Section paginate.
Context `{GoRuntime}.
Context (flt : Post.t -> bool) (posts : gmap string Post.t) (limit : Z).
Hypothesis Hkeyed : keyed posts.
Hypothesis Hlimit : (0 < limit)%Z.

Definition cursor_of (next : string) : option string :=
  if bool_decide (next = "") then None else Some next.

(** One request of a listing handler. *)
Definition request (seed : nat) (cursor : option string) : res (list Post.t * string) :=
  Posts.paginate (Posts.collectDescending seed flt cursor posts) limit.

(** A client that follows [next_cursor] until it is empty. *)
Fixpoint read_feed (fuel seed : nat) (cursor : option string) : option (list Post.t) :=
  match fuel with
  | O => None
  | S fuel =>
      match request seed cursor with
      | Ok (page, next) =>
          match cursor_of next with
          | None => Some page
          | Some c => (page ++.) <$> read_feed fuel (S seed) (Some c)
          end
      | _ => None
      end
  end.

Let after (c : string) (p : Post.t) : bool := str_lt (Post.ID p) c.

Lemma request_page seed cursor :
  exists nxt, request seed cursor =
    Ok (page after (feed flt posts 0) (Z.to_nat limit) cursor, nxt) /\
    cursor_of nxt = next after Post.ID (feed flt posts 0) (Z.to_nat limit) cursor.
Proof using Hkeyed Hlimit.
  set (l := feed flt posts 0). set (n := Z.to_nat limit).
  assert (Hr : Posts.collectDescending seed flt cursor posts = rest after l cursor).
  { destruct cursor as [c|]; simpl; [by apply collect_below|by apply collect_seed]. }
  unfold request, Posts.paginate. rewrite Hr.
  assert ((limit <=? 0)%Z = false) as -> by lia.
  assert (Hp : page after l n cursor = take n (rest after l cursor)) by done.
  unfold next. destruct (decide (length (rest after l cursor) <= n)) as [Hle|Hgt].
  - assert ((Z.of_nat (length (rest after l cursor)) <=? limit)%Z = true) as -> by lia.
    exists "". rewrite bool_decide_eq_true_2 by done. rewrite Hp, take_ge by done. done.
  - assert ((Z.of_nat (length (rest after l cursor)) <=? limit)%Z = false) as -> by lia.
    rewrite bool_decide_eq_false_2 by done. unfold slice_to. fold n.
    assert (Hlen : length (take n (rest after l cursor)) = n) by (rewrite length_take; lia).
    destruct (last (take n (rest after l cursor))) as [p|] eqn:Hlast; last first.
    { apply last_None in Hlast. rewrite Hlast in Hlen. simpl in Hlen. lia. }
    pose proof Hlast as Hlk. rewrite last_lookup, Hlen in Hlk.
    replace (Z.to_nat (limit - 1)) with (pred n) by lia. rewrite Hlk.
    exists (Post.ID p). split; [by rewrite Hp|]. rewrite Hp, Hlast. simpl.
    unfold cursor_of. rewrite bool_decide_eq_false_2; [done|].
    apply list_elem_of_lookup_2 in Hlk. eapply (ID_nonempty flt posts Hkeyed 0).
    assert (p ∈ rest after l cursor).
    { rewrite <-(take_drop n). apply elem_of_app. by left. }
    destruct cursor; simpl in *; [by apply list_elem_of_filter in H0 as [_ ?]|done].
Qed.

(** Following the cursors reads every row of the feed once, in order, for
    whatever order the runtime visits the map in. *)
Lemma read_feed_all fuel seed :
  length (feed flt posts 0) < fuel ->
  read_feed fuel seed None = Some (feed flt posts 0).
Proof using Hkeyed Hlimit.
  intros Hf. set (l := feed flt posts 0) in *.
  assert (Hw : forall c, read_feed fuel seed c = walk after Post.ID l (Z.to_nat limit) fuel c).
  { clear Hf. revert seed. induction fuel as [|fuel IH]; intros seed c; [done|].
    cbn [read_feed walk]. destruct (request_page seed c) as (nxt & -> & ->). fold l.
    destruct (next _ _ _ _ _) as [c'|]; [|done]. by rewrite IH. }
  rewrite Hw. apply (walk_all newer); [..|done].
  - by apply collect_sorted.
  - apply newer_irrefl.
  - apply newer_asym.
  - intros x y _ _. done.
  - lia.
Qed.
End paginate.
