(* ===== verification/Cursor.v ===== *)
(** * [internal/repository/sharedcursor]: the follow-list cursor

    A cursor is base64url(RFC3339Nano(created_at) ++ "|" ++ peer). Here are
    the parts of [encoding/base64] and [time] it is made of, and the proof
    that decoding gives back what was encoded. *)

From S2P Require Import Prelude GoStrings.
From Stdlib Require Import Ascii.

Local Open Scope Z_scope.

Definition char (n : Z) : ascii := ascii_of_N (Z.to_N n).
Definition code (a : ascii) : Z := Z.of_N (N_of_ascii a).

(** ** base64.RawURLEncoding *)

Module Base64.
(** The alphabet A-Z a-z 0-9 - _ *)
Definition enc6 (n : Z) : ascii :=
  if n <? 26 then char (65 + n)
  else if n <? 52 then char (97 + (n - 26))
  else if n <? 62 then char (48 + (n - 52))
  else if n =? 62 then "-"%char else "_"%char.

Definition dec6 (a : ascii) : option Z :=
  let c := code a in
  if (65 <=? c) && (c <=? 90) then Some (c - 65)
  else if (97 <=? c) && (c <=? 122) then Some (c - 97 + 26)
  else if (48 <=? c) && (c <=? 57) then Some (c - 48 + 52)
  else if c =? 45 then Some 62
  else if c =? 95 then Some 63
  else None.

Fixpoint EncodeToString (s : string) : string :=
  match s with
  | EmptyString => EmptyString
  | String a EmptyString =>
      let v := code a * 16 in
      String (enc6 (v / 64)) (String (enc6 (v mod 64)) EmptyString)
  | String a (String b EmptyString) =>
      let v := (code a * 256 + code b) * 4 in
      String (enc6 (v / 4096)) (String (enc6 (v / 64 mod 64)) (String (enc6 (v mod 64)) EmptyString))
  | String a (String b (String c s)) =>
      let v := code a * 65536 + code b * 256 + code c in
      String (enc6 (v / 262144)) (String (enc6 (v / 4096 mod 64))
        (String (enc6 (v / 64 mod 64)) (String (enc6 (v mod 64)) (EncodeToString s))))
  end.

(** The decoder skips carriage returns and newlines. *)
Fixpoint strip_newlines (s : string) : string :=
  match s with
  | EmptyString => EmptyString
  | String a s =>
      if (code a =? 10) || (code a =? 13) then strip_newlines s else String a (strip_newlines s)
  end.

Definition byte_char (n : Z) : ascii := char (n mod 256).

(** Four characters give three bytes; a tail of two gives one byte, a tail
    of three gives two; leftover bits are ignored, a tail of one is an
    error. *)
Fixpoint decode (s : string) : option string :=
  match s with
  | EmptyString => Some EmptyString
  | String _ EmptyString => None
  | String a (String b EmptyString) =>
      x ← dec6 a; y ← dec6 b;
      let v := x * 64 + y in
      Some (String (byte_char (v / 16)) EmptyString)
  | String a (String b (String c EmptyString)) =>
      x ← dec6 a; y ← dec6 b; z ← dec6 c;
      let v := x * 4096 + y * 64 + z in
      Some (String (byte_char (v / 1024)) (String (byte_char (v / 4)) EmptyString))
  | String a (String b (String c (String d s))) =>
      x ← dec6 a; y ← dec6 b; z ← dec6 c; w ← dec6 d;
      let v := x * 262144 + y * 4096 + z * 64 + w in
      t ← decode s;
      Some (String (byte_char (v / 65536)) (String (byte_char (v / 256)) (String (byte_char v) t)))
  end.

Definition DecodeString (s : string) : option string := decode (strip_newlines s).
(** *** Round trip *)

Lemma code_range a : 0 <= code a < 256.
Proof. unfold code. pose proof (N_ascii_bounded a). lia. Qed.

Lemma char_code a : char (code a) = a.
Proof. unfold char, code. by rewrite N2Z.id, ascii_N_embedding. Qed.

Lemma byte_char_code a n : n mod 256 = code a -> byte_char n = a.
Proof. unfold byte_char. intros ->. apply char_code. Qed.

Lemma enc6_ok : forallb (fun n =>
  bool_decide (dec6 (enc6 n) = Some n) && negb ((code (enc6 n) =? 10) || (code (enc6 n) =? 13)))
  (seqZ 0 64) = true.
Proof. by vm_compute. Qed.

Lemma dec6_enc6 n : 0 <= n < 64 -> dec6 (enc6 n) = Some n.
Proof.
  intros Hn. pose proof enc6_ok as H. rewrite forallb_forall in H.
  specialize (H n). rewrite <-list_elem_of_In, elem_of_seqZ in H.
  specialize (H ltac:(lia)). by to_prop.
Qed.

Lemma enc6_not_newline n : 0 <= n < 64 -> (code (enc6 n) =? 10) || (code (enc6 n) =? 13) = false.
Proof.
  intros Hn. pose proof enc6_ok as H. rewrite forallb_forall in H.
  specialize (H n). rewrite <-list_elem_of_In, elem_of_seqZ in H.
  specialize (H ltac:(lia)). to_prop. by apply orb_false_iff.
Qed.

(** Strings are encoded three bytes at a time. *)
Lemma string_ind3 (P : string -> Prop) :
  P EmptyString -> (forall a, P (String a EmptyString)) ->
  (forall a b, P (String a (String b EmptyString))) ->
  (forall a b c s, P s -> P (String a (String b (String c s)))) ->
  forall s, P s.
Proof.
  intros H0 H1 H2 H3. fix IH 1. intros [|a [|b [|c s]]]; [done|done|done|].
  apply H3, IH.
Qed.

Lemma strip_encode s : strip_newlines (EncodeToString s) = EncodeToString s.
Proof.
  induction s as [|a|a b|a b c s IH] using string_ind3; [done|..];
    cbn [EncodeToString strip_newlines];
    pose proof (code_range a); try pose proof (code_range b); try pose proof (code_range c);
    rewrite ?enc6_not_newline by lia_div; [done..|]. by rewrite IH.
Qed.

Lemma decode_encode s : decode (EncodeToString s) = Some s.
Proof.
  induction s as [|a|a b|a b c s IH] using string_ind3; [done|..];
    cbn [EncodeToString decode];
    pose proof (code_range a); try pose proof (code_range b); try pose proof (code_range c);
    rewrite ?dec6_enc6 by lia_div; simpl;
    rewrite ?IH; simpl; repeat f_equal; apply byte_char_code; lia_div.
Qed.

Lemma Decode_Encode s : DecodeString (EncodeToString s) = Some s.
Proof. unfold DecodeString. by rewrite strip_encode, decode_encode. Qed.
End Base64.

(** ** Civil dates (proleptic Gregorian, UTC)

    A [Time] counts nanoseconds from January 1 of year 1. Years start in
    March inside a 400-year era, as usual for this computation. *)

Module Civil.
(** Days from March 1 of year 0 to January 1 of year 1. *)
Definition epoch_shift : Z := 306.

Record date := mkDate { year : Z; month : Z; day : Z }.

(** Year of the era and day of the year, by 100-year, 4-year and 1-year
    blocks; the long block is the last one of each group. *)
Definition split_era (doe : Z) : Z * Z :=
  let c := Z.min 3 (doe / 36524) in
  let r := doe - 36524 * c in
  let q := r / 1461 in
  let r := r - 1461 * q in
  let y := Z.min 3 (r / 365) in
  (100 * c + 4 * q + y, r - 365 * y).

Definition month_of (doy : Z) : Z :=
  let mp := (5 * doy + 2) / 153 in if mp <? 10 then mp + 3 else mp - 9.
Definition day_of (doy : Z) : Z :=
  let mp := (5 * doy + 2) / 153 in doy - (153 * mp + 2) / 5 + 1.
Definition jan_feb (m : Z) : Z := if m <=? 2 then 1 else 0.

Definition of_days (n : Z) : date :=
  let era := (n + epoch_shift) / 146097 in
  let '(yoe, doy) := split_era ((n + epoch_shift) mod 146097) in
  mkDate (yoe + era * 400 + jan_feb (month_of doy)) (month_of doy) (day_of doy).

Definition to_days (dt : date) : Z :=
  let y := year dt - jan_feb (month dt) in
  let era := y / 400 in
  let yoe := y mod 400 in
  let mp := if 2 <? month dt then month dt - 3 else month dt + 9 in
  let doy := (153 * mp + 2) / 5 + day dt - 1 in
  let doe := yoe * 365 + yoe / 4 - yoe / 100 + doy in
  era * 146097 + doe - epoch_shift.

Definition is_leap (y : Z) : bool :=
  ((y mod 4 =? 0) && negb (y mod 100 =? 0)) || (y mod 400 =? 0).

Definition days_in (m y : Z) : Z :=
  if m =? 2 then (if is_leap y then 29 else 28)
  else if (m =? 4) || (m =? 6) || (m =? 9) || (m =? 11) then 30 else 31.
(** *** [to_days] inverts [of_days] *)

Lemma split_era_spec doe yoe doy :
  0 <= doe < 146097 -> split_era doe = (yoe, doy) ->
  doe = yoe * 365 + yoe / 4 - yoe / 100 + doy /\ 0 <= yoe < 400 /\ 0 <= doy <= 365 /\
  (doy = 365 -> is_leap (yoe + 1) = true) /\
  (doe < 146037 -> yoe < 399 \/ doy < 306) /\ (306 <= doe -> 1 <= yoe \/ 306 <= doy).
Proof.
  intros Hd. unfold split_era.
  set (c := Z.min 3 _). set (q := _ / 1461). set (y := Z.min 3 _). intros [= <- <-].
  assert (Hc : 0 <= c <= 3 /\ 36524 * c <= doe /\
               (doe < 36524 * (c + 1) \/ c = 3)) by (subst c; lia_div).
  clearbody c.
  assert (Hq : 0 <= q <= 24 /\ 1461 * q <= doe - 36524 * c < 1461 * (q + 1)) by (subst q; lia_div).
  clearbody q.
  assert (Hy : 0 <= y <= 3 /\ 365 * y <= doe - 36524 * c - 1461 * q /\
               (doe - 36524 * c - 1461 * q < 365 * (y + 1) \/ y = 3)) by (subst y; lia_div).
  clearbody y.
  replace ((100 * c + 4 * q + y) / 4) with (25 * c + q) by lia_div.
  replace ((100 * c + 4 * q + y) / 100) with c by lia_div.
  repeat split; try lia. intros E. assert (y = 3) as -> by lia.
  unfold is_leap. replace (100 * c + 4 * q + 3 + 1) with (100 * c + 4 * (q + 1)) by lia.
  assert (q <= 23 \/ (q = 24 /\ c = 3)) as [?|[-> ->]] by lia; [|done].
  replace ((100 * c + 4 * (q + 1)) mod 4) with 0 by lia_div.
  assert ((100 * c + 4 * (q + 1)) mod 100 <> 0) by lia_div. lia.
Qed.

(** The 366 days of a March-based year. *)
Definition doy_ok (doy : Z) : bool :=
  let m := month_of doy in
  let d := day_of doy in
  let mp := if 2 <? m then m - 3 else m + 9 in
  (1 <=? m) && (m <=? 12) && (1 <=? d)
  && (d <=? (if (m =? 2) && (doy <? 365) then 28 else if m =? 2 then 29 else days_in m 1))
  && ((153 * mp + 2) / 5 + d - 1 =? doy) && Bool.eqb (m <=? 2) (306 <=? doy).

Lemma doys_ok : forallb doy_ok (seqZ 0 366) = true.
Proof. by vm_compute. Qed.

Lemma doy_facts doy : 0 <= doy <= 365 -> doy_ok doy = true.
Proof.
  intros Hd. pose proof doys_ok as H. rewrite forallb_forall in H. apply H.
  rewrite <-list_elem_of_In, elem_of_seqZ. lia.
Qed.

Lemma is_leap_era y e : is_leap (y + e * 400) = is_leap y.
Proof.
  unfold is_leap.
  replace ((y + e * 400) mod 4) with (y mod 4) by lia_div.
  replace ((y + e * 400) mod 100) with (y mod 100) by lia_div.
  by replace ((y + e * 400) mod 400) with (y mod 400) by lia_div.
Qed.

Lemma jan_feb_doy doy : 0 <= doy <= 365 ->
  jan_feb (month_of doy) = (if 306 <=? doy then 1 else 0).
Proof.
  intros Hd. pose proof (doy_facts doy Hd) as H. unfold doy_ok in H.
  apply andb_true_iff in H as [_ H%eqb_prop]. unfold jan_feb. by rewrite H.
Qed.

Lemma of_days_valid n :
  1 <= month (of_days n) <= 12 /\
  1 <= day (of_days n) <= days_in (month (of_days n)) (year (of_days n)).
Proof.
  unfold of_days. set (doe := _ mod _). set (era := _ / _).
  destruct (split_era doe) as [yoe doy] eqn:Es. cbn [year month day].
  apply split_era_spec in Es as (_ & _ & Hdoy & Hleap & _); [|subst doe; lia_div].
  pose proof (doy_facts doy Hdoy) as H. unfold doy_ok in H. unfold days_in in *.
  pose proof (jan_feb_doy doy Hdoy) as Hj.
  replace (yoe + era * 400 + jan_feb (month_of doy))
    with (yoe + jan_feb (month_of doy) + era * 400) by lia.
  rewrite is_leap_era. clearbody era doe.
  destruct (month_of doy =? 2) eqn:Em; cbn [andb] in H; [|lia].
  destruct (doy <? 365) eqn:E3.
  { clear Hleap. assert (month_of doy = 2) as E2 by lia. rewrite E2 in *.
    assert (1 <= day_of doy <= 28) by lia.
    cbn [Z.eqb Pos.eqb]. destruct (is_leap _); lia. }
  assert (doy = 365) as -> by lia. rewrite Hj. cbn [Z.leb Z.compare Pos.compare Pos.compare_cont].
  rewrite Hleap by done. lia.
Qed.

Lemma to_days_of_days n : to_days (of_days n) = n.
Proof.
  unfold of_days. set (doe := _ mod _). set (era := _ / _).
  assert (Hn : n + epoch_shift = era * 146097 + doe) by (subst era doe; lia_div).
  destruct (split_era doe) as [yoe doy] eqn:Es.
  apply split_era_spec in Es as (Ed & Hyoe & Hdoy & _); [|subst doe; lia_div].
  pose proof (doy_facts doy Hdoy) as H. unfold doy_ok in H. clearbody doe era.
  apply andb_true_iff in H as [H _]. apply andb_true_iff in H as [_ H%Z.eqb_eq].
  unfold to_days. cbn [year month day].
  replace (yoe + era * 400 + jan_feb (month_of doy) - jan_feb (month_of doy))
    with (yoe + era * 400) by lia.
  replace ((yoe + era * 400) / 400) with era by lia_div.
  replace ((yoe + era * 400) mod 400) with yoe by lia_div.
  rewrite H. lia.
Qed.

(** Years 1 to 9999: the instants RFC 3339 can write. *)
Lemma of_days_year n : 0 <= n < 3652059 -> 1 <= year (of_days n) <= 9999.
Proof.
  intros Hn. unfold of_days. set (doe := _ mod _). set (era := _ / _).
  assert (Hs : n + epoch_shift = era * 146097 + doe) by (subst era doe; lia_div).
  assert (Hdoe : 0 <= doe < 146097) by (subst doe; lia_div).
  destruct (split_era doe) as [yoe doy] eqn:Es. cbn [year].
  apply split_era_spec in Es as (_ & Hyoe & Hdoy & _ & H1 & H2); [|done].
  rewrite jan_feb_doy by done. unfold epoch_shift in Hs. clearbody doe era.
  assert (0 <= era <= 24) by lia. destruct (306 <=? doy) eqn:E; lia.
Qed.
End Civil.

(** ** RFC 3339 *)

Module Rfc3339.
Definition digit (n : Z) : ascii := char (48 + n).
Definition is_digit (a : ascii) : bool := (48 <=? code a) && (code a <=? 57).

(** [k] decimal digits, most significant first. *)
Fixpoint pad (k : nat) (n : Z) (acc : string) : string :=
  match k with
  | O => acc
  | S k => pad k (n / 10) (String (digit (n mod 10)) acc)
  end.

(** Value of the first [k] bytes when they are digits, and the rest. *)
Fixpoint digits (k : nat) (acc : Z) (s : string) : option (Z * string) :=
  match k, s with
  | O, _ => Some (acc, s)
  | S k, String a s => if is_digit a then digits k (acc * 10 + (code a - 48)) s else None
  | S _, EmptyString => None
  end.

Definition ns_per_day : Z := 86400 * 1000000000.

(** Trailing zeros of the nine fraction digits are dropped; no fraction at
    all when the nanoseconds are 0. *)
Fixpoint trim_frac (k : nat) (n : Z) : nat * Z :=
  match k with
  | O => (O, n)
  | S k' => if n mod 10 =? 0 then trim_frac k' (n / 10) else (k, n)
  end.

Definition format_frac (nsec : Z) (acc : string) : string :=
  if nsec =? 0 then acc
  else let '(k, n) := trim_frac 9 nsec in String "." (pad k n acc).

(** [t.UTC().Format(time.RFC3339Nano)] for years 0 to 9999. *)
Definition Format (t : Time) : string :=
  let dt := Civil.of_days (t / ns_per_day) in
  let tod := t mod ns_per_day in
  let secs := tod / 1000000000 in
  let nsec := tod mod 1000000000 in
  pad 4 (Civil.year dt) (String "-" (pad 2 (Civil.month dt) (String "-"
    (pad 2 (Civil.day dt) (String "T" (pad 2 (secs / 3600) (String ":"
      (pad 2 (secs / 60 mod 60) (String ":" (pad 2 (secs mod 60)
        (format_frac nsec (String "Z" EmptyString)))))))))))).

Fixpoint span_digits (s : string) : string * string :=
  match s with
  | String a s' => if is_digit a then let '(d, r) := span_digits s' in (String a d, r) else (EmptyString, s)
  | EmptyString => (EmptyString, EmptyString)
  end.

(** [parseNanoseconds]: digits after the ninth are dropped. *)
Definition frac_value (d : string) : Z :=
  let k := Nat.min 9 (String.length d) in
  match digits k 0 d with
  | Some (v, _) => v * 10 ^ (9 - Z.of_nat k)
  | None => 0
  end.

Definition parse_frac (s : string) : Z * string :=
  match s with
  | String a (String b s') =>
      if (code a =? 46) && is_digit b
      then let '(d, r) := span_digits (String b s') in (frac_value d, r)
      else (0, s)
  | _ => (0, s)
  end.

Definition lit (c : ascii) (s : string) : option string :=
  match s with
  | String a s => if code a =? code c then Some s else None
  | EmptyString => None
  end.

Definition ranged (lo hi : Z) (r : option (Z * string)) : option (Z * string) :=
  '(v, s) ← r; if (lo <=? v) && (v <=? hi) then Some (v, s) else None.

Definition parse_zone (s : string) : option Z :=
  match s with
  | String a EmptyString => if code a =? 90 then Some 0 else None
  | String a s =>
      '(hr, s) ← ranged 0 23 (digits 2 0 s);
      s ← lit ":" s;
      '(mm, s) ← ranged 0 59 (digits 2 0 s);
      if negb (bool_decide (s = EmptyString)) then None
      else if code a =? 45 then Some (- ((hr * 60 + mm) * 60))
      else if code a =? 43 then Some ((hr * 60 + mm) * 60)
      else None
  | EmptyString => None
  end.

(** The RFC 3339 path of [time.Parse]. *)
Definition parse_fast (s : string) : option Time :=
  '(y, s) ← ranged 0 9999 (digits 4 0 s);
  s ← lit "-" s;
  '(m, s) ← ranged 1 12 (digits 2 0 s);
  s ← lit "-" s;
  '(d, s) ← ranged 1 (Civil.days_in m y) (digits 2 0 s);
  s ← lit "T" s;
  '(hh, s) ← ranged 0 23 (digits 2 0 s);
  s ← lit ":" s;
  '(mi, s) ← ranged 0 59 (digits 2 0 s);
  s ← lit ":" s;
  '(ss, s) ← ranged 0 59 (digits 2 0 s);
  let '(nsec, s) := parse_frac s in
  zone ← parse_zone s;
  Some (Civil.to_days (Civil.mkDate y m d) * ns_per_day
        + ((hh * 3600 + mi * 60 + ss) - zone) * 1000000000 + nsec).

(** The path [time.Parse] falls back to: the layout interpreter on
    "2006-01-02T15:04:05.999999999Z07:00". It also takes a one-digit hour,
    a comma before the fraction, and offsets up to 24:60. *)
Definition getnum (fixed : bool) (s : string) : option (Z * string) :=
  match s with
  | String a s' =>
      if negb (is_digit a) then None
      else match s' with
           | String b s'' =>
               if is_digit b then Some ((code a - 48) * 10 + (code b - 48), s'')
               else if fixed then None else Some (code a - 48, s')
           | EmptyString => if fixed then None else Some (code a - 48, s')
           end
  | EmptyString => None
  end.

Definition general_frac (s : string) : Z * string :=
  match s with
  | String a (String b s') =>
      if ((code a =? 46) || (code a =? 44)) && is_digit b
      then let '(d, r) := span_digits (String b s') in (frac_value d, r)
      else (0, s)
  | _ => (0, s)
  end.

Definition general_zone (s : string) : option Z :=
  match s with
  | String a EmptyString => if code a =? 90 then Some 0 else None
  | String a s =>
      if code a =? 90 then None
      else
        '(hr, s) ← ranged 0 24 (getnum true s);
        s ← lit ":" s;
        '(mm, s) ← ranged 0 60 (getnum true s);
        if negb (bool_decide (s = EmptyString)) then None
        else if code a =? 45 then Some (- ((hr * 60 + mm) * 60))
        else if code a =? 43 then Some ((hr * 60 + mm) * 60)
        else None
  | EmptyString => None
  end.

Definition parse_general (s : string) : option Time :=
  '(y, s) ← digits 4 0 s;
  s ← lit "-" s;
  '(m, s) ← ranged 1 12 (getnum true s);
  s ← lit "-" s;
  '(d, s) ← getnum true s;
  s ← lit "T" s;
  '(hh, s) ← ranged 0 23 (getnum false s);
  s ← lit ":" s;
  '(mi, s) ← ranged 0 59 (getnum true s);
  s ← lit ":" s;
  '(ss, s) ← ranged 0 59 (getnum true s);
  let '(nsec, s) := general_frac s in
  zone ← general_zone s;
  if (1 <=? d) && (d <=? Civil.days_in m y)
  then Some (Civil.to_days (Civil.mkDate y m d) * ns_per_day
             + ((hh * 3600 + mi * 60 + ss) - zone) * 1000000000 + nsec)
  else None.

Definition Parse (s : string) : option Time :=
  match parse_fast s with
  | Some t => Some t
  | None => parse_general s
  end.

(** *** Reading back what was written *)

Lemma code_digit d : 0 <= d <= 9 -> code (digit d) = 48 + d.
Proof.
  intros Hd. unfold digit, code, char. rewrite N_ascii_embedding by lia. lia.
Qed.

Lemma is_digit_digit d : 0 <= d <= 9 -> is_digit (digit d) = true.
Proof. intros Hd. unfold is_digit. rewrite code_digit by done. lia. Qed.

Lemma digits_pad k j a n acc :
  digits (k + j) a (pad k n acc) = digits j (a * 10 ^ Z.of_nat k + n mod 10 ^ Z.of_nat k) acc.
Proof.
  revert j n acc. induction k as [|k IH]; intros j n acc.
  { simpl. f_equal. rewrite Z.mod_1_r. lia. }
  cbn [pad]. replace (S k + j)%nat with (k + S j)%nat by lia. rewrite IH. cbn [digits].
  assert (0 <= n mod 10 <= 9) by lia_div.
  rewrite is_digit_digit, code_digit by done. f_equal.
  rewrite Nat2Z.inj_succ, Z.pow_succ_r by lia.
  rewrite Z.rem_mul_r by lia. lia.
Qed.

Lemma digits_pad_0 k n acc :
  0 <= n < 10 ^ Z.of_nat k -> digits k 0 (pad k n acc) = Some (n, acc).
Proof.
  intros Hn. replace k with (k + 0)%nat at 1 by lia. rewrite digits_pad. simpl.
  rewrite Z.mod_small by done. by destruct acc.
Qed.

Lemma trim_frac_spec k n k' n' :
  0 < n < 10 ^ Z.of_nat k -> trim_frac k n = (k', n') ->
  (1 <= k' <= k)%nat /\ 0 < n' < 10 ^ Z.of_nat k' /\ n = n' * 10 ^ (Z.of_nat k - Z.of_nat k').
Proof.
  revert n. induction k as [|k IH]; intros n Hn Ht; [simpl in Hn; lia|].
  cbn [trim_frac] in Ht. rewrite Nat2Z.inj_succ, Z.pow_succ_r in Hn by lia.
  destruct (n mod 10 =? 0) eqn:E.
  - apply IH in Ht as (Hk & Hn' & Hv); [|lia_div]. split; [lia|]. split; [done|].
    replace (Z.of_nat (S k) - Z.of_nat k') with (Z.succ (Z.of_nat k - Z.of_nat k')) by lia.
    rewrite Z.pow_succ_r by lia. lia_div.
  - injection Ht as <- <-. split; [lia|]. rewrite Z.sub_diag.
    rewrite Nat2Z.inj_succ, Z.pow_succ_r by lia. lia.
Qed.

Lemma span_digits_pad k n c r :
  is_digit c = false -> span_digits (pad k n (String c r)) = (pad k n EmptyString, String c r).
Proof.
  intros Hc. assert (Hgen : forall acc, span_digits acc.1 = (acc.2, String c r) ->
    span_digits (pad k n acc.1) = (pad k n acc.2, String c r)).
  { clear. revert n. induction k as [|k IH]; intros n [s d] H; [done|]. cbn [pad fst snd] in *.
    apply (IH (n / 10) (String _ s, String _ d)). cbn [fst snd span_digits].
    rewrite is_digit_digit by lia_div. by rewrite H. }
  apply (Hgen (String c r, EmptyString)). simpl. by rewrite Hc.
Qed.

Lemma length_pad k n acc : String.length (pad k n acc) = (k + String.length acc)%nat.
Proof. revert n acc. induction k; intros n acc; cbn [pad]; [done|]. rewrite IHk. simpl. lia. Qed.

Lemma pad_head k n acc :
  (1 <= k)%nat -> exists d s, 0 <= d <= 9 /\ pad k n acc = String (digit d) s.
Proof.
  revert n acc. induction k as [|[|k] IH]; intros n acc Hk; [lia|..].
  - eexists (n mod 10), acc. split; [lia_div|done].
  - cbn [pad]. apply (IH (n / 10) (String (digit (n mod 10)) acc)). lia.
Qed.

Lemma parse_format_frac nsec :
  0 <= nsec < 1000000000 ->
  parse_frac (format_frac nsec (String "Z" EmptyString)) = (nsec, String "Z" EmptyString).
Proof.
  intros Hn. unfold format_frac. destruct (nsec =? 0) eqn:E0; [by assert (nsec = 0) as -> by lia|].
  destruct (trim_frac 9 nsec) as [k n] eqn:Et.
  apply trim_frac_spec in Et as (Hk & Hn' & Hv); [|simpl; lia].
  destruct (pad_head k n (String "Z" EmptyString)) as (d & s & Hd & Hs); [lia|].
  unfold parse_frac. rewrite Hs, is_digit_digit by done. rewrite <-Hs. clear s Hs.
  rewrite span_digits_pad by done. cbn [Z.eqb andb]. simpl (code "." =? 46).
  cbn [andb]. f_equal. unfold frac_value. rewrite length_pad. simpl String.length.
  replace (Nat.min 9 (k + 0)) with k by lia. rewrite digits_pad_0 by lia. exact (eq_sym Hv).
Qed.

Lemma lit_same c s : lit c (String c s) = Some s.
Proof. unfold lit. by rewrite Z.eqb_refl. Qed.

Lemma ranged_pad lo hi k n acc :
  lo <= n <= hi -> 0 <= n < 10 ^ Z.of_nat k ->
  ranged lo hi (digits k 0 (pad k n acc)) = Some (n, acc).
Proof.
  intros H1 H2. rewrite digits_pad_0 by done. unfold ranged. cbn [mbind option_bind].
  by replace ((lo <=? n) && (n <=? hi)) with true by lia.
Qed.

Lemma days_in_le m y : Civil.days_in m y <= 31.
Proof. unfold Civil.days_in. repeat case_match; lia. Qed.

Lemma parse_Format t :
  0 <= t < 3652059 * ns_per_day -> parse_fast (Format t) = Some t.
Proof.
  intros Ht. set (n := t / ns_per_day).
  assert (Hn : 0 <= n < 3652059) by (subst n; unfold ns_per_day in *; lia_div).
  pose proof (Civil.of_days_valid n) as [Hm Hd]. pose proof (Civil.of_days_year n Hn) as Hy.
  pose proof (Civil.to_days_of_days n) as Hr. unfold Format. fold n.
  pose proof (days_in_le (Civil.month (Civil.of_days n)) (Civil.year (Civil.of_days n))) as H31.
  set (tod := t mod ns_per_day). assert (Htod : 0 <= tod < 86400000000000) by (subst tod; unfold ns_per_day; lia_div).
  assert (Hsplit : t = n * ns_per_day + tod) by (subst n tod; unfold ns_per_day; lia_div).
  clearbody n tod. destruct (Civil.of_days n) as [y m d]. cbn [Civil.year Civil.month Civil.day] in *.
  set (secs := tod / 1000000000). assert (0 <= secs < 86400) by (subst secs; lia_div).
  assert (Hs2 : tod = secs * 1000000000 + tod mod 1000000000) by (subst secs; lia_div).
  assert (0 <= tod mod 1000000000 < 1000000000) by lia_div.
  set (ns := tod mod 1000000000) in *. clearbody ns secs.
  unfold parse_fast.
  do 2 (rewrite ranged_pad by (simpl; lia_div); cbn [mbind option_bind]; rewrite lit_same; cbn [mbind option_bind]).
  rewrite ranged_pad by (simpl; lia). cbn [mbind option_bind]; rewrite lit_same; cbn [mbind option_bind].
  do 2 (rewrite ranged_pad by (simpl; lia_div); cbn [mbind option_bind]; rewrite lit_same; cbn [mbind option_bind]).
  rewrite ranged_pad by (simpl; lia_div). cbn [mbind option_bind].
  rewrite parse_format_frac by done. cbn [parse_zone mbind option_bind].
  simpl (code "Z" =? 90). cbn iota. cbn [mbind option_bind]. f_equal. rewrite Hr. lia_div.
Qed.
End Rfc3339.

(** ** The cursor *)

(** [strings.IndexByte]. *)
Fixpoint IndexByte (c : ascii) (s : string) : option nat :=
  match s with
  | EmptyString => None
  | String a s => if code a =? code c then Some O else S <$> IndexByte c s
  end.

Definition EncodeFollow (t : Time) (peer : string) : string :=
  Base64.EncodeToString (Rfc3339.Format t +:+ "|" +:+ peer).

(** [None] stands for [ok = false]; the time and peer are then zero values. *)
Definition DecodeFollow (cursor : option string) : option (Time * string) :=
  match cursor with
  | None => None
  | Some c =>
      if bool_decide (c = EmptyString) then None
      else
        raw ← Base64.DecodeString c;
        idx ← IndexByte "|" raw;
        if bool_decide (idx = 0%nat) || bool_decide (S idx = String.length raw) then None
        else
          t ← Rfc3339.Parse (string_take idx raw);
          Some (t, string_drop (S idx) raw)
  end.

Example decode_follow_ex :
  DecodeFollow (Some (EncodeFollow 63900000000123000000 "01ARZ3NDEKTSV4RRFFQ69G5FAV"))
  = Some (63900000000123000000, "01ARZ3NDEKTSV4RRFFQ69G5FAV"%string).
Proof. vm_compute. reflexivity. Qed.

(** *** Decoding an encoded cursor *)

Fixpoint all_bytes (f : Z -> bool) (s : string) : bool :=
  match s with
  | EmptyString => true
  | String a s => f (code a) && all_bytes f s
  end.

Lemma all_bytes_impl f g s :
  (forall c, f c = true -> g c = true) -> all_bytes f s = true -> all_bytes g s = true.
Proof. intros Hfg. induction s as [|a s IH]; [done|]. cbn. rewrite !andb_true_iff. intros [??]. auto. Qed.

(** The bytes of a time: digits, and the punctuation between them. *)
Definition time_byte (c : Z) : bool :=
  ((48 <=? c) && (c <=? 57)) || (c =? 45) || (c =? 46) || (c =? 58) || (c =? 84) || (c =? 90).

Lemma pad_bytes k n acc : 0 <= n -> all_bytes time_byte acc = true -> all_bytes time_byte (Rfc3339.pad k n acc) = true.
Proof.
  revert n acc. induction k as [|k IH]; intros n acc Hn Ha; [done|]. cbn [Rfc3339.pad].
  apply IH; [lia_div|]. cbn [all_bytes]. rewrite Rfc3339.code_digit by lia_div. rewrite Ha.
  unfold time_byte. replace ((48 <=? 48 + n mod 10) && (48 + n mod 10 <=? 57)) with true by lia_div. done.
Qed.

Lemma Format_bytes t : 0 <= t < 3652059 * Rfc3339.ns_per_day -> all_bytes time_byte (Rfc3339.Format t) = true.
Proof.
  intros Ht. unfold Rfc3339.Format. set (n := t / Rfc3339.ns_per_day).
  assert (0 <= n < 3652059) by (subst n; unfold Rfc3339.ns_per_day in *; lia_div).
  pose proof (Civil.of_days_valid n). pose proof (Civil.of_days_year n).
  assert (0 <= t mod Rfc3339.ns_per_day) by (unfold Rfc3339.ns_per_day; lia_div).
  assert (Hc : forall a s, time_byte (code a) = true -> all_bytes time_byte s = true -> all_bytes time_byte (String a s) = true).
  { intros a s Ha Hs. cbn [all_bytes]. by rewrite Ha, Hs. }
  do 6 (apply pad_bytes; [lia_div|]; try (apply Hc; [by vm_compute|])).
  unfold Rfc3339.format_frac. case_match; [done|].
  destruct (Rfc3339.trim_frac _ _) as [k f] eqn:E.
  apply Rfc3339.trim_frac_spec in E as (_ & Hf & _); [|simpl; lia_div].
  apply Hc; [by vm_compute|]. apply pad_bytes; [lia|done].
Qed.

Definition no_bar (s : string) : bool := all_bytes (fun c => negb (c =? 124)) s.

Lemma no_bar_Format t : 0 <= t < 3652059 * Rfc3339.ns_per_day -> no_bar (Rfc3339.Format t) = true.
Proof. intros Ht. eapply all_bytes_impl; [|by apply Format_bytes]. unfold time_byte. lia. Qed.

Lemma IndexByte_app s r : no_bar s = true -> IndexByte "|" (s +:+ "|" +:+ r) = Some (String.length s).
Proof.
  induction s as [|a s IH]; intros Hs; [done|]. simpl in Hs.
  apply andb_true_iff in Hs as [Ha Hs]. apply negb_true_iff in Ha.
  change (IndexByte "|" (String a s +:+ "|" +:+ r))
    with (if code a =? 124 then Some O else S <$> IndexByte "|" (s +:+ "|" +:+ r)).
  rewrite Ha. by rewrite IH.
Qed.

Lemma string_take_app s r : string_take (String.length s) (s +:+ r) = s.
Proof. induction s as [|a s IH]; [by destruct r|]. change (String a (string_take (String.length s) (s +:+ r)) = String a s). by rewrite IH. Qed.

Lemma string_drop_app s r : string_drop (String.length s) (s +:+ r) = r.
Proof. induction s as [|a s IH]; [by destruct r|]. exact IH. Qed.

Lemma length_append s r : String.length (s +:+ r) = (String.length s + String.length r)%nat.
Proof. induction s as [|a s IH]; [done|]. exact (f_equal S IH). Qed.

Lemma Format_nonempty t : (1 <= String.length (Rfc3339.Format t))%nat.
Proof. unfold Rfc3339.Format. rewrite Rfc3339.length_pad. lia. Qed.

Lemma EncodeFollow_nonempty t peer : EncodeFollow t peer <> EmptyString.
Proof.
  unfold EncodeFollow. pose proof (Format_nonempty t) as Hf.
  destruct (Rfc3339.Format t) as [|a [|b [|c f]]]; simpl in *; [lia|..]; by destruct peer.
Qed.

Lemma Decode_EncodeFollow t peer :
  0 <= t < 3652059 * Rfc3339.ns_per_day -> peer <> EmptyString ->
  DecodeFollow (Some (EncodeFollow t peer)) = Some (t, peer).
Proof.
  intros Ht Hp. pose proof (Rfc3339.parse_Format t Ht) as Hparse.
  pose proof (no_bar_Format t Ht) as Hnb. unfold DecodeFollow.
  rewrite bool_decide_eq_false_2 by apply EncodeFollow_nonempty.
  pose proof (Format_nonempty t) as Hlen. unfold EncodeFollow.
  set (f := Rfc3339.Format t) in *. clearbody f.
  rewrite Base64.Decode_Encode. cbn [mbind option_bind]. rewrite IndexByte_app by done.
  cbn [mbind option_bind]. rewrite !bool_decide_eq_false_2; [cbn [orb]| |lia]; last first.
  { rewrite !length_append. simpl. destruct peer; [done|]. simpl. lia. }
  rewrite string_take_app. unfold Rfc3339.Parse. rewrite Hparse. cbn [mbind option_bind]. do 2 f_equal.
  replace (S (String.length f)) with (String.length (f +:+ "|")).
  2:{ rewrite length_append. simpl. lia. }
  assert (E : f +:+ "|" +:+ peer = (f +:+ "|") +:+ peer).
  { clear. induction f as [|a f IH]; [done|]. exact (f_equal (String a) IH). }
  rewrite E. apply string_drop_app.
Qed.
