(* ===== verification/MemFollows.v ===== *)
(** * [inmemory.FollowRepository]: the follows table and its two listings *)

From S2P Require Import Prelude Errors Monad Domain Paging Cursor.

Module Follows.
Abbreviation state := (gmap (string * string) Follow.t).   (* (follower, followee) -> row *)

Definition Create (now : Time) (followerSub followeeSub : string) (follows : state) : state * bool :=
  match follows !! (followerSub, followeeSub) with
  | Some _ => (follows, false)
  | None => (<[(followerSub, followeeSub) := Follow.mk followerSub followeeSub now]> follows, true)
  end.

Definition Delete (followerSub followeeSub : string) (follows : state) : state * bool :=
  match follows !! (followerSub, followeeSub) with
  | None => (follows, false)
  | Some _ => (delete (followerSub, followeeSub) follows, true)
  end.

Definition IsFollowing (followerSub followeeSub : string) (follows : state) : bool :=
  bool_decide (is_Some (follows !! (followerSub, followeeSub))).

Definition peerSub (f : Follow.t) (followersSide : bool) : string :=
  if followersSide then Follow.FollowerSub f else Follow.FolloweeSub f.

(** The owner of the list [f] is shown in. *)
Definition ownerSub (f : Follow.t) (followersSide : bool) : string :=
  if followersSide then Follow.FolloweeSub f else Follow.FollowerSub f.

Definition isBefore (t : Time) (p : string) (ct : Time) (cp : string) : bool :=
  if negb (bool_decide (t = ct)) then Before t ct else str_lt p cp.

(** The order of the listing: [(created_at DESC, peer DESC)]. *)
Definition list_order (side : bool) : relation Follow.t := fun a b =>
  (Follow.CreatedAt b < Follow.CreatedAt a)%Z \/
  (Follow.CreatedAt a = Follow.CreatedAt b /\ String.le (peerSub b side) (peerSub a side)).

#[export] Instance list_order_dec side : RelDecision (list_order side).
Proof. intros a b. unfold list_order. apply _. Defined.
#[export] Instance list_order_trans side : Transitive (list_order side).
Proof.
  intros a b c [H1|[H1 H1']] [H2|[H2 H2']]; unfold list_order;
    [left; lia|left; lia|left; lia|right; split; [lia|by etrans]].
Qed.
#[export] Instance list_order_total side : Total (list_order side).
Proof.
  intros a b. unfold list_order.
  destruct (Z.lt_total (Follow.CreatedAt a) (Follow.CreatedAt b)) as [|[|]]; [tauto| |tauto].
  destruct (String.le_total (peerSub a side) (peerSub b side)); [right|left]; right; split; done.
Qed.

Section ops.
Context `{GoRuntime}.

Definition ListFollowingSubs (seed : nat) (followerSub : string) (follows : state) : list string :=
  omap (fun kv : (string * string) * Follow.t =>
          if bool_decide (kv.1.1 = followerSub) then Some kv.1.2 else None)
    (range_map seed follows).

(** The rows of one side of [sub]; [Some c] keeps what sorts after the
    decoded cursor. *)
Definition matches (seed : nat) (sub : string) (c : option (Time * string)) (side : bool)
    (follows : state) : list Follow.t :=
  omap (fun kv : (string * string) * Follow.t =>
          let '(follower, followee) := kv.1 in
          if side && negb (bool_decide (followee = sub)) then None
          else if negb side && negb (bool_decide (follower = sub)) then None
          else
            let peer := if side then follower else followee in
            match c with
            | Some (ct, cp) =>
                if isBefore (Follow.CreatedAt kv.2) peer ct cp then Some kv.2 else None
            | None => Some kv.2
            end)
    (range_map seed follows).

(** A malformed cursor is read as "start from the top". *)
Definition listSide (seed : nat) (sub : string) (cursor : option string) (limit : Z) (side : bool)
    (follows : state) : res (list Follow.t * string) :=
  if (limit <=? 0)%Z then Ok ([], "")
  else
    let ms := merge_sort (list_order side) (matches seed sub (DecodeFollow cursor) side follows) in
    if (Z.of_nat (length ms) <=? limit)%Z then Ok (ms, "")
    else
      let page := slice_to limit ms in
      match page !! Z.to_nat (limit - 1) with
      | Some last => Ok (page, EncodeFollow (Follow.CreatedAt last) (peerSub last side))
      | None => Panic "index out of range"
      end.

Definition ListFollowers (seed : nat) (sub : string) (cursor : option string) (limit : Z)
    (follows : state) : res (list Follow.t * string) :=
  listSide seed sub cursor limit true follows.

Definition ListFollowing (seed : nat) (sub : string) (cursor : option string) (limit : Z)
    (follows : state) : res (list Follow.t * string) :=
  listSide seed sub cursor limit false follows.

Definition AreFollowing (viewerSub : string) (targetSubs : list string) (follows : state)
    : gmap string bool :=
  collect_map (fun t =>
    if bool_decide (is_Some (follows !! (viewerSub, t))) then Some true else None) targetSubs.

(** ** The relation and its invariant *)

Definition following (follows : state) (a b : string) : Prop := is_Some (follows !! (a, b)).

Definition followers (follows : state) (b : string) : gset (string * string) :=
  filter (fun k => k.2 = b) (dom follows).
Definition followees (follows : state) (a : string) : gset (string * string) :=
  filter (fun k => k.1 = a) (dom follows).

(** Rows repeat their key; nobody follows themselves; the timestamp is one
    that RFC 3339 can write. *)
Definition wf (follows : state) : Prop := forall a b f, follows !! (a, b) = Some f ->
  Follow.FollowerSub f = a /\ Follow.FolloweeSub f = b /\ a <> "" /\ b <> "" /\ a <> b /\
  (0 <= Follow.CreatedAt f < 3652059 * Rfc3339.ns_per_day)%Z.

Lemma Create_wf now a b follows :
  wf follows -> a <> "" -> b <> "" -> a <> b -> (0 <= now < 3652059 * Rfc3339.ns_per_day)%Z ->
  wf (Create now a b follows).1.
Proof.
  intros Hwf Ha Hb Hab Hnow. unfold Create. destruct (follows !! (a, b)) eqn:E; [done|].
  intros x y f. cbn [fst]. destruct (decide ((x, y) = (a, b))) as [[= -> ->]|Hne].
  - rewrite lookup_insert_eq. intros [= <-]. done.
  - rewrite lookup_insert_ne by done. apply Hwf.
Qed.

Lemma Delete_wf a b follows : wf follows -> wf (Delete a b follows).1.
Proof.
  intros Hwf. unfold Delete. destruct (follows !! (a, b)) eqn:E; [|done].
  intros x y f. cbn [fst]. intros [_ Hl]%lookup_delete_Some. by apply Hwf.
Qed.

Lemma Create_followers now a b follows c :
  followers (Create now a b follows).1 c =
  (if bool_decide (c = b) then {[(a, b)]} ∪ followers follows c else followers follows c).
Proof.
  unfold Create, followers. destruct (follows !! (a, b)) eqn:E; cbn [fst].
  - case_bool_decide; [subst|done]. symmetry. apply subseteq_union_1_L.
    intros k ->%elem_of_singleton. apply elem_of_filter. split; [done|].
    by apply elem_of_dom_2 in E.
  - rewrite dom_insert_L. case_bool_decide; set_solver.
Qed.

Lemma Create_followees now a b follows c :
  followees (Create now a b follows).1 c =
  (if bool_decide (c = a) then {[(a, b)]} ∪ followees follows c else followees follows c).
Proof.
  unfold Create, followees. destruct (follows !! (a, b)) eqn:E; cbn [fst].
  - case_bool_decide; [subst|done]. symmetry. apply subseteq_union_1_L.
    intros k ->%elem_of_singleton. apply elem_of_filter. split; [done|].
    by apply elem_of_dom_2 in E.
  - rewrite dom_insert_L. case_bool_decide; set_solver.
Qed.

Lemma Delete_followers a b follows c :
  followers (Delete a b follows).1 c = followers follows c ∖ {[(a, b)]}.
Proof.
  unfold Delete, followers. destruct (follows !! (a, b)) eqn:E; cbn [fst].
  - rewrite dom_delete_L. set_solver.
  - apply not_elem_of_dom in E. set_solver.
Qed.

Lemma Delete_followees a b follows c :
  followees (Delete a b follows).1 c = followees follows c ∖ {[(a, b)]}.
Proof.
  unfold Delete, followees. destruct (follows !! (a, b)) eqn:E; cbn [fst].
  - rewrite dom_delete_L. set_solver.
  - apply not_elem_of_dom in E. set_solver.
Qed.

(** ** Pagination *)

Definition follow_list (seed : nat) (sub : string) (side : bool) (follows : state) : list Follow.t :=
  merge_sort (list_order side) (matches seed sub None side follows).

Lemma elem_of_matches seed sub c side follows f :
  wf follows ->
  f ∈ matches seed sub c side follows <->
  follows !! (Follow.FollowerSub f, Follow.FolloweeSub f) = Some f /\ ownerSub f side = sub /\
  match c with
  | Some (ct, cp) => isBefore (Follow.CreatedAt f) (peerSub f side) ct cp = true
  | None => True
  end.
Proof.
  intros Hwf. unfold matches. rewrite list_elem_of_omap. split.
  - intros ([[a b] g] & Hin%elem_of_range_map & Hg). cbn [fst snd] in Hg.
    destruct (Hwf _ _ _ Hin) as (Ha & Hb & _).
    destruct side; cbn [andb negb] in Hg; case_bool_decide; try done; cbn [negb] in Hg;
      destruct c as [[ct cp]|]; try case_match; simplify_eq; simpl; split_and!; done.
  - intros (Hin & Ho & Hc). exists ((Follow.FollowerSub f, Follow.FolloweeSub f), f).
    split; [by apply elem_of_range_map|]. cbn [fst snd].
    destruct side; cbn [andb negb]; unfold ownerSub, peerSub in *;
      (rewrite bool_decide_eq_true_2 by done); cbn [negb];
      destruct c as [[ct cp]|]; by rewrite ?Hc.
Qed.

Lemma NoDup_matches seed sub c side follows : wf follows -> NoDup (matches seed sub c side follows).
Proof.
  intros Hwf. unfold matches.
  assert (Hnd := NoDup_range_map seed follows).
  assert (Hin : forall kv, kv ∈ range_map seed follows -> kv.1 = (Follow.FollowerSub kv.2, Follow.FolloweeSub kv.2)).
  { intros [[a b] f] Hf%elem_of_range_map. destruct (Hwf _ _ _ Hf) as (<- & <- & _). done. }
  revert Hnd Hin. generalize (range_map seed follows) as l.
  induction l as [|kv l IH]; intros Hnd Hin; [constructor|].
  rewrite fmap_cons, NoDup_cons in Hnd. destruct Hnd as [Hni Hnd]. cbn [omap list_omap].
  match goal with |- context [match ?x with _ => _ end] => destruct x as [g|] eqn:Eg end;
    [|apply IH; [done|]; intros; apply Hin; by right].
  assert (g = kv.2) as ->.
  { revert Eg. destruct kv as [[a b] f]. cbn [fst snd]. repeat case_match; by intros [= <-]. }
  constructor; [|apply IH; [done|]; intros; apply Hin; by right].
  intros (kv' & Hkv' & E)%list_elem_of_omap. apply Hni.
  assert (kv'.2 = kv.2) as E2.
  { revert E. destruct kv' as [[a b] f]. cbn [fst snd]. repeat case_match; by intros [= <-]. }
  rewrite (Hin kv) by left. rewrite <-E2, <-(Hin kv') by (by right). by apply list_elem_of_fmap_2.
Qed.

(** Two rows of one list with the same peer are the same row. *)
Lemma list_peer_inj seed sub c side follows f g :
  wf follows -> f ∈ matches seed sub c side follows -> g ∈ matches seed sub c side follows ->
  peerSub f side = peerSub g side -> f = g.
Proof.
  intros Hwf (Hf & Hfo & _)%elem_of_matches (Hg & Hgo & _)%elem_of_matches E; [|done..].
  destruct side; unfold peerSub, ownerSub in *; congruence.
Qed.

Lemma list_order_anti seed sub c side follows f g :
  wf follows -> f ∈ matches seed sub c side follows -> g ∈ matches seed sub c side follows ->
  list_order side f g -> list_order side g f -> f = g.
Proof.
  intros Hwf Hf Hg [|[? ?]] [|[? ?]]; try lia. eapply list_peer_inj; [done..|].
  by apply (anti_symm String.le).
Qed.

Definition after (side : bool) (f g : Follow.t) : Prop :=
  isBefore (Follow.CreatedAt g) (peerSub g side) (Follow.CreatedAt f) (peerSub f side) = true.

Lemma isBefore_spec t p ct cp :
  isBefore t p ct cp = true <-> (t < ct)%Z \/ (t = ct /\ str_lt p cp = true).
Proof.
  unfold isBefore, Before. repeat case_bool_decide; simpl; try rewrite bool_decide_eq_true; intuition lia.
Qed.

Lemma after_irrefl side f : ~ after side f f.
Proof. intros [?|[_ E]]%isBefore_spec; [lia|]. unfold str_lt in E. by rewrite str_ltb_irrefl in E. Qed.

Lemma after_asym side f g : after side f g -> ~ after side g f.
Proof.
  intros H1%isBefore_spec H2%isBefore_spec. unfold str_lt in *. rewrite !str_lt_le in *.
  destruct H1 as [|[? [Hl1 Hn]]], H2 as [|[? [Hl2 _]]]; try lia.
  apply Hn. by apply (anti_symm String.le).
Qed.

Lemma follow_list_sorted seed sub c side follows :
  wf follows ->
  StronglySorted (after side) (merge_sort (list_order side) (matches seed sub c side follows)).
Proof.
  intros Hwf. set (ms := matches _ _ _ _ _).
  assert (Hs : StronglySorted (list_order side) (merge_sort (list_order side) ms))
    by (apply StronglySorted_merge_sort; apply _).
  assert (Hnd : NoDup (merge_sort (list_order side) ms)).
  { rewrite merge_sort_Permutation. by apply NoDup_matches. }
  assert (Hinj : forall f g, f ∈ merge_sort (list_order side) ms -> g ∈ merge_sort (list_order side) ms ->
    peerSub f side = peerSub g side -> f = g).
  { intros f g. rewrite !merge_sort_Permutation. by apply list_peer_inj. }
  revert Hs Hnd Hinj. generalize (merge_sort (list_order side) ms) as l.
  induction l as [|f l IH]; intros Hs Hnd Hinj; [constructor|].
  apply StronglySorted_cons in Hs as [Hf Hs]. apply NoDup_cons in Hnd as [Hni Hnd].
  constructor; [apply IH; [done..|]; intros; apply Hinj; by try right|].
  rewrite Forall_forall in *. intros g Hg. apply isBefore_spec.
  destruct (Hf g Hg) as [|[? Hle]]; [by left|right]. split; [done|].
  apply str_lt_le. split; [done|]. intros E. apply Hni.
  rewrite (Hinj f g); [done|left|by right|done].
Qed.
End ops.

Section paging.
Context `{GoRuntime}.
Context (follows : state) (sub : string) (side : bool) (limit : Z).
Hypothesis Hwf : wf follows.
Hypothesis Hlimit : (0 < limit)%Z.

Let l := follow_list 0 sub side follows.
Definition after_cursor (c : string) (f : Follow.t) : bool :=
  match DecodeFollow (Some c) with
  | Some (ct, cp) => isBefore (Follow.CreatedAt f) (peerSub f side) ct cp
  | None => true
  end.
Definition row_cursor (f : Follow.t) : string :=
  EncodeFollow (Follow.CreatedAt f) (peerSub f side).

Lemma follow_list_size seed : length (follow_list seed sub side follows) <= size follows.
Proof using Type.
  unfold follow_list. erewrite Permutation_length; [|apply merge_sort_Permutation]. unfold matches.
  assert (Hom : forall A B (f : A -> option B) (m : list A), length (omap f m) <= length m).
  { intros A B f m. induction m as [|x m IH]; cbn; [done|]. destruct (f x); cbn; lia. }
  etrans; [apply Hom|]. unfold range_map.
  erewrite Permutation_length; [|apply go_range_perm]. by rewrite length_map_to_list.
Qed.

Lemma elem_of_follow_list f : f ∈ l <->
  follows !! (Follow.FollowerSub f, Follow.FolloweeSub f) = Some f /\ ownerSub f side = sub.
Proof using Hwf.
  unfold l, follow_list. rewrite elem_of_merge_sort, elem_of_matches by done. tauto.
Qed.

Lemma after_row_cursor f g : f ∈ l -> g ∈ l ->
  after_cursor (row_cursor f) g = true <-> after side f g.
Proof using Hwf.
  intros [Hf _]%elem_of_follow_list _. destruct (Hwf _ _ _ Hf) as (_ & _ & Ha & Hb & _ & Ht).
  unfold after_cursor, row_cursor. rewrite Decode_EncodeFollow; [done|done|].
  unfold peerSub. by destruct side.
Qed.

Lemma matches_cursor seed c :
  merge_sort (list_order side) (matches seed sub (DecodeFollow (Some c)) side follows) =
  filter (fun f => after_cursor c f = true) l.
Proof using Hwf.
  apply (StronglySorted_unique_strong (list_order side)).
  - intros f g Hf Hg. rewrite elem_of_merge_sort in Hf.
    apply list_elem_of_filter in Hg as [_ Hg]. unfold l, follow_list in Hg.
    rewrite elem_of_merge_sort in Hg.
    apply (list_order_anti 0 sub None side follows); [done| |done].
    apply elem_of_matches in Hf as (? & ? & _); [|done]. by apply elem_of_matches.
  - apply StronglySorted_merge_sort; apply _.
  - apply StronglySorted_filter, StronglySorted_merge_sort; apply _.
  - apply NoDup_Permutation.
    + rewrite merge_sort_Permutation. by apply NoDup_matches.
    + apply NoDup_filter. unfold l, follow_list. rewrite merge_sort_Permutation. by apply NoDup_matches.
    + intros f. rewrite list_elem_of_filter, elem_of_merge_sort, elem_of_follow_list.
      rewrite elem_of_matches by done. unfold after_cursor.
      destruct (DecodeFollow (Some c)) as [[ct cp]|]; tauto.
Qed.

Lemma matches_top seed : merge_sort (list_order side) (matches seed sub None side follows) = l.
Proof using Hwf.
  apply merge_sort_proper; [apply _..| |].
  - intros f g. by apply list_order_anti.
  - apply omap_Permutation, range_map_perm.
Qed.

Definition cursor_of (nxt : string) : option string :=
  if bool_decide (nxt = "") then None else Some nxt.

(** A client that follows [next_cursor] until it is empty. *)
Fixpoint read_list (fuel seed : nat) (cursor : option string) : option (list Follow.t) :=
  match fuel with
  | O => None
  | S fuel =>
      match listSide seed sub cursor limit side follows with
      | Ok (page, nxt) =>
          match cursor_of nxt with
          | None => Some page
          | Some c => (page ++.) <$> read_list fuel (S seed) (Some c)
          end
      | _ => None
      end
  end.

Lemma listSide_page seed cursor :
  exists nxt, listSide seed sub cursor limit side follows =
    Ok (page after_cursor l (Z.to_nat limit) cursor, nxt) /\
    cursor_of nxt = next after_cursor row_cursor l (Z.to_nat limit) cursor.
Proof using Hwf Hlimit.
  set (n := Z.to_nat limit).
  assert (Hr : merge_sort (list_order side) (matches seed sub (DecodeFollow cursor) side follows)
               = rest after_cursor l cursor).
  { destruct cursor as [c|]; simpl; [by apply matches_cursor|by apply matches_top]. }
  unfold listSide. rewrite Hr. cbn zeta.
  assert ((limit <=? 0)%Z = false) as -> by lia.
  unfold next, page. set (r := rest _ _ _). clearbody r.
  destruct (decide (length r <= n)) as [Hle|Hgt].
  - assert ((Z.of_nat (length r) <=? limit)%Z = true) as -> by lia.
    exists "". rewrite bool_decide_eq_true_2, take_ge by done. done.
  - assert ((Z.of_nat (length r) <=? limit)%Z = false) as -> by lia.
    rewrite bool_decide_eq_false_2 by done. unfold slice_to. fold n.
    assert (Hlen : length (take n r) = n) by (rewrite length_take; lia).
    destruct (last (take n r)) as [p|] eqn:Hlast; last first.
    { apply last_None in Hlast. rewrite Hlast in Hlen. simpl in Hlen. lia. }
    pose proof Hlast as Hlk. rewrite last_lookup, Hlen in Hlk.
    replace (Z.to_nat (limit - 1)) with (pred n) by lia. rewrite Hlk.
    eexists. split; [done|]. simpl. unfold cursor_of, row_cursor.
    by rewrite bool_decide_eq_false_2 by apply EncodeFollow_nonempty.
Qed.

(** Following the cursors reads each row of the side once, in order. *)
Lemma read_list_all fuel seed :
  length l < fuel -> read_list fuel seed None = Some l.
Proof using Hwf Hlimit.
  intros Hf.
  assert (Hw : forall c, read_list fuel seed c = walk after_cursor row_cursor l (Z.to_nat limit) fuel c).
  { clear Hf. revert seed. induction fuel as [|fuel IH]; intros seed c; [done|].
    cbn [read_list walk]. destruct (listSide_page seed c) as (nxt & -> & ->).
    destruct (next _ _ _ _ _) as [c'|]; [|done]. by rewrite IH. }
  rewrite Hw. apply (walk_all (after side)); [..|done].
  - by apply follow_list_sorted.
  - apply after_irrefl.
  - apply after_asym.
  - apply after_row_cursor.
  - lia.
Qed.
End paging.

Lemma AreFollowing_lookup v ts follows t :
  AreFollowing v ts follows !! t =
  (if bool_decide (t ∈ ts /\ following follows v t) then Some true else None).
Proof.
  unfold AreFollowing. rewrite collect_map_lookup. unfold following.
  repeat case_bool_decide; naive_solver.
Qed.
End Follows.
