(* ===== verification/MemOGP.v ===== *)
(** * [inmemory.OGPCacheRepository] and [inmemory.OGPJobQueue] *)

From S2P Require Import Prelude Errors Monad Domain MemPosts.

Module OGPCache.
Abbreviation state := (gmap string OGPPreview.t).   (* url_hash -> row *)

Definition Get (urlHash : string) (rows : state) : option OGPPreview.t := rows !! urlHash.

(** A nil preview or one without a hash is ignored. *)
Definition Upsert (preview : option OGPPreview.t) (rows : state) : state :=
  match preview with
  | None => rows
  | Some p =>
      if bool_decide (OGPPreview.URLHash p = "") then rows
      else <[OGPPreview.URLHash p := p]> rows
  end.

Definition previews (links : Links.t) (rows : state) (postID : string) : list OGPPreview.t :=
  omap (fun l => rows !! Links.URLHash l) (Links.ogpLinksByPost postID links).

Definition ListByPostIDs (links : Links.t) (postIDs : list string) (rows : state)
    : gmap string (list OGPPreview.t) :=
  collect_map (fun pid =>
    if bool_decide (Links.ogpLinksByPost pid links = []) then None
    else
      let ps := previews links rows pid in
      if bool_decide (ps = []) then None else Some ps) postIDs.

(** Every row is stored under its own, non-empty hash. *)
Definition wf (rows : state) : Prop :=
  forall h p, rows !! h = Some p -> OGPPreview.URLHash p = h /\ h <> "".

Lemma Upsert_wf p rows : wf rows -> wf (Upsert p rows).
Proof.
  intros Hwf. destruct p as [p|]; [|done]. unfold Upsert. case_bool_decide; [done|].
  intros h q [[<- <-]|[? Hq]]%lookup_insert_Some; [done|by apply Hwf].
Qed.

Lemma ListByPostIDs_lookup links pids rows pid :
  ListByPostIDs links pids rows !! pid =
  (if bool_decide (pid ∈ pids /\ previews links rows pid <> [])
   then Some (previews links rows pid) else None).
Proof.
  unfold ListByPostIDs. rewrite collect_map_lookup.
  assert (Links.ogpLinksByPost pid links = [] -> previews links rows pid = []) as Hnil.
  { unfold previews. by intros ->. }
  repeat case_bool_decide; naive_solver.
Qed.
End OGPCache.

Module OGPQueue.
Abbreviation state := (gmap string OGPJob.t).   (* id -> job *)

Definition Enqueue (now : Time) (id urlHash url postID : string) (position : Z) (jobs : state) : state :=
  match jobs !! id with
  | Some _ => jobs
  | None =>
      <[id := OGPJob.mk id urlHash url postID position now None None OGPJobQueued 0 ""]> jobs
  end.

Definition set_running (now : Time) (j : OGPJob.t) : OGPJob.t :=
  OGPJob.mk (OGPJob.ID j) (OGPJob.URLHash j) (OGPJob.URL j) (OGPJob.PostID j) (OGPJob.Position j)
    (OGPJob.EnqueuedAt j) (Some now) (OGPJob.FinishedAt j) OGPJobRunning
    (wrap64 (OGPJob.Attempts j + 1)) (OGPJob.LastError j).
Definition set_done (now : Time) (j : OGPJob.t) : OGPJob.t :=
  OGPJob.mk (OGPJob.ID j) (OGPJob.URLHash j) (OGPJob.URL j) (OGPJob.PostID j) (OGPJob.Position j)
    (OGPJob.EnqueuedAt j) (OGPJob.StartedAt j) (Some now) OGPJobDone
    (OGPJob.Attempts j) (OGPJob.LastError j).
Definition set_failed (now : Time) (reason : string) (retriable : bool) (j : OGPJob.t) : OGPJob.t :=
  if retriable
  then OGPJob.mk (OGPJob.ID j) (OGPJob.URLHash j) (OGPJob.URL j) (OGPJob.PostID j) (OGPJob.Position j)
    (OGPJob.EnqueuedAt j) None (OGPJob.FinishedAt j) OGPJobQueued (OGPJob.Attempts j) reason
  else OGPJob.mk (OGPJob.ID j) (OGPJob.URLHash j) (OGPJob.URL j) (OGPJob.PostID j) (OGPJob.Position j)
    (OGPJob.EnqueuedAt j) (OGPJob.StartedAt j) (Some now) OGPJobFailed (OGPJob.Attempts j) reason.

(** One turn of the scan for the oldest queued job. *)
Definition older (oldest : option (string * OGPJob.t)) (kv : string * OGPJob.t)
    : option (string * OGPJob.t) :=
  if negb (bool_decide (OGPJob.Status kv.2 = OGPJobQueued)) then oldest
  else match oldest with
       | None => Some kv
       | Some o => if Before (OGPJob.EnqueuedAt kv.2) (OGPJob.EnqueuedAt o.2) then Some kv else oldest
       end.

Definition oldest_queued `{GoRuntime} (seed : nat) (jobs : state) : option (string * OGPJob.t) :=
  foldl older None (range_map seed jobs).

Definition Claim `{GoRuntime} (now : Time) (seed : nat) (jobs : state) : state * option OGPJob.t :=
  match oldest_queued seed jobs with
  | None => (jobs, None)
  | Some (id, j) => let j := set_running now j in (<[id := j]> jobs, Some j)
  end.

Definition MarkDone (now : Time) (jobID : string) (jobs : state) : state :=
  match jobs !! jobID with
  | Some j => <[jobID := set_done now j]> jobs
  | None => jobs
  end.

Definition MarkFailed (now : Time) (jobID reason : string) (retriable : bool) (jobs : state) : state :=
  match jobs !! jobID with
  | Some j => <[jobID := set_failed now reason retriable j]> jobs
  | None => jobs
  end.

(** Jobs are stored under their own identifier. *)
Definition wf (jobs : state) : Prop := forall id j, jobs !! id = Some j -> OGPJob.ID j = id.

Definition queued (j : OGPJob.t) : Prop := OGPJob.Status j = OGPJobQueued.

Section lemmas.
Context `{GoRuntime}.

Lemma scan_spec (l : list (string * OGPJob.t)) (o : option (string * OGPJob.t)) r :
  (forall kv, o = Some kv -> queued kv.2) ->
  foldl older o l = r ->
  match r with
  | None => o = None /\ (forall kv, kv ∈ l -> ~ queued kv.2)
  | Some m =>
      (o = Some m \/ m ∈ l) /\ queued m.2 /\
      (forall kv, (o = Some kv \/ kv ∈ l) -> queued kv.2 ->
         (OGPJob.EnqueuedAt m.2 <= OGPJob.EnqueuedAt kv.2)%Z)
  end.
Proof.
  revert o. induction l as [|kv l IH]; intros o Ho; cbn [foldl].
  { intros <-. destruct o as [m|].
    - split; [by left|]. split; [by apply Ho|]. intros kv [[= ->]|Hn%not_elem_of_nil]; done.
    - split; [done|]. by intros kv ?%not_elem_of_nil. }
  intros Hr. assert (Hstep : forall kv', older o kv = Some kv' -> queued kv'.2).
  { intros kv'. unfold older. case_bool_decide as Hq; cbn [negb]; [|apply Ho].
    destruct o as [m|]; [|intros E; by injection E as <-].
    destruct (Before _ _); [intros E; by injection E as <-|apply Ho]. }
  specialize (IH _ Hstep Hr). destruct r as [m|].
  - destruct IH as (Hm & Hq & Hmin). unfold older in Hm, Hmin. unfold queued in *.
    case_bool_decide as Hkv; cbn [negb] in Hm, Hmin.
    + destruct o as [o|].
      * unfold Before in *. case_bool_decide as Hb.
        -- split; [right; set_solver|]. split; [done|]. intros x [[= <-]|Hx] Hxq.
           ++ etrans; [apply (Hmin kv); [by left|done]|lia].
           ++ apply elem_of_cons in Hx as [->|Hx]; apply Hmin; auto.
        -- split; [set_solver|]. split; [done|]. intros x [[= <-]|Hx] Hxq; [by apply Hmin; [left|]|].
           apply elem_of_cons in Hx as [->|Hx]; [|by apply Hmin; [right|]].
           etrans; [apply (Hmin o); [by left|by apply Ho]|lia].
      * split; [right; set_solver|]. split; [done|]. intros x [?|Hx] Hxq; [done|].
        apply elem_of_cons in Hx as [->|Hx]; apply Hmin; auto.
    + split; [set_solver|]. split; [done|]. intros x [->|Hx] Hxq; [by apply Hmin; [left|]|].
      apply elem_of_cons in Hx as [->|Hx]; [done|by apply Hmin; [right|]].
  - destruct IH as [Hn Hall]. unfold older in Hn. unfold queued in *.
    case_bool_decide as Hkv; cbn [negb] in Hn.
    + destruct o; [|done]. by case_match.
    + split; [done|]. intros x [->|Hx]%elem_of_cons; [done|auto].
Qed.

Lemma oldest_queued_spec seed jobs :
  match oldest_queued seed jobs with
  | None => forall id j, jobs !! id = Some j -> ~ queued j
  | Some (id, j) =>
      jobs !! id = Some j /\ queued j /\
      forall id' j', jobs !! id' = Some j' -> queued j' ->
        (OGPJob.EnqueuedAt j <= OGPJob.EnqueuedAt j')%Z
  end.
Proof.
  pose proof (scan_spec (range_map seed jobs) None _ ltac:(done) eq_refl) as Hs.
  unfold oldest_queued. destruct (foldl _ _ _) as [[id j]|].
  - destruct Hs as ([?|Hin%elem_of_range_map] & Hq & Hmin); [done|].
    split; [done|]. split; [done|]. intros id' j' Hj' Hq'.
    apply (Hmin (id', j')); [right; by apply elem_of_range_map|done].
  - destruct Hs as [_ Hs]. intros id j Hj. apply (Hs (id, j)). by apply elem_of_range_map.
Qed.

Lemma Enqueue_wf now id h url pid pos jobs : wf jobs -> wf (Enqueue now id h url pid pos jobs).
Proof.
  intros Hwf. unfold Enqueue. destruct (jobs !! id) eqn:E; [done|].
  intros i j [[<- <-]|[? Hq]]%lookup_insert_Some; [done|by apply Hwf].
Qed.

Lemma Claim_wf now seed jobs : wf jobs -> wf (Claim now seed jobs).1.
Proof.
  intros Hwf. unfold Claim. pose proof (oldest_queued_spec seed jobs) as Ho.
  destruct (oldest_queued seed jobs) as [[id j]|]; [|done]. destruct Ho as (Hj & _). cbn [fst].
  intros i x [[<- <-]|[? Hq]]%lookup_insert_Some; [by apply (Hwf _ _ Hj)|by apply Hwf].
Qed.

Lemma MarkDone_wf now id jobs : wf jobs -> wf (MarkDone now id jobs).
Proof.
  intros Hwf. unfold MarkDone. destruct (jobs !! id) eqn:E; [|done].
  intros i x [[<- <-]|[? Hq]]%lookup_insert_Some; [by apply (Hwf _ _ E)|by apply Hwf].
Qed.

Lemma MarkFailed_wf now id reason r jobs : wf jobs -> wf (MarkFailed now id reason r jobs).
Proof.
  intros Hwf. unfold MarkFailed. destruct (jobs !! id) eqn:E; [|done].
  intros i x [[<- <-]|[? Hq]]%lookup_insert_Some; [|by apply Hwf].
  unfold set_failed. destruct r; by apply (Hwf _ _ E).
Qed.
End lemmas.
End OGPQueue.
