(* ===== verification/Repository.v ===== *)
(** * [internal/repository]: the interfaces the use cases are written against

    One Module per Go interface: its methods as a Class over a state [S], and
    its specification, the functions on the logical database [DB] that the
    method must perform. [Store] is the contract between a backend and its
    clients: a [view] of the backend's state as a [DB], under which each
    method is one atomic step of its specification or, for a backend that can
    fail, an error that leaves the view alone. Two backends meet it: the
    in-memory one, and the same one behind an unreliable connection. *)

From S2P Require Import Prelude Errors Monad Domain.
From S2P Require Import MemUsers MemPosts MemLikes MemTags MemBadges MemFollows MemOGP.

(** ** The logical database

    [ulids] counts the identifiers minted so far. *)

Record DB := mkDB {
  users : gmap string User.t;
  posts : gmap string Post.t;
  links : Links.t;
  images : gmap string Image.t;
  likes : gmap string (gmap string Time);
  tags : Tags.state;
  badges : Badges.state;
  follows : gmap (string * string) Follow.t;
  ogp : gmap string OGPPreview.t;
  jobs : gmap string OGPJob.t;
  ulids : nat;
}.

Definition empty_DB : DB := mkDB ∅ ∅ Links.NewLinkStore ∅ ∅ Tags.empty Badges.empty ∅ ∅ ∅ 0.

Definition with_users x d := mkDB x (posts d) (links d) (images d) (likes d) (tags d) (badges d) (follows d) (ogp d) (jobs d) (ulids d).
Definition with_posts x d := mkDB (users d) x (links d) (images d) (likes d) (tags d) (badges d) (follows d) (ogp d) (jobs d) (ulids d).
Definition with_links x d := mkDB (users d) (posts d) x (images d) (likes d) (tags d) (badges d) (follows d) (ogp d) (jobs d) (ulids d).
Definition with_images x d := mkDB (users d) (posts d) (links d) x (likes d) (tags d) (badges d) (follows d) (ogp d) (jobs d) (ulids d).
Definition with_likes x d := mkDB (users d) (posts d) (links d) (images d) x (tags d) (badges d) (follows d) (ogp d) (jobs d) (ulids d).
Definition with_tags x d := mkDB (users d) (posts d) (links d) (images d) (likes d) x (badges d) (follows d) (ogp d) (jobs d) (ulids d).
Definition with_badges x d := mkDB (users d) (posts d) (links d) (images d) (likes d) (tags d) x (follows d) (ogp d) (jobs d) (ulids d).
Definition with_follows x d := mkDB (users d) (posts d) (links d) (images d) (likes d) (tags d) (badges d) x (ogp d) (jobs d) (ulids d).
Definition with_ogp x d := mkDB (users d) (posts d) (links d) (images d) (likes d) (tags d) (badges d) (follows d) x (jobs d) (ulids d).
Definition with_jobs x d := mkDB (users d) (posts d) (links d) (images d) (likes d) (tags d) (badges d) (follows d) (ogp d) x (ulids d).
Definition with_ulids x d := mkDB (users d) (posts d) (links d) (images d) (likes d) (tags d) (badges d) (follows d) (ogp d) (jobs d) x.

(** What one atomic call does to the database at tick [t] of the runtime:
    [clock t] is the time it reads and [t] seeds its map iterations. *)
Definition spec (A : Type) : Type := nat -> DB -> DB * res A.

Definition query {A} (f : nat -> DB -> A) : spec A := fun t d => (d, Ok (f t d)).
Definition update (f : nat -> DB -> DB) : spec unit := fun t d => (f t d, Ok tt).

(** ** Interfaces *)

Module UserRepository.
Class t (S : Type) := {
  GetBySub : string -> M S (option User.t);
  Upsert : User.t -> M S User.t;
  UpdateProfile : string -> UpdateUserProfileRequest.t -> M S (option User.t);
  List : Z -> Z -> M S (list User.t * Z);
  ListBySubs : list string -> M S (gmap string User.t);
  IncrementFollowersCount : string -> M S unit;
  DecrementFollowersCount : string -> M S unit;
  IncrementFollowingCount : string -> M S unit;
  DecrementFollowingCount : string -> M S unit;
  Delete : string -> M S unit;
}.

Section specs.
Context `{GoRuntime}.
Definition GetBySub_spec sub : spec (option User.t) :=
  query (fun _ d => Users.GetBySub sub (users d)).
Definition Upsert_spec u : spec User.t := fun t d =>
  let r := Users.Upsert (clock t) u (users d) in (with_users r.1 d, Ok r.2).
Definition UpdateProfile_spec sub req : spec (option User.t) := fun t d =>
  let r := Users.UpdateProfile (clock t) sub req (users d) in (with_users r.1 d, Ok r.2).
Definition List_spec limit offset : spec (list User.t * Z) := fun t d =>
  (d, Users.List t limit offset (users d)).
Definition ListBySubs_spec subs : spec (gmap string User.t) :=
  query (fun _ d => Users.ListBySubs subs (users d)).
Definition IncrementFollowersCount_spec sub : spec unit :=
  update (fun _ d => with_users (Users.IncrementFollowersCount sub (users d)) d).
Definition DecrementFollowersCount_spec sub : spec unit :=
  update (fun _ d => with_users (Users.DecrementFollowersCount sub (users d)) d).
Definition IncrementFollowingCount_spec sub : spec unit :=
  update (fun _ d => with_users (Users.IncrementFollowingCount sub (users d)) d).
Definition DecrementFollowingCount_spec sub : spec unit :=
  update (fun _ d => with_users (Users.DecrementFollowingCount sub (users d)) d).
Definition Delete_spec sub : spec unit :=
  update (fun t d => with_users (Users.Delete (clock t) sub (users d)) d).
End specs.
End UserRepository.

Module FollowRepository.
Class t (S : Type) := {
  Create : string -> string -> M S bool;
  Delete : string -> string -> M S bool;
  IsFollowing : string -> string -> M S bool;
  ListFollowingSubs : string -> M S (list string);
  ListFollowers : string -> option string -> Z -> M S (list Follow.t * string);
  ListFollowing : string -> option string -> Z -> M S (list Follow.t * string);
  AreFollowing : string -> list string -> M S (gmap string bool);
}.

Section specs.
Context `{GoRuntime}.
Definition Create_spec a b : spec bool := fun t d =>
  let r := Follows.Create (clock t) a b (follows d) in (with_follows r.1 d, Ok r.2).
Definition Delete_spec a b : spec bool := fun t d =>
  let r := Follows.Delete a b (follows d) in (with_follows r.1 d, Ok r.2).
Definition IsFollowing_spec a b : spec bool :=
  query (fun _ d => Follows.IsFollowing a b (follows d)).
Definition ListFollowingSubs_spec a : spec (list string) :=
  query (fun t d => Follows.ListFollowingSubs t a (follows d)).
Definition ListFollowers_spec sub cursor limit : spec (list Follow.t * string) := fun t d =>
  (d, Follows.ListFollowers t sub cursor limit (follows d)).
Definition ListFollowing_spec sub cursor limit : spec (list Follow.t * string) := fun t d =>
  (d, Follows.ListFollowing t sub cursor limit (follows d)).
Definition AreFollowing_spec v ts : spec (gmap string bool) :=
  query (fun _ d => Follows.AreFollowing v ts (follows d)).
End specs.
End FollowRepository.

Module PostRepository.
Class t (S : Type) := {
  GetByID : string -> M S (option Post.t);
  Create : Post.t -> list string -> list string -> M S Post.t;
  Delete : string -> M S unit;
  List : option string -> option string -> Z -> M S (list Post.t * string);
  ListByUserIDs : list string -> option string -> Z -> M S (list Post.t * string);
  ListReplies : string -> option string -> Z -> M S (list Post.t * string);
  IncrementRepliesCount : string -> M S unit;
  DecrementRepliesCount : string -> M S unit;
  IncrementLikesCount : string -> M S unit;
  DecrementLikesCount : string -> M S unit;
  AttachOGP : string -> string -> Z -> M S unit;
}.

Section specs.
Context `{GoRuntime}.
Definition GetByID_spec id : spec (option Post.t) :=
  query (fun _ d => Posts.GetByID id (posts d)).
Definition Create_spec p imageIDs tagIDs : spec Post.t := fun t d =>
  let r := Posts.Create (clock t) p imageIDs tagIDs (links d, posts d) in
  (with_links r.1.1 (with_posts r.1.2 d), Ok r.2).
Definition Delete_spec id : spec unit :=
  update (fun t d => with_posts (Posts.Delete (clock t) id (posts d)) d).
Definition List_spec userID cursor limit : spec (list Post.t * string) := fun t d =>
  (d, Posts.List t userID cursor limit (posts d)).
Definition ListByUserIDs_spec userIDs cursor limit : spec (list Post.t * string) := fun t d =>
  (d, Posts.ListByUserIDs t userIDs cursor limit (posts d)).
Definition ListReplies_spec postID cursor limit : spec (list Post.t * string) := fun t d =>
  (d, Posts.ListReplies t postID cursor limit (posts d)).
Definition IncrementRepliesCount_spec id : spec unit :=
  update (fun _ d => with_posts (Posts.IncrementRepliesCount id (posts d)) d).
Definition DecrementRepliesCount_spec id : spec unit :=
  update (fun _ d => with_posts (Posts.DecrementRepliesCount id (posts d)) d).
Definition IncrementLikesCount_spec id : spec unit :=
  update (fun _ d => with_posts (Posts.IncrementLikesCount id (posts d)) d).
Definition DecrementLikesCount_spec id : spec unit :=
  update (fun _ d => with_posts (Posts.DecrementLikesCount id (posts d)) d).
Definition AttachOGP_spec pid hash pos : spec unit :=
  update (fun _ d => with_links (Posts.AttachOGP pid hash pos (links d)) d).
End specs.
End PostRepository.

Module LikeRepository.
Class t (S : Type) := {
  Create : string -> string -> M S bool;
  Delete : string -> string -> M S bool;
  IsLikedBy : string -> string -> M S bool;
  ListLikedPostIDsByUser : string -> list string -> M S (gmap string bool);
}.

Section specs.
Context `{GoRuntime}.
Definition Create_spec u p : spec bool := fun t d =>
  let r := Likes.Create (clock t) u p (likes d) in (with_likes r.1 d, Ok r.2).
Definition Delete_spec u p : spec bool := fun t d =>
  let r := Likes.Delete u p (likes d) in (with_likes r.1 d, Ok r.2).
Definition IsLikedBy_spec u p : spec bool := query (fun _ d => Likes.IsLikedBy u p (likes d)).
Definition ListLikedPostIDsByUser_spec u ps : spec (gmap string bool) :=
  query (fun _ d => Likes.ListLikedPostIDsByUser u ps (likes d)).
End specs.
End LikeRepository.

Module TagRepository.
Class t (S : Type) := {
  UpsertByNames : list string -> M S (list Tag.t);
  ListByPostID : string -> M S (list Tag.t);
  ListByPostIDs : list string -> M S (gmap string (list Tag.t));
}.

Section specs.
Context `{GoRuntime}.
Definition UpsertByNames_spec names : spec (list Tag.t) := fun t d =>
  let r := Tags.UpsertByNames (clock t) (ulids d) names (tags d) in
  (with_ulids r.1.1 (with_tags r.1.2 d), r.2).
Definition ListByPostID_spec pid : spec (list Tag.t) :=
  query (fun t d => Tags.ListByPostID t (links d) pid (tags d)).
Definition ListByPostIDs_spec pids : spec (gmap string (list Tag.t)) :=
  query (fun t d => Tags.ListByPostIDs t (links d) pids (tags d)).
End specs.
End TagRepository.

Module ImageRepository.
Class t (S : Type) := {
  GetByID : string -> M S (option Image.t);
  GetByUserID : string -> M S (list Image.t);
  Create : Image.t -> M S Image.t;
  Delete : string -> M S unit;
  ListByPostID : string -> M S (list Image.t);
  ListByPostIDs : list string -> M S (gmap string (list Image.t));
}.

Section specs.
Context `{GoRuntime}.
Definition GetByID_spec id : spec (option Image.t) := query (fun _ d => Images.GetByID id (images d)).
Definition GetByUserID_spec u : spec (list Image.t) :=
  query (fun t d => Images.GetByUserID t u (images d)).
Definition Create_spec i : spec Image.t := fun t d =>
  let r := Images.Create (clock t) i (images d) in (with_images r.1 d, Ok r.2).
Definition Delete_spec id : spec unit :=
  update (fun t d => with_images (Images.Delete (clock t) id (images d)) d).
Definition ListByPostID_spec pid : spec (list Image.t) :=
  query (fun _ d => Images.ListByPostID (links d) pid (images d)).
Definition ListByPostIDs_spec pids : spec (gmap string (list Image.t)) :=
  query (fun _ d => Images.ListByPostIDs (links d) pids (images d)).
End specs.
End ImageRepository.

Module BadgeRepository.
Class t (S : Type) := {
  ListAll : M S (list Badge.t);
  GetByKey : string -> M S (option Badge.t);
  GetByID : string -> M S (option Badge.t);
  Create : Badge.t -> M S (option Badge.t);
  Update : Badge.t -> M S (option Badge.t);
  Grant : string -> string -> string -> option Time -> string -> M S unit;
  Revoke : string -> string -> M S unit;
  ListByUserID : string -> M S (list Badge.t);
  ListByUserIDs : list string -> M S (gmap string (list Badge.t));
}.

Section specs.
Context `{GoRuntime}.
Definition ListAll_spec : spec (list Badge.t) := query (fun t d => Badges.ListAll t (badges d)).
Definition GetByKey_spec k : spec (option Badge.t) := fun _ d => (d, Badges.GetByKey k (badges d)).
Definition GetByID_spec id : spec (option Badge.t) := query (fun _ d => Badges.GetByID id (badges d)).
Definition Create_spec b : spec (option Badge.t) := fun t d =>
  let r := Badges.Create (clock t) b (badges d) in (with_badges r.1 d, Ok r.2).
Definition Update_spec b : spec (option Badge.t) := fun t d =>
  let r := Badges.Update (clock t) b (badges d) in (with_badges r.1 d, Ok r.2).
Definition Grant_spec u b g e why : spec unit :=
  update (fun t d => with_badges (Badges.Grant (clock t) u b g e why (badges d)) d).
Definition Revoke_spec u b : spec unit :=
  update (fun _ d => with_badges (Badges.Revoke u b (badges d)) d).
Definition ListByUserID_spec u : spec (list Badge.t) :=
  query (fun t d => Badges.ListByUserID (clock t) t u (badges d)).
Definition ListByUserIDs_spec us : spec (gmap string (list Badge.t)) :=
  query (fun t d => Badges.ListByUserIDs (clock t) t us (badges d)).
End specs.
End BadgeRepository.

Module OGPCacheRepository.
Class t (S : Type) := {
  Get : string -> M S (option OGPPreview.t);
  Upsert : option OGPPreview.t -> M S unit;
  ListByPostIDs : list string -> M S (gmap string (list OGPPreview.t));
}.

Section specs.
Context `{GoRuntime}.
Definition Get_spec h : spec (option OGPPreview.t) := query (fun _ d => OGPCache.Get h (ogp d)).
Definition Upsert_spec p : spec unit := update (fun _ d => with_ogp (OGPCache.Upsert p (ogp d)) d).
Definition ListByPostIDs_spec pids : spec (gmap string (list OGPPreview.t)) :=
  query (fun _ d => OGPCache.ListByPostIDs (links d) pids (ogp d)).
End specs.
End OGPCacheRepository.

Module OGPJobQueue.
Class t (S : Type) := {
  Enqueue : string -> string -> string -> string -> Z -> M S unit;
  Claim : string -> M S (option OGPJob.t);
  MarkDone : string -> M S unit;
  MarkFailed : string -> string -> bool -> M S unit;
}.

Section specs.
Context `{GoRuntime}.
Definition Enqueue_spec id h url pid pos : spec unit :=
  update (fun t d => with_jobs (OGPQueue.Enqueue (clock t) id h url pid pos (jobs d)) d).
Definition Claim_spec : spec (option OGPJob.t) := fun t d =>
  let r := OGPQueue.Claim (clock t) t (jobs d) in (with_jobs r.1 d, Ok r.2).
Definition MarkDone_spec id : spec unit :=
  update (fun t d => with_jobs (OGPQueue.MarkDone (clock t) id (jobs d)) d).
Definition MarkFailed_spec id why retriable : spec unit :=
  update (fun t d => with_jobs (OGPQueue.MarkFailed (clock t) id why retriable (jobs d)) d).
End specs.
End OGPJobQueue.

(** [time.Now()] and [ulid.Make().String()] as the use cases call them. *)
Module Runtime.
Class t (S : Type) := {
  Now : M S Time;
  MakeULID : M S string;
}.

Section specs.
Context `{GoRuntime}.
Definition Now_spec : spec Time := query (fun t _ => clock t).
Definition MakeULID_spec : spec string := fun _ d =>
  (with_ulids (S (ulids d)) d, Ok (ulid_Make (ulids d))).
End specs.
End Runtime.
