(* ===== verification/Backend.v ===== *)
(** * What a storage backend promises

    [Backend S] packages the interfaces of [Repository] with the contract
    their clients rely on. [vwp] is the calculus the use-case proofs run in:
    it speaks of the logical database only, so that a theorem proved with it
    holds for every backend. The two instances at the end are the in-memory
    store and the same store behind a connection that may break. *)

From S2P Require Import Prelude Errors Monad Domain Repository.

Class Store (S : Type) := {
  view : S -> DB;
  faults : bool;    (* whether a call may fail without taking effect *)
}.

Arguments faults S {_}.

(** A call is one step of its specification, or it failed and changed nothing. *)
Definition implements {S : Type} `{Store S} {A} (m : M S A) (f : spec A) : Prop := forall s,
  (exists t, f t (view s) = (view (m s).1, (m s).2)) \/
  (faults S = true /\ view (m s).1 = view s /\ exists e, (m s).2 = Err e).

(** Calls that cannot fail: the clock and the identifier generator. *)
Definition implements_exactly {S : Type} `{Store S} {A} (m : M S A) (f : spec A) : Prop := forall s,
  exists t, f t (view s) = (view (m s).1, (m s).2).

Class Backend `{GoRuntime} (S : Type) := {
  backend_store :: Store S;
  backend_UserRepository :: UserRepository.t S;
  backend_FollowRepository :: FollowRepository.t S;
  backend_PostRepository :: PostRepository.t S;
  backend_LikeRepository :: LikeRepository.t S;
  backend_TagRepository :: TagRepository.t S;
  backend_ImageRepository :: ImageRepository.t S;
  backend_BadgeRepository :: BadgeRepository.t S;
  backend_OGPCacheRepository :: OGPCacheRepository.t S;
  backend_OGPJobQueue :: OGPJobQueue.t S;
  backend_Runtime :: Runtime.t S;
  UserRepository_GetBySub_ok : forall x1, implements (UserRepository.GetBySub x1) (UserRepository.GetBySub_spec x1);
  UserRepository_Upsert_ok : forall x1, implements (UserRepository.Upsert x1) (UserRepository.Upsert_spec x1);
  UserRepository_UpdateProfile_ok : forall x1 x2, implements (UserRepository.UpdateProfile x1 x2) (UserRepository.UpdateProfile_spec x1 x2);
  UserRepository_List_ok : forall x1 x2, implements (UserRepository.List x1 x2) (UserRepository.List_spec x1 x2);
  UserRepository_ListBySubs_ok : forall x1, implements (UserRepository.ListBySubs x1) (UserRepository.ListBySubs_spec x1);
  UserRepository_IncrementFollowersCount_ok : forall x1, implements (UserRepository.IncrementFollowersCount x1) (UserRepository.IncrementFollowersCount_spec x1);
  UserRepository_DecrementFollowersCount_ok : forall x1, implements (UserRepository.DecrementFollowersCount x1) (UserRepository.DecrementFollowersCount_spec x1);
  UserRepository_IncrementFollowingCount_ok : forall x1, implements (UserRepository.IncrementFollowingCount x1) (UserRepository.IncrementFollowingCount_spec x1);
  UserRepository_DecrementFollowingCount_ok : forall x1, implements (UserRepository.DecrementFollowingCount x1) (UserRepository.DecrementFollowingCount_spec x1);
  UserRepository_Delete_ok : forall x1, implements (UserRepository.Delete x1) (UserRepository.Delete_spec x1);
  FollowRepository_Create_ok : forall x1 x2, implements (FollowRepository.Create x1 x2) (FollowRepository.Create_spec x1 x2);
  FollowRepository_Delete_ok : forall x1 x2, implements (FollowRepository.Delete x1 x2) (FollowRepository.Delete_spec x1 x2);
  FollowRepository_IsFollowing_ok : forall x1 x2, implements (FollowRepository.IsFollowing x1 x2) (FollowRepository.IsFollowing_spec x1 x2);
  FollowRepository_ListFollowingSubs_ok : forall x1, implements (FollowRepository.ListFollowingSubs x1) (FollowRepository.ListFollowingSubs_spec x1);
  FollowRepository_ListFollowers_ok : forall x1 x2 x3, implements (FollowRepository.ListFollowers x1 x2 x3) (FollowRepository.ListFollowers_spec x1 x2 x3);
  FollowRepository_ListFollowing_ok : forall x1 x2 x3, implements (FollowRepository.ListFollowing x1 x2 x3) (FollowRepository.ListFollowing_spec x1 x2 x3);
  FollowRepository_AreFollowing_ok : forall x1 x2, implements (FollowRepository.AreFollowing x1 x2) (FollowRepository.AreFollowing_spec x1 x2);
  PostRepository_GetByID_ok : forall x1, implements (PostRepository.GetByID x1) (PostRepository.GetByID_spec x1);
  PostRepository_Create_ok : forall x1 x2 x3, implements (PostRepository.Create x1 x2 x3) (PostRepository.Create_spec x1 x2 x3);
  PostRepository_Delete_ok : forall x1, implements (PostRepository.Delete x1) (PostRepository.Delete_spec x1);
  PostRepository_List_ok : forall x1 x2 x3, implements (PostRepository.List x1 x2 x3) (PostRepository.List_spec x1 x2 x3);
  PostRepository_ListByUserIDs_ok : forall x1 x2 x3, implements (PostRepository.ListByUserIDs x1 x2 x3) (PostRepository.ListByUserIDs_spec x1 x2 x3);
  PostRepository_ListReplies_ok : forall x1 x2 x3, implements (PostRepository.ListReplies x1 x2 x3) (PostRepository.ListReplies_spec x1 x2 x3);
  PostRepository_IncrementRepliesCount_ok : forall x1, implements (PostRepository.IncrementRepliesCount x1) (PostRepository.IncrementRepliesCount_spec x1);
  PostRepository_DecrementRepliesCount_ok : forall x1, implements (PostRepository.DecrementRepliesCount x1) (PostRepository.DecrementRepliesCount_spec x1);
  PostRepository_IncrementLikesCount_ok : forall x1, implements (PostRepository.IncrementLikesCount x1) (PostRepository.IncrementLikesCount_spec x1);
  PostRepository_DecrementLikesCount_ok : forall x1, implements (PostRepository.DecrementLikesCount x1) (PostRepository.DecrementLikesCount_spec x1);
  PostRepository_AttachOGP_ok : forall x1 x2 x3, implements (PostRepository.AttachOGP x1 x2 x3) (PostRepository.AttachOGP_spec x1 x2 x3);
  LikeRepository_Create_ok : forall x1 x2, implements (LikeRepository.Create x1 x2) (LikeRepository.Create_spec x1 x2);
  LikeRepository_Delete_ok : forall x1 x2, implements (LikeRepository.Delete x1 x2) (LikeRepository.Delete_spec x1 x2);
  LikeRepository_IsLikedBy_ok : forall x1 x2, implements (LikeRepository.IsLikedBy x1 x2) (LikeRepository.IsLikedBy_spec x1 x2);
  LikeRepository_ListLikedPostIDsByUser_ok : forall x1 x2, implements (LikeRepository.ListLikedPostIDsByUser x1 x2) (LikeRepository.ListLikedPostIDsByUser_spec x1 x2);
  TagRepository_UpsertByNames_ok : forall x1, implements (TagRepository.UpsertByNames x1) (TagRepository.UpsertByNames_spec x1);
  TagRepository_ListByPostID_ok : forall x1, implements (TagRepository.ListByPostID x1) (TagRepository.ListByPostID_spec x1);
  TagRepository_ListByPostIDs_ok : forall x1, implements (TagRepository.ListByPostIDs x1) (TagRepository.ListByPostIDs_spec x1);
  ImageRepository_GetByID_ok : forall x1, implements (ImageRepository.GetByID x1) (ImageRepository.GetByID_spec x1);
  ImageRepository_GetByUserID_ok : forall x1, implements (ImageRepository.GetByUserID x1) (ImageRepository.GetByUserID_spec x1);
  ImageRepository_Create_ok : forall x1, implements (ImageRepository.Create x1) (ImageRepository.Create_spec x1);
  ImageRepository_Delete_ok : forall x1, implements (ImageRepository.Delete x1) (ImageRepository.Delete_spec x1);
  ImageRepository_ListByPostID_ok : forall x1, implements (ImageRepository.ListByPostID x1) (ImageRepository.ListByPostID_spec x1);
  ImageRepository_ListByPostIDs_ok : forall x1, implements (ImageRepository.ListByPostIDs x1) (ImageRepository.ListByPostIDs_spec x1);
  BadgeRepository_ListAll_ok : implements (BadgeRepository.ListAll) (BadgeRepository.ListAll_spec);
  BadgeRepository_GetByKey_ok : forall x1, implements (BadgeRepository.GetByKey x1) (BadgeRepository.GetByKey_spec x1);
  BadgeRepository_GetByID_ok : forall x1, implements (BadgeRepository.GetByID x1) (BadgeRepository.GetByID_spec x1);
  BadgeRepository_Create_ok : forall x1, implements (BadgeRepository.Create x1) (BadgeRepository.Create_spec x1);
  BadgeRepository_Update_ok : forall x1, implements (BadgeRepository.Update x1) (BadgeRepository.Update_spec x1);
  BadgeRepository_Grant_ok : forall x1 x2 x3 x4 x5, implements (BadgeRepository.Grant x1 x2 x3 x4 x5) (BadgeRepository.Grant_spec x1 x2 x3 x4 x5);
  BadgeRepository_Revoke_ok : forall x1 x2, implements (BadgeRepository.Revoke x1 x2) (BadgeRepository.Revoke_spec x1 x2);
  BadgeRepository_ListByUserID_ok : forall x1, implements (BadgeRepository.ListByUserID x1) (BadgeRepository.ListByUserID_spec x1);
  BadgeRepository_ListByUserIDs_ok : forall x1, implements (BadgeRepository.ListByUserIDs x1) (BadgeRepository.ListByUserIDs_spec x1);
  OGPCacheRepository_Get_ok : forall x1, implements (OGPCacheRepository.Get x1) (OGPCacheRepository.Get_spec x1);
  OGPCacheRepository_Upsert_ok : forall x1, implements (OGPCacheRepository.Upsert x1) (OGPCacheRepository.Upsert_spec x1);
  OGPCacheRepository_ListByPostIDs_ok : forall x1, implements (OGPCacheRepository.ListByPostIDs x1) (OGPCacheRepository.ListByPostIDs_spec x1);
  OGPJobQueue_Enqueue_ok : forall x1 x2 x3 x4 x5, implements (OGPJobQueue.Enqueue x1 x2 x3 x4 x5) (OGPJobQueue.Enqueue_spec x1 x2 x3 x4 x5);
  OGPJobQueue_Claim_ok : forall w, implements (OGPJobQueue.Claim w) OGPJobQueue.Claim_spec;
  OGPJobQueue_MarkDone_ok : forall x1, implements (OGPJobQueue.MarkDone x1) (OGPJobQueue.MarkDone_spec x1);
  OGPJobQueue_MarkFailed_ok : forall x1 x2 x3, implements (OGPJobQueue.MarkFailed x1 x2 x3) (OGPJobQueue.MarkFailed_spec x1 x2 x3);
  Runtime_Now_ok : implements_exactly (Runtime.Now) (Runtime.Now_spec);
  Runtime_MakeULID_ok : implements_exactly (Runtime.MakeULID) (Runtime.MakeULID_spec);
}.

Create HintDb store.
#[export] Hint Resolve
  UserRepository_GetBySub_ok
  UserRepository_Upsert_ok
  UserRepository_UpdateProfile_ok
  UserRepository_List_ok
  UserRepository_ListBySubs_ok
  UserRepository_IncrementFollowersCount_ok
  UserRepository_DecrementFollowersCount_ok
  UserRepository_IncrementFollowingCount_ok
  UserRepository_DecrementFollowingCount_ok
  UserRepository_Delete_ok
  FollowRepository_Create_ok
  FollowRepository_Delete_ok
  FollowRepository_IsFollowing_ok
  FollowRepository_ListFollowingSubs_ok
  FollowRepository_ListFollowers_ok
  FollowRepository_ListFollowing_ok
  FollowRepository_AreFollowing_ok
  PostRepository_GetByID_ok
  PostRepository_Create_ok
  PostRepository_Delete_ok
  PostRepository_List_ok
  PostRepository_ListByUserIDs_ok
  PostRepository_ListReplies_ok
  PostRepository_IncrementRepliesCount_ok
  PostRepository_DecrementRepliesCount_ok
  PostRepository_IncrementLikesCount_ok
  PostRepository_DecrementLikesCount_ok
  PostRepository_AttachOGP_ok
  LikeRepository_Create_ok
  LikeRepository_Delete_ok
  LikeRepository_IsLikedBy_ok
  LikeRepository_ListLikedPostIDsByUser_ok
  TagRepository_UpsertByNames_ok
  TagRepository_ListByPostID_ok
  TagRepository_ListByPostIDs_ok
  ImageRepository_GetByID_ok
  ImageRepository_GetByUserID_ok
  ImageRepository_Create_ok
  ImageRepository_Delete_ok
  ImageRepository_ListByPostID_ok
  ImageRepository_ListByPostIDs_ok
  BadgeRepository_ListAll_ok
  BadgeRepository_GetByKey_ok
  BadgeRepository_GetByID_ok
  BadgeRepository_Create_ok
  BadgeRepository_Update_ok
  BadgeRepository_Grant_ok
  BadgeRepository_Revoke_ok
  BadgeRepository_ListByUserID_ok
  BadgeRepository_ListByUserIDs_ok
  OGPCacheRepository_Get_ok
  OGPCacheRepository_Upsert_ok
  OGPCacheRepository_ListByPostIDs_ok
  OGPJobQueue_Enqueue_ok
  OGPJobQueue_Claim_ok
  OGPJobQueue_MarkDone_ok
  OGPJobQueue_MarkFailed_ok
  Runtime_Now_ok
  Runtime_MakeULID_ok : store.

(** ** Reasoning about a client through the view *)

Section vwp.
Context {S : Type} `{Store S}.

Definition vwp {A} (m : M S A) (d : DB) (Q : res A -> DB -> Prop) : Prop :=
  forall s, view s = d -> Q (m s).2 (view (m s).1).

Lemma vwp_mono {A} (m : M S A) d (Q Q' : res A -> DB -> Prop) :
  vwp m d Q -> (forall r d', Q r d' -> Q' r d') -> vwp m d Q'.
Proof. unfold vwp. auto. Qed.

Lemma vwp_and {A} (m : M S A) d (Q Q' : res A -> DB -> Prop) :
  vwp m d Q -> vwp m d Q' -> vwp m d (fun r d' => Q r d' /\ Q' r d').
Proof. unfold vwp. auto. Qed.

Lemma vwp_ret {A} (a : A) d (Q : res A -> DB -> Prop) : Q (Ok a) d -> vwp (ret a) d Q.
Proof. by intros HQ s <-. Qed.

Lemma vwp_fail {A} e d (Q : res A -> DB -> Prop) : Q (Err e) d -> vwp (fail e) d Q.
Proof. by intros HQ s <-. Qed.

Lemma vwp_bind {A B} (m : M S A) (f : A -> M S B) d (Q : res B -> DB -> Prop) :
  vwp m d (fun r d' =>
    match r with
    | Ok a => vwp (f a) d' Q
    | Err e => Q (Err e) d'
    | Panic p => Q (Panic p) d'
    end) ->
  vwp (bind m f) d Q.
Proof.
  intros Hm s Hs. specialize (Hm s Hs). unfold bind.
  destruct (m s) as [s' [a|e|p]]; cbn [fst snd] in *; [|done..]. by apply Hm.
Qed.

Lemma vwp_map_err {A} g (m : M S A) d (Q : res A -> DB -> Prop) :
  vwp m d (fun r d' => match r with Err e => Q (Err (g e)) d' | r => Q r d' end) ->
  vwp (map_err g m) d Q.
Proof.
  intros Hm s Hs. specialize (Hm s Hs). unfold map_err. by destruct (m s) as [s' [a|e|p]].
Qed.

Lemma vwp_try {A} (m : M S A) d (Q : res (goerror + A) -> DB -> Prop) :
  vwp m d (fun r d' =>
    match r with
    | Ok a => Q (Ok (inr a)) d'
    | Err e => Q (Ok (inl e)) d'
    | Panic p => Q (Panic p) d'
    end) ->
  vwp (try m) d Q.
Proof.
  intros Hm s Hs. specialize (Hm s Hs). unfold try. by destruct (m s) as [s' [a|e|p]].
Qed.

Lemma vwp_guard b e d (Q : res unit -> DB -> Prop) :
  (b = true -> Q (Err e) d) -> (b = false -> Q (Ok tt) d) -> vwp (guard b e) d Q.
Proof. intros H1 H2 s Hs. unfold guard. destruct b; cbn; rewrite Hs; auto. Qed.

Lemma vwp_for_each {A} (f : A -> M S unit) l d
    (I : list A -> DB -> Prop) (Q : res unit -> DB -> Prop) :
  I l d ->
  (forall x l' d', I (x :: l') d' ->
    vwp (f x) d' (fun r d'' => match r with
                           | Ok _ => I l' d''
                           | Err e => Q (Err e) d''
                           | Panic p => Q (Panic p) d''
                           end)) ->
  (forall d', I [] d' -> Q (Ok tt) d') ->
  vwp (for_each f l) d Q.
Proof.
  intros HI Hstep Hend. revert d HI.
  induction l as [|x l IH]; intros d HI; cbn [for_each].
  - apply vwp_ret. auto.
  - apply vwp_bind. eapply vwp_mono; [apply Hstep, HI|]. intros [[]|e|p] d'; auto.
Qed.

(** The client's view of one repository call. *)
Lemma vwp_op {A} (m : M S A) f d (Q : res A -> DB -> Prop) :
  implements m f ->
  (forall t, Q (f t d).2 (f t d).1) ->
  (faults S = true -> forall e, Q (Err e) d) ->
  vwp m d Q.
Proof.
  intros Hm Hok Herr s Hs. destruct (Hm s) as [[t Ht]|(Hf & Hv & [e He])].
  - specialize (Hok t). by rewrite <-Hs, Ht in Hok.
  - rewrite Hv, He, Hs. auto.
Qed.

Lemma vwp_exact {A} (m : M S A) f d (Q : res A -> DB -> Prop) :
  implements_exactly m f -> (forall t, Q (f t d).2 (f t d).1) -> vwp m d Q.
Proof.
  intros Hm Hok s Hs. destruct (Hm s) as [t Ht]. specialize (Hok t). by rewrite <-Hs, Ht in Hok.
Qed.
End vwp.

(** Compute what a specification does to the database. *)
Ltac spec_cbn :=
  cbn [UserRepository.GetBySub_spec
    UserRepository.Upsert_spec
    UserRepository.UpdateProfile_spec
    UserRepository.List_spec
    UserRepository.ListBySubs_spec
    UserRepository.IncrementFollowersCount_spec
    UserRepository.DecrementFollowersCount_spec
    UserRepository.IncrementFollowingCount_spec
    UserRepository.DecrementFollowingCount_spec
    UserRepository.Delete_spec
    FollowRepository.Create_spec
    FollowRepository.Delete_spec
    FollowRepository.IsFollowing_spec
    FollowRepository.ListFollowingSubs_spec
    FollowRepository.ListFollowers_spec
    FollowRepository.ListFollowing_spec
    FollowRepository.AreFollowing_spec
    PostRepository.GetByID_spec
    PostRepository.Create_spec
    PostRepository.Delete_spec
    PostRepository.List_spec
    PostRepository.ListByUserIDs_spec
    PostRepository.ListReplies_spec
    PostRepository.IncrementRepliesCount_spec
    PostRepository.DecrementRepliesCount_spec
    PostRepository.IncrementLikesCount_spec
    PostRepository.DecrementLikesCount_spec
    PostRepository.AttachOGP_spec
    LikeRepository.Create_spec
    LikeRepository.Delete_spec
    LikeRepository.IsLikedBy_spec
    LikeRepository.ListLikedPostIDsByUser_spec
    TagRepository.UpsertByNames_spec
    TagRepository.ListByPostID_spec
    TagRepository.ListByPostIDs_spec
    ImageRepository.GetByID_spec
    ImageRepository.GetByUserID_spec
    ImageRepository.Create_spec
    ImageRepository.Delete_spec
    ImageRepository.ListByPostID_spec
    ImageRepository.ListByPostIDs_spec
    BadgeRepository.ListAll_spec
    BadgeRepository.GetByKey_spec
    BadgeRepository.GetByID_spec
    BadgeRepository.Create_spec
    BadgeRepository.Update_spec
    BadgeRepository.Grant_spec
    BadgeRepository.Revoke_spec
    BadgeRepository.ListByUserID_spec
    BadgeRepository.ListByUserIDs_spec
    OGPCacheRepository.Get_spec
    OGPCacheRepository.Upsert_spec
    OGPCacheRepository.ListByPostIDs_spec
    OGPJobQueue.Enqueue_spec
    OGPJobQueue.Claim_spec
    OGPJobQueue.MarkDone_spec
    OGPJobQueue.MarkFailed_spec
    Runtime.Now_spec
    Runtime.MakeULID_spec
    query update fst snd
    users posts links images likes tags badges follows ogp jobs ulids
    with_users with_posts with_links with_images with_likes with_tags with_badges with_follows
    with_ogp with_jobs with_ulids].

(** One step of a symbolic run: peel a control operator, or make a call. *)
Ltac vstep :=
  lazymatch goal with
  | |- vwp (bind _ _) _ _ => apply vwp_bind
  | |- vwp (map_err _ _) _ _ => apply vwp_map_err
  | |- vwp (try _) _ _ => apply vwp_try
  | |- vwp (ret _) _ _ => apply vwp_ret
  | |- vwp (fail _) _ _ => apply vwp_fail
  | |- vwp (guard _ _) _ _ => apply vwp_guard; intros
  | |- vwp (if ?b then _ else _) _ _ => destruct b eqn:?
  | |- vwp (match ?x with _ => _ end) _ _ => destruct x eqn:?
  | |- vwp ((fun _ => _) _) _ _ => cbv beta
  | |- vwp _ _ _ =>
      first [ eapply vwp_op; [solve [eauto with store]|intros ?t; spec_cbn|intros ? ?]
            | eapply vwp_exact; [solve [eauto with store]|intros ?t; spec_cbn] ]
  end.

(** ** The in-memory backend *)

Record World := mkWorld { tick : nat; db : DB }.

Section memory.
Context `{GoRuntime}.

(** The repository's mutex makes each call one step. *)
Definition atomic {A} (f : spec A) : M World A := fun w =>
  let '(d, r) := f (tick w) (db w) in (mkWorld (S (tick w)) d, r).

#[export] Instance mem_Store : Store World := {| view := db; faults := false |}.

Lemma atomic_exactly {A} (f : spec A) : implements_exactly (atomic f) f.
Proof. intros [t d]. exists t. unfold atomic. cbn. by destruct (f t d). Qed.

Lemma atomic_ok {A} (f : spec A) : implements (atomic f) f.
Proof. intros w. left. apply atomic_exactly. Qed.

#[export] Instance mem_UserRepository : UserRepository.t World := {|
  UserRepository.GetBySub x1 := atomic (UserRepository.GetBySub_spec x1);
  UserRepository.Upsert x1 := atomic (UserRepository.Upsert_spec x1);
  UserRepository.UpdateProfile x1 x2 := atomic (UserRepository.UpdateProfile_spec x1 x2);
  UserRepository.List x1 x2 := atomic (UserRepository.List_spec x1 x2);
  UserRepository.ListBySubs x1 := atomic (UserRepository.ListBySubs_spec x1);
  UserRepository.IncrementFollowersCount x1 := atomic (UserRepository.IncrementFollowersCount_spec x1);
  UserRepository.DecrementFollowersCount x1 := atomic (UserRepository.DecrementFollowersCount_spec x1);
  UserRepository.IncrementFollowingCount x1 := atomic (UserRepository.IncrementFollowingCount_spec x1);
  UserRepository.DecrementFollowingCount x1 := atomic (UserRepository.DecrementFollowingCount_spec x1);
  UserRepository.Delete x1 := atomic (UserRepository.Delete_spec x1)
|}.

#[export] Instance mem_FollowRepository : FollowRepository.t World := {|
  FollowRepository.Create x1 x2 := atomic (FollowRepository.Create_spec x1 x2);
  FollowRepository.Delete x1 x2 := atomic (FollowRepository.Delete_spec x1 x2);
  FollowRepository.IsFollowing x1 x2 := atomic (FollowRepository.IsFollowing_spec x1 x2);
  FollowRepository.ListFollowingSubs x1 := atomic (FollowRepository.ListFollowingSubs_spec x1);
  FollowRepository.ListFollowers x1 x2 x3 := atomic (FollowRepository.ListFollowers_spec x1 x2 x3);
  FollowRepository.ListFollowing x1 x2 x3 := atomic (FollowRepository.ListFollowing_spec x1 x2 x3);
  FollowRepository.AreFollowing x1 x2 := atomic (FollowRepository.AreFollowing_spec x1 x2)
|}.

#[export] Instance mem_PostRepository : PostRepository.t World := {|
  PostRepository.GetByID x1 := atomic (PostRepository.GetByID_spec x1);
  PostRepository.Create x1 x2 x3 := atomic (PostRepository.Create_spec x1 x2 x3);
  PostRepository.Delete x1 := atomic (PostRepository.Delete_spec x1);
  PostRepository.List x1 x2 x3 := atomic (PostRepository.List_spec x1 x2 x3);
  PostRepository.ListByUserIDs x1 x2 x3 := atomic (PostRepository.ListByUserIDs_spec x1 x2 x3);
  PostRepository.ListReplies x1 x2 x3 := atomic (PostRepository.ListReplies_spec x1 x2 x3);
  PostRepository.IncrementRepliesCount x1 := atomic (PostRepository.IncrementRepliesCount_spec x1);
  PostRepository.DecrementRepliesCount x1 := atomic (PostRepository.DecrementRepliesCount_spec x1);
  PostRepository.IncrementLikesCount x1 := atomic (PostRepository.IncrementLikesCount_spec x1);
  PostRepository.DecrementLikesCount x1 := atomic (PostRepository.DecrementLikesCount_spec x1);
  PostRepository.AttachOGP x1 x2 x3 := atomic (PostRepository.AttachOGP_spec x1 x2 x3)
|}.

#[export] Instance mem_LikeRepository : LikeRepository.t World := {|
  LikeRepository.Create x1 x2 := atomic (LikeRepository.Create_spec x1 x2);
  LikeRepository.Delete x1 x2 := atomic (LikeRepository.Delete_spec x1 x2);
  LikeRepository.IsLikedBy x1 x2 := atomic (LikeRepository.IsLikedBy_spec x1 x2);
  LikeRepository.ListLikedPostIDsByUser x1 x2 := atomic (LikeRepository.ListLikedPostIDsByUser_spec x1 x2)
|}.

#[export] Instance mem_TagRepository : TagRepository.t World := {|
  TagRepository.UpsertByNames x1 := atomic (TagRepository.UpsertByNames_spec x1);
  TagRepository.ListByPostID x1 := atomic (TagRepository.ListByPostID_spec x1);
  TagRepository.ListByPostIDs x1 := atomic (TagRepository.ListByPostIDs_spec x1)
|}.

#[export] Instance mem_ImageRepository : ImageRepository.t World := {|
  ImageRepository.GetByID x1 := atomic (ImageRepository.GetByID_spec x1);
  ImageRepository.GetByUserID x1 := atomic (ImageRepository.GetByUserID_spec x1);
  ImageRepository.Create x1 := atomic (ImageRepository.Create_spec x1);
  ImageRepository.Delete x1 := atomic (ImageRepository.Delete_spec x1);
  ImageRepository.ListByPostID x1 := atomic (ImageRepository.ListByPostID_spec x1);
  ImageRepository.ListByPostIDs x1 := atomic (ImageRepository.ListByPostIDs_spec x1)
|}.

#[export] Instance mem_BadgeRepository : BadgeRepository.t World := {|
  BadgeRepository.ListAll := atomic (BadgeRepository.ListAll_spec);
  BadgeRepository.GetByKey x1 := atomic (BadgeRepository.GetByKey_spec x1);
  BadgeRepository.GetByID x1 := atomic (BadgeRepository.GetByID_spec x1);
  BadgeRepository.Create x1 := atomic (BadgeRepository.Create_spec x1);
  BadgeRepository.Update x1 := atomic (BadgeRepository.Update_spec x1);
  BadgeRepository.Grant x1 x2 x3 x4 x5 := atomic (BadgeRepository.Grant_spec x1 x2 x3 x4 x5);
  BadgeRepository.Revoke x1 x2 := atomic (BadgeRepository.Revoke_spec x1 x2);
  BadgeRepository.ListByUserID x1 := atomic (BadgeRepository.ListByUserID_spec x1);
  BadgeRepository.ListByUserIDs x1 := atomic (BadgeRepository.ListByUserIDs_spec x1)
|}.

#[export] Instance mem_OGPCacheRepository : OGPCacheRepository.t World := {|
  OGPCacheRepository.Get x1 := atomic (OGPCacheRepository.Get_spec x1);
  OGPCacheRepository.Upsert x1 := atomic (OGPCacheRepository.Upsert_spec x1);
  OGPCacheRepository.ListByPostIDs x1 := atomic (OGPCacheRepository.ListByPostIDs_spec x1)
|}.

#[export] Instance mem_OGPJobQueue : OGPJobQueue.t World := {|
  OGPJobQueue.Enqueue x1 x2 x3 x4 x5 := atomic (OGPJobQueue.Enqueue_spec x1 x2 x3 x4 x5);
  OGPJobQueue.Claim _ := atomic OGPJobQueue.Claim_spec;
  OGPJobQueue.MarkDone x1 := atomic (OGPJobQueue.MarkDone_spec x1);
  OGPJobQueue.MarkFailed x1 x2 x3 := atomic (OGPJobQueue.MarkFailed_spec x1 x2 x3)
|}.

#[export] Instance mem_Runtime : Runtime.t World := {|
  Runtime.Now := atomic (Runtime.Now_spec);
  Runtime.MakeULID := atomic (Runtime.MakeULID_spec)
|}.

#[export] Program Instance mem_Backend : Backend World := {| backend_store := mem_Store |}.
Solve All Obligations with (intros; first [apply atomic_exactly|apply atomic_ok]).
End memory.

(** ** The same backend behind a connection that may break

    [broken t] says whether the call made at tick [t] fails. *)

Record Flaky (broken : nat -> bool) := mkFlaky { world : World }.
Arguments mkFlaky {broken}.
Arguments world {broken}.

Section flaky.
Context `{GoRuntime} (broken : nat -> bool).

Definition exactly {A} (f : spec A) : M (Flaky broken) A := fun w =>
  let '(w', r) := atomic f (world w) in (mkFlaky w', r).

Definition attempt {A} (f : spec A) : M (Flaky broken) A := fun w =>
  if broken (tick (world w))
  then (mkFlaky (mkWorld (S (tick (world w))) (db (world w))), Err (ErrorString "connection refused"))
  else exactly f w.

#[export] Instance flaky_Store : Store (Flaky broken) :=
  {| view w := db (world w); faults := true |}.

Lemma exactly_ok {A} (f : spec A) : implements_exactly (exactly f) f.
Proof. intros [[t d]]. exists t. unfold exactly, atomic. cbn. by destruct (f t d). Qed.

Lemma attempt_ok {A} (f : spec A) : implements (attempt f) f.
Proof.
  intros w. unfold attempt. destruct (broken _).
  - right. split; [done|]. split; [done|]. by eexists.
  - left. apply exactly_ok.
Qed.

#[export] Instance flaky_UserRepository : UserRepository.t (Flaky broken) := {|
  UserRepository.GetBySub x1 := attempt (UserRepository.GetBySub_spec x1);
  UserRepository.Upsert x1 := attempt (UserRepository.Upsert_spec x1);
  UserRepository.UpdateProfile x1 x2 := attempt (UserRepository.UpdateProfile_spec x1 x2);
  UserRepository.List x1 x2 := attempt (UserRepository.List_spec x1 x2);
  UserRepository.ListBySubs x1 := attempt (UserRepository.ListBySubs_spec x1);
  UserRepository.IncrementFollowersCount x1 := attempt (UserRepository.IncrementFollowersCount_spec x1);
  UserRepository.DecrementFollowersCount x1 := attempt (UserRepository.DecrementFollowersCount_spec x1);
  UserRepository.IncrementFollowingCount x1 := attempt (UserRepository.IncrementFollowingCount_spec x1);
  UserRepository.DecrementFollowingCount x1 := attempt (UserRepository.DecrementFollowingCount_spec x1);
  UserRepository.Delete x1 := attempt (UserRepository.Delete_spec x1)
|}.

#[export] Instance flaky_FollowRepository : FollowRepository.t (Flaky broken) := {|
  FollowRepository.Create x1 x2 := attempt (FollowRepository.Create_spec x1 x2);
  FollowRepository.Delete x1 x2 := attempt (FollowRepository.Delete_spec x1 x2);
  FollowRepository.IsFollowing x1 x2 := attempt (FollowRepository.IsFollowing_spec x1 x2);
  FollowRepository.ListFollowingSubs x1 := attempt (FollowRepository.ListFollowingSubs_spec x1);
  FollowRepository.ListFollowers x1 x2 x3 := attempt (FollowRepository.ListFollowers_spec x1 x2 x3);
  FollowRepository.ListFollowing x1 x2 x3 := attempt (FollowRepository.ListFollowing_spec x1 x2 x3);
  FollowRepository.AreFollowing x1 x2 := attempt (FollowRepository.AreFollowing_spec x1 x2)
|}.

#[export] Instance flaky_PostRepository : PostRepository.t (Flaky broken) := {|
  PostRepository.GetByID x1 := attempt (PostRepository.GetByID_spec x1);
  PostRepository.Create x1 x2 x3 := attempt (PostRepository.Create_spec x1 x2 x3);
  PostRepository.Delete x1 := attempt (PostRepository.Delete_spec x1);
  PostRepository.List x1 x2 x3 := attempt (PostRepository.List_spec x1 x2 x3);
  PostRepository.ListByUserIDs x1 x2 x3 := attempt (PostRepository.ListByUserIDs_spec x1 x2 x3);
  PostRepository.ListReplies x1 x2 x3 := attempt (PostRepository.ListReplies_spec x1 x2 x3);
  PostRepository.IncrementRepliesCount x1 := attempt (PostRepository.IncrementRepliesCount_spec x1);
  PostRepository.DecrementRepliesCount x1 := attempt (PostRepository.DecrementRepliesCount_spec x1);
  PostRepository.IncrementLikesCount x1 := attempt (PostRepository.IncrementLikesCount_spec x1);
  PostRepository.DecrementLikesCount x1 := attempt (PostRepository.DecrementLikesCount_spec x1);
  PostRepository.AttachOGP x1 x2 x3 := attempt (PostRepository.AttachOGP_spec x1 x2 x3)
|}.

#[export] Instance flaky_LikeRepository : LikeRepository.t (Flaky broken) := {|
  LikeRepository.Create x1 x2 := attempt (LikeRepository.Create_spec x1 x2);
  LikeRepository.Delete x1 x2 := attempt (LikeRepository.Delete_spec x1 x2);
  LikeRepository.IsLikedBy x1 x2 := attempt (LikeRepository.IsLikedBy_spec x1 x2);
  LikeRepository.ListLikedPostIDsByUser x1 x2 := attempt (LikeRepository.ListLikedPostIDsByUser_spec x1 x2)
|}.

#[export] Instance flaky_TagRepository : TagRepository.t (Flaky broken) := {|
  TagRepository.UpsertByNames x1 := attempt (TagRepository.UpsertByNames_spec x1);
  TagRepository.ListByPostID x1 := attempt (TagRepository.ListByPostID_spec x1);
  TagRepository.ListByPostIDs x1 := attempt (TagRepository.ListByPostIDs_spec x1)
|}.

#[export] Instance flaky_ImageRepository : ImageRepository.t (Flaky broken) := {|
  ImageRepository.GetByID x1 := attempt (ImageRepository.GetByID_spec x1);
  ImageRepository.GetByUserID x1 := attempt (ImageRepository.GetByUserID_spec x1);
  ImageRepository.Create x1 := attempt (ImageRepository.Create_spec x1);
  ImageRepository.Delete x1 := attempt (ImageRepository.Delete_spec x1);
  ImageRepository.ListByPostID x1 := attempt (ImageRepository.ListByPostID_spec x1);
  ImageRepository.ListByPostIDs x1 := attempt (ImageRepository.ListByPostIDs_spec x1)
|}.

#[export] Instance flaky_BadgeRepository : BadgeRepository.t (Flaky broken) := {|
  BadgeRepository.ListAll := attempt (BadgeRepository.ListAll_spec);
  BadgeRepository.GetByKey x1 := attempt (BadgeRepository.GetByKey_spec x1);
  BadgeRepository.GetByID x1 := attempt (BadgeRepository.GetByID_spec x1);
  BadgeRepository.Create x1 := attempt (BadgeRepository.Create_spec x1);
  BadgeRepository.Update x1 := attempt (BadgeRepository.Update_spec x1);
  BadgeRepository.Grant x1 x2 x3 x4 x5 := attempt (BadgeRepository.Grant_spec x1 x2 x3 x4 x5);
  BadgeRepository.Revoke x1 x2 := attempt (BadgeRepository.Revoke_spec x1 x2);
  BadgeRepository.ListByUserID x1 := attempt (BadgeRepository.ListByUserID_spec x1);
  BadgeRepository.ListByUserIDs x1 := attempt (BadgeRepository.ListByUserIDs_spec x1)
|}.

#[export] Instance flaky_OGPCacheRepository : OGPCacheRepository.t (Flaky broken) := {|
  OGPCacheRepository.Get x1 := attempt (OGPCacheRepository.Get_spec x1);
  OGPCacheRepository.Upsert x1 := attempt (OGPCacheRepository.Upsert_spec x1);
  OGPCacheRepository.ListByPostIDs x1 := attempt (OGPCacheRepository.ListByPostIDs_spec x1)
|}.

#[export] Instance flaky_OGPJobQueue : OGPJobQueue.t (Flaky broken) := {|
  OGPJobQueue.Enqueue x1 x2 x3 x4 x5 := attempt (OGPJobQueue.Enqueue_spec x1 x2 x3 x4 x5);
  OGPJobQueue.Claim _ := attempt OGPJobQueue.Claim_spec;
  OGPJobQueue.MarkDone x1 := attempt (OGPJobQueue.MarkDone_spec x1);
  OGPJobQueue.MarkFailed x1 x2 x3 := attempt (OGPJobQueue.MarkFailed_spec x1 x2 x3)
|}.

#[export] Instance flaky_Runtime : Runtime.t (Flaky broken) := {|
  Runtime.Now := exactly (Runtime.Now_spec);
  Runtime.MakeULID := exactly (Runtime.MakeULID_spec)
|}.

#[export] Program Instance flaky_Backend : Backend (Flaky broken) :=
  {| backend_store := flaky_Store |}.
Solve All Obligations with (intros; first [apply exactly_ok|apply attempt_ok]).
End flaky.
