(* ===== verification/PostUC.v ===== *)
(** * [internal/usecase/post]: creating, reading, deleting and liking posts

    The use cases, written against the repository interfaces. [Create],
    [Get], … are the [Execute] methods of [CreatePostUseCase],
    [GetPostUseCase], and so on; the fields of a use case are the instances
    its Section takes, and an optional commit hook is an [option]. *)

From S2P Require Import Prelude Errors Monad Domain Repository.

(** [domain.TagExtractor] *)
Module TagExtractor.
Class t (S : Type) := { Extract : string -> M S (list string) }.
End TagExtractor.

(** [x, err := call(); if err != nil { return errors.DatabaseError(msg, err) }] *)
Definition or_db {S A} (msg : string) (m : M S A) : M S A :=
  map_err (fun e => DatabaseError msg (Some e)) m.

(** [if err != nil { return errors.ValidationFailed(err.Error()) }] *)
Definition or_invalid {S} (err : option goerror) : M S unit :=
  match err with
  | Some e => fail (ValidationFailed (Error e))
  | None => ret tt
  end.

(** [if x == nil { return e }] *)
Definition or_missing {S A} (e : goerror) (x : option A) : M S A :=
  match x with
  | Some a => ret a
  | None => fail e
  end.

(** A hook field left nil is not called. *)
Definition run_hook {S} (hook : option (M S unit)) : M S unit := default (ret tt) hook.

Module PostUC.
Local Open Scope go_scope.

Definition DefaultPageLimit : Z := 20.
Definition MaxPageLimit : Z := 50.

Definition NormalizeLimit (limit : Z) : Z :=
  if ((limit <=? 0) || (MaxPageLimit <? limit))%Z then DefaultPageLimit else limit.

(** ** Hydrator *)

Module Detail.
Record t := mk {
  Post : Post.t;
  Images : list Image.t;
  Tags : list Tag.t;
  LikedByViewer : bool;
  Author : option User.t;
  FollowingAuthor : bool;
  OGPPreviews : list OGPPreview.t;
}.
End Detail.

(** Only rows fetched successfully are shown as cards. *)
Definition filterOKPreviews (l : list OGPPreview.t) : list OGPPreview.t :=
  filter (fun p => OGPPreview.Status p = OGPStatusOK) l.

Section hydrator.
Context `{GoRuntime} {S : Type}.
Context `{ImageRepository.t S, TagRepository.t S, LikeRepository.t S, UserRepository.t S,
          FollowRepository.t S, OGPCacheRepository.t S}.

(** Keys of the [authorSet] map, in the order the loop visits them. *)
Definition authorSubs (seed : nat) (posts : list Post.t) : list string :=
  go_range seed (elements (set_of (Post.UserID <$> posts))).

Definition viewer_state (viewerSub : option string) (postIDs authors : list string)
    : M S (gmap string bool * gmap string bool) :=
  match viewerSub with
  | None => ret (∅, ∅)
  | Some v =>
      if bool_decide (v = "") then ret (∅, ∅)
      else
        let! liked := or_db "failed to load like state"
          (LikeRepository.ListLikedPostIDsByUser v postIDs) in
        let! following := or_db "failed to load follow state"
          (FollowRepository.AreFollowing v authors) in
        ret (liked, following)
  end.

(** A missing key of a Go map reads as the zero value. *)
Definition detail (images : gmap string (list Image.t)) (tags : gmap string (list Tag.t))
    (authors : gmap string User.t) (ogp : gmap string (list OGPPreview.t))
    (liked following : gmap string bool) (p : Post.t) : Detail.t :=
  Detail.mk p
    (default [] (images !! Post.ID p)) (default [] (tags !! Post.ID p))
    (default false (liked !! Post.ID p)) (authors !! Post.UserID p)
    (default false (following !! Post.UserID p))
    (filterOKPreviews (default [] (ogp !! Post.ID p))).

Definition Hydrate (seed : nat) (posts : list Post.t) (viewerSub : option string)
    : M S (list Detail.t) :=
  if bool_decide (posts = []) then ret []
  else
    let postIDs := Post.ID <$> posts in
    let authors := authorSubs seed posts in
    let! imagesByPost := or_db "failed to load images" (ImageRepository.ListByPostIDs postIDs) in
    let! tagsByPost := or_db "failed to load tags" (TagRepository.ListByPostIDs postIDs) in
    let! authorsBySub := or_db "failed to load authors" (UserRepository.ListBySubs authors) in
    let! ogpByPost := or_db "failed to load ogp" (OGPCacheRepository.ListByPostIDs postIDs) in
    let! (likedByMe, followingByMe) := viewer_state viewerSub postIDs authors in
    ret (detail imagesByPost tagsByPost authorsBySub ogpByPost likedByMe followingByMe <$> posts).

(** [details[0], nil]; an empty answer would be a nil detail. *)
Definition HydrateOne (seed : nat) (post : Post.t) (viewerSub : option string)
    : M S (option Detail.t) :=
  let! details := Hydrate seed [post] viewerSub in
  ret (head details).
End hydrator.

(** ** Writing *)

Section writes.
Context `{GoRuntime} {S : Type}.
Context `{PostRepository.t S, ImageRepository.t S, TagRepository.t S, LikeRepository.t S,
          TagExtractor.t S, Runtime.t S}.

(** The thread root a reply inherits. *)
Definition resolve_root (parentID : option string) : M S (option string) :=
  match parentID with
  | None => ret None
  | Some pid =>
      let! parent := or_db "failed to load parent post" (PostRepository.GetByID pid) in
      let! parent := or_missing (NotFound "parent post not found") parent in
      match Post.RootPostID parent with
      | Some r => ret (Some r)
      | None => ret (Some (Post.ID parent))
      end
  end.

Definition check_image (userSub imgID : string) : M S unit :=
  let! img := or_db "failed to load image" (ImageRepository.GetByID imgID) in
  let! img := or_missing (NotFound "image not found") img in
  guard (negb (bool_decide (Image.UserID img = userSub)))
    (Forbidden "cannot attach another user's image").

Definition new_post (id userSub : string) (req : CreatePostRequest.t) (rootID : option string)
    : Post.t :=
  Post.mk id userSub (CreatePostRequest.Content req) (CreatePostRequest.ParentPostID req) rootID
    0 0 "public" time_zero time_zero None.

Definition count_reply (parentID : option string) : M S unit :=
  match parentID with
  | Some pid => or_db "failed to increment replies_count" (PostRepository.IncrementRepliesCount pid)
  | None => ret tt
  end.

Definition Create (onCommit : option (Post.t -> M S unit)) (userSub : string)
    (req : option CreatePostRequest.t) : M S Detail.t :=
  guard (bool_decide (userSub = "")) (Unauthorized "authentication required") ;;;
  let! req := or_missing (InvalidRequest "request body is required" None) req in
  or_invalid (CreatePostRequest.Validate req) ;;;
  let! rootID := resolve_root (CreatePostRequest.ParentPostID req) in
  for_each (check_image userSub) (CreatePostRequest.ImageIDs req) ;;;
  let! tagNames := map_err (fun e => InternalServer "failed to extract tags" (Some e))
    (TagExtractor.Extract (CreatePostRequest.Content req)) in
  let! tags := or_db "failed to upsert tags" (TagRepository.UpsertByNames tagNames) in
  let! id := Runtime.MakeULID in
  let post := new_post id userSub req rootID in
  or_invalid (Post.Validate post) ;;;
  let! created := or_db "failed to create post"
    (PostRepository.Create post (CreatePostRequest.ImageIDs req) (Tag.ID <$> tags)) in
  count_reply (CreatePostRequest.ParentPostID req) ;;;
  let! images := or_db "failed to load post images" (ImageRepository.ListByPostID (Post.ID created)) in
  run_hook ((fun h => h created) <$> onCommit) ;;;
  ret (Detail.mk created images tags false None false []).

Definition uncount_reply (parentID : option string) : M S unit :=
  match parentID with
  | Some pid => or_db "failed to decrement replies_count" (PostRepository.DecrementRepliesCount pid)
  | None => ret tt
  end.

Definition Delete (postID userSub : string) : M S unit :=
  guard (bool_decide (userSub = "")) (Unauthorized "authentication required") ;;;
  let! post := or_db "failed to load post" (PostRepository.GetByID postID) in
  let! post := or_missing (NotFound "post not found") post in
  guard (negb (bool_decide (Post.UserID post = userSub)))
    (Forbidden "you can only delete your own posts") ;;;
  or_db "failed to delete post" (PostRepository.Delete postID) ;;;
  uncount_reply (Post.ParentPostID post).

Definition Like (onCommit : option (string -> string -> M S unit)) (userSub postID : string)
    : M S unit :=
  guard (bool_decide (userSub = "")) (Unauthorized "authentication required") ;;;
  guard (bool_decide (postID = "")) (InvalidRequest "post id is required" None) ;;;
  let! post := or_db "failed to load post" (PostRepository.GetByID postID) in
  let! _ := or_missing (NotFound "post not found") post in
  let! inserted := or_db "failed to insert like" (LikeRepository.Create userSub postID) in
  if (inserted : bool) then
    or_db "failed to increment likes_count" (PostRepository.IncrementLikesCount postID) ;;;
    run_hook ((fun h => h userSub postID) <$> onCommit)
  else ret tt.

Definition Unlike (userSub postID : string) : M S unit :=
  guard (bool_decide (userSub = "")) (Unauthorized "authentication required") ;;;
  guard (bool_decide (postID = "")) (InvalidRequest "post id is required" None) ;;;
  let! deleted := or_db "failed to delete like" (LikeRepository.Delete userSub postID) in
  if (deleted : bool)
  then or_db "failed to decrement likes_count" (PostRepository.DecrementLikesCount postID)
  else ret tt.
End writes.

(** ** Reading *)

Section reads.
Context `{GoRuntime} {S : Type}.
Context `{PostRepository.t S, ImageRepository.t S, TagRepository.t S, LikeRepository.t S,
          UserRepository.t S, FollowRepository.t S, OGPCacheRepository.t S}.

Definition Get (seed : nat) (postID : string) (viewerSub : option string)
    : M S (option Detail.t) :=
  guard (bool_decide (postID = "")) (InvalidRequest "post id is required" None) ;;;
  let! post := or_db "failed to load post" (PostRepository.GetByID postID) in
  let! post := or_missing (NotFound "post not found") post in
  HydrateOne seed post viewerSub.

Definition List (seed : nat) (userID cursor : option string) (limit : Z)
    (viewerSub : option string) : M S (list Detail.t * string) :=
  let limit := NormalizeLimit limit in
  let! (posts, nextCursor) := or_db "failed to list posts"
    (PostRepository.List userID cursor limit) in
  let! details := Hydrate seed posts viewerSub in
  ret (details, nextCursor).

Definition ListReplies (seed : nat) (postID : string) (cursor : option string) (limit : Z)
    (viewerSub : option string) : M S (list Detail.t * string) :=
  guard (bool_decide (postID = "")) (InvalidRequest "post id is required" None) ;;;
  let limit := NormalizeLimit limit in
  let! (posts, nextCursor) := or_db "failed to list replies"
    (PostRepository.ListReplies postID cursor limit) in
  let! details := Hydrate seed posts viewerSub in
  ret (details, nextCursor).
End reads.
End PostUC.

(** ** [internal/usecase/timeline] *)

Module TimelineUC.
Local Open Scope go_scope.
Import PostUC.

Section timelines.
Context `{GoRuntime} {S : Type}.
Context `{PostRepository.t S, ImageRepository.t S, TagRepository.t S, LikeRepository.t S,
          UserRepository.t S, FollowRepository.t S, OGPCacheRepository.t S}.

(** The caller's followees and the caller. *)
Definition Home (seed : nat) (mySub : string) (cursor : option string) (limit : Z)
    : M S (list Detail.t * string) :=
  guard (bool_decide (mySub = "")) (Unauthorized "authentication required") ;;;
  let limit := NormalizeLimit limit in
  let! followees := or_db "failed to list follows" (FollowRepository.ListFollowingSubs mySub) in
  let authorSubs := followees ++ [mySub] in
  let! (posts, nextCursor) := or_db "failed to list posts"
    (PostRepository.ListByUserIDs authorSubs cursor limit) in
  let! details := Hydrate seed posts (Some mySub) in
  ret (details, nextCursor).

Definition User (seed : nat) (targetSub : string) (cursor : option string) (limit : Z)
    (viewerSub : option string) : M S (list Detail.t * string) :=
  guard (bool_decide (targetSub = "")) (InvalidRequest "sub is required" None) ;;;
  let limit := NormalizeLimit limit in
  let! (posts, nextCursor) := or_db "failed to list posts"
    (PostRepository.List (Some targetSub) cursor limit) in
  let! details := Hydrate seed posts viewerSub in
  ret (details, nextCursor).

Definition Global (seed : nat) (cursor : option string) (limit : Z)
    (viewerSub : option string) : M S (list Detail.t * string) :=
  let limit := NormalizeLimit limit in
  let! (posts, nextCursor) := or_db "failed to list posts"
    (PostRepository.List None cursor limit) in
  let! details := Hydrate seed posts viewerSub in
  ret (details, nextCursor).
End timelines.
End TimelineUC.
