(* ===== verification/PostInv.v ===== *)
(** * The invariant of posts, likes, replies, threads and attachments

    What the tables promise to each other, and that the table-level steps of
    the post use cases keep it. *)

From S2P Require Import Prelude Errors Monad Domain Feeds.
From S2P Require Import MemPosts MemLikes MemTags Repository.

Import Posts Likes.

(** The fields of a post no later operation changes. *)
Definition frame (p : Post.t) : string * string * option string * option string :=
  (Post.ID p, Post.UserID p, Post.ParentPostID p, Post.RootPostID p).

Definition same_frames (ps ps' : gmap string Post.t) : Prop :=
  forall id, frame <$> ps' !! id = frame <$> ps !! id.

(** ** Like counters *)

Definition likes_ok (ps : gmap string Post.t) (ls : gmap string (gmap string Time)) : Prop :=
  (forall id p, ps !! id = Some p -> live p = true ->
     Post.LikesCount p = Z.of_nat (size (likers ls id))) /\
  (forall u id, liked ls u id -> is_Some (ps !! id)).

(** ** Reply counters *)

(** The live direct replies of [id]. *)
Definition replies (ps : gmap string Post.t) (id : string) : gset string :=
  dom (filter (fun kv => replies_filter id kv.2 = true) ps).

Definition replies_ok (ps : gmap string Post.t) : Prop :=
  (forall id p, ps !! id = Some p -> live p = true ->
     Post.RepliesCount p = Z.of_nat (size (replies ps id))) /\
  (forall q p id, ps !! q = Some p -> Post.ParentPostID p = Some id -> is_Some (ps !! id)).

(** ** Threads *)

(** Walking up the parents of [id] ends at [r]. *)
Inductive thread_root (ps : gmap string Post.t) : string -> string -> Prop :=
  | thread_top id p :
      ps !! id = Some p -> Post.ParentPostID p = None -> thread_root ps id id
  | thread_up id p x r :
      ps !! id = Some p -> Post.ParentPostID p = Some x -> thread_root ps x r -> thread_root ps id r.

Definition threads_ok (ps : gmap string Post.t) : Prop :=
  forall id p, ps !! id = Some p ->
    exists r, thread_root ps id r /\
      Post.RootPostID p = match Post.ParentPostID p with Some _ => Some r | None => None end.

(** ** Attachments *)

(** Every attached image exists and belongs to the author of the post. *)
Definition attach_ok (ps : gmap string Post.t) (ls : Links.t) (ims : gmap string Image.t) : Prop :=
  forall pid imgs, Links.postImages ls !! pid = Some imgs ->
    exists p, ps !! pid = Some p /\
      forall i, i ∈ imgs -> exists im, ims !! i = Some im /\ Image.UserID im = Post.UserID p.

Section inv.
Context `{GoRuntime}.

Definition fresh_ids (d : DB) : Prop :=
  (forall k, ulids d <= k -> posts d !! ulid_Make k = None) /\
  Tags.fresh_from (ulids d) (tags d).

Record post_inv (d : DB) : Prop := {
  inv_keyed : keyed (posts d);
  inv_fresh : fresh_ids d;
  inv_tags : Tags.wf (tags d);
  inv_likes : likes_ok (posts d) (likes d);
  inv_replies : replies_ok (posts d);
  inv_threads : threads_ok (posts d);
  inv_attach : attach_ok (posts d) (links d) (images d);
}.

(** Far from the end of the 64-bit counters. *)
Definition bounded (d : DB) : Prop :=
  (Z.of_nat (size (likes d)) < int64_max)%Z /\ (Z.of_nat (size (posts d)) < int64_max)%Z.
End inv.

(** ** Frames *)

Lemma same_frames_refl ps : same_frames ps ps.
Proof. done. Qed.

Lemma same_frames_trans ps1 ps2 ps3 :
  same_frames ps1 ps2 -> same_frames ps2 ps3 -> same_frames ps1 ps3.
Proof. intros H1 H2 id. by rewrite H2, H1. Qed.

Lemma same_frames_insert ps id p q :
  ps !! id = Some p -> frame q = frame p -> same_frames ps (<[id := q]> ps).
Proof.
  intros Hp Hf x. destruct (decide (x = id)) as [->|Hne].
  - rewrite lookup_insert_eq, Hp. simpl. by rewrite Hf.
  - by rewrite lookup_insert_ne.
Qed.

Lemma same_frames_lookup ps ps' id p :
  same_frames ps ps' -> ps !! id = Some p -> exists q, ps' !! id = Some q /\ frame q = frame p.
Proof.
  intros Hs Hp. specialize (Hs id). rewrite Hp in Hs. destruct (ps' !! id) as [q|]; [|done].
  exists q. split; [done|]. by apply (inj Some) in Hs.
Qed.

Lemma same_frames_lookup' ps ps' id q :
  same_frames ps ps' -> ps' !! id = Some q -> exists p, ps !! id = Some p /\ frame q = frame p.
Proof.
  intros Hs Hq. specialize (Hs id). rewrite Hq in Hs. destruct (ps !! id) as [p|]; [|done].
  exists p. split; [done|]. by apply (inj Some) in Hs.
Qed.

Lemma same_frames_None ps ps' id : same_frames ps ps' -> ps !! id = None -> ps' !! id = None.
Proof. intros Hs Hn. specialize (Hs id). rewrite Hn in Hs. by destruct (ps' !! id). Qed.

Lemma keyed_frames ps ps' : same_frames ps ps' -> keyed ps -> keyed ps'.
Proof.
  intros Hs Hk id q Hq. destruct (same_frames_lookup' _ _ _ _ Hs Hq) as (p & Hp & Hf).
  destruct (Hk _ _ Hp) as [<- ?]. unfold frame in Hf. split; [congruence|done].
Qed.

Lemma thread_root_frames ps ps' id r :
  same_frames ps ps' -> thread_root ps id r -> thread_root ps' id r.
Proof.
  intros Hs. induction 1 as [id p Hp Hn|id p x r Hp Hx _ IH];
    destruct (same_frames_lookup _ _ _ _ Hs Hp) as (q & Hq & Hf); unfold frame in Hf.
  - eapply thread_top; [done|congruence].
  - eapply thread_up; [done| |done]. congruence.
Qed.

Lemma threads_frames ps ps' : same_frames ps ps' -> threads_ok ps -> threads_ok ps'.
Proof.
  intros Hs Ht id q Hq. destruct (same_frames_lookup' _ _ _ _ Hs Hq) as (p & Hp & Hf).
  destruct (Ht _ _ Hp) as (r & Hr & E). exists r. split; [by eapply thread_root_frames|].
  unfold frame in Hf. injection Hf as _ _ Hpar Hroot. by rewrite Hpar, Hroot.
Qed.

Lemma attach_frames ps ps' ls ims : same_frames ps ps' -> attach_ok ps ls ims -> attach_ok ps' ls ims.
Proof.
  intros Hs Ha pid imgs Hi. destruct (Ha _ _ Hi) as (p & Hp & Hall).
  destruct (same_frames_lookup _ _ _ _ Hs Hp) as (q & Hq & Hf). exists q. split; [done|].
  unfold frame in Hf. injection Hf as _ Hu _ _. intros i Hin. rewrite Hu. auto.
Qed.

(** ** Replies as a set *)

Lemma elem_of_replies ps id q :
  q ∈ replies ps id <-> exists p, ps !! q = Some p /\ live p = true /\ Post.ParentPostID p = Some id.
Proof.
  unfold replies. rewrite elem_of_dom. unfold is_Some. setoid_rewrite map_lookup_filter_Some. cbn.
  unfold replies_filter. setoid_rewrite andb_true_iff. setoid_rewrite bool_decide_eq_true. naive_solver.
Qed.

Lemma replies_sub ps id : replies ps id ⊆ dom ps.
Proof. intros q (p & Hp & _)%elem_of_replies. by apply elem_of_dom_2 in Hp. Qed.

Lemma size_replies_le ps id : size (replies ps id) <= size ps.
Proof. rewrite <-size_dom. apply subseteq_size, replies_sub. Qed.

Lemma size_likers_le ls id : size (likers ls id) <= size ls.
Proof.
  rewrite <-(size_dom (D:=gset string)). apply subseteq_size. unfold likers.
  intros u Hu. by apply elem_of_filter in Hu as [_ Hu].
Qed.

(** Updates that keep the liveness and the parent of every row. *)
Lemma replies_congr ps ps' id :
  (forall q, (fun p => (live p, Post.ParentPostID p)) <$> ps' !! q =
             (fun p => (live p, Post.ParentPostID p)) <$> ps !! q) ->
  replies ps' id = replies ps id.
Proof.
  intros Hq. apply set_eq. intros q. rewrite !elem_of_replies. specialize (Hq q).
  destruct (ps' !! q) as [p'|], (ps !! q) as [p|]; simpl in Hq; try done.
  injection Hq as E1 E2.
  split; intros (x & [= <-] & ? & ?); eexists; (split; [done|]); split; congruence.
Qed.

(** ** Counter updates *)

Definition keeps (f : Post.t -> Post.t) : Prop :=
  forall p, frame (f p) = frame p /\ Post.DeletedAt (f p) = Post.DeletedAt p.

Lemma keeps_inc_likes : keeps inc_likes. Proof. done. Qed.
Lemma keeps_dec_likes : keeps dec_likes.
Proof. intros p. unfold dec_likes. by destruct (_ <? _)%Z. Qed.
Lemma keeps_inc_replies : keeps inc_replies. Proof. done. Qed.
Lemma keeps_dec_replies : keeps dec_replies.
Proof. intros p. unfold dec_replies. by destruct (_ <? _)%Z. Qed.
#[export] Hint Resolve keeps_inc_likes keeps_dec_likes keeps_inc_replies keeps_dec_replies : fuju.

Lemma update_live_lookup id f ps x :
  update_live id f ps !! x =
  (if bool_decide (x = id) then (fun p => if live p then f p else p) <$> ps !! x else ps !! x).
Proof.
  unfold update_live. case_bool_decide as Hx; [subst|].
  - destruct (ps !! id) as [p|] eqn:E; [|by rewrite E]. simpl.
    destruct (live p); [apply lookup_insert_eq|done].
  - destruct (ps !! id) as [p|]; [|done]. destruct (live p); [by rewrite lookup_insert_ne|done].
Qed.

Lemma update_live_frames id f ps : keeps f -> same_frames ps (update_live id f ps).
Proof.
  intros Hf x. rewrite update_live_lookup. case_bool_decide; [|done].
  destruct (ps !! x) as [p|]; [|done]. simpl. destruct (live p); [|done].
  by rewrite (proj1 (Hf p)).
Qed.

Lemma live_keeps f p : keeps f -> live (f p) = live p.
Proof. intros Hf. unfold live. by rewrite (proj2 (Hf p)). Qed.

Lemma update_live_replies id f ps x : keeps f -> replies (update_live id f ps) x = replies ps x.
Proof.
  intros Hf. apply replies_congr. intros q. rewrite update_live_lookup. case_bool_decide; [|done].
  destruct (ps !! q) as [p|]; [|done]. simpl. destruct (live p) eqn:E; [|by rewrite E].
  rewrite live_keeps, E by done. destruct (Hf p) as [Hfr _]. unfold frame in Hfr. congruence.
Qed.

(** The live rows after a counter update. *)
Lemma update_live_row id f ps x q :
  keeps f -> update_live id f ps !! x = Some q -> live q = true ->
  exists p, ps !! x = Some p /\ live p = true /\ q = (if bool_decide (x = id) then f p else p).
Proof.
  intros Hf. rewrite update_live_lookup. case_bool_decide as Hx; [|eauto].
  destruct (ps !! x) as [p|]; [|done]. simpl. intros [= <-].
  destruct (live p) eqn:E; [|congruence]. eauto.
Qed.

Lemma update_live_other_count {A} (g : Post.t -> A) id f ps x q :
  keeps f -> (forall p, g (f p) = g p) -> update_live id f ps !! x = Some q -> live q = true ->
  exists p, ps !! x = Some p /\ live p = true /\ g q = g p.
Proof.
  intros Hf Hg Hq Hl. destruct (update_live_row _ _ _ _ _ Hf Hq Hl) as (p & Hp & Hlp & ->).
  exists p. split; [done|]. split; [done|]. case_bool_decide; [apply Hg|done].
Qed.

Lemma is_Some_frames ps ps' id : same_frames ps ps' -> is_Some (ps !! id) -> is_Some (ps' !! id).
Proof. intros Hs [p Hp]. destruct (same_frames_lookup _ _ _ _ Hs Hp) as (q & Hq & _). eauto. Qed.

(** Reply counters ignore like-counter updates, and the other way round. *)
Lemma replies_ok_likes id f ps :
  keeps f -> (forall p, Post.RepliesCount (f p) = Post.RepliesCount p) ->
  replies_ok ps -> replies_ok (update_live id f ps).
Proof.
  intros Hf Hg [Hc Hd]. split.
  - intros x q Hq Hl. rewrite update_live_replies by done.
    destruct (update_live_other_count Post.RepliesCount _ _ _ _ _ Hf Hg Hq Hl) as (p & ? & ? & ->). auto.
  - intros x q y Hq Hy. destruct (same_frames_lookup' _ _ _ _ (update_live_frames id f ps Hf) Hq) as (p & Hp & Hfr).
    eapply is_Some_frames; [by apply update_live_frames|]. apply (Hd x p); [done|].
    unfold frame in Hfr. congruence.
Qed.

Lemma likes_ok_replies id f ps ls :
  keeps f -> (forall p, Post.LikesCount (f p) = Post.LikesCount p) ->
  likes_ok ps ls -> likes_ok (update_live id f ps) ls.
Proof.
  intros Hf Hg [Hc Hd]. split.
  - intros x q Hq Hl.
    destruct (update_live_other_count Post.LikesCount _ _ _ _ _ Hf Hg Hq Hl) as (p & ? & ? & ->). auto.
  - intros u x Hu. eapply is_Some_frames; [by apply update_live_frames|]. by eapply Hd.
Qed.

(** ** Like and Unlike on the tables *)

Lemma likes_ok_create ps ls now u pid :
  likes_ok ps ls -> is_Some (ps !! pid) -> (Z.of_nat (size ls) < int64_max)%Z ->
  IsLikedBy u pid ls = false ->
  likes_ok (IncrementLikesCount pid ps) (Likes.Create now u pid ls).1.
Proof.
  intros [Hc Hd] Hpid Hb Hnew. split.
  - intros x q Hq Hl. unfold IncrementLikesCount in Hq.
    destruct (update_live_row _ _ _ _ _ keeps_inc_likes Hq Hl) as (p & Hp & Hlp & ->).
    rewrite Create_likers. case_bool_decide as Hx; [subst|by apply Hc].
    rewrite size_union, size_singleton.
    + simpl. rewrite (Hc _ _ Hp Hlp). pose proof (size_likers_le ls pid).
      rewrite wrap64_small; [lia|]. unfold int64_min, int64_max in *. lia.
    + intros v ->%elem_of_singleton. rewrite elem_of_likers. unfold liked. congruence.
  - intros v x Hv. eapply is_Some_frames; [by apply update_live_frames, keeps_inc_likes|].
    apply (proj2 (Create_spec now u pid ls)) in Hv as [[-> ->]|Hv]; [done|]. by eapply Hd.
Qed.

Lemma likes_ok_create_old ps ls now u pid :
  likes_ok ps ls -> IsLikedBy u pid ls = true -> likes_ok ps (Likes.Create now u pid ls).1.
Proof.
  intros [Hc Hd] Hold. split.
  - intros x q Hq Hl. rewrite Create_likers, (Hc _ _ Hq Hl). case_bool_decide; [subst|done].
    do 2 f_equal. apply set_eq. intros v. rewrite elem_of_union, elem_of_singleton, !elem_of_likers.
    unfold liked. naive_solver.
  - intros v x Hv. apply (proj2 (Create_spec now u pid ls)) in Hv as [[-> ->]|Hv]; by eapply Hd.
Qed.

Lemma likes_ok_delete ps ls u pid :
  likes_ok ps ls -> IsLikedBy u pid ls = true ->
  likes_ok (DecrementLikesCount pid ps) (Likes.Delete u pid ls).1.
Proof.
  intros [Hc Hd] Hold. split.
  - intros x q Hq Hl. unfold DecrementLikesCount in Hq.
    destruct (update_live_row _ _ _ _ _ keeps_dec_likes Hq Hl) as (p & Hp & Hlp & ->).
    rewrite Delete_likers. case_bool_decide as Hx; [subst|by apply Hc].
    assert (Hin : u ∈ likers ls pid) by (by apply elem_of_likers).
    assert (Hsz : 0 < size (likers ls pid)).
    { apply Nat.neq_0_lt_0. intros E%size_empty_inv. set_solver. }
    rewrite size_difference by set_solver. rewrite size_singleton.
    unfold dec_likes. rewrite (Hc _ _ Hp Hlp).
    assert ((0 <? Z.of_nat (size (likers ls pid)))%Z = true) as -> by lia. simpl. lia.
  - intros v x Hv. eapply is_Some_frames; [by apply update_live_frames, keeps_dec_likes|].
    apply (proj2 (Delete_spec u pid ls)) in Hv as [Hv _]. by eapply Hd.
Qed.

Lemma likes_ok_delete_none ps ls u pid :
  likes_ok ps ls -> IsLikedBy u pid ls = false -> likes_ok ps (Likes.Delete u pid ls).1.
Proof.
  intros [Hc Hd] Hold. split.
  - intros x q Hq Hl. rewrite Delete_likers, (Hc _ _ Hq Hl). case_bool_decide; [subst|done].
    do 2 f_equal. apply set_eq. intros v. rewrite elem_of_difference, elem_of_likers, elem_of_singleton.
    unfold liked. split; [|tauto]. intros Hv. split; [done|]. intros ->. congruence.
  - intros v x Hv. apply (proj2 (Delete_spec u pid ls)) in Hv as [Hv _]. by eapply Hd.
Qed.

(** ** Publishing a post on the tables *)

Section create.
Context (ps : gmap string Post.t) (p : Post.t).
Hypothesis fresh : ps !! Post.ID p = None.

Lemma keyed_insert : keyed ps -> Post.ID p <> "" -> keyed (<[Post.ID p := p]> ps).
Proof. intros Hk Hne id q [[<- <-]|[_ Hq]]%lookup_insert_Some; [done|by apply Hk]. Qed.

Lemma insert_is_Some x : is_Some (ps !! x) -> is_Some (<[Post.ID p := p]> ps !! x).
Proof. intros Hx. by apply lookup_insert_is_Some'; right. Qed.

Lemma likes_ok_insert ls :
  likes_ok ps ls -> Post.LikesCount p = 0%Z -> likes_ok (<[Post.ID p := p]> ps) ls.
Proof using fresh.
  intros [Hc Hd] H0. split.
  - intros x q [[<- <-]|[_ Hq]]%lookup_insert_Some Hl; [|by apply Hc].
    rewrite H0. assert (likers ls (Post.ID p) = ∅) as ->; [|by rewrite size_empty].
    apply set_eq. intros u. rewrite elem_of_likers. split; [|set_solver].
    intros Hu. destruct (Hd _ _ Hu). congruence.
  - intros u x Hu. by eapply insert_is_Some, Hd.
Qed.

Lemma replies_insert x :
  replies (<[Post.ID p := p]> ps) x =
  (if bool_decide (live p = true /\ Post.ParentPostID p = Some x)
   then {[Post.ID p]} ∪ replies ps x else replies ps x).
Proof using fresh.
  apply set_eq. intros q. rewrite elem_of_replies. setoid_rewrite lookup_insert_Some.
  case_bool_decide as Hb; [rewrite elem_of_union, elem_of_singleton|]; rewrite elem_of_replies;
    naive_solver.
Qed.

Lemma no_replies_yet : replies_ok ps -> replies ps (Post.ID p) = ∅.
Proof using fresh.
  intros [_ Hd]. apply set_eq. intros q. rewrite elem_of_replies. split; [|set_solver].
  intros (x & Hx & _ & Hpar). destruct (Hd _ _ _ Hx Hpar). congruence.
Qed.

(** The parent's counter follows the new reply. *)
Definition counted (ps : gmap string Post.t) : gmap string Post.t :=
  match Post.ParentPostID p with
  | Some pid => IncrementRepliesCount pid ps
  | None => ps
  end.

Lemma counted_frames ps' : same_frames ps' (counted ps').
Proof. unfold counted. case_match; [apply update_live_frames, keeps_inc_replies|done]. Qed.

Lemma replies_ok_create :
  replies_ok ps -> live p = true -> Post.RepliesCount p = 0%Z ->
  (Z.of_nat (size ps) < int64_max)%Z ->
  (forall pid, Post.ParentPostID p = Some pid -> is_Some (ps !! pid)) ->
  replies_ok (counted (<[Post.ID p := p]> ps)).
Proof using fresh.
  intros Hok Hlp H0 Hb Hpar. pose proof (no_replies_yet Hok) as Hnone. destruct Hok as [Hc Hd]. split.
  - intros x q Hq Hl.
    assert (Hrep : replies (counted (<[Post.ID p := p]> ps)) x = replies (<[Post.ID p := p]> ps) x).
    { unfold counted. case_match; [apply update_live_replies, keeps_inc_replies|done]. }
    rewrite Hrep, replies_insert. clear Hrep.
    assert (Hrow : forall y, <[Post.ID p := p]> ps !! x = Some y -> live y = true ->
      Post.RepliesCount y = Z.of_nat (size (replies ps x))).
    { intros y [[<- <-]|[_ Hy]]%lookup_insert_Some Hly; [|by apply Hc].
      by rewrite Hnone, size_empty. }
    unfold counted in Hq. destruct (Post.ParentPostID p) as [pid|] eqn:Ep.
    + unfold IncrementRepliesCount in Hq.
      destruct (update_live_row _ _ _ _ _ keeps_inc_replies Hq Hl) as (y & Hy & Hly & ->).
      destruct (decide (x = pid)) as [->|Hne].
      * rewrite !bool_decide_eq_true_2 by done. rewrite size_union, size_singleton.
        -- simpl. rewrite (Hrow y) by done. pose proof (size_replies_le ps pid).
           rewrite wrap64_small; [lia|]. unfold int64_min, int64_max in *. lia.
        -- intros z ->%elem_of_singleton (w & Hw & _)%elem_of_replies. congruence.
      * rewrite !bool_decide_eq_false_2 by naive_solver. by apply Hrow.
    + rewrite bool_decide_eq_false_2 by naive_solver. by apply Hrow.
  - intros x q y Hq Hy. eapply is_Some_frames; [apply counted_frames|].
    destruct (same_frames_lookup' _ _ _ _ (counted_frames _) Hq) as (q' & Hq' & Hf).
    unfold frame in Hf. injection Hf as _ _ Hf _. rewrite Hf in Hy.
    apply insert_is_Some. apply lookup_insert_Some in Hq' as [[_ <-]|[_ Hq']]; [auto|by eapply Hd].
Qed.

Lemma thread_root_insert id r : thread_root ps id r -> thread_root (<[Post.ID p := p]> ps) id r.
Proof using fresh.
  induction 1 as [id q Hq Hn|id q x r Hq Hx _ IH].
  - eapply thread_top; [|done]. rewrite lookup_insert_ne; [done|congruence].
  - eapply thread_up; [|done|done]. rewrite lookup_insert_ne; [done|congruence].
Qed.

(** The root a reply inherits is the root of its parent's thread. *)
Definition inherits (root : option string) (parent : option string) : Prop :=
  match parent with
  | None => root = None
  | Some pid => exists q, ps !! pid = Some q /\
      root = Some (match Post.RootPostID q with Some r => r | None => pid end)
  end.

Lemma threads_ok_insert :
  threads_ok ps -> inherits (Post.RootPostID p) (Post.ParentPostID p) ->
  threads_ok (<[Post.ID p := p]> ps).
Proof using fresh.
  intros Ht Hi id q [[<- <-]|[_ Hq]]%lookup_insert_Some.
  - unfold inherits in Hi. destruct (Post.ParentPostID p) as [pid|] eqn:Ep.
    + destruct Hi as (q & Hq & Hr). destruct (Ht _ _ Hq) as (r & Hroot & Hqr).
      exists r. split.
      * eapply thread_up; [apply lookup_insert_eq|done|by apply thread_root_insert].
      * rewrite Hr. f_equal. rewrite Hqr. destruct (Post.ParentPostID q) eqn:Eq; [done|].
        inversion Hroot; simplify_eq; congruence.
    + exists (Post.ID p). split; [|done]. eapply thread_top; [apply lookup_insert_eq|done].
  - destruct (Ht _ _ Hq) as (r & Hroot & E). exists r. split; [by apply thread_root_insert|done].
Qed.

Lemma attach_ok_insert ls ims imgs tagIDs :
  attach_ok ps ls ims ->
  (forall i, i ∈ imgs -> exists im, ims !! i = Some im /\ Image.UserID im = Post.UserID p) ->
  attach_ok (<[Post.ID p := p]> ps)
    (if bool_decide (tagIDs = []) then (if bool_decide (imgs = []) then ls else Links.attachImages (Post.ID p) imgs ls)
     else Links.attachTags (Post.ID p) tagIDs
            (if bool_decide (imgs = []) then ls else Links.attachImages (Post.ID p) imgs ls)) ims.
Proof using fresh.
  intros Ha Hown. set (ls' := if bool_decide (imgs = []) then _ else _).
  assert (H1 : attach_ok (<[Post.ID p := p]> ps) ls' ims).
  { assert (Hold : forall pid l, Links.postImages ls !! pid = Some l -> exists q,
      <[Post.ID p := p]> ps !! pid = Some q /\
      forall i, i ∈ l -> exists im, ims !! i = Some im /\ Image.UserID im = Post.UserID q).
    { intros pid l Hl. destruct (Ha _ _ Hl) as (q & Hq & Hall). exists q.
      rewrite lookup_insert_ne; [done|congruence]. }
    subst ls'. case_bool_decide; [exact Hold|]. intros pid l. cbn [Links.postImages Links.attachImages].
    intros [[<- <-]|[_ Hl]]%lookup_insert_Some; [|by apply Hold].
    exists p. by rewrite lookup_insert_eq. }
  clearbody ls'. case_bool_decide; [done|]. unfold Links.attachTags. by rewrite bool_decide_eq_false_2.
Qed.
End create.

(** ** Deleting a post on the tables *)

Definition uncounted (parent : option string) (ps : gmap string Post.t) : gmap string Post.t :=
  match parent with
  | Some pid => DecrementRepliesCount pid ps
  | None => ps
  end.

Lemma uncounted_frames parent ps : same_frames ps (uncounted parent ps).
Proof. destruct parent; [apply update_live_frames, keeps_dec_replies|done]. Qed.

Section delete.
Context (ps : gmap string Post.t) (id : string) (p : Post.t) (now : Time).
Hypothesis Hp : ps !! id = Some p.
Hypothesis Hlive : live p = true.

Lemma Delete_eq : Posts.Delete now id ps = <[id := Post.set_DeletedAt (Some now) p]> ps.
Proof using Hp. unfold Posts.Delete. by rewrite Hp. Qed.

Lemma Delete_frames : same_frames ps (Posts.Delete now id ps).
Proof using Hp. rewrite Delete_eq. by eapply same_frames_insert. Qed.

Lemma Delete_row x q : Posts.Delete now id ps !! x = Some q -> live q = true ->
  x <> id /\ ps !! x = Some q.
Proof using Hp.
  rewrite Delete_eq. intros [[<- <-]|[? Hq]]%lookup_insert_Some Hl; [|done].
  unfold live in Hl. by simpl in Hl.
Qed.

Lemma likes_ok_Delete ls : likes_ok ps ls -> likes_ok (Posts.Delete now id ps) ls.
Proof using Hp.
  intros [Hc Hd]. split.
  - intros x q Hq Hl. destruct (Delete_row _ _ Hq Hl) as [_ Hq']. auto.
  - intros u x Hu. eapply is_Some_frames; [apply Delete_frames|by eapply Hd].
Qed.

Lemma replies_Delete x : replies (Posts.Delete now id ps) x = replies ps x ∖ {[id]}.
Proof using Hp.
  apply set_eq. intros q. rewrite elem_of_difference, elem_of_singleton, !elem_of_replies. split.
  - intros (y & Hy & Hl & Hpar). destruct (Delete_row _ _ Hy Hl) as [Hne Hy']. eauto.
  - intros [(y & Hy & Hl & Hpar) Hne]. exists y. rewrite Delete_eq, lookup_insert_ne; done.
Qed.

Lemma replies_ok_Delete :
  replies_ok ps -> replies_ok (uncounted (Post.ParentPostID p) (Posts.Delete now id ps)).
Proof using Hp Hlive.
  intros [Hc Hd]. split.
  - intros x q Hq Hl.
    assert (Hrep : replies (uncounted (Post.ParentPostID p) (Posts.Delete now id ps)) x = replies ps x ∖ {[id]}).
    { rewrite <-replies_Delete. unfold uncounted.
      case_match; [apply update_live_replies, keeps_dec_replies|done]. }
    rewrite Hrep. clear Hrep. unfold uncounted in Hq.
    assert (Hother : Post.ParentPostID p <> Some x -> replies ps x ∖ {[id]} = replies ps x).
    { intros Hne. apply set_eq. intros y. rewrite elem_of_difference, elem_of_singleton.
      split; [tauto|]. intros Hy. split; [done|]. intros ->.
      apply elem_of_replies in Hy as (z & Hz & _ & Hpar). congruence. }
    destruct (Post.ParentPostID p) as [pid|] eqn:Ep.
    + unfold DecrementRepliesCount in Hq.
      destruct (update_live_row _ _ _ _ _ keeps_dec_replies Hq Hl) as (y & Hy & Hly & ->).
      destruct (Delete_row _ _ Hy Hly) as [_ Hy']. case_bool_decide as Hx; [subst pid|].
      * assert (Hin : id ∈ replies ps x) by (apply elem_of_replies; eauto).
        assert (Hsz : 0 < size (replies ps x)).
        { apply Nat.neq_0_lt_0. intros E%size_empty_inv. set_solver. }
        rewrite size_difference by set_solver. rewrite size_singleton.
        unfold dec_replies. rewrite (Hc _ _ Hy' Hly).
        assert ((0 <? Z.of_nat (size (replies ps x)))%Z = true) as -> by lia. simpl. lia.
      * rewrite Hother by naive_solver. auto.
    + destruct (Delete_row _ _ Hq Hl) as [_ Hq']. rewrite Hother by done. auto.
  - intros x q y Hq Hy.
    assert (Hs : same_frames ps (uncounted (Post.ParentPostID p) (Posts.Delete now id ps))).
    { eapply same_frames_trans; [apply Delete_frames|apply uncounted_frames]. }
    eapply is_Some_frames; [exact Hs|].
    destruct (same_frames_lookup' _ _ _ _ Hs Hq) as (q' & Hq' & Hf).
    unfold frame in Hf. injection Hf as _ _ Hf _. rewrite Hf in Hy. by eapply Hd.
Qed.
End delete.
