(* ===== verification/PostThms.v ===== *)
(** * What the post use cases guarantee

    For any backend: a write that answers [Ok] keeps the invariant of the
    tables, and on a backend that cannot fail every answer does. *)

From S2P Require Import Prelude Errors Monad Domain Feeds.
From S2P Require Import MemPosts MemLikes MemTags Repository Backend PostUC PostInv.

(** ** Contracts of the collaborators *)

(** What a commit hook may change: previews, jobs and the id counter. *)
Definition hook_frame (d d' : DB) : Prop :=
  users d' = users d /\ posts d' = posts d /\ images d' = images d /\ likes d' = likes d /\
  tags d' = tags d /\ badges d' = badges d /\ follows d' = follows d /\
  Links.postImages (links d') = Links.postImages (links d) /\
  Links.postTags (links d') = Links.postTags (links d) /\ ulids d <= ulids d'.

Lemma hook_frame_refl d : hook_frame d d.
Proof. repeat split; done. Qed.

Lemma hook_frame_trans d1 d2 d3 : hook_frame d1 d2 -> hook_frame d2 d3 -> hook_frame d1 d3.
Proof. unfold hook_frame. intros. destruct_and!. split_and!; try congruence. lia. Qed.

Section contracts.
Context `{GoRuntime} {S : Type} `{Store S}.

(** A hook reports no error and touches nothing but what it owns. *)
Definition best_effort (h : M S unit) : Prop := forall d,
  vwp h d (fun r d' => r = Ok tt /\ hook_frame d d').

(** An extractor only reads the text. *)
Definition pure_extractor `{TagExtractor.t S} : Prop := forall c d,
  vwp (TagExtractor.Extract c) d (fun r d' => d' = d /\ forall p, r <> Panic p).

(** The call took full effect: it answered, or nothing can fail. *)
Definition settled {A} (r : res A) : Prop := faults S = false \/ exists a, r = Ok a.

Definition no_panic {A} (r : res A) : Prop := forall why, r <> Panic why.
End contracts.

Arguments settled S {_ A} r.

Lemma post_inv_hook `{GoRuntime} d d' : hook_frame d d' -> post_inv d -> post_inv d'.
Proof.
  intros (_ & Hp & Hi & Hl & Ht & _ & _ & Hpi & _ & Hu) [? [Hf1 Hf2] ? ? ? ? Ha].
  split; rewrite ?Hp, ?Hi, ?Hl, ?Ht; try done.
  - split; rewrite ?Hp, ?Ht; intros k Hk; [apply Hf1|apply Hf2]; lia.
  - intros pid imgs. rewrite Hpi. apply Ha.
Qed.

Section writes.
Context `{GoRuntime, !UniqueULIDs} {S : Type} `{!Backend S, !TagExtractor.t S}.

Implicit Types d : DB.

(** *** Calls whose answer is a row *)

Lemma or_db_query {A} msg (m : M S A) (f : nat -> DB -> A) d (Q : res A -> DB -> Prop) :
  implements m (query f) ->
  (forall t, Q (Ok (f t d)) d) ->
  (faults S = true -> forall e, Q (Err (DatabaseError msg (Some e))) d) ->
  vwp (or_db msg m) d Q.
Proof.
  intros Hm Hok Herr. apply vwp_map_err. eapply vwp_op; [done|..]; cbn; auto.
Qed.

Lemma or_db_spec {A} msg (m : M S A) (f : spec A) d (Q : res A -> DB -> Prop) :
  implements m f ->
  (forall t, (forall e, (f t d).2 <> Err e) /\ Q (f t d).2 (f t d).1) ->
  (faults S = true -> forall e, Q (Err (DatabaseError msg (Some e))) d) ->
  vwp (or_db msg m) d Q.
Proof.
  intros Hm Hok Herr. apply vwp_map_err. eapply vwp_op; [done|..]; cbn; auto.
  intros t. destruct (Hok t) as [Hne HQ]. destruct (f t d).2; try done. by destruct (Hne e).
Qed.

Lemma or_missing_spec {A} e (x : option A) d (Q : res A -> DB -> Prop) :
  (x = None -> Q (Err e) d) -> (forall a, x = Some a -> Q (Ok a) d) ->
  vwp (or_missing (S:=S) e x) d Q.
Proof. intros Hn Hs. destruct x; cbn; [apply vwp_ret|apply vwp_fail]; auto. Qed.

Lemma or_invalid_spec err d (Q : res unit -> DB -> Prop) :
  (forall e, err = Some e -> Q (Err (ValidationFailed (Error e))) d) ->
  (err = None -> Q (Ok tt) d) -> vwp (or_invalid (S:=S) err) d Q.
Proof. intros Hn Hs. destruct err; cbn; [apply vwp_fail|apply vwp_ret]; auto. Qed.

Lemma run_hook_spec (hook : option (M S unit)) d (Q : res unit -> DB -> Prop) :
  (forall h, hook = Some h -> best_effort h) ->
  (forall d', hook_frame d d' -> Q (Ok tt) d') ->
  vwp (run_hook hook) d Q.
Proof.
  intros Hh HQ. destruct hook as [h|]; cbn.
  - eapply vwp_mono; [by apply Hh|]. intros r d' [-> Hf]. auto.
  - apply vwp_ret, HQ, hook_frame_refl.
Qed.
End writes.

(** One step of a use case proof. *)
Ltac ustep :=
  lazymatch goal with
  | |- vwp (or_missing _ _) _ _ => apply or_missing_spec; [intros ?|intros ? ?]
  | |- vwp (or_invalid _) _ _ => apply or_invalid_spec; [intros ? ?|intros ?]
  | |- vwp (or_db _ _) _ _ => first
      [ eapply or_db_query; [solve [eauto with store]|intros ?t; spec_cbn; cbn beta iota|intros ? ?; cbn beta iota]
      | eapply or_db_spec; [solve [eauto with store]|intros ?t; spec_cbn; try (split; [by intros ? ?|])|intros ? ?; cbn beta iota] ]
  | |- vwp (run_hook _) _ _ => apply run_hook_spec; [|intros ? ?; cbn beta iota]
  | |- _ => vstep
  end.

Section likes.
Context `{GoRuntime, !UniqueULIDs} {S : Type} `{!Backend S}.

Definition like_hook_ok (onCommit : option (string -> string -> M S unit)) : Prop :=
  forall h u p, onCommit = Some h -> best_effort (h u p).

Lemma hook_fmap onCommit u pid : like_hook_ok onCommit ->
  forall h, (fun k => k u pid) <$> onCommit = Some h -> best_effort h.
Proof. intros Hk h. destruct onCommit as [k|]; [|done]. intros [= <-]. by apply Hk. Qed.

Lemma likes_step d u pid now :
  post_inv d -> bounded d -> is_Some (posts d !! pid) -> Likes.IsLikedBy u pid (likes d) = false ->
  post_inv (with_posts (Posts.IncrementLikesCount pid (posts d))
              (with_likes (Likes.Create now u pid (likes d)).1 d)).
Proof.
  intros [Hk [Hf1 Hf2] Ht Hl Hr Hth Ha] [Hb _] Hs Hn.
  assert (Hfr : same_frames (posts d) (Posts.IncrementLikesCount pid (posts d)))
    by apply update_live_frames, keeps_inc_likes.
  split; cbn [posts likes links tags images ulids with_posts with_likes]; try done.
  - by eapply keyed_frames.
  - split; [|done]. intros k Hk'. eapply same_frames_None; [done|]. by apply Hf1.
  - by apply likes_ok_create.
  - by apply replies_ok_likes; [apply keeps_inc_likes|..].
  - by eapply threads_frames.
  - by eapply attach_frames.
Qed.

Lemma unlikes_step d u pid :
  post_inv d -> Likes.IsLikedBy u pid (likes d) = true ->
  post_inv (with_posts (Posts.DecrementLikesCount pid (posts d))
              (with_likes (Likes.Delete u pid (likes d)).1 d)).
Proof.
  intros [Hk [Hf1 Hf2] Ht Hl Hr Hth Ha] Hn.
  assert (Hfr : same_frames (posts d) (Posts.DecrementLikesCount pid (posts d)))
    by apply update_live_frames, keeps_dec_likes.
  split; cbn [posts likes links tags images ulids with_posts with_likes]; try done.
  - by eapply keyed_frames.
  - split; [|done]. intros k Hk'. eapply same_frames_None; [done|]. by apply Hf1.
  - by apply likes_ok_delete.
  - apply replies_ok_likes; [apply keeps_dec_likes| |done].
    intros p. unfold Posts.dec_likes. by destruct (_ <? _)%Z.
  - by eapply threads_frames.
  - by eapply attach_frames.
Qed.

Lemma post_inv_likes d ls :
  post_inv d -> likes_ok (posts d) ls -> post_inv (with_likes ls d).
Proof. intros [? [??] ? ? ? ? ?] Hl. by split. Qed.

Lemma live_of_GetByID ps pid p : Posts.GetByID pid ps = Some p -> ps !! pid = Some p /\ Posts.live p = true.
Proof.
  unfold Posts.GetByID. destruct (ps !! pid) as [q|]; [|done].
  destruct (Posts.live q) eqn:E; [|done]. by intros [= <-].
Qed.

(** Liking: on [Ok] the caller is among the likers, nobody else changed,
    and the invariant, with its exact like counts, holds again. *)
Lemma Like_spec hook u pid d :
  like_hook_ok hook -> post_inv d -> bounded d ->
  vwp (PostUC.Like hook u pid) d (fun r d' =>
    no_panic r /\ (settled S r -> post_inv d') /\
    (r = Ok tt -> is_Some (Posts.GetByID pid (posts d)) /\
       forall v q, Likes.liked (likes d') v q <-> (v = u /\ q = pid) \/ Likes.liked (likes d) v q)).
Proof.
  intros Hk Hinv Hb.
  pose proof (fun now => Likes.Create_spec now u pid (likes d)) as Hcr.
  unfold PostUC.Like. repeat ustep; try done; try (by apply hook_fmap);
    match goal with H : Posts.GetByID _ _ = Some _ |- _ =>
      rewrite H; apply live_of_GetByID in H as [Hrow Hlive] end;
    match goal with H : (Likes.Create (clock ?t) _ _ _).2 = _ |- _ =>
      destruct (Hcr (clock t)) as [Hres Hliked]; rewrite Hres in H end.
  - split; [done|]. split; [|split; [done|]].
    + intros _. eapply post_inv_hook; [done|]. apply likes_step; [done..|by eexists|].
      by apply negb_true_iff.
    + match goal with H : hook_frame _ d' |- _ => destruct H as (_ & _ & _ & -> & _) end.
      exact Hliked.
  - split; [done|]. split; [|done]. intros [?|[? ?]]; congruence.
  - split; [done|]. split; [|by split].
    intros _. apply post_inv_likes; [done|]. apply likes_ok_create_old; [apply Hinv|].
    by apply negb_false_iff.
Qed.

(** Unliking needs no post: the row, if any, goes away and so does its count. *)
Lemma Unlike_spec u pid d :
  post_inv d ->
  vwp (S:=S) (PostUC.Unlike u pid) d (fun r d' =>
    no_panic r /\ (settled S r -> post_inv d') /\
    (r = Ok tt -> forall v q, Likes.liked (likes d') v q <-> Likes.liked (likes d) v q /\ ~ (v = u /\ q = pid))).
Proof.
  intros Hinv. pose proof (Likes.Delete_spec u pid (likes d)) as [Hres Hliked].
  unfold PostUC.Unlike. repeat ustep; try done;
    match goal with H : (Likes.Delete _ _ _).2 = _ |- _ => rewrite Hres in H end.
  - split; [done|]. split; [|done]. intros _. by apply unlikes_step.
  - split; [done|]. split; [|done]. intros [?|[? ?]]; congruence.
  - split; [done|]. split; [|done]. intros _. apply post_inv_likes; [done|].
    apply likes_ok_delete_none; [apply Hinv|done].
Qed.
End likes.

(** ** Deleting *)

Section delete.
Context `{GoRuntime, !UniqueULIDs} {S : Type} `{!Backend S}.

Lemma delete_step d id p now :
  post_inv d -> posts d !! id = Some p -> Posts.live p = true ->
  post_inv (with_posts (uncounted (Post.ParentPostID p) (Posts.Delete now id (posts d))) d).
Proof.
  intros [Hk [Hf1 Hf2] Ht Hl Hr Hth Ha] Hp Hlive.
  assert (Hfr : same_frames (posts d) (uncounted (Post.ParentPostID p) (Posts.Delete now id (posts d)))).
  { eapply same_frames_trans; [by eapply Delete_frames|apply uncounted_frames]. }
  split; cbn [posts likes links tags images ulids with_posts]; try done.
  - by eapply keyed_frames.
  - split; [|done]. intros k Hk'. eapply same_frames_None; [done|]. by apply Hf1.
  - unfold uncounted. destruct (Post.ParentPostID p).
    + apply likes_ok_replies; [apply keeps_dec_replies| |by eapply likes_ok_Delete].
      intros q. unfold Posts.dec_replies. by destruct (_ <? _)%Z.
    + by eapply likes_ok_Delete.
  - by eapply replies_ok_Delete.
  - by eapply threads_frames.
  - by eapply attach_frames.
Qed.

(** Only the author deletes; afterwards the post is gone for every reader. *)
Lemma DeletePost_spec postID userSub d :
  post_inv d ->
  vwp (S:=S) (PostUC.Delete postID userSub) d (fun r d' =>
    no_panic r /\ (settled S r -> post_inv d') /\
    (r = Ok tt -> Posts.GetByID postID (posts d') = None /\
       exists p, Posts.GetByID postID (posts d) = Some p /\ Post.UserID p = userSub) /\
    (forall p, Posts.GetByID postID (posts d) = Some p -> Post.UserID p <> userSub -> d' = d)).
Proof.
  intros Hinv. unfold PostUC.Delete, PostUC.uncount_reply.
  assert (Hgone : forall now parent, Posts.GetByID postID
    (uncounted parent (Posts.Delete now postID (posts d))) = None).
  { intros now parent. destruct (Posts.GetByID _ (uncounted _ _)) as [q|] eqn:E; [|done].
    apply live_of_GetByID in E as [Hq Hl]. exfalso.
    assert (Hrow : exists q', Posts.Delete now postID (posts d) !! postID = Some q' /\ Posts.live q' = true).
    { destruct parent; [|by eexists].
      destruct (update_live_row _ _ _ _ _ keeps_dec_replies Hq Hl) as (q' & ? & ? & _). by eexists. }
    destruct Hrow as (q' & Hq' & Hl'). unfold Posts.Delete in Hq'.
    destruct (posts d !! postID) as [p0|] eqn:Ep; [|congruence].
    rewrite lookup_insert_eq in Hq'. injection Hq' as <-. done. }
  repeat ustep; try done;
    repeat match goal with
    | H : Posts.GetByID _ _ = Some ?a |- _ =>
        let H' := fresh in pose proof H as H'; rewrite H; apply live_of_GetByID in H' as [? ?]; revert H
    | H : negb (bool_decide _) = _ |- _ => to_prop
    end; intros.
  - split; [done|]. split; [|split].
    + intros _.
      apply (delete_step d postID a (clock t0)) in Hinv as Hstep; [|done..].
      by rewrite Heqo in Hstep.
    + intros _. split; [apply (Hgone _ (Some s))|by eexists].
    + intros p [= <-] Hne. done.
  - split; [done|]. split; [intros [?|[? ?]]; congruence|]. split; [done|].
    intros p [= <-] Hne. done.
  - split; [done|]. split; [|split].
    + intros _. apply (delete_step d postID a (clock t0)) in Hinv as Hstep; [|done..].
      by rewrite Heqo in Hstep.
    + intros _. split; [apply (Hgone _ None)|by eexists].
    + intros p [= <-] Hne. done.
Qed.
End delete.

(** ** Publishing *)

Section create.
Context `{GoRuntime, !UniqueULIDs} {S : Type} `{!Backend S, !TagExtractor.t S}.

Lemma resolve_root_spec parent d :
  keyed (posts d) ->
  vwp (S:=S) (PostUC.resolve_root parent) d (fun r d' => d' = d /\ no_panic r /\
    forall root, r = Ok root -> inherits (posts d) root parent).
Proof.
  intros Hk. unfold PostUC.resolve_root. repeat ustep; try done;
    (split; [done|]; split; [done|]; intros root [= <-]); [..|done];
    match goal with H : Posts.GetByID _ _ = Some _ |- _ => apply live_of_GetByID in H as [Hq _] end;
    (eexists; split; [exact Hq|]).
  - by rewrite Heqo0.
  - rewrite Heqo0. destruct (Hk _ _ Hq) as [-> _]. done.
Qed.

(** The images a post may carry: live, and uploaded by its author. *)
Definition owned (d : DB) (userSub i : string) : Prop :=
  exists im, Images.GetByID i (images d) = Some im /\ Image.UserID im = userSub.

Lemma check_images_spec userSub ids d :
  vwp (S:=S) (for_each (PostUC.check_image userSub) ids) d (fun r d' => d' = d /\ no_panic r /\
    (r = Ok tt -> forall i, i ∈ ids -> owned d userSub i)).
Proof.
  apply (vwp_for_each _ _ _ (fun l d' => d' = d /\
    exists l0, ids = l0 ++ l /\ forall i, i ∈ l0 -> owned d userSub i)).
  - split; [done|]. exists []. split; [done|]. by intros i ?%not_elem_of_nil.
  - intros x l' d' [-> (l0 & E & Hl0)]. unfold PostUC.check_image. repeat ustep; try done.
    split; [done|]. exists (l0 ++ [x]). split; [by rewrite <-(assoc_L (++))|].
    intros i [Hi| ->%list_elem_of_singleton]%elem_of_app; [auto|]. eexists. split; [done|].
    by to_prop.
  - intros d' [-> (l0 & E & Hl0)]. split; [done|]. split; [done|]. intros _ i Hi. apply Hl0.
    by rewrite E, app_nil_r in Hi.
Qed.

Lemma create_step d n ts p now imgs tagIDs :
  post_inv d -> bounded d ->
  Tags.wf ts -> Tags.fresh_from n ts -> ulids d <= n ->
  Post.ID p = ulid_Make n -> Posts.live p = true -> Post.LikesCount p = 0%Z -> Post.RepliesCount p = 0%Z ->
  inherits (posts d) (Post.RootPostID p) (Post.ParentPostID p) ->
  (forall i, i ∈ imgs -> exists im, images d !! i = Some im /\ Image.UserID im = Post.UserID p) ->
  let r := Posts.Create now p imgs tagIDs (links d, posts d) in
  r.2 = Post.set_times now p /\
  post_inv (with_posts (counted p r.1.2)
    (with_links r.1.1 (with_tags ts (with_ulids (Datatypes.S n) d)))).
Proof.
  intros [Hk [Hf1 Hf2] Ht Hl Hr Hth Ha] [_ Hb] Hwf Hfr Hn Hid Hlive Hlk Hrp Hin Himg r.
  assert (Hnone : posts d !! ulid_Make n = None) by (apply Hf1; lia).
  split; [done|].
  set (q := Post.set_times now p).
  assert (Hq : Post.ID q = ulid_Make n) by done.
  assert (Hqn : posts d !! Post.ID q = None) by (by rewrite Hq).
  change (counted p) with (counted q). change (r.1.2) with (<[Post.ID q := q]> (posts d)).
  pose proof (counted_frames q (<[Post.ID q := q]> (posts d))) as Hfrm.
  split; cbn [posts likes links tags images ulids with_posts with_links with_tags with_ulids]; try done.
  - eapply keyed_frames; [done|]. apply keyed_insert; [done|]. rewrite Hq. apply ulid_nonempty.
  - split; [|intros k Hk'; apply Hfr; cbn in *; lia]. intros k Hk'.
    eapply same_frames_None; [done|]. rewrite lookup_insert_ne; [apply Hf1; cbn in *; lia|].
    rewrite Hq. intros E%ulid_inj. cbn in *. lia.
  - unfold counted. destruct (Post.ParentPostID q); [apply likes_ok_replies; [apply keeps_inc_replies|done|]|];
      by apply likes_ok_insert.
  - apply replies_ok_create; try done. intros pid Hpar. unfold inherits in Hin.
    change (Post.ParentPostID p) with (Post.ParentPostID q) in Hin. rewrite Hpar in Hin.
    destruct Hin as (x & Hx & _). by eexists.
  - eapply threads_frames; [done|]. by apply threads_ok_insert.
  - eapply attach_frames; [done|]. by apply (attach_ok_insert _ q).
Qed.

(** What the answer to a successful create says of the new tables. *)
Definition created_ok (userSub : string) (req : option CreatePostRequest.t) (d : DB)
    (det : PostUC.Detail.t) (d' : DB) : Prop :=
  exists rq, req = Some rq /\ CreatePostRequest.Validate rq = None /\
    let p := PostUC.Detail.Post det in
    posts d !! Post.ID p = None /\ posts d' !! Post.ID p = Some p /\
    Post.UserID p = userSub /\ Post.Content p = CreatePostRequest.Content rq /\
    Post.ParentPostID p = CreatePostRequest.ParentPostID rq /\ Post.DeletedAt p = None /\
    Post.LikesCount p = 0%Z /\ Post.RepliesCount p = 0%Z /\ likes d' = likes d /\
    inherits (posts d) (Post.RootPostID p) (Post.ParentPostID p) /\
    (forall i, i ∈ CreatePostRequest.ImageIDs rq -> owned d userSub i) /\
    Links.imageIDsByPost (Post.ID p) (links d') =
      (if bool_decide (CreatePostRequest.ImageIDs rq = []) then Links.imageIDsByPost (Post.ID p) (links d)
       else CreatePostRequest.ImageIDs rq) /\
    (forall x, x <> Post.ID p -> Some x <> Post.ParentPostID p -> posts d' !! x = posts d !! x) /\
    (forall x q, Some x = Post.ParentPostID p -> posts d !! x = Some q ->
       exists n, posts d' !! x = Some (Post.set_RepliesCount n q)).

Definition post_hook_ok (onCommit : option (Post.t -> M S unit)) : Prop :=
  forall h p, onCommit = Some h -> best_effort (h p).

Lemma post_hook_fmap onCommit p : post_hook_ok onCommit ->
  forall h, (fun k => k p) <$> onCommit = Some h -> best_effort h.
Proof. intros Hk h. destruct onCommit as [k|]; [|done]. intros [= <-]. by apply Hk. Qed.

Lemma owned_row d userSub i : owned d userSub i ->
  exists im, images d !! i = Some im /\ Image.UserID im = userSub.
Proof.
  intros (im & Him & Hu). exists im. split; [|done]. unfold Images.GetByID in Him.
  destruct (images d !! i) as [x|]; [|done]. destruct (Images.live x); [|done]. done.
Qed.

Lemma images_after now p imgs tagIDs ls ps pid :
  Links.imageIDsByPost pid (Posts.Create now p imgs tagIDs (ls, ps)).1.1 =
  (if bool_decide (imgs = []) then Links.imageIDsByPost pid ls
   else if bool_decide (pid = Post.ID p) then imgs else Links.imageIDsByPost pid ls).
Proof.
  unfold Posts.Create. cbn [fst snd]. set (ls' := if bool_decide (imgs = []) then ls else _).
  assert (E : Links.imageIDsByPost pid (if bool_decide (tagIDs = []) then ls'
    else Links.attachTags (Post.ID p) tagIDs ls') = Links.imageIDsByPost pid ls').
  { case_bool_decide; [done|]. unfold Links.attachTags. by rewrite bool_decide_eq_false_2. }
  rewrite E. subst ls'. clear E. destruct (decide (imgs = [])) as [Hi|Hi];
    [by rewrite !bool_decide_eq_true_2|]. rewrite !(bool_decide_eq_false_2 (imgs = [])) by done.
  unfold Links.imageIDsByPost, Links.attachImages. cbn [Links.postImages]. case_bool_decide; subst.
  - by rewrite lookup_insert_eq.
  - by rewrite lookup_insert_ne.
Qed.

Lemma counted_other p ps x : Some x <> Post.ParentPostID p -> counted p ps !! x = ps !! x.
Proof.
  intros Hne. unfold counted. destruct (Post.ParentPostID p) as [pid|]; [|done].
  unfold Posts.IncrementRepliesCount. rewrite update_live_lookup.
  rewrite bool_decide_eq_false_2; [done|congruence].
Qed.

Lemma tags_step d n ts :
  post_inv d -> Tags.wf ts -> Tags.fresh_from n ts -> ulids d <= n ->
  post_inv (with_ulids n (with_tags ts d)).
Proof.
  intros [? [Hf1 Hf2] ? ? ? ? ?] Hwf Hfr Hn. split; try done. split; [|done].
  intros k Hk. apply Hf1. cbn in Hk. lia.
Qed.

Lemma fresh_from_S n ts : Tags.fresh_from n ts -> Tags.fresh_from (Datatypes.S n) ts.
Proof. intros Hf k Hk. apply Hf. lia. Qed.

Lemma count_reply_spec p d :
  vwp (S:=S) (PostUC.count_reply (Post.ParentPostID p)) d (fun r d' =>
    (r = Ok tt /\ d' = with_posts (counted p (posts d)) d) \/ (faults S = true /\ exists e, r = Err e)).
Proof.
  unfold PostUC.count_reply, counted. destruct (Post.ParentPostID p) as [pid|]; ustep.
  - by left.
  - right. split; [done|]. by eexists.
  - left. by destruct d.
Qed.

Lemma unsettled {A} e : faults S = true -> settled S (Err (A:=A) e) -> False.
Proof. intros Hf [?|[? ?]]; congruence. Qed.

(** Of the parent's row only the reply count moves. *)
Lemma counted_parent p ps x q : Some x = Post.ParentPostID p -> ps !! x = Some q ->
  exists n, counted p ps !! x = Some (Post.set_RepliesCount n q).
Proof.
  intros Hx Hq. unfold counted. rewrite <-Hx. unfold Posts.IncrementRepliesCount.
  rewrite update_live_lookup, bool_decide_eq_true_2, Hq by done. cbn.
  destruct (Posts.live q); [by eexists|]. exists (Post.RepliesCount q). by destruct q.
Qed.

(** The post row of [r] and everything the answer promises about it. *)
Lemma created_facts d d' userSub rq root n now tagIDs (det : PostUC.Detail.t) :
  let p := PostUC.new_post (ulid_Make n) userSub rq root in
  let r := Posts.Create now p (CreatePostRequest.ImageIDs rq) tagIDs (links d, posts d) in
  CreatePostRequest.Validate rq = None -> posts d !! ulid_Make n = None ->
  inherits (posts d) root (CreatePostRequest.ParentPostID rq) ->
  (forall i, i ∈ CreatePostRequest.ImageIDs rq -> owned d userSub i) ->
  PostUC.Detail.Post det = Post.set_times now p ->
  likes d' = likes d ->
  posts d' = counted p r.1.2 -> Links.postImages (links d') = Links.postImages r.1.1 ->
  created_ok userSub (Some rq) d det d'.
Proof.
  intros p r Hval Hnone Hin Himg Hdet Hlikes Hposts Hlinks. exists rq. split; [done|]. split; [done|].
  rewrite Hdet. cbn zeta. change (Post.ID (Post.set_times now p)) with (ulid_Make n). split; [done|].
  change (r.1.2) with (<[ulid_Make n := Post.set_times now p]> (posts d)) in Hposts.
  assert (Hself : Some (ulid_Make n) <> Post.ParentPostID p).
  { intros E. change (Post.ParentPostID p) with (CreatePostRequest.ParentPostID rq) in E.
    unfold inherits in Hin. rewrite <-E in Hin. destruct Hin as (x & Hx & _). congruence. }
  split; [rewrite Hposts, counted_other, lookup_insert_eq; done|].
  do 8 (split; [done|]). split; [done|]. split; [|split].
  - unfold Links.imageIDsByPost at 1. rewrite Hlinks. fold (Links.imageIDsByPost (ulid_Make n) r.1.1).
    unfold r. rewrite images_after. by rewrite (bool_decide_eq_true_2 (ulid_Make n = _)).
  - intros x Hx Hpar. by rewrite Hposts, counted_other, lookup_insert_ne.
  - intros x q Hx Hq. rewrite Hposts. apply (counted_parent p); [done|]. rewrite lookup_insert_ne; congruence.
Qed.

Lemma CreatePost_spec hook userSub req d :
  post_hook_ok hook -> pure_extractor (S:=S) -> post_inv d -> bounded d ->
  vwp (S:=S) (PostUC.Create hook userSub req) d (fun r d' =>
    no_panic r /\ (settled S r -> post_inv d') /\
    (forall det, r = Ok det -> created_ok userSub req d det d')).
Proof.
  intros Hh Hx Hinv Hb. unfold PostUC.Create. repeat ustep; try done.
  eapply vwp_mono; [apply resolve_root_spec, Hinv|].
  intros [root|e|why] d1 (-> & Hnp & Hroot); [|by split|by destruct (Hnp why)].
  specialize (Hroot _ eq_refl). ustep.
  eapply vwp_mono; [apply check_images_spec|].
  intros [[]|e|why] d1 (-> & Hnp' & Himg); [|by split|by destruct (Hnp' why)].
  specialize (Himg eq_refl). repeat ustep.
  eapply vwp_mono; [apply Hx|].
  intros [names|e|why] d1 (-> & Hnp''); [|by split|by destruct (Hnp'' why)].
  clear Hnp Hnp' Hnp''.
  do 2 ustep.
  { unfold Tags.UpsertByNames.
    destruct (Tags.upsert_loop_spec (clock t) names ∅ (ulids d) (tags d) (inv_tags _ Hinv) (proj2 (inv_fresh _ Hinv)))
      as (n & ts & out & -> & Hwf & Hfr & Hn & _). cbn [fst snd]. split; [by intros|].
    pose proof (tags_step d _ ts Hinv Hwf (fresh_from_S _ _ Hfr) ltac:(lia)) as Hinv1.
    do 4 ustep; [by split|]. set (p := PostUC.new_post (ulid_Make n) userSub a root).
    pose proof (create_step d n ts p) as Hstep. cbn zeta in Hstep.
    ustep. ustep; [|by split; [|split; [intros ?%unsettled|]]].
    destruct (Hstep (clock t1) (CreatePostRequest.ImageIDs a) (Tag.ID <$> out)) as [Hcr Hinv2];
      try done; [intros i Hi; by apply owned_row, Himg|]. clear Hstep.
    pose proof (created_facts d) as Hfacts. rewrite Hcr. ustep.
    eapply vwp_mono; [apply (count_reply_spec p)|].
    intros r d' [[-> ->]|[Hf [e ->]]]; [|by split; [|split; [intros ?%unsettled|]]].
    ustep. ustep; [|by split; [|split; [intros ?%unsettled|]]].
    ustep. ustep; [by apply post_hook_fmap|]. ustep.
    match goal with H : hook_frame _ d' |- _ => rename H into Hhook end.
    split; [done|]. split; [intros _; by eapply post_inv_hook; [exact Hhook|]|].
    intros det [= <-]. rewrite H3. eapply (Hfacts d' userSub a root n); try done.
    - apply (inv_fresh _ Hinv). lia.
    - by destruct Hhook as (_ & _ & _ & -> & _).
    - by destruct Hhook as (_ & -> & _).
    - by destruct Hhook as (_ & _ & _ & _ & _ & _ & _ & -> & _). }
  split; [done|]. split; [intros [?|[? ?]]; congruence|done].
Qed.
End create.
