(* ===== verification/BadgeUC.v ===== *)
(** * [internal/usecase/badge], [internal/usecase/admin] and [Badge.Validate] *)

From S2P Require Import Prelude Errors Monad GoStrings Domain NetUrl MemBadges Repository Backend PostUC PostThms.

Definition maxBadgeLabelRunes : Z := 64.
Definition maxBadgeIconURLLen : Z := 1024.
Definition maxBadgeColorLen : Z := 16.

Definition len (s : string) : Z := Z.of_nat (String.length s).

Module BadgeValidate.
(** An icon is an absolute http or https URL with a host. *)
Definition icon_ok (icon : string) : bool :=
  match URL.Parse icon with
  | None => false
  | Some u =>
      negb (negb (bool_decide (URL.Scheme u = "http"%string)) && negb (bool_decide (URL.Scheme u = "https"%string))
            || bool_decide (URL.Host u = ""))
  end.

Definition Validate (b : Badge.t) : option goerror :=
  if bool_decide (Badge.Key b = "") || (GrantBadgeRequest.maxBadgeKeyLen <? len (Badge.Key b))%Z
  then Some (NewValidationError "key must be 1..64 chars")
  else if bool_decide (Badge.Label b = "")
          || (maxBadgeLabelRunes <? Z.of_nat (RuneCountInString (Badge.Label b)))%Z
  then Some (NewValidationError "label must be 1..64 chars")
  else if (maxBadgeIconURLLen <? len (Badge.IconURL b))%Z
  then Some (NewValidationError "icon_url must be at most 1024 chars")
  else if negb (bool_decide (Badge.IconURL b = "")) && negb (icon_ok (Badge.IconURL b))
  then Some (NewValidationError "icon_url must be an absolute http(s) URL")
  else if (maxBadgeColorLen <? len (Badge.Color b))%Z
  then Some (NewValidationError "color must be at most 16 chars")
  else if (Badge.Priority b <? 0)%Z
  then Some (NewValidationError "priority must be non-negative")
  else None.

(** What a stored icon can be: nothing, or a link a browser opens over http(s). *)
Definition safe_icon (icon : string) : Prop :=
  icon = "" \/ exists u, URL.Parse icon = Some u /\
    (URL.Scheme u = "http"%string \/ URL.Scheme u = "https"%string) /\ URL.Host u <> "".

Lemma icon_ok_safe icon : icon_ok icon = true -> safe_icon icon.
Proof.
  unfold icon_ok. destruct (URL.Parse icon) as [u|] eqn:E; [|done]. intros Hu. right. exists u.
  split; [exact E|]. apply negb_true_iff, orb_false_iff in Hu as [Hs Hh].
  split; [|by apply bool_decide_eq_false in Hh].
  apply andb_false_iff in Hs as [Hs|Hs]; apply negb_false_iff, bool_decide_eq_true in Hs; auto.
Qed.

Lemma Validate_None b : Validate b = None ->
  Badge.Key b <> "" /\ (len (Badge.Key b) <= 64)%Z /\ Badge.Label b <> "" /\
  safe_icon (Badge.IconURL b) /\ (0 <= Badge.Priority b)%Z.
Proof.
  unfold Validate, GrantBadgeRequest.maxBadgeKeyLen. intros HV.
  repeat match type of HV with (if ?b then _ else _) = _ => destruct b eqn:?; [done|] end.
  to_prop. split; [done|]. split; [lia|]. split; [done|]. split; [|lia].
  match goal with H : (_ && _)%bool = false |- _ => apply andb_false_iff in H as [?|?] end;
    to_prop; [by left|by apply icon_ok_safe].
Qed.
End BadgeValidate.

Module AdminUC.
Local Open Scope go_scope.

Section checker.
Context {S : Type} `{UserRepository.t S}.

(** A missing row is not an administrator. *)
Definition IsAdmin (sub : string) : M S bool :=
  let! user := or_db "failed to load user for admin check" (UserRepository.GetBySub sub) in
  match user with
  | None => ret false
  | Some u => ret (User.IsAdmin u)
  end.
End checker.
End AdminUC.

Module BadgeUC.
Local Open Scope go_scope.

Section usecases.
Context `{GoRuntime} {S : Type} `{BadgeRepository.t S, UserRepository.t S, Runtime.t S}.

Definition ensureAdmin (sub : string) : M S unit :=
  guard (bool_decide (sub = "")) (Unauthorized "authentication required") ;;;
  let! ok := AdminUC.IsAdmin sub in
  guard (negb ok) (Forbidden "admin privilege required").

Definition GetUserBadges (sub : string) : M S (list Badge.t) :=
  guard (bool_decide (sub = "")) (InvalidRequest "sub is required" None) ;;;
  or_db "failed to list user badges" (BadgeRepository.ListByUserID sub).

Definition ListUserBadgesBatch (subs : list string) : M S (gmap string (list Badge.t)) :=
  if bool_decide (subs = []) then ret ∅
  else or_db "failed to list user badges" (BadgeRepository.ListByUserIDs subs).

Definition GrantBadge (adminSub targetSub : string) (req : option GrantBadgeRequest.t) : M S Badge.t :=
  ensureAdmin adminSub ;;;
  let! req := or_missing (InvalidRequest "request body is required" None) req in
  guard (bool_decide (targetSub = "")) (InvalidRequest "target sub is required" None) ;;;
  or_invalid (GrantBadgeRequest.Validate req) ;;;
  let! badge := or_db "failed to load badge" (BadgeRepository.GetByKey (GrantBadgeRequest.BadgeKey req)) in
  let! badge := or_missing (NotFound "badge not found") badge in
  let! user := or_db "failed to load user" (UserRepository.GetBySub targetSub) in
  let! _ := or_missing (NotFound "user not found") user in
  or_db "failed to grant badge"
    (BadgeRepository.Grant targetSub (Badge.ID badge) adminSub
       (GrantBadgeRequest.ExpiresAt req) (GrantBadgeRequest.Reason req)) ;;;
  ret badge.

Definition RevokeBadge (adminSub targetSub badgeID : string) : M S unit :=
  ensureAdmin adminSub ;;;
  guard (bool_decide (targetSub = "") || bool_decide (badgeID = ""))
    (InvalidRequest "target sub and badge id are required" None) ;;;
  or_db "failed to revoke badge" (BadgeRepository.Revoke targetSub badgeID).

Definition ListBadges : M S (list Badge.t) :=
  or_db "failed to list badges" BadgeRepository.ListAll.

Definition CreateBadge (adminSub : string) (badge : option Badge.t) : M S Badge.t :=
  ensureAdmin adminSub ;;;
  let! badge := or_missing (InvalidRequest "request body is required" None) badge in
  or_invalid (BadgeValidate.Validate badge) ;;;
  let! existing := or_db "failed to check badge uniqueness" (BadgeRepository.GetByKey (Badge.Key badge)) in
  guard (bool_decide (is_Some existing)) (Conflict "badge key already exists") ;;;
  let! id := Runtime.MakeULID in
  let! created := or_db "failed to create badge" (BadgeRepository.Create (Badge.set_ID id badge)) in
  or_missing (Conflict "badge key already exists") created.

Definition patched (existing patch : Badge.t) : Badge.t :=
  Badge.mk (Badge.ID existing) (Badge.Key existing) (Badge.Label patch) (Badge.Description patch)
    (Badge.IconURL patch) (Badge.Color patch) (Badge.Priority patch)
    (Badge.CreatedAt existing) (Badge.UpdatedAt existing).

Definition UpdateBadge (adminSub badgeID : string) (patch : option Badge.t) : M S Badge.t :=
  ensureAdmin adminSub ;;;
  let! patch := or_missing (InvalidRequest "request body is required" None) patch in
  let! existing := or_db "failed to load badge" (BadgeRepository.GetByID badgeID) in
  let! existing := or_missing (NotFound "badge not found") existing in
  let existing := patched existing patch in
  or_invalid (BadgeValidate.Validate existing) ;;;
  let! updated := or_db "failed to update badge" (BadgeRepository.Update existing) in
  or_missing (NotFound "badge not found") updated.
End usecases.
End BadgeUC.

(** ** Theorems *)

(** The badge tables: index and rows agree, identifiers not minted yet are
    unused, and every stored icon is safe. *)
Record badge_inv `{GoRuntime} (d : DB) : Prop := {
  badges_wf : Badges.wf (badges d);
  badges_fresh : forall k, ulids d <= k -> Badges.badges (badges d) !! ulid_Make k = None;
  badges_safe : forall id b, Badges.badges (badges d) !! id = Some b -> BadgeValidate.safe_icon (Badge.IconURL b);
}.

Definition admin (d : DB) (sub : string) : Prop :=
  exists u, users d !! sub = Some u /\ User.IsAdmin u = true.

(** The badge the request describes, under an id and a key. *)
Definition described (rq : Badge.t) (id key : string) (created updated : Time) : Badge.t :=
  Badge.mk id key (Badge.Label rq) (Badge.Description rq) (Badge.IconURL rq) (Badge.Color rq)
    (Badge.Priority rq) created updated.

(** A grant is good at [now]. *)
Definition unexpired (now : Time) (expires : option Time) : Prop :=
  match expires with Some e => (now < e)%Z | None => True end.

(** [sub] holds the badge [b] at [now]: it is stored, and granted by a row
    that has not expired. *)
Definition holds_badge (now : Time) (sub : string) (d : DB) (b : Badge.t) : Prop :=
  Badges.badges (badges d) !! Badge.ID b = Some b /\
  exists g, Badges.userBadges (badges d) !! (sub, Badge.ID b) = Some g /\ unexpired now (UserBadge.ExpiresAt g).

Section badge_thms.
Context `{GoRuntime} {S : Type} `{!Backend S}.

(** The guard passes for administrators only, and reads nothing else. *)
Lemma ensureAdmin_spec sub d :
  vwp (S:=S) (BadgeUC.ensureAdmin sub) d (fun r d' => d' = d /\ no_panic r /\ (r = Ok tt -> admin d sub)).
Proof.
  unfold BadgeUC.ensureAdmin, AdminUC.IsAdmin. repeat ustep; try done.
  split; [done|]. split; [done|]. intros _. eexists. split; [done|]. by to_prop.
Qed.

Lemma ensureAdmin_bind {A} (k : M S A) sub d (Q : res A -> DB -> Prop) :
  (admin d sub -> vwp k d Q) -> (forall e, Q (Err e) d) ->
  vwp (bind (BadgeUC.ensureAdmin sub) (fun _ => k)) d Q.
Proof.
  intros Hk Herr. apply vwp_bind. eapply vwp_mono; [apply ensureAdmin_spec|].
  intros [[]|e|p] d' (-> & Hnp & Ha); [auto|auto|by destruct (Hnp p)].
Qed.

Context `{!UniqueULIDs}.

Lemma badge_inv_ulids n d : ulids d <= n -> badge_inv d -> badge_inv (with_ulids n d).
Proof. intros Hn [? Hf ?]. split; try done. intros k Hk. apply Hf. cbn in Hk. lia. Qed.

(** The administrator's request to add a master row. *)
Lemma CreateBadge_spec adminSub badge d :
  badge_inv d ->
  vwp (S:=S) (BadgeUC.CreateBadge adminSub badge) d (fun r d' =>
    no_panic r /\ badge_inv d' /\
    (forall b, r = Ok b -> admin d adminSub /\ Badges.byKey (badges d) !! Badge.Key b = None /\
       Badges.badges (badges d) !! Badge.ID b = None /\
       Badges.badges (badges d') = <[Badge.ID b := b]> (Badges.badges (badges d)) /\
       Badges.userBadges (badges d') = Badges.userBadges (badges d) /\
       exists rq, badge = Some rq /\ b = described rq (Badge.ID b) (Badge.Key rq) (Badge.CreatedAt b) (Badge.UpdatedAt b))).
Proof.
  intros Hinv. unfold BadgeUC.CreateBadge. apply ensureAdmin_bind; [|done]. intros Hadm.
  repeat (ustep; try done). destruct (Badges.GetByKey_ok (Badge.Key a) (badges d) (badges_wf _ Hinv)) as (ex & -> & Hex).
  split; [by intros|]. ustep. (ustep; [done|]). to_prop. do 3 ustep.
  set (b0 := Badge.set_ID _ a).
  pose proof (badge_inv_ulids (Datatypes.S (ulids d)) d ltac:(lia) Hinv) as Hinv1.
  ustep; [|by split].
  assert (Hfree : Badges.byKey (badges d) !! Badge.Key a = None).
  { destruct (Badges.byKey (badges d) !! Badge.Key a) as [id|] eqn:E; [|done]. exfalso.
    destruct (proj1 (badges_wf _ Hinv) _ _ E) as (b & Hb & Hkey).
    destruct (proj2 (badges_wf _ Hinv) _ _ Hb) as [Hid _].
    match goal with H : ~ is_Some ex |- _ => apply H end. exists b. apply Hex. by rewrite Hid. }
  pose proof (Badges.Create_badge_wf (clock t1) b0 (badges d) (badges_wf _ Hinv) (badges_fresh _ Hinv _ (le_n _))) as Hwf.
  unfold Badges.Create in *. change (Badge.Key b0) with (Badge.Key a) in *. rewrite Hfree in *.
  cbn [fst snd or_missing] in *. apply vwp_ret. split; [done|]. split.
  - split; [done| |].
    + intros k Hk. cbn in Hk |- *. rewrite (lookup_insert_ne (Badges.badges (badges d))).
      * apply (badges_fresh _ Hinv). lia.
      * intros E%ulid_inj. lia.
    + intros id b. cbn. intros [[<- <-]|[_ Hb]]%lookup_insert_Some; [|by eapply badges_safe].
      by apply BadgeValidate.Validate_None.
  - intros b [= <-]. split_and!; [done|done|apply (badges_fresh _ Hinv _ (le_n _))|done|done|by exists a].
Qed.

Lemma update_inv now old patch d :
  badge_inv d -> Badges.badges (badges d) !! Badge.ID old = Some old ->
  BadgeValidate.Validate (BadgeUC.patched old patch) = None ->
  badge_inv (with_badges (Badges.Update now (BadgeUC.patched old patch) (badges d)).1 d) /\
  exists b, (Badges.Update now (BadgeUC.patched old patch) (badges d)).2 = Some b /\
    Badges.badges (Badges.Update now (BadgeUC.patched old patch) (badges d)).1 =
      <[Badge.ID old := b]> (Badges.badges (badges d)) /\
    Badges.userBadges (Badges.Update now (BadgeUC.patched old patch) (badges d)).1 = Badges.userBadges (badges d) /\
    b = described patch (Badge.ID old) (Badge.Key old) (Badge.CreatedAt old) (Badge.UpdatedAt b).
Proof.
  intros [Hwf Hf Hs] Hold Hval.
  pose proof (Badges.Update_wf now (BadgeUC.patched old patch) _ Hwf) as Hwf'.
  unfold Badges.Update in *. change (Badge.ID (BadgeUC.patched old patch)) with (Badge.ID old) in *.
  rewrite Hold in *. cbn [fst snd] in *. split.
  - split; [done| |]; cbn [badges ulids with_badges Badges.badges Badges.updated Badge.ID].
    + intros k Hk. rewrite (lookup_insert_ne (Badges.badges (badges d))); [by apply Hf|].
      intros E. rewrite E in Hold. by rewrite Hf in Hold.
    + intros id b [[<- <-]|[_ Hb]]%lookup_insert_Some; [|by eapply Hs].
      by apply BadgeValidate.Validate_None in Hval as (_ & _ & _ & ? & _).
  - eexists. split_and!; done.
Qed.

(** Updates keep the identifier and the key. *)
Lemma UpdateBadge_spec adminSub badgeID patch d :
  badge_inv d ->
  vwp (S:=S) (BadgeUC.UpdateBadge adminSub badgeID patch) d (fun r d' =>
    no_panic r /\ badge_inv d' /\
    (forall b, r = Ok b -> admin d adminSub /\
       Badges.badges (badges d') = <[badgeID := b]> (Badges.badges (badges d)) /\
       Badges.userBadges (badges d') = Badges.userBadges (badges d) /\
       exists rq old, patch = Some rq /\ Badges.badges (badges d) !! badgeID = Some old /\
         b = described rq badgeID (Badge.Key old) (Badge.CreatedAt old) (Badge.UpdatedAt b))).
Proof.
  intros Hinv. unfold BadgeUC.UpdateBadge. apply ensureAdmin_bind; [|done]. intros Hadm.
  repeat (ustep; try done); unfold Badges.GetByID in *;
    match goal with H : Badges.badges _ !! _ = Some ?b, H' : (Badges.Update ?now _ _).2 = _ |- _ =>
      pose proof H as Hold; destruct (proj2 (badges_wf _ Hinv) _ _ H) as [Hid _]; rewrite <-Hid in H;
      destruct (update_inv now _ _ _ Hinv H ltac:(done)) as (Hinv' & b' & Eb & Hfix);
      rewrite Eb in H' end; [done|].
  split; [done|]. split; [done|]. intros b [= <-]. simplify_eq.
  destruct Hfix as (Hrows & Hgr & Heq). split_and!; [done|done|done|]. by exists a, a0.
Qed.

(** The list of a user holds what the user holds. *)
Lemma listed_iff_held now seed sub b d :
  badge_inv d -> b ∈ Badges.ListByUserID now seed sub (badges d) <-> holds_badge now sub d b.
Proof.
  intros Hinv. rewrite Badges.elem_of_ListByUserID. unfold holds_badge, Badges.active, unexpired.
  assert (Hact : forall g, match UserBadge.ExpiresAt g with Some e => After e now | None => true end = true <->
    match UserBadge.ExpiresAt g with Some e => (now < e)%Z | None => True end).
  { intros g. destruct (UserBadge.ExpiresAt g); [|done]. unfold After. rewrite bool_decide_eq_true. lia. }
  split.
  - intros (bid & g & Hg & Ha & Hb). destruct (proj2 (badges_wf _ Hinv) _ _ Hb) as [Hid _]. rewrite Hid.
    split; [done|]. exists g. split; [done|]. by apply Hact.
  - intros (Hb & g & Hg & Ha). exists (Badge.ID b), g. split_and!; [done|by apply Hact|done].
Qed.

(** A grant shows up in the user's list until it expires, and changes no
    other entry of any list. *)
Lemma GrantBadge_spec adminSub targetSub req d :
  badge_inv d ->
  vwp (S:=S) (BadgeUC.GrantBadge adminSub targetSub req) d (fun r d' =>
    no_panic r /\ badge_inv d' /\ (forall b, r = Ok b -> admin d adminSub /\
      exists rq, req = Some rq /\ is_Some (users d !! targetSub) /\ Badge.Key b = GrantBadgeRequest.BadgeKey rq /\
        Badges.badges (badges d') = Badges.badges (badges d) /\
        forall now seed sub x, x ∈ Badges.ListByUserID now seed sub (badges d') <->
          (sub = targetSub /\ x = b /\ unexpired now (GrantBadgeRequest.ExpiresAt rq)) \/
          (~ (sub = targetSub /\ x = b) /\ x ∈ Badges.ListByUserID now seed sub (badges d)))).
Proof.
  intros Hinv. unfold BadgeUC.GrantBadge. apply ensureAdmin_bind; [|done]. intros Hadm.
  repeat (ustep; try done).
  destruct (Badges.GetByKey_ok (GrantBadgeRequest.BadgeKey a) (badges d) (badges_wf _ Hinv)) as (ex & -> & Hex).
  split; [by intros|]. repeat (ustep; try done). split; [done|].
  set (d' := with_badges _ d). assert (Hinv' : badge_inv d') by (destruct Hinv as [Hwf Hf Hs]; by split).
  split; [done|]. intros b [= <-]. split; [done|]. exists a. split; [done|]. split; [by eexists|].
  destruct (proj1 (Hex a0)) as [Hrow Hkey]; [done|]. split; [done|]. split; [done|].
  intros now seed sub x. rewrite !listed_iff_held by done. unfold holds_badge at 1. subst d'.
  cbn [badges with_badges Badges.Grant Badges.badges Badges.userBadges].
  destruct (decide (sub = targetSub /\ Badge.ID x = Badge.ID a0)) as [[-> Hid]|Hne].
  - rewrite Hid, (lookup_insert_eq (Badges.userBadges (badges d))). split.
    + intros (Hb & g & [= <-] & Hu). left. split_and!; [done|congruence|done].
    + intros [(_ & -> & Hu)|[Hx [Hb _]]]; [by split; [|eexists]|]. exfalso. apply Hx. split; [done|]. congruence.
  - rewrite (lookup_insert_ne (Badges.userBadges (badges d))) by (intros [= <- E]; by apply Hne).
    unfold holds_badge. split; [|naive_solver]. intros Hh. right. split; [|done]. intros [-> ->]. by apply Hne.
Qed.

(** A revoked badge leaves the user's list, and nothing else leaves one. *)
Lemma RevokeBadge_spec adminSub targetSub badgeID d :
  badge_inv d ->
  vwp (S:=S) (BadgeUC.RevokeBadge adminSub targetSub badgeID) d (fun r d' =>
    no_panic r /\ badge_inv d' /\ (r = Ok tt -> admin d adminSub /\
      Badges.badges (badges d') = Badges.badges (badges d) /\
      forall now seed sub x, x ∈ Badges.ListByUserID now seed sub (badges d') <->
        x ∈ Badges.ListByUserID now seed sub (badges d) /\ ~ (sub = targetSub /\ Badge.ID x = badgeID))).
Proof.
  intros Hinv. unfold BadgeUC.RevokeBadge. apply ensureAdmin_bind; [|done]. intros Hadm.
  repeat (ustep; try done). split; [done|].
  set (d' := with_badges _ d). assert (Hinv' : badge_inv d') by (destruct Hinv as [Hwf Hf Hs]; by split).
  split; [done|]. intros _. split; [done|]. split; [done|]. intros now seed sub x.
  pose proof (listed_iff_held now seed sub x d' Hinv') as E. subst d'. cbn [badges with_badges] in E.
  rewrite E, listed_iff_held by done. unfold holds_badge. cbn [badges with_badges Badges.Revoke Badges.badges Badges.userBadges].
  destruct (decide (sub = targetSub /\ Badge.ID x = badgeID)) as [[-> <-]|Hne].
  - split; [|naive_solver]. intros (_ & g & Hg & _). by rewrite (lookup_delete_eq (Badges.userBadges (badges d))) in Hg.
  - rewrite (lookup_delete_ne (Badges.userBadges (badges d))) by (intros [= -> ->]; by apply Hne). naive_solver.
Qed.

(** The four writes of the package. *)
Inductive badge_write :=
  | WGrant (targetSub : string) (req : option GrantBadgeRequest.t)
  | WRevoke (targetSub badgeID : string)
  | WCreate (badge : option Badge.t)
  | WUpdate (badgeID : string) (patch : option Badge.t).

Definition run_write (sub : string) (w : badge_write) : M S unit :=
  (match w with
  | WGrant t r => BadgeUC.GrantBadge sub t r ;;; ret tt
  | WRevoke t b => BadgeUC.RevokeBadge sub t b
  | WCreate b => BadgeUC.CreateBadge sub b ;;; ret tt
  | WUpdate i p => BadgeUC.UpdateBadge sub i p ;;; ret tt
  end)%go.

Lemma run_write_admin sub w d :
  ~ admin d sub -> vwp (run_write sub w) d (fun r d' => d' = d /\ exists e, r = Err e).
Proof.
  intros Hn. destruct w; cbn [run_write]; [apply vwp_bind| |apply vwp_bind..];
    unfold BadgeUC.GrantBadge, BadgeUC.RevokeBadge, BadgeUC.CreateBadge, BadgeUC.UpdateBadge;
    (apply ensureAdmin_bind; [done|eauto]).
Qed.
End badge_thms.
