(* ===== verification/FollowUC.v ===== *)
(** * [internal/usecase/follow]: follow relations and their counters *)

From S2P Require Import Prelude Errors Monad Domain MemUsers MemFollows Repository Backend PostUC PostThms.

Module FollowUC.
Local Open Scope go_scope.

Definition DefaultPageLimit : Z := 20.
Definition MaxPageLimit : Z := 50.
Definition normalizeLimit (limit : Z) : Z :=
  if ((limit <=? 0) || (MaxPageLimit <? limit))%Z then DefaultPageLimit else limit.

Module Result.
Record t := mk { Following : bool; FollowersCount : Z }.
End Result.

Definition countOrZero (u : option User.t) : Z :=
  match u with Some u => User.FollowersCount u | None => 0 end.

(** Page order survives the map lookup; unknown users are skipped. *)
Definition orderedUsers (peers : list string) (users : gmap string User.t) : list User.t :=
  omap (fun p => users !! p) peers.

Section usecases.
Context `{GoRuntime} {S : Type} `{UserRepository.t S, FollowRepository.t S}.

Definition bump (followerSub followeeSub : string) : M S unit :=
  or_db "failed to bump following_count" (UserRepository.IncrementFollowingCount followerSub) ;;;
  or_db "failed to bump followers_count" (UserRepository.IncrementFollowersCount followeeSub).

Definition Follow (onCommit : option (string -> string -> M S unit)) (followerSub followeeSub : string)
    : M S Result.t :=
  guard (bool_decide (followerSub = "")) (Unauthorized "authentication required") ;;;
  or_invalid (Follow.Validate (Follow.mk followerSub followeeSub time_zero)) ;;;
  let! target := or_db "failed to load target user" (UserRepository.GetBySub followeeSub) in
  let! target := or_missing (NotFound "user not found") target in
  guard (negb (bool_decide (User.DeletedAt target = None))) (NotFound "user not found") ;;;
  let! inserted := or_db "failed to create follow" (FollowRepository.Create followerSub followeeSub) in
  if (inserted : bool) then
    bump followerSub followeeSub ;;;
    run_hook ((fun h => h followerSub followeeSub) <$> onCommit) ;;;
    ret (Result.mk true (wrap64 (User.FollowersCount target + 1)))
  else ret (Result.mk true (User.FollowersCount target)).

Definition unbump (followerSub followeeSub : string) : M S unit :=
  or_db "failed to decrement following_count" (UserRepository.DecrementFollowingCount followerSub) ;;;
  or_db "failed to decrement followers_count" (UserRepository.DecrementFollowersCount followeeSub).

Definition Unfollow (followerSub followeeSub : string) : M S Result.t :=
  guard (bool_decide (followerSub = "")) (Unauthorized "authentication required") ;;;
  guard (bool_decide (followerSub = followeeSub)) (ValidationFailed "cannot unfollow yourself") ;;;
  guard (bool_decide (followeeSub = "")) (InvalidRequest "target sub is required" None) ;;;
  let! deleted := or_db "failed to delete follow" (FollowRepository.Delete followerSub followeeSub) in
  (if (deleted : bool) then unbump followerSub followeeSub else ret tt) ;;;
  let! refreshed := or_db "failed to reload target user" (UserRepository.GetBySub followeeSub) in
  ret (Result.mk false (countOrZero refreshed)).

Definition ListFollowers (sub : string) (cursor : option string) (limit : Z)
    : M S (list User.t * string) :=
  guard (bool_decide (sub = "")) (InvalidRequest "sub is required" None) ;;;
  let limit := normalizeLimit limit in
  let! (rows, next) := or_db "failed to list followers" (FollowRepository.ListFollowers sub cursor limit) in
  let peers := Follow.FollowerSub <$> rows in
  let! users := or_db "failed to load follower users" (UserRepository.ListBySubs peers) in
  ret (orderedUsers peers users, next).

Definition ListFollowing (sub : string) (cursor : option string) (limit : Z)
    : M S (list User.t * string) :=
  guard (bool_decide (sub = "")) (InvalidRequest "sub is required" None) ;;;
  let limit := normalizeLimit limit in
  let! (rows, next) := or_db "failed to list following" (FollowRepository.ListFollowing sub cursor limit) in
  let peers := Follow.FolloweeSub <$> rows in
  let! users := or_db "failed to load followed users" (UserRepository.ListBySubs peers) in
  ret (orderedUsers peers users, next).
End usecases.
End FollowUC.

(** ** The invariant of the users and follows tables *)

Record follow_inv (us : gmap string User.t) (fs : gmap (string * string) Follow.t) : Prop := {
  fi_rows : Follows.wf fs;
  fi_keys : forall sub u, us !! sub = Some u -> User.Sub u = sub;
  fi_targets : forall a b, Follows.following fs a b -> is_Some (us !! b);
  fi_followers : forall sub u, us !! sub = Some u ->
    User.FollowersCount u = Z.of_nat (size (Follows.followers fs sub));
}.

(** The counter of the other side is exact once every follower has a row. *)
Record following_inv (us : gmap string User.t) (fs : gmap (string * string) Follow.t) : Prop := {
  gi_sources : forall a b, Follows.following fs a b -> is_Some (us !! a);
  gi_following : forall sub u, us !! sub = Some u ->
    User.FollowingCount u = Z.of_nat (size (Follows.followees fs sub));
}.

Definition few_follows (fs : gmap (string * string) Follow.t) : Prop := (Z.of_nat (size fs) < int64_max)%Z.

(** The counter-free part of a user row. *)
Definition same_keys (us us' : gmap string User.t) : Prop :=
  forall x, User.Sub <$> us' !! x = User.Sub <$> us !! x.

Section tables.
Context (us : gmap string User.t) (fs : gmap (string * string) Follow.t) (a b : string).

(** Both increments of a new follow. *)
Definition bumped : gmap string User.t :=
  Users.IncrementFollowersCount b (Users.IncrementFollowingCount a us).
Definition unbumped : gmap string User.t :=
  Users.DecrementFollowersCount b (Users.DecrementFollowingCount a us).

Lemma bumped_lookup x :
  bumped !! x =
  (fun u => (if bool_decide (x = b) then (fun u => User.set_FollowersCount (wrap64 (User.FollowersCount u + 1)) u) else id)
     ((if bool_decide (x = a) then (fun u => User.set_FollowingCount (wrap64 (User.FollowingCount u + 1)) u) else id) u))
    <$> us !! x.
Proof.
  unfold bumped. rewrite Users.inc_followers_lookup, Users.inc_following_lookup.
  destruct (bool_decide (x = b)), (bool_decide (x = a)); by destruct (us !! x).
Qed.

Lemma unbumped_lookup x :
  unbumped !! x =
  (fun u => (if bool_decide (x = b) then (fun u => if (0 <? User.FollowersCount u)%Z
                then User.set_FollowersCount (User.FollowersCount u - 1) u else u) else id)
     ((if bool_decide (x = a) then (fun u => if (0 <? User.FollowingCount u)%Z
                then User.set_FollowingCount (User.FollowingCount u - 1) u else u) else id) u))
    <$> us !! x.
Proof.
  unfold unbumped. rewrite Users.dec_followers_lookup, Users.dec_following_lookup.
  destruct (bool_decide (x = b)), (bool_decide (x = a)); by destruct (us !! x).
Qed.

Lemma size_followers_le x : size (Follows.followers fs x) <= size fs.
Proof. rewrite <-(size_dom (D:=gset (string * string))). apply subseteq_size. unfold Follows.followers. set_solver. Qed.
Lemma size_followees_le x : size (Follows.followees fs x) <= size fs.
Proof. rewrite <-(size_dom (D:=gset (string * string))). apply subseteq_size. unfold Follows.followees. set_solver. Qed.

Lemma is_Some_bumped x : is_Some (us !! x) -> is_Some (bumped !! x).
Proof. rewrite bumped_lookup. intros [u ->]. by eexists. Qed.
Lemma is_Some_unbumped x : is_Some (us !! x) -> is_Some (unbumped !! x).
Proof. rewrite unbumped_lookup. intros [u ->]. by eexists. Qed.

Hypothesis few : few_follows fs.

Lemma following_create now x y :
  Follows.following (Follows.Create now a b fs).1 x y <-> (x = a /\ y = b) \/ Follows.following fs x y.
Proof.
  unfold Follows.following, Follows.Create. destruct (fs !! (a, b)) eqn:E; cbn [fst].
  - split; [by right|]. intros [[-> ->]|?]; [by rewrite E|done].
  - rewrite lookup_insert_is_Some'. naive_solver.
Qed.

Lemma following_delete x y :
  Follows.following (Follows.Delete a b fs).1 x y <-> Follows.following fs x y /\ ~ (x = a /\ y = b).
Proof.
  unfold Follows.following, Follows.Delete. destruct (fs !! (a, b)) eqn:E; cbn [fst].
  - rewrite lookup_delete_is_Some. naive_solver.
  - split; [|tauto]. intros Hs. split; [done|]. intros [-> ->]. rewrite E in Hs. by destruct Hs.
Qed.

Lemma follow_inv_create now :
  follow_inv us fs -> fs !! (a, b) = None -> is_Some (us !! b) ->
  a <> "" -> b <> "" -> a <> b -> (0 <= now < max_time)%Z ->
  follow_inv bumped (Follows.Create now a b fs).1.
Proof using few.
  intros [Hr Hk Ht Hc] Hnew Hb Ha1 Hb1 Hne Hnow. split.
  - by apply Follows.Create_wf.
  - intros x u'. rewrite bumped_lookup. destruct (us !! x) as [u|] eqn:E; [|done]. intros [= <-].
    rewrite <-(Hk _ _ E). by destruct (bool_decide _), (bool_decide _).
  - intros x y [[-> ->]|Hf]%following_create; apply is_Some_bumped; eauto.
  - intros x u'. rewrite bumped_lookup, Follows.Create_followers.
    destruct (us !! x) as [u|] eqn:E; [|done]. intros [= <-]. case_bool_decide as Hx.
    + subst x. rewrite bool_decide_eq_false_2 by congruence. cbn. rewrite size_union, size_singleton.
      * rewrite (Hc _ _ E). pose proof (size_followers_le b). unfold few_follows, int64_max in few.
        rewrite wrap64_small; [lia|]. unfold int64_min, int64_max. lia.
      * intros k ->%elem_of_singleton. unfold Follows.followers. rewrite elem_of_filter, elem_of_dom, Hnew.
        by intros [_ []].
    + rewrite <-(Hc _ _ E). by destruct (bool_decide _).
Qed.

Lemma following_inv_create now :
  following_inv us fs -> fs !! (a, b) = None -> is_Some (us !! a) -> a <> b ->
  following_inv bumped (Follows.Create now a b fs).1.
Proof using few.
  intros [Hs Hc] Hnew Ha Hne. split.
  - intros x y [[-> ->]|Hf]%following_create; apply is_Some_bumped; eauto.
  - intros x u'. rewrite bumped_lookup, Follows.Create_followees.
    destruct (us !! x) as [u|] eqn:E; [|done]. intros [= <-].
    destruct (decide (x = a)) as [->|Hx].
    + rewrite (bool_decide_eq_true_2 (a = a)), bool_decide_eq_false_2 by done. cbn.
      rewrite size_union, size_singleton.
      * rewrite (Hc _ _ E). pose proof (size_followees_le a). unfold few_follows, int64_max in few.
        rewrite wrap64_small; [lia|]. unfold int64_min, int64_max. lia.
      * intros k ->%elem_of_singleton. unfold Follows.followees. rewrite elem_of_filter, elem_of_dom, Hnew.
        by intros [_ []].
    + rewrite !(bool_decide_eq_false_2 (x = a)) by done. rewrite <-(Hc _ _ E). by destruct (bool_decide _).
Qed.

Lemma follow_inv_delete :
  follow_inv us fs -> is_Some (fs !! (a, b)) -> follow_inv unbumped (Follows.Delete a b fs).1.
Proof using Type. clear few.
  intros [Hr Hk Ht Hc] [f Hf]. destruct (Hr _ _ _ Hf) as (_ & _ & _ & _ & Hne & _). split.
  - by apply Follows.Delete_wf.
  - intros x u'. rewrite unbumped_lookup. destruct (us !! x) as [u|] eqn:E; [|done]. intros [= <-].
    rewrite <-(Hk _ _ E). destruct (bool_decide (x = b)), (bool_decide (x = a)); cbn;
      repeat case_match; done.
  - intros x y [Hxy _]%following_delete. apply is_Some_unbumped. eauto.
  - intros x u'. rewrite unbumped_lookup, Follows.Delete_followers.
    destruct (us !! x) as [u|] eqn:E; [|done]. intros [= <-]. case_bool_decide as Hx.
    + subst x. rewrite bool_decide_eq_false_2 by congruence. cbn.
      assert (Hin : (a, b) ∈ Follows.followers fs b).
      { unfold Follows.followers. apply elem_of_filter. split; [done|]. by apply elem_of_dom_2 in Hf. }
      assert (Hsz : 0 < size (Follows.followers fs b)).
      { apply Nat.neq_0_lt_0. intros E0%size_empty_inv. set_solver. }
      rewrite size_difference by set_solver. rewrite size_singleton, (Hc _ _ E).
      assert ((0 <? Z.of_nat (size (Follows.followers fs b)))%Z = true) as -> by lia. cbn. lia.
    + assert (Follows.followers fs x ∖ {[(a, b)]} = Follows.followers fs x) as ->.
      { unfold Follows.followers. set_solver. }
      rewrite <-(Hc _ _ E). by destruct (bool_decide (x = a)); cbn; repeat case_match.
Qed.

Lemma following_inv_delete :
  following_inv us fs -> Follows.wf fs -> is_Some (fs !! (a, b)) -> following_inv unbumped (Follows.Delete a b fs).1.
Proof using Type. clear few.
  intros [Hs Hc] Hr [f Hf]. destruct (Hr _ _ _ Hf) as (_ & _ & _ & _ & Hne & _). split.
  - intros x y [Hxy _]%following_delete. apply is_Some_unbumped. eauto.
  - intros x u'. rewrite unbumped_lookup, Follows.Delete_followees.
    destruct (us !! x) as [u|] eqn:E; [|done]. intros [= <-].
    destruct (decide (x = a)) as [->|Hx].
    + rewrite (bool_decide_eq_true_2 (a = a)), bool_decide_eq_false_2 by done. cbn.
      assert (Hin : (a, b) ∈ Follows.followees fs a).
      { unfold Follows.followees. apply elem_of_filter. split; [done|]. by apply elem_of_dom_2 in Hf. }
      assert (Hsz : 0 < size (Follows.followees fs a)).
      { apply Nat.neq_0_lt_0. intros E0%size_empty_inv. set_solver. }
      rewrite size_difference by set_solver. rewrite size_singleton, (Hc _ _ E).
      assert ((0 <? Z.of_nat (size (Follows.followees fs a)))%Z = true) as -> by lia. cbn. lia.
    + rewrite (bool_decide_eq_false_2 (x = a)) by done.
      assert (Follows.followees fs x ∖ {[(a, b)]} = Follows.followees fs x) as ->.
      { unfold Follows.followees. set_solver. }
      rewrite <-(Hc _ _ E). by destruct (bool_decide (x = b)); cbn; repeat case_match.
Qed.
End tables.

(** ** What the use cases guarantee *)

Section follow_thms.
Context `{GoRuntime, !CivilClock} {S : Type} `{!Backend S}.

Definition follow_hook_ok (onCommit : option (string -> string -> M S unit)) : Prop :=
  forall h u p, onCommit = Some h -> best_effort (h u p).

Lemma follow_hook_fmap onCommit a b : follow_hook_ok onCommit ->
  forall h, (fun k => k a b) <$> onCommit = Some h -> best_effort h.
Proof. intros Hk h. destruct onCommit as [k|]; [|done]. intros [= <-]. by apply Hk. Qed.

Lemma bump_spec a b d :
  vwp (S:=S) (FollowUC.bump a b) d (fun r d' =>
    (r = Ok tt /\ d' = with_users (bumped (users d) a b) d) \/
    (faults S = true /\ follows d' = follows d /\ exists e, r = Err e)).
Proof.
  unfold FollowUC.bump. repeat ustep.
  - by left.
  - right. split; [done|]. split; [done|]. by eexists.
  - right. split; [done|]. split; [done|]. by eexists.
Qed.

Lemma unbump_spec a b d :
  vwp (S:=S) (FollowUC.unbump a b) d (fun r d' =>
    (r = Ok tt /\ d' = with_users (unbumped (users d) a b) d) \/
    (faults S = true /\ follows d' = follows d /\ exists e, r = Err e)).
Proof.
  unfold FollowUC.unbump. repeat ustep.
  - by left.
  - right. split; [done|]. split; [done|]. by eexists.
  - right. split; [done|]. split; [done|]. by eexists.
Qed.

Lemma Follow_Validate_None a b t : Follow.Validate (Follow.mk a b t) = None -> a <> "" /\ b <> "" /\ a <> b.
Proof.
  unfold Follow.Validate. cbn. destruct (bool_decide (a = "")) eqn:E1; [done|].
  destruct (bool_decide (b = "")) eqn:E2; [done|]. cbn.
  destruct (bool_decide (a = b)) eqn:E3; [done|]. intros _. by apply bool_decide_eq_false in E1, E2, E3.
Qed.

(** What holds of the tables after a follow that took full effect. *)
Definition followed (a b : string) (d d' : DB) (r : res FollowUC.Result.t) : Prop :=
  follow_inv (users d') (follows d') /\
  (is_Some (users d !! a) -> following_inv (users d) (follows d) -> following_inv (users d') (follows d')) /\
  forall x, r = Ok x ->
    (forall v w, Follows.following (follows d') v w <-> (v = a /\ w = b) \/ Follows.following (follows d) v w) /\
    FollowUC.Result.FollowersCount x = Z.of_nat (size (Follows.followers (follows d') b)).

Lemma Create_flag now a b fs :
  match (Follows.Create now a b fs).2 with
  | true => fs !! (a, b) = None
  | false => is_Some (fs !! (a, b)) /\ (Follows.Create now a b fs).1 = fs
  end.
Proof. unfold Follows.Create. destruct (fs !! (a, b)) eqn:E; cbn; [|done]. split; [by eexists|done]. Qed.

Lemma followed_new a b now d u :
  follow_inv (users d) (follows d) -> few_follows (follows d) ->
  a <> "" /\ b <> "" /\ a <> b -> users d !! b = Some u -> follows d !! (a, b) = None ->
  (0 <= now < max_time)%Z ->
  followed a b d (with_users (bumped (users d) a b) (with_follows (Follows.Create now a b (follows d)).1 d))
    (Ok (FollowUC.Result.mk true (wrap64 (User.FollowersCount u + 1)))).
Proof.
  intros Hinv Hfew (Ha & Hb & Hab) Hu Hnew Hnow.
  assert (Hinv' : follow_inv (bumped (users d) a b) (Follows.Create now a b (follows d)).1).
  { by apply follow_inv_create. }
  split; [done|]. split; [intros Hs Hg; by apply following_inv_create|].
  intros x [= <-]. split; [apply following_create|]. cbn.
  rewrite <-(fi_followers _ _ Hinv' b (User.set_FollowersCount (wrap64 (User.FollowersCount u + 1)) u)); [done|].
  rewrite bumped_lookup, Hu, bool_decide_eq_true_2, bool_decide_eq_false_2; done.
Qed.

Lemma Follow_spec hook a b d :
  follow_hook_ok hook -> follow_inv (users d) (follows d) -> few_follows (follows d) ->
  vwp (S:=S) (FollowUC.Follow hook a b) d (fun r d' =>
    no_panic r /\ (settled S r -> followed a b d d' r)).
Proof.
  intros Hh Hinv Hfew. unfold FollowUC.Follow.
  repeat (ustep; try (split; [done|]; intros _; split; [done|]; by split)).
  - match goal with H : (Follows.Create _ _ _ _).2 = true |- _ =>
      pose proof (Create_flag (clock t0) a b (follows d)) as Hnew; rewrite H in Hnew end.
    eapply vwp_mono; [apply bump_spec|]. intros r d' [[-> ->]|(Hf & _ & e & ->)];
      [|split; [done|]; by intros ?%unsettled].
    ustep. ustep; [by apply follow_hook_fmap|]. ustep. split; [done|]. intros _.
    destruct H5 as (Eu & _ & _ & _ & _ & _ & Ef & _). unfold followed. rewrite Eu, Ef.
    eapply (followed_new a b (clock t0) d a0); try done; [by eapply Follow_Validate_None|apply clock_range].
  - match goal with H : (Follows.Create _ _ _ _).2 = false |- _ =>
      pose proof (Create_flag (clock t0) a b (follows d)) as Hold; rewrite H in Hold end.
    destruct Hold as [Hs Heq]. split; [done|]. intros _. unfold followed. cbn. rewrite Heq.
    split; [done|]. split; [done|]. intros x [= <-]. cbn. split.
    + intros v w. split; [by right|]. intros [[-> ->]|?]; done.
    + by apply (fi_followers _ _ Hinv).
Qed.

Lemma Delete_flag a b fs :
  match (Follows.Delete a b fs).2 with
  | true => is_Some (fs !! (a, b))
  | false => fs !! (a, b) = None /\ (Follows.Delete a b fs).1 = fs
  end.
Proof. unfold Follows.Delete. destruct (fs !! (a, b)) eqn:E; cbn; [by eexists|done]. Qed.

Definition unfollowed (a b : string) (d d' : DB) (r : res FollowUC.Result.t) : Prop :=
  follow_inv (users d') (follows d') /\
  (following_inv (users d) (follows d) -> following_inv (users d') (follows d')) /\
  forall x, r = Ok x ->
    (forall v w, Follows.following (follows d') v w <-> Follows.following (follows d) v w /\ ~ (v = a /\ w = b)) /\
    (is_Some (users d !! b) ->
     FollowUC.Result.FollowersCount x = Z.of_nat (size (Follows.followers (follows d') b))).

Lemma count_of_row us fs b x : follow_inv us fs -> is_Some (us !! b) ->
  FollowUC.Result.FollowersCount (FollowUC.Result.mk x (FollowUC.countOrZero (us !! b))) =
  Z.of_nat (size (Follows.followers fs b)).
Proof. intros Hinv [u Hu]. cbn. rewrite Hu. by apply (fi_followers _ _ Hinv). Qed.

Lemma Unfollow_spec a b d :
  follow_inv (users d) (follows d) ->
  vwp (S:=S) (FollowUC.Unfollow a b) d (fun r d' =>
    no_panic r /\ (settled S r -> unfollowed a b d d' r)).
Proof.
  intros Hinv. unfold FollowUC.Unfollow.
  repeat (ustep; try (split; [done|]; intros _; split; [done|]; by split)).
  - match goal with H : (Follows.Delete _ _ _).2 = true |- _ =>
      pose proof (Delete_flag a b (follows d)) as Hold; rewrite H in Hold end.
    eapply vwp_mono; [apply unbump_spec|]. intros r d' [[-> ->]|(Hf & _ & e & ->)];
      [|split; [done|]; by intros ?%unsettled].
    pose proof (follow_inv_delete (users d) (follows d) a b Hinv Hold) as Hinv'.
    repeat ustep; (split; [done|]); [|by intros ?%unsettled]. intros _. split; [done|]. split.
    + intros Hg. apply following_inv_delete; [done|apply Hinv|done].
    + intros x [= <-]. split; [apply following_delete|]. intros Hb.
      apply count_of_row; [done|]. by apply is_Some_unbumped.
  - match goal with H : (Follows.Delete _ _ _).2 = false |- _ =>
      pose proof (Delete_flag a b (follows d)) as Hnone; rewrite H in Hnone end.
    destruct Hnone as [Hn Heq]. split; [done|]. intros _. unfold unfollowed. cbn. rewrite Heq.
    split; [done|]. split; [done|]. intros x [= <-]. split.
    + intros v w. split; [|tauto]. intros Hvw. split; [done|]. intros [-> ->].
      unfold Follows.following in Hvw. rewrite Hn in Hvw. by destruct Hvw.
    + by apply count_of_row.
  - match goal with H : (Follows.Delete _ _ _).2 = false |- _ =>
      pose proof (Delete_flag a b (follows d)) as Hnone; rewrite H in Hnone end.
    split; [done|]. by intros ?%unsettled.
Qed.

(** A page of followers: the rows of the page, each with its user. *)
Lemma orderedUsers_spec peers us :
  FollowUC.orderedUsers peers (Users.ListBySubs peers us) = omap (Users.live_user us) peers.
Proof.
  unfold FollowUC.orderedUsers, Users.ListBySubs.
  assert (Hgen : forall l, (forall p : string, p ∈ (l : list string) -> p ∈ peers) ->
    omap (fun p => collect_map (Users.live_user us) peers !! p) l = omap (Users.live_user us) l).
  { induction l as [|p l IH]; intros Hl; [done|]. cbn.
    rewrite collect_map_lookup, bool_decide_eq_true_2 by (apply Hl; left).
    rewrite IH; [done|]. intros q Hq. apply Hl. by right. }
  by apply Hgen.
Qed.
End follow_thms.
