(* ===== verification/UserUC.v ===== *)
(** * [internal/usecase/user]: profiles mirrored from AuthCore *)

From S2P Require Import Prelude Errors Monad Domain MemUsers MemFollows Repository Backend PostUC PostThms FollowUC.

(** ** [pkg/authcore]: what the client answers *)

Module AuthCore.
Definition ErrInvalidSession : goerror := ErrorString "authcore: invalid session".
Definition ErrUpstream : goerror := ErrorString "authcore: upstream error".
Definition ErrNotFound : goerror := ErrorString "authcore: resource not found".

Module Session.
Record t := mk { Sub : string; ExpiresAt : Time; PublicID : string }.
End Session.

Module Profile.
Record t := mk { Sub : string; PublicID : string; IconURL : string; Email : string }.
End Profile.

Class Client (S : Type) := {
  Introspect : string -> M S Session.t;
  GetProfile : string -> M S Profile.t;
}.

(** [errors.Is(err, ErrNotFound)] *)
Definition is_not_found (e : goerror) : bool := is_sentinel "authcore: resource not found" e.
End AuthCore.

Module UserUC.
Local Open Scope go_scope.

Definition DefaultProfileTTL : Duration := Hour.

(** The constructor's default for a ttl that is not positive. *)
Definition effective_ttl (ttl : Duration) : Duration :=
  if (ttl <=? 0)%Z then DefaultProfileTTL else ttl.

Definition applyProfile (p : AuthCore.Profile.t) (u : User.t) : User.t :=
  User.mk (User.Sub u)
    (if bool_decide (User.DisplayNameCached u = "") then AuthCore.Profile.PublicID p else User.DisplayNameCached u)
    (AuthCore.Profile.PublicID p) (AuthCore.Profile.IconURL p) (User.ProfileRefreshedAt u)
    (User.Bio u) (User.BannerURL u) (User.IsAdmin u) (User.FollowersCount u) (User.FollowingCount u)
    (User.CreatedAt u) (User.UpdatedAt u) (User.DeletedAt u).

Definition set_refreshed (now : Time) (u : User.t) : User.t :=
  User.mk (User.Sub u) (User.DisplayNameCached u) (User.DisplayIDCached u) (User.IconURLCached u) now
    (User.Bio u) (User.BannerURL u) (User.IsAdmin u) (User.FollowersCount u) (User.FollowingCount u)
    (User.CreatedAt u) (User.UpdatedAt u) (User.DeletedAt u).

(** [&domain.User{Sub: sub, CreatedAt: now, UpdatedAt: now}] *)
Definition fresh_user (sub : string) (now : Time) : User.t :=
  User.mk sub "" "" "" time_zero "" "" false 0 0 now now None.

Section usecases.
Context `{GoRuntime} {S : Type} `{UserRepository.t S, Runtime.t S, AuthCore.Client S}.

Definition GetUser (sub : string) : M S User.t :=
  guard (bool_decide (sub = "")) (InvalidRequest "sub is required" None) ;;;
  let! user := or_db "failed to get user" (UserRepository.GetBySub sub) in
  or_missing (NotFound "user not found") user.

(** The profile of the caller, when the caller's token is at hand;
    [inl] is an upstream failure to be logged and ignored. *)
Definition lazyCreate (sub accessToken : string) (now : Time) : M S User.t :=
  let user := fresh_user sub now in
  let! user :=
    (if bool_decide (accessToken = "") then ret user
     else
       let! r := try (AuthCore.GetProfile accessToken) in
       match r with
       | inr profile => ret (set_refreshed now (applyProfile profile user))
       | inl e => if AuthCore.is_not_found e then fail (NotFound "user not found in authcore") else ret user
       end) in
  or_db "failed to create user" (UserRepository.Upsert user).

Definition refresh (existing : User.t) (accessToken : string) (now : Time) : M S User.t :=
  if bool_decide (accessToken = "") then ret existing
  else
    let! r := try (AuthCore.GetProfile accessToken) in
    match r with
    | inl e => if AuthCore.is_not_found e then fail (NotFound "user not found in authcore") else ret existing
    | inr profile =>
        or_db "failed to refresh user"
          (UserRepository.Upsert (set_refreshed now (applyProfile profile existing)))
    end.

(** [accessToken] is the token of the request context, [""] when absent. *)
Definition GetOrHydrateUser (ttl : Duration) (accessToken sub : string) : M S User.t :=
  guard (bool_decide (sub = "")) (InvalidRequest "sub is required" None) ;;;
  let! existing := or_db "failed to get user" (UserRepository.GetBySub sub) in
  let! now := Runtime.Now in
  match existing with
  | None => lazyCreate sub accessToken now
  | Some u =>
      if (time_Sub now (User.ProfileRefreshedAt u) <? effective_ttl ttl)%Z then ret u
      else refresh u accessToken now
  end.

Definition UpdateUserProfile (targetSub currentSub : string) (req : option UpdateUserProfileRequest.t)
    : M S User.t :=
  guard (negb (bool_decide (targetSub = currentSub))) (Forbidden "you can only update your own profile") ;;;
  let! req := or_missing (InvalidRequest "request body is required" None) req in
  let probe := User.zero in
  let probe := match UpdateUserProfileRequest.Bio req with Some b => User.set_Bio b probe | None => probe end in
  let probe := match UpdateUserProfileRequest.BannerURL req with Some b => User.set_BannerURL b probe | None => probe end in
  or_invalid (User.Validate probe) ;;;
  let! updated := or_db "failed to update user profile" (UserRepository.UpdateProfile targetSub req) in
  or_missing (NotFound "user not found") updated.

Definition clamp_limit (limit : Z) : Z := if ((limit <=? 0) || (100 <? limit))%Z then 20 else limit.
Definition clamp_offset (offset : Z) : Z := if (offset <? 0)%Z then 0 else offset.

Definition ListUsers (limit offset : Z) : M S (list User.t * Z) :=
  or_db "failed to list users" (UserRepository.List (clamp_limit limit) (clamp_offset offset)).
End usecases.
End UserUC.

(** ** Theorems *)

(** What a profile refresh must leave alone. *)
Definition owned_fields (u : User.t) : bool * Z * Z * string * string * Time * option Time :=
  (User.IsAdmin u, User.FollowersCount u, User.FollowingCount u, User.Bio u, User.BannerURL u,
   User.CreatedAt u, User.DeletedAt u).

Section upsert.
Context (us : gmap string User.t) (fs : gmap (string * string) Follow.t) (now : Time) (u : User.t).

Lemma Upsert_other x : x <> User.Sub u -> (Users.Upsert now u us).1 !! x = us !! x.
Proof. intros Hx. unfold Users.Upsert. cbn. by rewrite lookup_insert_ne. Qed.

Lemma Upsert_self : (Users.Upsert now u us).1 !! User.Sub u = Some (Users.Upsert now u us).2.
Proof. unfold Users.Upsert. cbn. apply lookup_insert_eq. Qed.

Lemma Upsert_existing old :
  us !! User.Sub u = Some old -> User.Bio u = User.Bio old -> User.BannerURL u = User.BannerURL old ->
  owned_fields (Users.Upsert now u us).2 = owned_fields old /\ User.Sub (Users.Upsert now u us).2 = User.Sub u.
Proof.
  intros Hold Hbio Hban. unfold Users.Upsert. rewrite Hold. cbn. split; [|done].
  unfold owned_fields, Users.merge. cbn. rewrite Hbio, Hban. do 2 case_bool_decide; congruence.
Qed.

Lemma Upsert_counts old : us !! User.Sub u = Some old ->
  User.FollowersCount (Users.Upsert now u us).2 = User.FollowersCount old /\
  User.FollowingCount (Users.Upsert now u us).2 = User.FollowingCount old /\
  User.Sub (Users.Upsert now u us).2 = User.Sub u.
Proof. intros Hold. unfold Users.Upsert. by rewrite Hold. Qed.

Lemma Upsert_is_Some x : is_Some (us !! x) -> is_Some ((Users.Upsert now u us).1 !! x).
Proof. intros Hx. unfold Users.Upsert. cbn. apply lookup_insert_is_Some'. by right. Qed.

Hypothesis new_zero : User.FollowersCount u = 0%Z /\ User.FollowingCount u = 0%Z \/ is_Some (us !! User.Sub u).

Lemma Upsert_follow_inv : follow_inv us fs -> follow_inv (Users.Upsert now u us).1 fs.
Proof using new_zero.
  intros [Hr Hk Ht Hc]. split; [done| | |].
  - intros x v. destruct (decide (x = User.Sub u)) as [->|Hx].
    + rewrite Upsert_self. intros Hv%(inj Some); subst v. unfold Users.Upsert. by destruct (us !! User.Sub u).
    + rewrite Upsert_other by done. apply Hk.
  - intros a b Hab. apply Upsert_is_Some. eauto.
  - intros x v. destruct (decide (x = User.Sub u)) as [->|Hx].
    + rewrite Upsert_self. intros Hv%(inj Some); subst v. destruct (us !! User.Sub u) as [old|] eqn:E.
      * destruct (Upsert_counts old E) as (-> & _). by apply Hc.
      * unfold Users.Upsert. rewrite E. cbn. destruct new_zero as [[-> _]|[? ?]]; [|congruence].
        assert (Follows.followers fs (User.Sub u) = ∅) as ->; [|by rewrite size_empty].
        apply set_eq. intros [a b]. unfold Follows.followers.
        rewrite elem_of_filter, elem_of_dom. cbn. split; [|set_solver].
        intros [-> Hf]. destruct (Ht a (User.Sub u) Hf). congruence.
    + rewrite Upsert_other by done. apply Hc.
Qed.

Lemma Upsert_following_inv : following_inv us fs -> following_inv (Users.Upsert now u us).1 fs.
Proof using new_zero.
  intros [Hs Hc]. split.
  - intros a b Hab. apply Upsert_is_Some. eauto.
  - intros x v. destruct (decide (x = User.Sub u)) as [->|Hx].
    + rewrite Upsert_self. intros Hv%(inj Some); subst v. destruct (us !! User.Sub u) as [old|] eqn:E.
      * destruct (Upsert_counts old E) as (_ & -> & _). by apply Hc.
      * unfold Users.Upsert. rewrite E. cbn. destruct new_zero as [[_ ->]|[? ?]]; [|congruence].
        assert (Follows.followees fs (User.Sub u) = ∅) as ->; [|by rewrite size_empty].
        apply set_eq. intros [a b]. unfold Follows.followees.
        rewrite elem_of_filter, elem_of_dom. cbn. split; [|set_solver].
        intros [-> Hf]. destruct (Hs (User.Sub u) b Hf). congruence.
    + rewrite Upsert_other by done. apply Hc.
Qed.
End upsert.

Section user_thms.
Context `{GoRuntime} {S : Type} `{!Backend S, !AuthCore.Client S}.

(** The remote service does not touch our tables. *)
Definition remote_client : Prop := forall tok d,
  vwp (S:=S) (AuthCore.GetProfile tok) d (fun r d' => d' = d /\ no_panic r).

(** The two tables a hydration may be asked to keep. *)
Definition hydrated (sub : string) (d d' : DB) (r : res User.t) : Prop :=
  (forall x, x <> sub -> users d' !! x = users d !! x) /\
  follows d' = follows d /\
  (forall old, users d !! sub = Some old ->
     exists new, users d' !! sub = Some new /\ owned_fields new = owned_fields old) /\
  (forall u, r = Ok u -> users d' !! sub = Some u) /\
  (users d !! sub = None -> forall u, users d' !! sub = Some u -> User.IsAdmin u = false) /\
  (follow_inv (users d) (follows d) -> follow_inv (users d') (follows d)) /\
  (following_inv (users d) (follows d) -> following_inv (users d') (follows d)).

Lemma hydrated_refl sub d r :
  (forall u, r = Ok u -> users d !! sub = Some u) -> hydrated sub d d r.
Proof. intros Hr. split_and!; try done; [eauto|congruence]. Qed.

Lemma hydrated_upsert sub d now u r :
  User.Sub u = sub ->
  (forall x, r = Ok x -> x = (Users.Upsert now u (users d)).2) ->
  match users d !! sub with
  | Some old => User.Bio u = User.Bio old /\ User.BannerURL u = User.BannerURL old
  | None => User.FollowersCount u = 0%Z /\ User.FollowingCount u = 0%Z /\ User.IsAdmin u = false
  end ->
  hydrated sub d (with_users (Users.Upsert now u (users d)).1 d) r.
Proof.
  intros <- Hr Hu.
  assert (Hz : User.FollowersCount u = 0%Z /\ User.FollowingCount u = 0%Z \/ is_Some (users d !! User.Sub u)).
  { destruct (users d !! User.Sub u); [right; by eexists|left; tauto]. }
  split; [intros x Hx; by apply Upsert_other|]. split; [done|]. split; [|split; [|split]].
  - intros old Hold. rewrite Hold in Hu. destruct Hu as [Hb1 Hb2].
    eexists. split; [apply Upsert_self|]. by apply Upsert_existing.
  - intros x ->%Hr. apply Upsert_self.
  - intros Hnone. rewrite Hnone in Hu. intros v. cbn [users with_users].
    rewrite Upsert_self. intros Hv%(inj Some); subst v. unfold Users.Upsert. rewrite Hnone. cbn. tauto.
  - cbn. split; [by apply Upsert_follow_inv|by apply Upsert_following_inv].
Qed.

Lemma lazyCreate_spec sub tok now d :
  remote_client -> users d !! sub = None ->
  vwp (S:=S) (UserUC.lazyCreate sub tok now) d (fun r d' => no_panic r /\ hydrated sub d d' r).
Proof.
  intros Hrem Hnone. unfold UserUC.lazyCreate.
  assert (Hup : forall u, User.Sub u = sub ->
    User.FollowersCount u = 0%Z /\ User.FollowingCount u = 0%Z /\ User.IsAdmin u = false ->
    vwp (S:=S) (or_db "failed to create user" (UserRepository.Upsert u)) d
      (fun r d' => no_panic r /\ hydrated sub d d' r)).
  { intros u Hs Hz. ustep; (split; [done|]); [|by apply hydrated_refl].
    apply hydrated_upsert; [done|by intros x [= <-]|by rewrite Hnone]. }
  ustep. ustep.
  - ustep. by apply Hup.
  - ustep. ustep. eapply vwp_mono; [apply Hrem|]. intros [p|e|why] d' [-> Hnp]; [..|by destruct (Hnp why)].
    + ustep. by apply Hup.
    + destruct (AuthCore.is_not_found e); ustep; [|by apply Hup]. split; [done|]. by apply hydrated_refl.
Qed.

Lemma refresh_spec existing tok now d :
  remote_client -> users d !! User.Sub existing = Some existing ->
  vwp (S:=S) (UserUC.refresh existing tok now) d (fun r d' =>
    no_panic r /\ hydrated (User.Sub existing) d d' r).
Proof.
  intros Hrem Hex. unfold UserUC.refresh. ustep.
  - ustep. split; [done|]. apply hydrated_refl. by intros u [= <-].
  - ustep. ustep. eapply vwp_mono; [apply Hrem|]. intros [p|e|why] d' [-> Hnp]; [..|by destruct (Hnp why)].
    + ustep; (split; [done|]); [|by apply hydrated_refl].
      apply hydrated_upsert; [done|by intros x [= <-]|]. cbn. by rewrite Hex.
    + destruct (AuthCore.is_not_found e); ustep; (split; [done|]); apply hydrated_refl; [done|].
      by intros u [= <-].
Qed.

(** Hydration touches one row, keeps what the SNS owns in it, and never
    makes anyone an administrator. *)
Lemma GetOrHydrate_spec ttl tok sub d :
  remote_client -> (forall x u, users d !! x = Some u -> User.Sub u = x) ->
  vwp (S:=S) (UserUC.GetOrHydrateUser ttl tok sub) d (fun r d' => no_panic r /\ hydrated sub d d' r).
Proof.
  intros Hrem Hkeys. unfold UserUC.GetOrHydrateUser. unfold Users.GetBySub.
  repeat (ustep; try (split; [done|]; apply hydrated_refl; by intros u' [= <-])).
  - unfold Users.GetBySub in *. pose proof (Hkeys _ _ Heqo) as Hs. subst sub. by apply refresh_spec.
  - by apply lazyCreate_spec.
Qed.

(** Within the ttl the mirror answers by itself, whatever AuthCore does. *)
Lemma GetOrHydrate_fresh ttl tok sub u d :
  sub <> "" -> users d !! sub = Some u ->
  (forall t, time_Sub (clock t) (User.ProfileRefreshedAt u) < UserUC.effective_ttl ttl)%Z ->
  faults S = false ->
  vwp (S:=S) (UserUC.GetOrHydrateUser ttl tok sub) d (fun r d' => r = Ok u /\ d' = d).
Proof.
  intros Hne Hu Hfresh Hf. unfold UserUC.GetOrHydrateUser. repeat ustep; to_prop; try done; try congruence;
    unfold Users.GetBySub in *; simplify_eq; try done.
  - specialize (Hfresh t0). lia.
Qed.

(** An outage of AuthCore is not an error for the caller. *)
Lemma GetOrHydrate_fail_open ttl tok sub d :
  sub <> "" -> faults S = false ->
  (forall d, vwp (S:=S) (AuthCore.GetProfile tok) d (fun r d' => d' = d /\
     exists e, r = Err e /\ AuthCore.is_not_found e = false)) ->
  vwp (S:=S) (UserUC.GetOrHydrateUser ttl tok sub) d (fun r d' =>
    exists u, r = Ok u /\ (forall old, users d !! sub = Some old -> u = old)).
Proof.
  intros Hne Hf Hdown. unfold UserUC.GetOrHydrateUser. repeat ustep; to_prop; try done; try congruence;
    unfold Users.GetBySub in *.
  - eexists. split; [done|]. intros old Hold. congruence.
  - unfold UserUC.refresh. ustep; [ustep; eexists; split; [done|]; intros; congruence|].
    ustep. ustep. eapply vwp_mono; [apply Hdown|]. intros r d' (-> & e & -> & He). rewrite He. ustep.
    eexists. split; [done|]. intros. congruence.
  - assert (Hup : forall v, vwp (S:=S) (or_db "failed to create user" (UserRepository.Upsert v)) d
      (fun r d' => exists w, r = Ok w /\ (forall old, users d !! sub = Some old -> w = old))).
    { intros v. ustep; [|congruence]. eexists. split; [done|]. congruence. }
    unfold UserUC.lazyCreate. ustep. ustep; [ustep; apply Hup|].
    ustep. ustep. eapply vwp_mono; [apply Hdown|]. intros r d' (-> & e & -> & He). rewrite He. ustep. apply Hup.
Qed.

(** The bio and the banner are the only fields a profile update writes. *)
Definition profile_frame (u : User.t) : string * bool * Z * Z * Time * option Time :=
  (User.Sub u, User.IsAdmin u, User.FollowersCount u, User.FollowingCount u, User.CreatedAt u, User.DeletedAt u).

Lemma probe_ok req :
  User.Validate
    (match UpdateUserProfileRequest.BannerURL req with
     | Some b => User.set_BannerURL b
         (match UpdateUserProfileRequest.Bio req with Some b => User.set_Bio b User.zero | None => User.zero end)
     | None => match UpdateUserProfileRequest.Bio req with Some b => User.set_Bio b User.zero | None => User.zero end
     end) = None ->
  (forall b, UpdateUserProfileRequest.Bio req = Some b -> (Z.of_nat (String.length b) <= 500)%Z) /\
  (forall b, UpdateUserProfileRequest.BannerURL req = Some b -> (Z.of_nat (String.length b) <= 1024)%Z).
Proof.
  unfold User.Validate.
  destruct (UpdateUserProfileRequest.Bio req), (UpdateUserProfileRequest.BannerURL req); cbn;
    intros Hv; repeat match type of Hv with (if ?b then _ else _) = _ => destruct b eqn:?; [done|] end;
    split; intros b [= <-]; lia.
Qed.

(** The row [u] with the texts of the request, at [now]. *)
Definition edited (req : UpdateUserProfileRequest.t) (now : Time) (u : User.t) : User.t :=
  User.mk (User.Sub u) (User.DisplayNameCached u) (User.DisplayIDCached u) (User.IconURLCached u)
    (User.ProfileRefreshedAt u) (default (User.Bio u) (UpdateUserProfileRequest.Bio req))
    (default (User.BannerURL u) (UpdateUserProfileRequest.BannerURL req)) (User.IsAdmin u)
    (User.FollowersCount u) (User.FollowingCount u) (User.CreatedAt u) now (User.DeletedAt u).

(** An accepted update stores what it asks for, and answers the row. *)
Lemma UpdateProfile_stores target current req d :
  vwp (S:=S) (UserUC.UpdateUserProfile target current req) d (fun r d' => forall u, r = Ok u ->
    exists rq old, req = Some rq /\ users d !! current = Some old /\
      u = edited rq (User.UpdatedAt u) old /\ users d' !! current = Some u).
Proof.
  unfold UserUC.UpdateUserProfile. repeat (ustep; try by intros); to_prop; subst current;
    unfold Users.UpdateProfile in *; destruct (users d !! target) as [old|] eqn:Eold; cbn [fst snd] in *; try done.
  intros u [= <-]. exists a, old. simplify_eq. cbn [users with_users]. rewrite (lookup_insert_eq (users d)).
  split_and!; try done. unfold edited.
  by destruct (UpdateUserProfileRequest.Bio a), (UpdateUserProfileRequest.BannerURL a).
Qed.

Lemma UpdateProfile_spec target current req d :
  vwp (S:=S) (UserUC.UpdateUserProfile target current req) d (fun r d' =>
    no_panic r /\
    (forall x, x <> current -> users d' !! x = users d !! x) /\
    (forall old, users d !! current = Some old -> exists new, users d' !! current = Some new /\
       profile_frame new = profile_frame old /\
       ((Z.of_nat (String.length (User.Bio old)) <= 500 -> Z.of_nat (String.length (User.Bio new)) <= 500)%Z) /\
       ((Z.of_nat (String.length (User.BannerURL old)) <= 1024 ->
         Z.of_nat (String.length (User.BannerURL new)) <= 1024)%Z)) /\
    (forall u, r = Ok u -> target = current /\ users d' !! current = Some u)).
Proof.
  unfold UserUC.UpdateUserProfile.
  assert (Hsame : forall (r : res User.t), no_panic r -> (forall u, r <> Ok u) ->
    no_panic r /\ (forall x, x <> current -> users d !! x = users d !! x) /\
    (forall old, users d !! current = Some old -> exists new, users d !! current = Some new /\
       profile_frame new = profile_frame old /\
       ((Z.of_nat (String.length (User.Bio old)) <= 500 -> Z.of_nat (String.length (User.Bio new)) <= 500)%Z) /\
       ((Z.of_nat (String.length (User.BannerURL old)) <= 1024 ->
         Z.of_nat (String.length (User.BannerURL new)) <= 1024)%Z)) /\
    (forall u, r = Ok u -> target = current /\ users d !! current = Some u)).
  { intros r Hr Hne. split; [done|]. split; [done|]. split; [eauto|]. intros u ->. by destruct (Hne u). }
  repeat (ustep; try by apply Hsame); to_prop; subst current;
    match goal with H : User.Validate _ = None |- _ => apply probe_ok in H as [Hbio Hban] end;
    unfold Users.UpdateProfile in *; destruct (users d !! target) as [old|] eqn:Eold; cbn [fst snd] in *;
    try done; simplify_eq.
  cbn [users with_users]. split; [done|]. split; [intros x Hx; by rewrite (lookup_insert_ne (users d))|].
  rewrite (lookup_insert_eq (users d)). split; [|by intros u [= <-]].
  intros o [= <-]. eexists. split; [done|].
  destruct (UpdateUserProfileRequest.Bio a) as [bio|], (UpdateUserProfileRequest.BannerURL a) as [ban|];
    cbn; (split; [done|]); split; intros; eauto.
Qed.

(** The admin listing cannot be driven out of bounds by its query. *)
Lemma ListUsers_spec limit offset d :
  (Z.of_nat (size (users d)) <= int64_max - 100)%Z ->
  vwp (S:=S) (UserUC.ListUsers limit offset) d (fun r d' => d' = d /\ no_panic r /\
    (settled S r -> exists l, l ≡ₚ Users.live_users (users d) /\
      r = Ok (take (Z.to_nat (UserUC.clamp_limit limit)) (drop (Z.to_nat (UserUC.clamp_offset offset)) l),
              Z.of_nat (length l)))).
Proof.
  intros Hsz. unfold UserUC.ListUsers. ustep.
  - destruct (Users.List_page t (UserUC.clamp_limit limit) (UserUC.clamp_offset offset) (users d)) as (l & Hp & ->); try done.
    + unfold UserUC.clamp_offset. case_match; lia.
    + unfold UserUC.clamp_limit. destruct ((limit <=? 0) || (100 <? limit))%Z eqn:E; [lia|]. to_prop. lia.
    + split_and!; try done. intros _. by exists l.
  - split_and!; try done. by intros ?%unsettled.
Qed.
End user_thms.
