(* ===== verification/AuthCache.v ===== *)
(** * [pkg/authcore/cache.go] and the token cache of service_token.go

    [IntrospectCache.Introspect] is cut at its two critical sections and at
    the upstream call between them, and run by any number of goroutines next
    to [Invalidate] and [SweepExpired]. [Cached] is the same code run by one
    request at a time, as a client over a client: what [main] hands to the
    middleware. [GetServiceToken] holds its mutex throughout and is one step. *)

From S2P Require Import Prelude Errors Monad Repository UserUC.
Import AuthCore.

Local Open Scope Z_scope.

Module IntrospectCache.

Record entry := mkEntry { session : Session.t; fetchedAt : Time }.

(** [items] and [inFlight]; a pending [introspectCall] is named by a number. *)
Record cache := mkCache { items : gmap string entry; inFlight : gmap string nat }.

(** What the wrapped client returned, [call.session] and [call.err]. *)
Record answer := mkAnswer { asession : option Session.t; aerr : option goerror }.

Definition effective_ttl (ttl : Duration) : Duration := if ttl <=? 0 then 30 * Second else ttl.

Section cache.
Context (ttl : Duration).

Definition isFresh (e : entry) (now : Time) : bool :=
  if ttl <=? time_Sub now (fetchedAt e) then false
  else if negb (IsZero (Session.ExpiresAt (session e))) && negb (Before now (Session.ExpiresAt (session e)))
  then false else true.

(** How [Introspect] leaves its first critical section. *)
Inductive entered :=
  | Hit (e : entry)      (* the session of a fresh entry *)
  | Join (call : nat)    (* somebody is asking already *)
  | Lead (call : nat).   (* a new call, to be made now *)

Definition enter (tok : string) (now : Time) (new_call : nat) (c : cache) : cache * entered :=
  let miss (left : gmap string entry) :=
    match inFlight c !! tok with
    | Some call => (mkCache left (inFlight c), Join call)
    | None => (mkCache left (<[tok := new_call]> (inFlight c)), Lead new_call)
    end in
  match items c !! tok with
  | Some e => if isFresh e now then (c, Hit e) else miss (delete tok (items c))
  | None => miss (items c)
  end.

(** The second critical section, after the wrapped client has answered. *)
Definition publish (tok : string) (now : Time) (a : answer) (c : cache) : cache :=
  mkCache
    (match aerr a, asession a with
     | None, Some s => <[tok := mkEntry s now]> (items c)
     | _, _ => items c
     end)
    (delete tok (inFlight c)).

(** [if call.err != nil { return nil, call.err }; s := *call.session] *)
Definition result (a : answer) : res Session.t :=
  match aerr a, asession a with
  | Some e, _ => Err e
  | None, Some s => Ok s
  | None, None => Panic "nil pointer dereference"
  end.

Definition Invalidate (tok : string) (c : cache) : cache := mkCache (delete tok (items c)) (inFlight c).

Definition SweepExpired (now : Time) (c : cache) : cache :=
  mkCache (filter (fun kv => isFresh kv.2 now = true) (items c)) (inFlight c).

(** ** Goroutines *)

(** Where a call of [Introspect tok] stands; [now] is its reading of the
    clock. [Returned] remembers, for the statements, the entry that was hit. *)
Inductive thread :=
  | Begun (tok : string) (now : Time)
  | Joined (tok : string) (now : Time) (call : nat)
  | Calling (tok : string) (now : Time) (call : nat)
  | Answered (tok : string) (now : Time) (call : nat) (a : answer)
  | Closing (tok : string) (now : Time) (call : nat) (a : answer)
  | Returned (tok : string) (now : Time) (hit : option entry) (r : res Session.t).

Record state := mkState {
  clock_ : Time;
  cache_ : cache;
  calls : gmap nat (string * option answer);   (* of which token; [Some a] once [done] is closed *)
  threads : gmap nat thread;
  upstream : list (string * Time * answer);   (* ghost: what the wrapped client was asked, when, and said *)
}.

Definition initial (t : Time) : state := mkState t (mkCache ∅ ∅) ∅ ∅ [].

Inductive step : state -> state -> Prop :=
  | tick t t' c k th u : t <= t' -> step (mkState t c k th u) (mkState t' c k th u)
  | arrive t c k th u i tok :
      th !! i = None -> step (mkState t c k th u) (mkState t c k (<[i := Begun tok t]> th) u)
  | hit t c k th u i tok now new c' e :
      th !! i = Some (Begun tok now) -> enter tok now new c = (c', Hit e) ->
      step (mkState t c k th u) (mkState t c' k (<[i := Returned tok now (Some e) (Ok (session e))]> th) u)
  | join t c k th u i tok now new c' call :
      th !! i = Some (Begun tok now) -> enter tok now new c = (c', Join call) ->
      step (mkState t c k th u) (mkState t c' k (<[i := Joined tok now call]> th) u)
  | lead t c k th u i tok now new c' call :
      th !! i = Some (Begun tok now) -> k !! new = None -> enter tok now new c = (c', Lead call) ->
      step (mkState t c k th u) (mkState t c' (<[call := (tok, None)]> k) (<[i := Calling tok now call]> th) u)
  | respond t c k th u i tok now call a :
      th !! i = Some (Calling tok now call) ->
      step (mkState t c k th u) (mkState t c k (<[i := Answered tok now call a]> th) (u ++ [(tok, now, a)]))
  | store t c k th u i tok now call a :
      th !! i = Some (Answered tok now call a) ->
      step (mkState t c k th u) (mkState t (publish tok now a c) k (<[i := Closing tok now call a]> th) u)
  | close t c k th u i tok now call a :
      th !! i = Some (Closing tok now call a) ->
      step (mkState t c k th u)
        (mkState t c (<[call := (tok, Some a)]> k) (<[i := Returned tok now None (result a)]> th) u)
  | wake t c k th u i tok now call a :
      th !! i = Some (Joined tok now call) -> snd <$> k !! call = Some (Some a) ->
      step (mkState t c k th u) (mkState t c k (<[i := Returned tok now None (result a)]> th) u)
  | cancel t c k th u i tok now call e :   (* [ctx.Done()] *)
      th !! i = Some (Joined tok now call) ->
      step (mkState t c k th u) (mkState t c k (<[i := Returned tok now None (Err e)]> th) u)
  | invalidate t c k th u tok :
      step (mkState t c k th u) (mkState t (Invalidate tok c) k th u)
  | sweep t c k th u now :
      now <= t -> step (mkState t c k th u) (mkState t (SweepExpired now c) k th u).

Inductive reachable : state -> Prop :=
  | reach_initial t : reachable (initial t)
  | reach_step s s' : reachable s -> step s s' -> reachable s'.

(** ** The invariant *)

(** The token and number of the call a goroutine has to close, and of the
    one it still has registered in [inFlight]. *)
Definition carries (th : thread) : option (string * nat) :=
  match th with
  | Calling tok _ call | Answered tok _ call _ | Closing tok _ call _ => Some (tok, call)
  | _ => None
  end.

Definition registered (th : thread) : option (string * nat) :=
  match th with
  | Calling tok _ call | Answered tok _ call _ => Some (tok, call)
  | _ => None
  end.

Definition some_thread (f : thread -> option (string * nat)) (th : gmap nat thread) (x : string * nat) : Prop :=
  exists i t, th !! i = Some t /\ f t = Some x.

Definition at_most_one (f : thread -> option (string * nat)) (th : gmap nat thread) : Prop :=
  forall i j t t' x, th !! i = Some t -> th !! j = Some t' -> f t = Some x -> f t' = Some x -> i = j.

Definition said (u : list (string * Time * answer)) (tok : string) (t : Time) (s : Session.t) : Prop :=
  (tok, t, mkAnswer (Some s) None) ∈ u.

Definition thread_ok (k : gmap nat (string * option answer)) (u : list (string * Time * answer)) (th : thread) : Prop :=
  match th with
  | Begun _ _ | Calling _ _ _ => True
  | Joined tok _ call => fst <$> k !! call = Some tok
  | Answered tok now _ a | Closing tok now _ a => (tok, now, a) ∈ u
  | Returned tok now h r =>
      (forall s, r = Ok s -> exists t, said u tok t s) /\
      (forall e, h = Some e -> r = Ok (session e) /\ isFresh e now = true /\ said u tok (fetchedAt e) (session e))
  end.

Record inv (s : state) : Prop := {
  inv_items : forall tok e, items (cache_ s) !! tok = Some e -> said (upstream s) tok (fetchedAt e) (session e);
  inv_flight : forall tok call, inFlight (cache_ s) !! tok = Some call <-> some_thread registered (threads s) (tok, call);
  inv_open : forall tok call, calls s !! call = Some (tok, None) <-> some_thread carries (threads s) (tok, call);
  inv_closed : forall tok call a, calls s !! call = Some (tok, Some a) -> exists t, (tok, t, a) ∈ upstream s;
  inv_sole : at_most_one carries (threads s);
  inv_threads : forall i th, threads s !! i = Some th -> thread_ok (calls s) (upstream s) th;
}.

Section threads.
Context (f : thread -> option (string * nat)) (th : gmap nat thread) (i : nat).

Lemma some_thread_same t t' x :
  th !! i = Some t -> f t' = f t -> some_thread f (<[i := t']> th) x <-> some_thread f th x.
Proof.
  intros Hi Hf. split; intros (j & u & Hj & Hu).
  - destruct (decide (j = i)) as [->|Hne].
    + rewrite lookup_insert_eq in Hj. injection Hj as <-. exists i, t. by rewrite <-Hf.
    + rewrite lookup_insert_ne in Hj by done. by exists j, u.
  - destruct (decide (j = i)) as [->|Hne].
    + exists i, t'. rewrite lookup_insert_eq, Hf. split; [done|]. congruence.
    + exists j, u. by rewrite lookup_insert_ne.
Qed.

Lemma some_thread_new t' x y :
  (forall t, th !! i = Some t -> f t = None) -> f t' = Some y ->
  some_thread f (<[i := t']> th) x <-> x = y \/ some_thread f th x.
Proof.
  intros Hi Hf. split.
  - intros (j & u & Hj & Hu). destruct (decide (j = i)) as [->|Hne].
    + rewrite lookup_insert_eq in Hj. left. congruence.
    + rewrite lookup_insert_ne in Hj by done. right. by exists j, u.
  - intros [->|(j & u & Hj & Hu)].
    + exists i, t'. by rewrite lookup_insert_eq.
    + exists j, u. rewrite lookup_insert_ne; [done|]. intros <-. rewrite (Hi _ Hj) in Hu. done.
Qed.

Lemma some_thread_none t' x :
  (forall t, th !! i = Some t -> f t = None) -> f t' = None ->
  some_thread f (<[i := t']> th) x <-> some_thread f th x.
Proof.
  intros Hi Hf. split; intros (j & u & Hj & Hu).
  - destruct (decide (j = i)) as [->|Hne].
    + rewrite lookup_insert_eq in Hj. congruence.
    + rewrite lookup_insert_ne in Hj by done. by exists j, u.
  - exists j, u. rewrite lookup_insert_ne; [done|]. intros <-. rewrite (Hi _ Hj) in Hu. done.
Qed.

Lemma some_thread_gone t t' x y :
  at_most_one f th -> th !! i = Some t -> f t = Some y -> f t' = None ->
  some_thread f (<[i := t']> th) x <-> some_thread f th x /\ x <> y.
Proof.
  intros Hone Hi Hf Hf'. split.
  - intros (j & u & Hj & Hu). destruct (decide (j = i)) as [->|Hne].
    + rewrite lookup_insert_eq in Hj. congruence.
    + rewrite lookup_insert_ne in Hj by done. split; [by exists j, u|].
      intros ->. apply Hne. by eapply Hone.
  - intros [(j & u & Hj & Hu) Hne]. exists j, u. rewrite lookup_insert_ne; [done|]. congruence.
Qed.

(** A thread may change as long as it takes over no call of another one. *)
Lemma at_most_one_insert t' :
  (forall x, f t' = Some x -> some_thread f th x -> exists t, th !! i = Some t /\ f t = Some x) ->
  at_most_one f th -> at_most_one f (<[i := t']> th).
Proof.
  intros Hnew Hone j j' u u' x. destruct (decide (j = i)) as [->|Hj], (decide (j' = i)) as [->|Hj']; [done|..].
  - rewrite lookup_insert_eq, lookup_insert_ne by done. intros [= <-] Hu' Hx Hx'.
    destruct (Hnew x Hx) as (t & Ht & Htx); [by exists j', u'|]. exfalso. apply Hj'. by eapply Hone.
  - rewrite lookup_insert_ne, lookup_insert_eq by done. intros Hu [= <-] Hx Hx'.
    destruct (Hnew x Hx') as (t & Ht & Htx); [by exists j, u|]. exfalso. apply Hj. by eapply Hone.
  - rewrite !lookup_insert_ne by done. apply Hone.
Qed.
End threads.

Lemma registered_carries t x : registered t = Some x -> carries t = Some x.
Proof. by destruct t. Qed.

Lemma at_most_one_registered th : at_most_one carries th -> at_most_one registered th.
Proof. intros Hone i j t t' x Hi Hj Hx Hx'. apply (Hone i j t t' x); auto using registered_carries. Qed.

Lemma enter_spec tok now new c c' r : enter tok now new c = (c', r) ->
  match r with
  | Hit e => c' = c /\ items c !! tok = Some e /\ isFresh e now = true
  | Join call => inFlight c' = inFlight c /\ items c' ⊆ items c /\ inFlight c !! tok = Some call
  | Lead call => call = new /\ inFlight c !! tok = None /\ inFlight c' = <[tok := new]> (inFlight c) /\ items c' ⊆ items c
  end.
Proof.
  unfold enter. pose proof (delete_subseteq (items c) tok) as Hsub. cbn zeta.
  destruct (items c !! tok) as [e|] eqn:He; [destruct (isFresh e now) eqn:Hf; [by intros [= <- <-]|]|];
    destruct (inFlight c !! tok) as [call|] eqn:Hfl; intros [= <- <-]; by split_and!.
Qed.

Lemma result_ok a s : result a = Ok s -> a = mkAnswer (Some s) None.
Proof. destruct a as [[s'|] [e|]]; by intros [= <-]. Qed.

Lemma thread_ok_mono k k' u u' th :
  (forall x, x ∈ u -> x ∈ u') ->
  (forall call tok, fst <$> k !! call = Some tok -> fst <$> k' !! call = Some tok) ->
  thread_ok k u th -> thread_ok k' u' th.
Proof.
  intros Hu Hk. destruct th as [| | | | |tok now h r]; cbn; auto. intros [Hr Hh]. split.
  - intros s Hs. destruct (Hr s Hs) as [t Ht]. exists t. by apply Hu.
  - intros e He. destruct (Hh e He) as (? & ? & ?). split_and!; [done..|]. by apply Hu.
Qed.

Lemma cache_threads_insert k k' u u' (th : gmap nat thread) i t' :
  (forall x, x ∈ u -> x ∈ u') ->
  (forall call tok, fst <$> k !! call = Some tok -> fst <$> k' !! call = Some tok) ->
  thread_ok k' u' t' ->
  (forall j t, th !! j = Some t -> thread_ok k u t) ->
  forall j t, <[i := t']> th !! j = Some t -> thread_ok k' u' t.
Proof.
  intros Hu Hk Ht' Hth j t Hj. destruct (decide (j = i)) as [->|Hne].
  - rewrite lookup_insert_eq in Hj. by injection Hj as <-.
  - rewrite lookup_insert_ne in Hj by done. eapply thread_ok_mono; eauto.
Qed.

(** A goroutine that neither takes nor leaves a call. *)
Lemma inv_move t c c' k th u u' i old new :
  inv (mkState t c k th u) -> th !! i = old ->
  (forall o, old = Some o -> carries new = carries o /\ registered new = registered o) ->
  (old = None -> carries new = None) ->
  (forall tok e, items c' !! tok = Some e -> said u' tok (fetchedAt e) (session e)) ->
  inFlight c' = inFlight c -> (forall x, x ∈ u -> x ∈ u') ->
  thread_ok k u' new -> inv (mkState t c' k (<[i := new]> th) u').
Proof.
  intros [Hit Hfl Hop Hcl Hso Hth] Hi Hold Hnone Hit' Hfl' Hu Hnew. cbn in *.
  assert (Hsame : forall f, (forall o, old = Some o -> f new = f o) -> (old = None -> f new = None) ->
            forall x, some_thread f (<[i := new]> th) x <-> some_thread f th x).
  { intros f Hf Hf' x. destruct old as [o|].
    - eapply some_thread_same; eauto.
    - apply some_thread_none; [congruence|auto]. }
  split; cbn.
  - done.
  - intros tok call. rewrite Hfl', Hfl, Hsame; [done|by intros o Ho; apply Hold|].
    intros Ho. destruct (registered new) eqn:Hr; [|done]. apply registered_carries in Hr. by rewrite (Hnone Ho) in Hr.
  - intros tok call. rewrite Hop, Hsame; [done|by intros o Ho; apply Hold|done].
  - intros tok call a Hc. destruct (Hcl tok call a Hc) as [t0 Ht0]. exists t0. auto.
  - apply at_most_one_insert; [|done]. intros x Hx _. destruct old as [o|]; [|by rewrite Hnone in Hx].
    exists o. split; [done|]. rewrite <-Hx. symmetry. by apply Hold.
  - eapply cache_threads_insert; eauto.
Qed.

Lemma inv_lead t c c' k th u i tok now call :
  inv (mkState t c k th u) -> th !! i = Some (Begun tok now) -> k !! call = None ->
  inFlight c !! tok = None -> inFlight c' = <[tok := call]> (inFlight c) -> items c' ⊆ items c ->
  inv (mkState t c' (<[call := (tok, None)]> k) (<[i := Calling tok now call]> th) u).
Proof.
  intros [Hit Hfl Hop Hcl Hso Hth] Hi Hk Hno Hfl' Hsub. cbn in *.
  assert (Hfree : forall tok', ~ some_thread carries th (tok', call)).
  { intros tok' Hs. apply Hop in Hs. congruence. }
  assert (Hnew : forall f x, (forall o, f (Begun tok o) = None) -> f (Calling tok now call) = Some (tok, call) ->
            some_thread f (<[i := Calling tok now call]> th) x <-> x = (tok, call) \/ some_thread f th x).
  { intros f x Hf Hf'. apply some_thread_new; [|done]. intros o. rewrite Hi. intros [= <-]. apply Hf. }
  split; cbn.
  - intros tok' e He. apply Hit. by eapply lookup_weaken.
  - intros tok' call'. rewrite Hfl', Hnew by done. destruct (decide (tok' = tok)) as [->|Hne].
    + rewrite lookup_insert_eq. split; [intros [= <-]; by left|]. intros [[= ->]|Hs]; [done|].
      apply Hfl in Hs. congruence.
    + rewrite lookup_insert_ne, Hfl by done. split; [by right|]. intros [[= -> _]|?]; done.
  - intros tok' call'. rewrite Hnew by done. destruct (decide (call' = call)) as [->|Hne].
    + rewrite lookup_insert_eq. split; [intros [= <-]; by left|]. intros [[= ->]|Hs]; [done|]. by apply Hfree in Hs.
    + rewrite lookup_insert_ne, Hop by done. split; [by right|]. intros [[= _ ->]|?]; done.
  - intros tok' call' a. destruct (decide (call' = call)) as [->|Hne].
    + rewrite lookup_insert_eq. done.
    + rewrite lookup_insert_ne by done. apply Hcl.
  - apply at_most_one_insert; [|done]. intros x [= <-] Hs. by apply Hfree in Hs.
  - eapply cache_threads_insert; [..|exact Hth]; [done| |done].
    intros call' tok' Hc. destruct (decide (call' = call)) as [->|Hne]; [by rewrite Hk in Hc|].
    by rewrite lookup_insert_ne.
Qed.

Lemma inv_store t c k th u i tok now call a :
  inv (mkState t c k th u) -> th !! i = Some (Answered tok now call a) ->
  inv (mkState t (publish tok now a c) k (<[i := Closing tok now call a]> th) u).
Proof.
  intros [Hit Hfl Hop Hcl Hso Hth] Hi. cbn in *.
  pose proof (Hth _ _ Hi) as Ha. cbn in Ha.
  assert (Hin : inFlight c !! tok = Some call) by (apply Hfl; by exists i, (Answered tok now call a)).
  split; cbn.
  - intros tok' e. destruct a as [[s|] [err|]]; cbn; try apply Hit.
    destruct (decide (tok' = tok)) as [->|Hne]; [rewrite lookup_insert_eq; by intros [= <-]|].
    rewrite lookup_insert_ne by done. apply Hit.
  - intros tok' call'.
    rewrite (some_thread_gone registered th i _ _ _ (tok, call) (at_most_one_registered _ Hso) Hi) by done.
    destruct (decide (tok' = tok)) as [->|Hne].
    + rewrite lookup_delete_eq. split; [done|]. intros [Hs Hne]. apply Hfl in Hs. congruence.
    + rewrite lookup_delete_ne, Hfl by done. split; [|by intros [? _]]. split; [done|congruence].
  - intros tok' call'. by rewrite (some_thread_same carries th i _ _ _ Hi).
  - done.
  - apply at_most_one_insert; [|done]. intros x [= <-] _. by eexists.
  - eapply cache_threads_insert; [..|exact Hth]; done.
Qed.

Lemma inv_close t c k th u i tok now call a :
  inv (mkState t c k th u) -> th !! i = Some (Closing tok now call a) ->
  inv (mkState t c (<[call := (tok, Some a)]> k) (<[i := Returned tok now None (result a)]> th) u).
Proof.
  intros [Hit Hfl Hop Hcl Hso Hth] Hi. cbn in *.
  pose proof (Hth _ _ Hi) as Ha. cbn in Ha.
  assert (Hopen : k !! call = Some (tok, None)) by (apply Hop; by exists i, (Closing tok now call a)).
  split; cbn.
  - done.
  - intros tok' call'. by rewrite Hfl, (some_thread_same registered th i _ _ _ Hi).
  - intros tok' call'. rewrite (some_thread_gone carries th i _ _ _ (tok, call) Hso Hi) by done.
    destruct (decide (call' = call)) as [->|Hne].
    + rewrite lookup_insert_eq. split; [done|]. intros [Hs Hne]. apply Hop in Hs. congruence.
    + rewrite lookup_insert_ne, Hop by done. split; [|by intros [? _]]. split; [done|congruence].
  - intros tok' call' a'. destruct (decide (call' = call)) as [->|Hne].
    + rewrite lookup_insert_eq. intros [= <- <-]. by exists now.
    + rewrite lookup_insert_ne by done. apply Hcl.
  - apply at_most_one_insert; done.
  - eapply cache_threads_insert; [..|exact Hth]; [done| |].
    + intros call' tok' Hc. destruct (decide (call' = call)) as [->|Hne]; [|by rewrite lookup_insert_ne].
      rewrite lookup_insert_eq. by rewrite Hopen in Hc.
    + cbn. split; [|done]. intros s ->%result_ok. by exists now.
Qed.

Lemma inv_cache t c c' k th u :
  inv (mkState t c k th u) -> inFlight c' = inFlight c -> items c' ⊆ items c -> inv (mkState t c' k th u).
Proof.
  intros [Hit Hfl Hop Hcl Hso Hth] Hf Hi. cbn in *. split; cbn; try done; [|by intros; rewrite Hf].
  intros tok e He. apply Hit. by eapply lookup_weaken.
Qed.

Lemma step_inv s s' : step s s' -> inv s -> inv s'.
Proof.
  assert (Hsub : forall A (l l' : list A) x, x ∈ l -> x ∈ l ++ l') by (intros; apply elem_of_app; auto).
  destruct 1 as [t t' c k th u Ht|t c k th u i tok Hi|t c k th u i tok now new c' e Hi He
    |t c k th u i tok now new c' call Hi He|t c k th u i tok now new c' call Hi Hk He|t c k th u i tok now call a Hi
    |t c k th u i tok now call a Hi|t c k th u i tok now call a Hi|t c k th u i tok now call a Hi Hk
    |t c k th u i tok now call e Hi|t c k th u tok|t c k th u now Hn]; intros Hinv.
  - by destruct Hinv.
  - apply (inv_move t c c k th u u i None); try done. apply Hinv.
  - apply enter_spec in He as (-> & He & Hf).
    assert (Hs : said u tok (fetchedAt e) (session e)) by by apply (inv_items _ Hinv).
    eapply inv_move; [done|done|by intros o [= <-]|done|apply Hinv|done|done|]. cbn.
    split; [intros s [= <-]; by eexists|by intros ? [= <-]].
  - apply enter_spec in He as (Hfl & Hit & He).
    eapply inv_move; [done|done|by intros o [= <-]|done| |done|done|].
    + intros tok' e' He'. apply (inv_items _ Hinv). by eapply lookup_weaken.
    + cbn. apply (inv_flight _ Hinv) in He as (j & th' & Hj & Hr). cbn in Hj.
      assert (Ho : k !! call = Some (tok, None)).
      { apply (inv_open _ Hinv tok call). exists j, th'. eauto using registered_carries. }
      by rewrite Ho.
  - apply enter_spec in He as (-> & Hno & Hfl & Hit). by eapply inv_lead.
  - eapply inv_move; [done|done|by intros o [= <-]|done| |done|auto|].
    + intros tok' e' He'. apply Hsub, (inv_items _ Hinv). done.
    + cbn. apply elem_of_app. right. by left.
  - by apply inv_store.
  - by eapply inv_close.
  - pose proof (inv_threads _ Hinv _ _ Hi) as Hj. cbn in Hj.
    destruct (k !! call) as [[tok' o]|] eqn:Hc; [|done]. cbn in Hj, Hk.
    injection Hj as ->. injection Hk as ->. destruct (inv_closed _ Hinv _ _ _ Hc) as [t0 Ht0].
    eapply inv_move; [done|done|by intros o' [= <-]|done|apply Hinv|done|done|]. cbn.
    split; [|done]. intros s ->%result_ok. by exists t0.
  - eapply inv_move; [done|done|by intros o [= <-]|done|apply Hinv|done|done|]. by split.
  - eapply inv_cache; [done|done|]. apply delete_subseteq.
  - eapply inv_cache; [done|done|]. apply map_filter_subseteq.
Qed.

Lemma cache_reachable_inv s : reachable s -> inv s.
Proof.
  induction 1 as [t|s s' _ IH Hs]; [|by eapply step_inv].
  assert (Hno : forall f x, ~ some_thread f ∅ x) by (intros f x (i & th & Hi & _); by rewrite lookup_empty in Hi).
  split; cbn; try (intros *; by rewrite lookup_empty).
  - intros tok call. rewrite lookup_empty. split; [done|]. intros Hs. by destruct (Hno _ _ Hs).
  - intros tok call. rewrite lookup_empty. split; [done|]. intros Hs. by destruct (Hno _ _ Hs).
  - intros i j t0 t' x. by rewrite lookup_empty.
Qed.

Lemma isFresh_spec e now : isFresh e now = true <->
  time_Sub now (fetchedAt e) < ttl /\
  (Session.ExpiresAt (session e) = time_zero \/ now < Session.ExpiresAt (session e)).
Proof.
  unfold isFresh, IsZero, Before. destruct (Z.leb_spec ttl (time_Sub now (fetchedAt e))); [split; [done|lia]|].
  destruct (bool_decide_reflect (Session.ExpiresAt (session e) = time_zero)) as [Hz|Hz],
    (bool_decide_reflect (now < Session.ExpiresAt (session e))) as [Hn|Hn]; cbn;
    (split; [intros E|intros [_ [E|E]]]); try done; auto.
Qed.

Lemma one_upstream_call s i j tok n1 c1 n2 c2 : reachable s ->
  threads s !! i = Some (Calling tok n1 c1) -> threads s !! j = Some (Calling tok n2 c2) -> i = j.
Proof.
  intros Hinv%cache_reachable_inv Hi Hj.
  assert (H1 : inFlight (cache_ s) !! tok = Some c1) by (apply (inv_flight _ Hinv); by exists i, (Calling tok n1 c1)).
  assert (H2 : inFlight (cache_ s) !! tok = Some c2) by (apply (inv_flight _ Hinv); by exists j, (Calling tok n2 c2)).
  assert (c2 = c1) as -> by congruence. by apply (inv_sole _ Hinv i j _ _ (tok, c1) Hi Hj).
Qed.

Lemma waiter_is_served s i tok now call : reachable s ->
  threads s !! i = Some (Joined tok now call) ->
  (exists a, calls s !! call = Some (tok, Some a)) \/
  (exists j th, threads s !! j = Some th /\ carries th = Some (tok, call)).
Proof.
  intros Hinv%cache_reachable_inv Hi. pose proof (inv_threads _ Hinv _ _ Hi) as Hj. cbn in Hj.
  destruct (calls s !! call) as [[tok' [a|]]|] eqn:Hc; [..|done]; cbn in Hj; injection Hj as ->; [eauto|].
  right. apply (inv_open _ Hinv) in Hc as (j & th & ? & ?). eauto.
Qed.

End cache.
End IntrospectCache.

(** [Invalidate] does not reach a call that is under way: its answer is
    stored afterwards, and the next caller is served the session that was
    invalidated. *)
Section race.
Context (s : Session.t).

Definition logged_out (st : IntrospectCache.state) : IntrospectCache.state :=
  IntrospectCache.mkState (IntrospectCache.clock_ st) (IntrospectCache.Invalidate "tok" (IntrospectCache.cache_ st))
    (IntrospectCache.calls st) (IntrospectCache.threads st) (IntrospectCache.upstream st).

Lemma invalidate_race ttl : exists st st',
  IntrospectCache.reachable ttl st /\ IntrospectCache.step ttl (logged_out st) st' /\
  IntrospectCache.items (IntrospectCache.cache_ st') !! "tok"%string = Some (IntrospectCache.mkEntry s 10).
Proof.
  set (a := IntrospectCache.mkAnswer (Some s) None).
  exists (IntrospectCache.mkState 10 (IntrospectCache.mkCache ∅ (<["tok"%string := 0%nat]> ∅)) (<[0%nat := ("tok"%string, None)]> ∅)
    (<[0%nat := IntrospectCache.Answered "tok" 10 0 a]> (<[0%nat := IntrospectCache.Calling "tok" 10 0]>
      (<[0%nat := IntrospectCache.Begun "tok" 10]> ∅))) ([] ++ [("tok"%string, 10, a)])).
  eexists. split_and!.
  - eapply IntrospectCache.reach_step; [|apply IntrospectCache.respond, lookup_insert_eq].
    eapply IntrospectCache.reach_step; [|eapply (IntrospectCache.lead _ _ (IntrospectCache.mkCache ∅ ∅)); [apply lookup_insert_eq|apply lookup_empty|reflexivity]].
    eapply IntrospectCache.reach_step; [apply (IntrospectCache.reach_initial ttl 10)|by apply IntrospectCache.arrive].
  - apply IntrospectCache.store, lookup_insert_eq.
  - reflexivity.
Qed.
End race.

(** ** [CachedServiceTokenSource] *)

Module ServiceToken.

Record source := mkSource { token : string; expiresAt : Time; scope : string }.

Definition NewCachedServiceTokenSource : source := mkSource "" time_zero "".

Definition effective_lead (refreshLeadTime : Duration) : Duration :=
  if refreshLeadTime <=? 0 then 60 * Second else refreshLeadTime.

(** One call, under the mutex. [issue] is what [IssueServiceToken] answers if
    asked; the flag tells whether it was. *)
Definition GetServiceToken (lead : Duration) (now : Time) (want : string)
    (issue : goerror + string * Duration) (s : source) : source * (bool * (goerror + string)) :=
  if negb (bool_decide (token s = "")) && bool_decide (scope s = want) && Before (time_Add now lead) (expiresAt s)
  then (s, (false, inr (token s)))
  else
    match issue with
    | inl err => (s, (true, inl err))
    | inr (tok, ttl) => (mkSource tok (time_Add now ttl) want, (true, inr tok))
    end.

Definition call : Type := Time * string * (goerror + string * Duration).

(** Calls in the order they take the mutex. *)
Fixpoint serve (lead : Duration) (calls : list call) (s : source) : list (bool * (goerror + string)) :=
  match calls with
  | [] => []
  | (now, want, issue) :: calls =>
      let '(s, r) := GetServiceToken lead now want issue s in r :: serve lead calls s
  end.

(** What the cached token is, given the calls already served. *)
Definition issued_in (past : list call) (s : source) : Prop :=
  token s = "" \/ exists t0 ttl, (t0, scope s, inr (token s, ttl)) ∈ past /\ expiresAt s = t0 + ttl.

Lemma serve_spec lead calls : forall past s i now want issue asked r,
  issued_in past s ->
  calls !! i = Some (now, want, issue) -> serve lead calls s !! i = Some (asked, r) ->
  if (asked : bool) then r = (match issue with inl e => inl e | inr (tok, _) => inr tok end)
  else exists tok t0 ttl, r = inr tok /\ (t0, want, inr (tok, ttl)) ∈ past ++ take i calls /\ now + lead < t0 + ttl.
Proof.
  induction calls as [|[[n w] iss] calls IH]; intros past s i now want issue asked r Hs Hi Hr; [done|].
  cbn [serve] in Hr. destruct (GetServiceToken lead n w iss s) as [s' out] eqn:Hg.
  assert (Hs' : issued_in (past ++ [(n, w, iss)]) s').
  { assert (Hkeep : issued_in (past ++ [(n, w, iss)]) s).
    { destruct Hs as [Hs|(t0 & ttl & Hin & He)]; [by left|]. right. exists t0, ttl. split; [|done].
      apply elem_of_app. by left. }
    unfold GetServiceToken in Hg. destruct (_ && _); [by injection Hg as <- <-|].
    destruct iss as [e|[tok ttl]]; injection Hg as <- <-; [done|]. right. exists n, ttl. cbn. split; [|done].
    apply elem_of_app. right. by left. }
  destruct i as [|i]; cbn in Hi, Hr.
  - injection Hi as -> -> ->. injection Hr as ->. unfold GetServiceToken, Before, time_Add in Hg.
    destruct (bool_decide_reflect (token s = "")) as [|Hne]; cbn in Hg;
      [destruct issue as [?|[? ?]]; by injection Hg as <- <- <-|].
    destruct (bool_decide_reflect (scope s = want)) as [<-|]; cbn in Hg;
      [|destruct issue as [?|[? ?]]; by injection Hg as <- <- <-].
    destruct (bool_decide_reflect (now + lead < expiresAt s)) as [Hlt|];
      [|destruct issue as [?|[? ?]]; by injection Hg as <- <- <-].
    injection Hg as <- <- <-. destruct Hs as [|(t0 & ttl & Hin & He)]; [done|].
    exists (token s), t0, ttl. rewrite take_0, app_nil_r. split_and!; [done|done|lia].
  - specialize (IH _ _ _ _ _ _ _ _ Hs' Hi Hr). destruct asked; [done|].
    destruct IH as (tok & t0 & ttl & -> & Hin & Hlt). exists tok, t0, ttl.
    rewrite <-(assoc_L (++)) in Hin. by split_and!.
Qed.
End ServiceToken.

(** ** The caching client, one request at a time *)

Module Cached.
Import IntrospectCache.

(** The cache, and the state of the client it wraps. *)
Record t (S : Type) := mk { store : cache; inner : S }.
Arguments mk {S} _ _.
Arguments store {S} _.
Arguments inner {S} _.

Section cached.
Context {S : Type} `{!Runtime.t S, !Client S} (ttl : Duration).

Definition below {A} (m : M S A) : M (t S) A := fun w =>
  let '(s, r) := m (inner w) in (mk (store w) s, r).

(** Nobody else runs: a call that is registered is never answered, and the
    request waits for it until its context is done. *)
Definition Introspect (tok : string) : M (t S) Session.t :=
  bind (below Runtime.Now) (fun now w =>
    let '(c, e) := enter ttl tok now 0 (store w) in
    let w := mk c (inner w) in
    match e with
    | Hit e => (w, Ok (session e))
    | Join _ => (w, Err (ErrorString "context canceled"))
    | Lead _ =>
        let '(w, r) := below (AuthCore.Introspect tok) w in
        let leave a := (mk (publish tok now a (store w)) (inner w), result a) in
        match r with
        | Ok ss => leave (mkAnswer (Some ss) None)
        | Err err => leave (mkAnswer None (Some err))
        | Panic why => (w, Panic why)
        end
    end).

Definition client : Client (t S) := {|
  AuthCore.Introspect := Introspect;
  AuthCore.GetProfile tok := below (AuthCore.GetProfile tok);
|}.

(** An entry the cache still answers with. *)
Definition good (now : Time) (e : entry) : Prop :=
  time_Sub now (fetchedAt e) < ttl /\
  (Session.ExpiresAt (session e) = time_zero \/ now < Session.ExpiresAt (session e)).

Lemma Introspect_hit tok w s now e :
  Runtime.Now (inner w) = (s, Ok now) -> items (store w) !! tok = Some e -> good now e ->
  Introspect tok w = (mk (store w) s, Ok (session e)).
Proof.
  intros Hnow He Hg. unfold Introspect, bind, below. rewrite Hnow. unfold enter. cbn [store inner]. rewrite He.
  by rewrite (proj2 (isFresh_spec ttl e now) Hg).
Qed.

(** Without such an entry the wrapped client is asked; a session it gives is
    kept, and nothing is kept of an error. *)
Lemma Introspect_miss tok w s now :
  Runtime.Now (inner w) = (s, Ok now) -> inFlight (store w) !! tok = None ->
  (forall e, items (store w) !! tok = Some e -> ~ good now e) ->
  exists c, (forall x, x <> tok -> items c !! x = items (store w) !! x) /\
    match AuthCore.Introspect tok s with
    | (s', Ok ss) => items c !! tok = Some (mkEntry ss now) /\ Introspect tok w = (mk c s', Ok ss)
    | (s', Err err) => items c !! tok = None /\ Introspect tok w = (mk c s', Err err)
    | (s', Panic why) => Introspect tok w = (mk c s', Panic why)
    end.
Proof.
  intros Hnow Hfl Hno. unfold Introspect, bind, below. rewrite Hnow. unfold enter. cbn [store inner]. rewrite Hfl.
  assert (Hleft : exists left, left !! tok = None /\ (forall x, x <> tok -> left !! x = items (store w) !! x) /\
    match items (store w) !! tok with
    | Some e => if isFresh ttl e now then (store w, Hit e)
                else (mkCache (delete tok (items (store w))) (<[tok := 0%nat]> (inFlight (store w))), Lead 0)
    | None => (mkCache (items (store w)) (<[tok := 0%nat]> (inFlight (store w))), Lead 0)
    end = (mkCache left (<[tok := 0%nat]> (inFlight (store w))), Lead 0)).
  { destruct (items (store w) !! tok) as [e|] eqn:E; [|by exists (items (store w))].
    destruct (isFresh ttl e now) eqn:Ef; [by apply (isFresh_spec ttl), (Hno e eq_refl) in Ef|].
    exists (delete tok (items (store w))). split; [apply lookup_delete_eq|]. split; [|done].
    intros x Hx. by apply lookup_delete_ne. }
  destruct Hleft as (left & Hl & Hother & ->). cbn [store inner].
  destruct (AuthCore.Introspect tok s) as [s' [ss|err|why]]; cbn [store inner].
  - eexists. split; [|split; [|reflexivity]]; cbn; [|apply lookup_insert_eq].
    intros x Hx. rewrite lookup_insert_ne by done. by apply Hother.
  - eexists. split; [|split; [|reflexivity]]; [exact Hother|exact Hl].
  - eexists. split; [|reflexivity]. exact Hother.
Qed.
End cached.
End Cached.
