(* ===== verification/Json.v ===== *)
(** * Request bodies: the parts of Go's [encoding/json] the handlers use

    [Decoder.Decode] reads the first value of the body, whatever follows it,
    and fills a struct from an object: keys match a field exactly or after
    case folding, [null] leaves a field alone (or sets a pointer to nil), a
    value of another kind is an error, and so is an unknown key when the
    decoder is strict. Only whether decoding fails is modelled, not the texts
    of its errors: no answer of the server shows them. *)

From S2P Require Import Prelude GoStrings Cursor NetUrl.
From Stdlib Require Import Ascii.

Local Open Scope Z_scope.

Module Json.

(** Strings and numbers are kept as the text between the delimiters. *)
Inductive json :=
  | JNull
  | JBool (b : bool)
  | JNum (text : string)
  | JStr (raw : string)
  | JArr (l : list json)
  | JObj (l : list (string * json)).

(** ** Scanning *)

Definition is_space (c : Z) : bool := (c =? 32) || (c =? 9) || (c =? 13) || (c =? 10).

Fixpoint skip_space (s : string) : string :=
  match s with
  | String a r => if is_space (code a) then skip_space r else s
  | EmptyString => s
  end.

Definition is_hex (c : Z) : bool := is_num c || between 97 102 c || between 65 70 c.

(** The raw text of a string up to its closing quote, and what follows. *)
Fixpoint scan_string (s : string) : option (string * string) :=
  match s with
  | EmptyString => None
  | String a r =>
      let c := code a in
      if c =? 34 then Some (EmptyString, r)
      else if c <? 32 then None
      else if c =? 92 then
        match r with
        | String e r' =>
            if one_of "bfnrt\/" (code e) || (code e =? 34)
            then '(t, rest) ← scan_string r'; Some (String a (String e t), rest)
            else if code e =? 117 then
              match r' with
              | String h1 (String h2 (String h3 (String h4 r''))) =>
                  if is_hex (code h1) && is_hex (code h2) && is_hex (code h3) && is_hex (code h4)
                  then '(t, rest) ← scan_string r'';
                       Some (String a (String e (String h1 (String h2 (String h3 (String h4 t))))), rest)
                  else None
              | _ => None
              end
            else None
        | EmptyString => None
        end
      else '(t, rest) ← scan_string r; Some (String a t, rest)
  end.

Fixpoint span_num (s : string) : string * string :=
  match s with
  | String a r => if is_num (code a) then let '(t, rest) := span_num r in (String a t, rest) else (EmptyString, s)
  | EmptyString => (EmptyString, s)
  end.

Definition scan_int (s : string) : option (string * string) :=
  match s with
  | String a r =>
      if code a =? 48 then Some (String a EmptyString, r)
      else if between 49 57 (code a) then Some (span_num s) else None
  | EmptyString => None
  end.

(** Digits that must be there after a point or an exponent sign. *)
Definition scan_digits (s : string) : option (string * string) :=
  let '(t, rest) := span_num s in
  if bool_decide (t = EmptyString) then None else Some (t, rest).

Definition scan_frac (s : string) : option (string * string) :=
  match s with
  | String a r => if code a =? 46 then '(t, rest) ← scan_digits r; Some (String a t, rest) else Some (EmptyString, s)
  | EmptyString => Some (EmptyString, s)
  end.

Definition scan_exp (s : string) : option (string * string) :=
  match s with
  | String a r =>
      if (code a =? 101) || (code a =? 69) then
        match r with
        | String b r' =>
            if (code b =? 43) || (code b =? 45)
            then '(t, rest) ← scan_digits r'; Some (String a (String b t), rest)
            else '(t, rest) ← scan_digits r; Some (String a t, rest)
        | EmptyString => None
        end
      else Some (EmptyString, s)
  | EmptyString => Some (EmptyString, s)
  end.

Definition scan_number (s : string) : option (string * string) :=
  let '(sign, s) := match s with
                    | String a r => if code a =? 45 then (String a EmptyString, r) else (EmptyString, s)
                    | EmptyString => (EmptyString, s)
                    end in
  '(i, s) ← scan_int s;
  '(f, s) ← scan_frac s;
  '(e, s) ← scan_exp s;
  Some (sign +:+ i +:+ f +:+ e, s).

(** The value at the start of the text and what follows it. [depth] is Go's
    [maxNestingDepth]; a loop over elements is bounded by the bytes left. *)
Fixpoint scan_value (depth : nat) (s : string) : option (json * string) :=
  match skip_space s with
  | EmptyString => None
  | String a r as s =>
      let c := code a in
      if c =? 34 then '(t, rest) ← scan_string r; Some (JStr t, rest)
      else if HasPrefix s "null" then Some (JNull, string_drop 4 s)
      else if HasPrefix s "true" then Some (JBool true, string_drop 4 s)
      else if HasPrefix s "false" then Some (JBool false, string_drop 5 s)
      else if (c =? 45) || is_num c then '(t, rest) ← scan_number s; Some (JNum t, rest)
      else
        match depth with
        | O => None
        | S depth =>
            let elems := fix elems (fuel : nat) (s : string) : option (list json * string) :=
              match fuel with
              | O => None
              | S fuel =>
                  '(v, s) ← scan_value depth s;
                  match skip_space s with
                  | String b s =>
                      if code b =? 44 then '(l, s) ← elems fuel s; Some (v :: l, s)
                      else if code b =? 93 then Some ([v], s) else None
                  | EmptyString => None
                  end
              end in
            let members := fix members (fuel : nat) (s : string) : option (list (string * json) * string) :=
              match fuel with
              | O => None
              | S fuel =>
                  match skip_space s with
                  | String q s =>
                      if code q =? 34 then
                        '(k, s) ← scan_string s;
                        match skip_space s with
                        | String b s =>
                            if code b =? 58 then
                              '(v, s) ← scan_value depth s;
                              match skip_space s with
                              | String b s =>
                                  if code b =? 44 then '(l, s) ← members fuel s; Some ((k, v) :: l, s)
                                  else if code b =? 125 then Some ([(k, v)], s) else None
                              | EmptyString => None
                              end
                            else None
                        | EmptyString => None
                        end
                      else None
                  | EmptyString => None
                  end
              end in
            if c =? 91 then
              match skip_space r with
              | String b rest => if code b =? 93 then Some (JArr [], rest)
                                 else '(l, rest) ← elems (String.length r) r; Some (JArr l, rest)
              | EmptyString => None
              end
            else if c =? 123 then
              match skip_space r with
              | String b rest => if code b =? 125 then Some (JObj [], rest)
                                 else '(l, rest) ← members (String.length r) r; Some (JObj l, rest)
              | EmptyString => None
              end
            else None
        end
  end.

Definition maxNestingDepth : nat := Nat.mul 100 100.

(** ** Strings *)

Definition hex_value (a : ascii) : Z :=
  let c := code a in if is_num c then c - 48 else if between 97 102 c then c - 87 else c - 55.

(** [utf8.EncodeRune]. *)
Definition EncodeRune (r : Z) : string :=
  let bytes l := String.string_of_list_ascii (char <$> l) in
  if r <? 128 then bytes [r]
  else if r <? 2048 then bytes [192 + r / 64; 128 + r mod 64]
  else if (1114111 <? r) || between 55296 57343 r then bytes [239; 191; 189]
  else if r <? 65536 then bytes [224 + r / 4096; 128 + r / 64 mod 64; 128 + r mod 64]
  else bytes [240 + r / 262144; 128 + r / 4096 mod 64; 128 + r / 64 mod 64; 128 + r mod 64].

(** [\uXXXX] at the start of the text. *)
Definition getu4 (s : string) : option (Z * string) :=
  match s with
  | String a (String u (String h1 (String h2 (String h3 (String h4 rest))))) =>
      if (code a =? 92) && (code u =? 117) && is_hex (code h1) && is_hex (code h2) && is_hex (code h3) && is_hex (code h4)
      then Some (((hex_value h1 * 16 + hex_value h2) * 16 + hex_value h3) * 16 + hex_value h4, rest)
      else None
  | _ => None
  end.

(** The text of a string literal: escapes replaced, halves of a surrogate
    pair joined, and whatever is not UTF-8 turned into U+FFFD. Every step
    takes at least a byte. *)
Fixpoint unquote (fuel : nat) (s : string) : string :=
  match fuel, s with
  | S fuel, String a r =>
      if code a =? 92 then
        match getu4 s with
        | Some (rr, rest) =>
            if between 55296 57343 rr then
              match getu4 rest with
              | Some (rr1, rest') =>
                  if (rr <=? 56319) && between 56320 57343 rr1
                  then EncodeRune ((rr - 55296) * 1024 + (rr1 - 56320) + 65536) +:+ unquote fuel rest'
                  else EncodeRune 65533 +:+ unquote fuel rest
              | None => EncodeRune 65533 +:+ unquote fuel rest
              end
            else EncodeRune rr +:+ unquote fuel rest
        | None =>
            match r with
            | String e r =>
                let c := code e in
                let byte := if c =? 98 then 8 else if c =? 102 then 12 else if c =? 110 then 10
                            else if c =? 114 then 13 else if c =? 116 then 9 else c in
                String (char byte) (unquote fuel r)
            | EmptyString => EmptyString
            end
        end
      else if code a <? 128 then String a (unquote fuel r)
      else match rune_size s with
           | 1%nat => EncodeRune 65533 +:+ unquote fuel r
           | n => string_take n s +:+ unquote fuel (string_drop n s)
           end
  | _, _ => EmptyString
  end.

Definition text (raw : string) : string := unquote (String.length raw) raw.

(** ** Fields *)

(** [foldName], as far as it can make a key match an ASCII field name: the
    letters of ASCII, the long s and the Kelvin sign. *)
Fixpoint foldName (s : string) : string :=
  match s with
  | EmptyString => EmptyString
  | String a r =>
      match r with
      | String b r' =>
          if (code a =? 197) && (code b =? 191) then String "S" (foldName r')
          else match r' with
               | String c r'' =>
                   if (code a =? 226) && (code b =? 132) && (code c =? 170) then String "K" (foldName r'')
                   else String (if between 97 122 (code a) then char (code a - 32) else a) (foldName r)
               | EmptyString => String (if between 97 122 (code a) then char (code a - 32) else a) (foldName r)
               end
      | EmptyString => String (if between 97 122 (code a) then char (code a - 32) else a) EmptyString
      end
  end.

(** A struct type: its fields' JSON names and how a value is stored. *)
Definition struct (T : Type) : Type := list (string * (json -> T -> option T)).

Definition field {T} (fs : struct T) (key : string) : option (json -> T -> option T) :=
  match List.find (fun f => bool_decide (f.1 = key)) fs with
  | Some f => Some f.2
  | None => snd <$> List.find (fun f => bool_decide (foldName f.1 = foldName key)) fs
  end.

(** [None] when any member cannot be stored. *)
Fixpoint fill {T} (strict : bool) (fs : struct T) (members : list (string * json)) (t : T) : option T :=
  match members with
  | [] => Some t
  | (k, v) :: members =>
      match field fs (text k) with
      | Some store => t ← store v t; fill strict fs members t
      | None => if (strict : bool) then None else fill strict fs members t
      end
  end.

Definition unmarshal {T} (strict : bool) (fs : struct T) (zero : T) (v : json) : option T :=
  match v with
  | JNull => Some zero
  | JObj members => fill strict fs members zero
  | _ => None
  end.

(** The kinds of fields: [string], [*string], [[]string], [int32], [*time.Time]. *)
Definition to_string (old : string) (v : json) : option string :=
  match v with JStr raw => Some (text raw) | JNull => Some old | _ => None end.

Definition to_string_ptr (v : json) : option (option string) :=
  match v with JStr raw => Some (Some (text raw)) | JNull => Some None | _ => None end.

(** A slice is a length and its backing array: a [null] element keeps what
    the array holds at its place. *)
Fixpoint to_elems (backing : list string) (l : list json) : option (list string) :=
  match l with
  | [] => Some []
  | v :: l => s ← to_string (default EmptyString (head backing)) v; rest ← to_elems (tail backing) l; Some (s :: rest)
  end.

Definition slice : Type := nat * list string.

Definition to_slice (old : slice) (v : json) : option slice :=
  match v with
  | JNull => Some (O, [])
  | JArr l =>
      elems ← to_elems old.2 l;
      Some (length elems, if bool_decide (elems = []) then [] else elems ++ drop (length elems) old.2)
  | _ => None
  end.

Definition int_value (t : string) : option Z :=
  let '(neg, digits) := match t with
                        | String a r => if code a =? 45 then (true, r) else (false, t)
                        | EmptyString => (false, t)
                        end in
  let '(ds, rest) := span_num digits in
  if bool_decide (rest = EmptyString)
  then let n := String.list_ascii_of_string ds in
       let v := fold_left (fun acc a => acc * 10 + (code a - 48)) n 0 in
       Some (if neg : bool then - v else v)
  else None.

Definition to_int32 (old : Z) (v : json) : option Z :=
  match v with
  | JNum t => n ← int_value t; if (-2147483648 <=? n) && (n <=? 2147483647) then Some n else None
  | JNull => Some old
  | _ => None
  end.

Definition to_int64 (old : Z) (v : json) : option Z :=
  match v with
  | JNum t => n ← int_value t; if (int64_min <=? n) && (n <=? int64_max) then Some n else None
  | JNull => Some old
  | _ => None
  end.

Definition to_bool (old : bool) (v : json) : option bool :=
  match v with JBool b => Some b | JNull => Some old | _ => None end.

Definition to_time_ptr (v : json) : option (option Time) :=
  match v with
  | JStr raw => t ← Rfc3339.Parse raw; Some (Some t)
  | JNull => Some None
  | _ => None
  end.

(** ** [Decoder.Decode] over a body *)

Inductive decoded (T : Type) :=
  | Good (v : T)
  | EOF          (* [io.EOF]: nothing but white space *)
  | Bad.
Arguments Good {T} v.
Arguments EOF {T}.
Arguments Bad {T}.

Fixpoint blank (s : string) : bool :=
  match s with
  | String a r => is_space (code a) && blank r
  | EmptyString => true
  end.

(** [limit] is that of [http.MaxBytesReader]; reading on past it fails. A
    value without a closing delimiter ends only at the byte after it. *)
Definition Decode {T} (limit : option Z) (strict : bool) (fs : struct T) (zero : T) (body : string) : decoded T :=
  let cut := match limit with Some n => n <? Z.of_nat (String.length body) | None => false end in
  let visible := match limit with Some n => string_take (Z.to_nat n) body | None => body end in
  match scan_value maxNestingDepth visible with
  | Some (v, rest) =>
      let open := match v with JNull | JBool _ | JNum _ => true | _ => false end in
      if open && cut && bool_decide (rest = EmptyString) then Bad
      else match unmarshal strict fs zero v with Some t => Good t | None => Bad end
  | None => if blank visible && negb cut then EOF else Bad
  end.
End Json.
