(* ===== verification/NetIP.v ===== *)
(** * IP addresses and the SSRF guard of [pkg/ogp/safe_http.go]

    [net.ParseIP], the predicates of [net.IP] and [net.IPNet.Contains] that
    the guard is made of, the guard itself, and what it refuses. *)

From S2P Require Import Prelude Errors GoStrings Cursor NetUrl.
From Stdlib Require Import Ascii.

Local Open Scope Z_scope.

(** [net.IP]: 4 or 16 bytes; anything else is the invalid address. *)
Abbreviation IP := (list Z).

Module NetIP.
(** ** Parsing *)

(** State of [parseIPv4Fields]: fields read, current value, digits of the
    current field. *)
Fixpoint ipv4_loop (fields : list Z) (val : Z) (digLen : nat) (prev_dot : bool) (s : string)
    : option (list Z) :=
  match s with
  | EmptyString => if Nat.eqb (length fields) 3 then Some (fields ++ [val]) else None
  | String a s' =>
      let c := code a in
      if is_num c then
        if Nat.eqb digLen 1 && (val =? 0) then None
        else
          let val := val * 10 + (c - 48) in
          if 255 <? val then None else ipv4_loop fields val (S digLen) false s'
      else if c =? 46 then
        if prev_dot || bool_decide (s' = EmptyString) || Nat.eqb (length fields) 3 then None
        else ipv4_loop (fields ++ [val]) 0 0 true s'
      else None
  end.

(** [i == 0] counts as a preceding dot. *)
Definition parseIPv4 (s : string) : option (list Z) :=
  match s with
  | EmptyString => None
  | _ => ipv4_loop [] 0 0 true s
  end.

(** Up to four hexadecimal digits: value, count and rest; [None] on a fifth. *)
Fixpoint hex_group (off : nat) (acc : Z) (s : string) : option (Z * nat * string) :=
  match s with
  | EmptyString => Some (acc, off, s)
  | String a s' =>
      match unhex (code a) with
      | None => Some (acc, off, s)
      | Some v => if (3 <? Z.of_nat off) then None else hex_group (S off) (acc * 16 + v) s'
      end
  end.

(** The loop over the groups. [ip] holds the bytes read so far, [ell] the
    position of the ellipsis; one unit of fuel per group. *)
Fixpoint ipv6_loop (fuel : nat) (ip : list Z) (ell : option nat) (s : string)
    : option (list Z * option nat * string) :=
  match fuel with
  | O => Some (ip, ell, s)
  | S fuel =>
      '(acc, off, r) ← hex_group 0 0 s;
      if Nat.eqb off 0 then None
      else
        match r with
        | String a _ =>
            if code a =? 46 then
              if negb (bool_decide (is_Some ell)) && negb (Nat.eqb (length ip) 12) then None
              else if (12 <? Z.of_nat (length ip)) then None
              else v4 ← parseIPv4 s; Some (ip ++ v4, ell, EmptyString)
            else
              let ip := ip ++ [acc / 256; acc mod 256] in
              if negb (code a =? 58) then None
              else
                match string_drop 1 r with
                | EmptyString => None
                | String b r' =>
                    if code b =? 58 then
                      if bool_decide (is_Some ell) then None
                      else if bool_decide (r' = EmptyString) then Some (ip, Some (length ip), EmptyString)
                      else ipv6_loop fuel ip (Some (length ip)) r'
                    else ipv6_loop fuel ip ell (String b r')
                end
        | EmptyString => Some (ip ++ [acc / 256; acc mod 256], ell, EmptyString)
        end
  end.

Definition parseIPv6 (s : string) : option (list Z) :=
  let '(ell, s) := if HasPrefix s "::" then (Some O, string_drop 2 s) else (None, s) in
  if bool_decide (is_Some ell) && bool_decide (s = EmptyString) then Some (replicate 16 0)
  else
    '(ip, ell, r) ← ipv6_loop 8 [] ell s;
    if negb (bool_decide (r = EmptyString)) then None
    else if Nat.eqb (length ip) 16 then if bool_decide (is_Some ell) then None else Some ip
    else e ← ell; Some (take e ip ++ replicate (16 - length ip) 0 ++ drop e ip).

(** The first of '.', ':' and '%' decides the family. *)
Fixpoint family (s : string) : option Z :=
  match s with
  | EmptyString => None
  | String a s => if one_of ".:%" (code a) then Some (code a) else family s
  end.

Definition v4_mapped (v4 : list Z) : IP := replicate 10 0 ++ [255; 255] ++ v4.

(** An address with a zone is not an IP for [net.ParseIP]. *)
Definition ParseIP (s : string) : option IP :=
  match family s with
  | Some 46 => v4_mapped <$> parseIPv4 s
  | Some 58 => if Contains "%" s then None else parseIPv6 s
  | _ => None
  end.

(** ** Predicates of net.IP *)

Definition To4 (ip : IP) : option IP :=
  if Nat.eqb (length ip) 4 then Some ip
  else if Nat.eqb (length ip) 16 && forallb (Z.eqb 0) (take 10 ip)
          && bool_decide (take 2 (drop 10 ip) = [255; 255])
  then Some (drop 12 ip)
  else None.

Definition byte (i : nat) (ip : IP) : Z := nth i ip 0.

Definition IsLoopback (ip : IP) : bool :=
  match To4 ip with
  | Some v4 => byte 0 v4 =? 127
  | None => bool_decide (ip = replicate 15 0 ++ [1])
  end.

Definition IsLinkLocalUnicast (ip : IP) : bool :=
  match To4 ip with
  | Some v4 => (byte 0 v4 =? 169) && (byte 1 v4 =? 254)
  | None => Nat.eqb (length ip) 16 && (byte 0 ip =? 254) && (Z.land (byte 1 ip) 192 =? 128)
  end.

Definition IsLinkLocalMulticast (ip : IP) : bool :=
  match To4 ip with
  | Some v4 => (byte 0 v4 =? 224) && (byte 1 v4 =? 0) && (byte 2 v4 =? 0)
  | None => Nat.eqb (length ip) 16 && (byte 0 ip =? 255) && (Z.land (byte 1 ip) 15 =? 2)
  end.

Definition IsMulticast (ip : IP) : bool :=
  match To4 ip with
  | Some v4 => Z.land (byte 0 v4) 240 =? 224
  | None => Nat.eqb (length ip) 16 && (byte 0 ip =? 255)
  end.

Definition IsUnspecified (ip : IP) : bool :=
  match To4 ip with
  | Some v4 => bool_decide (v4 = [0; 0; 0; 0])
  | None => bool_decide (ip = replicate 16 0)
  end.

(** ** Networks *)

Record IPNet := mkNet { net : list Z; bits : nat }.

(** The mask byte that keeps the first [k] bits of 8. *)
Definition mask_byte (k : nat) : Z := 256 - 2 ^ (8 - Z.of_nat (Nat.min 8 k)).

Fixpoint masked_eq (bits : nat) (n ip : list Z) : bool :=
  match n, ip with
  | x :: n, y :: ip =>
      (Z.land x (mask_byte bits) =? Z.land y (mask_byte bits)) && masked_eq (bits - 8) n ip
  | _, _ => true
  end.

Definition Contains (n : IPNet) (ip : IP) : bool :=
  let ip := default ip (To4 ip) in
  Nat.eqb (length ip) (length (net n)) && masked_eq (bits n) (net n) ip.

Definition v6 (hi : list Z) : list Z := hi ++ replicate (16 - length hi) 0.

Definition blockedCIDRs : list IPNet := [
  mkNet [127; 0; 0; 0] 8;
  mkNet (replicate 15 0 ++ [1]) 128;
  mkNet [169; 254; 0; 0] 16;
  mkNet (v6 [254; 128]) 10;
  mkNet [10; 0; 0; 0] 8;
  mkNet [172; 16; 0; 0] 12;
  mkNet [192; 168; 0; 0] 16;
  mkNet (v6 [252]) 7;
  mkNet [0; 0; 0; 0] 8;
  mkNet [255; 255; 255; 255] 32;
  mkNet [224; 0; 0; 0] 4;
  mkNet (v6 [255]) 8
].

(** ** The guard *)

(** A nil IP is [None]. *)
Definition IsBlockedIP (ip : option IP) : bool :=
  match ip with
  | None => true
  | Some ip =>
      if IsLoopback ip || IsLinkLocalUnicast ip || IsLinkLocalMulticast ip || IsMulticast ip
         || IsUnspecified ip
      then true
      else
        let ip := default ip (To4 ip) in
        existsb (fun n => Contains n ip) blockedCIDRs
  end.

Definition ErrBlockedAddress : goerror := ErrorString "ogp: address blocked by SSRF guard".
Definition ErrBlockedScheme : goerror := ErrorString "ogp: only http/https schemes allowed".
Definition ErrTooManyRedirects : goerror := ErrorString "ogp: too many redirects".
Definition MaxRedirects : Z := 5.

(** The decision of [safeDialContext] once the resolver has answered: refuse,
    or dial the first address. [ip_String] renders an address in messages. *)
Definition dial_target (ip_String : IP -> string) (ips : list IP) : goerror + IP :=
  match find (fun ip => IsBlockedIP (Some ip)) ips with
  | Some ip => inl (Wrapped "" ErrBlockedAddress (": " +:+ ip_String ip))
  | None =>
      match ips with
      | [] => inl (Wrapped "" ErrBlockedAddress ": no addresses")
      | ip :: _ => inr ip
      end
  end.

(** [u.Hostname()] and [u.Port()]. *)
Definition splitHostPort (hostPort : string) : string * string :=
  let '(host, port) :=
    match LastIndex ":" hostPort with
    | Some colon =>
        if URL.validOptionalPort (string_drop colon hostPort)
        then (string_take colon hostPort, string_drop (S colon) hostPort)
        else (hostPort, EmptyString)
    | None => (hostPort, EmptyString)
    end in
  if HasPrefix host "[" && bool_decide (LastIndex "]" host = Some (pred (String.length host)))
  then (string_drop 1 (string_take (pred (String.length host)) host), port)
  else (host, port).

Definition Hostname (u : URL.t) : string := (splitHostPort (URL.Host u)).1.
Definition Port (u : URL.t) : string := (splitHostPort (URL.Host u)).2.

Definition checkURL (ip_String : IP -> string) (u : option URL.t) : option goerror :=
  match u with
  | None => Some ErrBlockedScheme
  | Some u =>
      if negb (bool_decide (URL.Scheme u = "http"%string)) && negb (bool_decide (URL.Scheme u = "https"%string))
      then Some ErrBlockedScheme
      else
        match ParseIP (Hostname u) with
        | Some ip => if IsBlockedIP (Some ip)
                     then Some (Wrapped "" ErrBlockedAddress (": " +:+ ip_String ip)) else None
        | None => None
        end
  end.

(** The redirect policy of the client: [via] requests made so far. *)
Definition CheckRedirect (ip_String : IP -> string) (u : option URL.t) (via : Z) : option goerror :=
  if MaxRedirects <=? via then Some ErrTooManyRedirects else checkURL ip_String u.

(** ** What is refused *)

Definition wf (ip : IP) : Prop :=
  (length ip = 4%nat \/ length ip = 16%nat) /\ Forall (fun b => 0 <= b < 256) ip.

(** The IPv4 ranges, over the first bytes. *)
Definition private_v4 (b0 b1 b2 b3 : Z) : Prop :=
  b0 = 0 \/ b0 = 10 \/ b0 = 127 \/ (b0 = 169 /\ b1 = 254) \/ (b0 = 172 /\ 16 <= b1 <= 31) \/
  (b0 = 192 /\ b1 = 168) \/ 224 <= b0 <= 239 \/ (b0 = 255 /\ b1 = 255 /\ b2 = 255 /\ b3 = 255).

(** The IPv6 ranges. *)
Definition private_v6 (ip : IP) : Prop :=
  ip = replicate 16 0 \/ ip = replicate 15 0 ++ [1] \/
  (byte 0 ip = 254 /\ 128 <= byte 1 ip <= 191) \/ 252 <= byte 0 ip <= 253 \/ byte 0 ip = 255.
End NetIP.

Example parse_ip1 : NetIP.ParseIP "127.0.0.1" = Some (NetIP.v4_mapped [127; 0; 0; 1]).
Proof. vm_compute. reflexivity. Qed.
Example parse_ip2 : NetIP.ParseIP "fe80::1" = Some (254 :: 128 :: replicate 13 0 ++ [1]).
Proof. vm_compute. reflexivity. Qed.
Example parse_ip3 : NetIP.ParseIP "::ffff:10.0.0.1" = Some (NetIP.v4_mapped [10; 0; 0; 1]).
Proof. vm_compute. reflexivity. Qed.
Example parse_ip4 : NetIP.ParseIP "1.2.3" = None /\ NetIP.ParseIP "01.2.3.4" = None /\ NetIP.ParseIP "1:2:3:4:5:6:7:8:9" = None /\ NetIP.ParseIP "::1%eth0" = None.
Proof. vm_compute. done. Qed.
Example blocked_ex : map (fun s => NetIP.IsBlockedIP (NetIP.ParseIP s)) ["169.254.169.254"; "8.8.8.8"; "::1"; "fc00::5"; "2001:4860:4860::8888"; "::ffff:192.168.1.1"]%string = [true; false; true; true; false; true].
Proof. vm_compute. reflexivity. Qed.

(** ** The guard against its specification *)

Module NetIPThms.
Import NetIP.

(** Facts about bytes, checked on all 256 of them. *)
Definition byte_facts (b : Z) : bool :=
  (Z.land b 255 =? b) && (Z.land b 0 =? 0)
  && Bool.eqb (Z.land b 240 =? 224) (between 224 239 b)
  && Bool.eqb (Z.land b 240 =? 16) (between 16 31 b)
  && Bool.eqb (Z.land b 192 =? 128) (between 128 191 b)
  && Bool.eqb (Z.land b 254 =? 252) (between 252 253 b).

Lemma byte_facts_all : forallb byte_facts (seqZ 0 256) = true.
Proof. by vm_compute. Qed.

Lemma byte_fact b : 0 <= b < 256 ->
  Z.land b 255 = b /\ Z.land b 0 = 0 /\
  (Z.land b 240 =? 224) = between 224 239 b /\ (Z.land b 240 =? 16) = between 16 31 b /\
  (Z.land b 192 =? 128) = between 128 191 b /\ (Z.land b 254 =? 252) = between 252 253 b.
Proof.
  intros Hb. pose proof byte_facts_all as H. rewrite forallb_forall in H.
  specialize (H b). unfold byte_facts in H.
  assert (Hin : In b (seqZ 0 256)) by (rewrite <-list_elem_of_In, elem_of_seqZ; lia).
  specialize (H Hin). rewrite !andb_true_iff, !Z.eqb_eq, !eqb_true_iff in H. tauto.
Qed.

(** The tail of a network compares nothing once its bits are used up. *)
Lemma masked_eq_0 n ip : Forall (fun b => 0 <= b < 256) n -> Forall (fun b => 0 <= b < 256) ip ->
  masked_eq 0 n ip = true.
Proof.
  intros Hn. revert ip. induction Hn as [|x n Hx Hn IH]; intros ip Hip; [done|].
  destruct Hip as [|y ip Hy Hip]; [done|]. cbn [masked_eq]. change (mask_byte 0) with 0.
  destruct (byte_fact x Hx) as (_ & -> & _), (byte_fact y Hy) as (_ & -> & _). cbn. by apply IH.
Qed.

(** One byte of a network against one byte of an address. *)
Lemma masked_eq_cons k x y n ip :
  masked_eq k (x :: n) (y :: ip) =
  (Z.land x (mask_byte k) =? Z.land y (mask_byte k)) && masked_eq (k - 8) n ip.
Proof. done. Qed.

Lemma To4_4 b0 b1 b2 b3 : To4 [b0; b1; b2; b3] = Some [b0; b1; b2; b3].
Proof. done. Qed.

Lemma To4_16 ip v4 : To4 ip = Some v4 -> wf ip -> exists b0 b1 b2 b3,
  v4 = [b0; b1; b2; b3] /\ 0 <= b0 < 256 /\ 0 <= b1 < 256 /\ 0 <= b2 < 256 /\ 0 <= b3 < 256.
Proof.
  unfold To4. intros E [[Hl|Hl] Hb]; rewrite Hl in E; cbn [Nat.eqb] in E.
  - injection E as <-. destruct ip as [|b0 [|b1 [|b2 [|b3 [|]]]]]; try done.
    rewrite !Forall_cons in Hb. exists b0, b1, b2, b3. tauto.
  - destruct (_ && _); [|done]. injection E as <-.
    do 16 (destruct ip as [|? ip]; [done|]). destruct ip; [|done].
    rewrite !Forall_cons in Hb. cbn [drop]. eexists _, _, _, _. split; [done|]. tauto.
Qed.

Lemma eq_land_255 x b : 0 <= x < 256 -> 0 <= b < 256 -> (Z.land x 255 =? Z.land b 255) = (b =? x).
Proof.
  intros Hx Hb. destruct (byte_fact x Hx) as (-> & _), (byte_fact b Hb) as (-> & _). apply Z.eqb_sym.
Qed.

(** The list of networks on an IPv4 address. *)
Lemma blocked_v4 b0 b1 b2 b3 :
  0 <= b0 < 256 -> 0 <= b1 < 256 -> 0 <= b2 < 256 -> 0 <= b3 < 256 ->
  existsb (fun n => Contains n [b0; b1; b2; b3]) blockedCIDRs = true <->
  b0 = 127 \/ (b0 = 169 /\ b1 = 254) \/ b0 = 10 \/ (b0 = 172 /\ 16 <= b1 <= 31) \/
  (b0 = 192 /\ b1 = 168) \/ b0 = 0 \/ (b0 = 255 /\ b1 = 255 /\ b2 = 255 /\ b3 = 255) \/ 224 <= b0 <= 239.
Proof.
  intros H0 H1 H2 H3.
  assert (Hbytes : Forall (fun b => 0 <= b < 256) [b0; b1; b2; b3]) by (rewrite !Forall_cons; auto).
  unfold blockedCIDRs, Contains, v6.
  cbn [existsb net bits To4 length Nat.eqb default from_option id app replicate Nat.sub andb orb].
  cbn [length Nat.eqb andb orb masked_eq Nat.sub].
  change (mask_byte 8) with 255. change (mask_byte 16) with 255. change (mask_byte 12) with 255.
  change (mask_byte 32) with 255. change (mask_byte 24) with 255. change (mask_byte 4) with 240.
  change (mask_byte 0) with 0.
  destruct (byte_fact b0 H0) as (E0 & Z0 & M0 & _), (byte_fact b1 H1) as (E1 & Z1 & _ & M1 & _),
    (byte_fact b2 H2) as (E2 & Z2 & _), (byte_fact b3 H3) as (E3 & Z3 & _).
  rewrite E0, E1, E2, E3, Z1, Z2, Z3. cbn [Z.land Pos.land Pos.lor Z.eqb].
  rewrite Z.eqb_sym in M0, M1.
  change (Z.land 127 255) with 127. change (Z.land 169 255) with 169. change (Z.land 254 255) with 254.
  change (Z.land 10 255) with 10. change (Z.land 172 255) with 172. change (Z.land 16 240) with 16.
  change (Z.land 192 255) with 192. change (Z.land 168 255) with 168. change (Z.land 0 255) with 0.
  change (Z.land 255 255) with 255. change (Z.land 224 240) with 224. change (Z.land 0 0) with 0.
  rewrite M0, M1. unfold between. lia.
Qed.

Lemma masked_eq_full k n ip :
  (8 * length n <= k)%nat -> length n = length ip ->
  Forall (fun b => 0 <= b < 256) n -> Forall (fun b => 0 <= b < 256) ip ->
  masked_eq k n ip = bool_decide (n = ip).
Proof.
  intros Hk Hl Hn. revert k ip Hk Hl. induction Hn as [|x n Hx Hn IH]; intros k ip Hk Hl Hip.
  { destruct ip; [|done]. by rewrite bool_decide_eq_true_2. }
  destruct Hip as [|y ip Hy Hip]; [done|]. cbn [masked_eq length] in *.
  assert (mask_byte k = 255) as -> by (unfold mask_byte; by replace (Nat.min 8 k) with 8%nat by lia).
  destruct (byte_fact x Hx) as (-> & _), (byte_fact y Hy) as (-> & _).
  rewrite IH by (done || lia). destruct (Z.eqb_spec x y) as [->|Hne]; cbn [andb].
  - apply bool_decide_ext. naive_solver.
  - symmetry. apply bool_decide_eq_false. congruence.
Qed.

Lemma blocked_v6 ip :
  length ip = 16%nat -> Forall (fun b => 0 <= b < 256) ip -> To4 ip = None ->
  existsb (fun n => Contains n ip) blockedCIDRs = true <->
  ip = replicate 15 0 ++ [1] \/ (byte 0 ip = 254 /\ 128 <= byte 1 ip <= 191) \/
  252 <= byte 0 ip <= 253 \/ byte 0 ip = 255.
Proof.
  intros Hl Hb H4. unfold blockedCIDRs, Contains. cbn [existsb net bits]. rewrite H4. cbn [default from_option].
  rewrite Hl. cbn [length app replicate Nat.eqb andb orb v6 Nat.sub].
  rewrite (masked_eq_full 128) by (done || (simpl; lia) || (repeat (apply Forall_cons; split; [lia|]); apply Forall_nil; done)).
  destruct ip as [|b0 [|b1 ip]]; [done..|].
  rewrite !Forall_cons in Hb. destruct Hb as (H0 & H1 & Hb). cbn [byte nth].
  rewrite !(masked_eq_cons _ _ b0), !(masked_eq_cons _ _ b1). cbn [Nat.sub].
  change (mask_byte 10) with 255. change (mask_byte 2) with 192. change (mask_byte 7) with 254.
  change (mask_byte 8) with 255. change (mask_byte 0) with 0.
  rewrite !masked_eq_0 by (done || (repeat (apply Forall_cons; split; [lia|]); apply Forall_nil; done)).
  destruct (byte_fact b0 H0) as (E0 & _ & _ & _ & _ & M7), (byte_fact b1 H1) as (_ & Z1 & _ & _ & M10 & _).
  rewrite E0, Z1. rewrite Z.eqb_sym in M10, M7.
  change (Z.land 254 255) with 254. change (Z.land 128 192) with 128. change (Z.land 252 254) with 252.
  change (Z.land 255 255) with 255. change (Z.land 0 0) with 0.
  rewrite M10, M7. unfold between. case_bool_decide as Hone; [naive_solver|].
  rewrite orb_false_l. split; [|intros [?|?]; [congruence|lia]]. intros Ht. right. lia.
Qed.

(** What the guard refuses, exactly: an IPv4 address of the private,
    loopback, link-local, multicast, zero or broadcast ranges, written as
    four bytes or mapped into IPv6, and the IPv6 counterparts. *)
Lemma IsBlockedIP_spec ip :
  wf ip ->
  IsBlockedIP (Some ip) = true <->
  match To4 ip with
  | Some v4 => private_v4 (byte 0 v4) (byte 1 v4) (byte 2 v4) (byte 3 v4)
  | None => private_v6 ip
  end.
Proof.
  intros Hwf. unfold IsBlockedIP, IsLoopback, IsLinkLocalUnicast, IsLinkLocalMulticast, IsMulticast, IsUnspecified.
  destruct (To4 ip) as [v4|] eqn:E4.
  - destruct (To4_16 _ _ E4 Hwf) as (b0 & b1 & b2 & b3 & -> & H0 & H1 & H2 & H3).
    cbn [default from_option id byte nth]. destruct (byte_fact b0 H0) as (_ & _ & M0 & _). rewrite M0.
    pose proof (blocked_v4 b0 b1 b2 b3 H0 H1 H2 H3) as Hb. unfold private_v4, between in *.
    destruct (_ || _)%bool eqn:E.
    + split; [intros _|done]. rewrite !orb_true_iff, bool_decide_eq_true in E.
      destruct E as [E|[= -> -> -> ->]]; lia.
    + rewrite Hb. clear. tauto.
  - destruct Hwf as [[Hl|Hl] Hb]; [unfold To4 in E4; by rewrite Hl in E4|].
    rewrite Hl. cbn [Nat.eqb andb default from_option].
    pose proof (blocked_v6 ip Hl Hb E4) as Hblk. unfold private_v6.
    destruct ip as [|b0 [|b1 ip']]; [done..|]. cbn [byte nth] in *.
    rewrite !Forall_cons in Hb. destruct Hb as (H0 & H1 & _).
    destruct (byte_fact b1 H1) as (_ & _ & _ & _ & M & _). rewrite M. unfold between.
    destruct (_ || _)%bool eqn:E.
    + split; [intros _|done]. rewrite !orb_true_iff, !bool_decide_eq_true in E.
      destruct E as [[[[E|E]|E]|E]|E]; [tauto|..|tauto]; lia.
    + rewrite Hblk. rewrite !orb_false_iff, !bool_decide_eq_false in E. tauto.
Qed.

(** The dialer connects to the resolver's first answer, and only when none
    of the answers is refused. *)
Lemma dial_target_spec str ips ip :
  dial_target str ips = inr ip ->
  head ips = Some ip /\ forall x, x ∈ ips -> IsBlockedIP (Some x) = false.
Proof.
  unfold dial_target. destruct (find _ _) eqn:E; [done|]. destruct ips as [|y ips]; [done|].
  intros [= <-]. split; [done|]. intros x Hx. apply (find_none _ _ E). by rewrite <-list_elem_of_In.
Qed.
End NetIPThms.
