(* ===== verification/Sha256.v ===== *)
(** * SHA-256 in hexadecimal

    [crypto/sha256.Sum256] followed by [encoding/hex.EncodeToString], over
    32-bit words kept as [Z] modulo 2^32. *)

From S2P Require Import Prelude GoStrings Cursor.
From Stdlib Require Import Ascii.

Local Open Scope Z_scope.

Module Sha256.
Definition w32 (z : Z) : Z := z mod 2 ^ 32.
Definition rotr (n x : Z) : Z := Z.lor (Z.shiftr x n) (w32 (Z.shiftl x (32 - n))).

(** The constants are the first 32 fractional bits of the cube roots of the
    first 64 primes, and of the square roots of the first eight. *)
Definition is_prime (n : Z) : bool :=
  (1 <? n) && forallb (fun d => negb (n mod (Z.of_nat d + 2) =? 0)) (seq 0 (Z.to_nat (Z.sqrt n - 1))).

Definition primes (bound : nat) : list Z :=
  List.filter is_prime (Z.of_nat <$> seq 0 bound).

(** The largest [r] with [r^3 <= n], built from bit [k - 1] down. *)
Fixpoint cube_root (k : nat) (r n : Z) : Z :=
  match k with
  | O => r
  | S k => let r' := r + Z.shiftl 1 (Z.of_nat k) in
           cube_root k (if r' ^ 3 <=? n then r' else r) n
  end.

Definition K : list Z := Eval vm_compute in
  (fun p => w32 (cube_root 40 0 (Z.shiftl p 96))) <$> primes 312.

Definition H0 : list Z := Eval vm_compute in
  (fun p => w32 (Z.sqrt (Z.shiftl p 64))) <$> primes 20.

(** The message with its 0x80 byte, zero fill and 64-bit length. *)
Definition bytes (s : string) : list Z := code <$> String.list_ascii_of_string s.

Definition be (k : nat) (n : Z) : list Z :=
  (fun i => Z.shiftr n (8 * Z.of_nat i) mod 256) <$> reverse (seq 0 k).

Definition padded (m : list Z) : list Z :=
  let len := Z.of_nat (length m) in
  let zeros := (55 - len) mod 64 in
  m ++ [128] ++ replicate (Z.to_nat zeros) 0 ++ be 8 (8 * len).

Fixpoint words (l : list Z) : list Z :=
  match l with
  | a :: b :: c :: d :: l => (((a * 256 + b) * 256 + c) * 256 + d) :: words l
  | _ => []
  end.

Definition Ch (x y z : Z) : Z := Z.lxor (Z.land x y) (Z.land (2 ^ 32 - 1 - x) z).
Definition Maj (x y z : Z) : Z := Z.lxor (Z.lxor (Z.land x y) (Z.land x z)) (Z.land y z).
Definition S0 (x : Z) : Z := Z.lxor (Z.lxor (rotr 2 x) (rotr 13 x)) (rotr 22 x).
Definition S1 (x : Z) : Z := Z.lxor (Z.lxor (rotr 6 x) (rotr 11 x)) (rotr 25 x).
Definition s0 (x : Z) : Z := Z.lxor (Z.lxor (rotr 7 x) (rotr 18 x)) (Z.shiftr x 3).
Definition s1 (x : Z) : Z := Z.lxor (Z.lxor (rotr 17 x) (rotr 19 x)) (Z.shiftr x 10).

(** The message schedule, newest word first. *)
Fixpoint schedule (n : nat) (rev_w : list Z) : list Z :=
  match n with
  | O => rev_w
  | S n =>
      let at_ i := nth i rev_w 0 in
      schedule n (w32 (s1 (at_ 1%nat) + at_ 6%nat + s0 (at_ 14%nat) + at_ 15%nat) :: rev_w)
  end.

Definition round (st : list Z) (kw : Z * Z) : list Z :=
  match st with
  | [a; b; c; d; e; f; g; h] =>
      let t1 := h + S1 e + Ch e f g + kw.1 + kw.2 in
      let t2 := S0 a + Maj a b c in
      [w32 (t1 + t2); a; b; c; w32 (d + t1); e; f; g]
  | _ => st
  end.

Definition compress (st block : list Z) : list Z :=
  let w := reverse (schedule 48 (reverse block)) in
  zip_with (fun x y => w32 (x + y)) st (foldl round st (zip K w)).

Fixpoint blocks (fuel : nat) (st ws : list Z) : list Z :=
  match fuel with
  | O => st
  | S fuel => if bool_decide (ws = []) then st else blocks fuel (compress st (take 16 ws)) (drop 16 ws)
  end.

Definition hex_digit (n : Z) : ascii := if n <? 10 then char (48 + n) else char (97 + (n - 10)).

Definition hex (l : list Z) : string :=
  String.string_of_list_ascii (l ≫= fun b => [hex_digit (b / 16); hex_digit (b mod 16)]).

Definition SumHex (s : string) : string :=
  let ws := words (padded (bytes s)) in
  hex (blocks (length ws) H0 ws ≫= be 4).

(** The digest is always 64 characters, whatever the message. *)
Lemma length_be k n : length (be k n) = k.
Proof. unfold be. by rewrite length_fmap, length_reverse, length_seq. Qed.

Lemma round_length st kw : length st = 8%nat -> length (round st kw) = 8%nat.
Proof. intros Hs. do 9 (destruct st as [|? st]; try done). Qed.

Lemma compress_length st b : length st = 8%nat -> length (compress st b) = 8%nat.
Proof.
  intros Hs. unfold compress. rewrite length_zip_with.
  assert (forall l st, length st = 8%nat -> length (foldl round st l) = 8%nat) as Hf.
  { induction l as [|x l IH]; intros st' Hst; [done|]. cbn [foldl]. by apply IH, round_length. }
  rewrite Hf by done. lia.
Qed.

Lemma blocks_length fuel : forall st ws, length st = 8%nat -> length (blocks fuel st ws) = 8%nat.
Proof.
  induction fuel as [|fuel IH]; intros st ws Hs; cbn [blocks]; [done|].
  case_bool_decide; [done|]. by apply IH, compress_length.
Qed.

Lemma hex_length l : String.length (hex l) = (2 * length l)%nat.
Proof. unfold hex. induction l as [|b l IH]; [done|]. cbn in *. rewrite IH. lia. Qed.

Lemma SumHex_length s : String.length (SumHex s) = 64%nat.
Proof.
  unfold SumHex. rewrite hex_length. generalize (words (padded (bytes s))) as ws. intros ws.
  assert (forall l, length (l ≫= be 4) = (4 * length l)%nat) as ->.
  { induction l as [|x l IH]; [done|]. cbn [mbind list_bind length]. rewrite length_app, length_be.
    change (length ((l ≫= be 4) : list Z) = 4 * length l)%nat in IH. rewrite IH. lia. }
  by rewrite blocks_length.
Qed.
End Sha256.

Example sha_abc :
  Sha256.SumHex "abc" = "ba7816bf8f01cfea414140de5dae2223b00361a396177a9cb410ff61f20015ad"%string.
Proof. vm_compute. reflexivity. Qed.
