(* ===== verification/OgpUrl.v ===== *)
(** * URLs of link previews: pkg/ogp/extractor.go and normalizer.go

    Finding the URLs of a post, their canonical form and the hash that keys
    the preview cache. The first sections render a [URL] back to text
    ([URL.String], [ResolveReference], [ParseQuery] of [net/url]). *)

From S2P Require Import Prelude Errors GoStrings Cursor NetUrl NetIP Sha256.
From Stdlib Require Import Ascii.

(** ** [strings] *)

Module GoText.
(** The UTF-8 forms of Unicode's White_Space characters. *)
Definition utf8 (l : list nat) : string := String.string_of_list_ascii (ascii_of_nat <$> l).
Definition spaces : list string :=
  utf8 <$> [[9]; [10]; [11]; [12]; [13]; [32]; [194; 133]; [194; 160]; [225; 154; 128];
    [226; 128; 128]; [226; 128; 129]; [226; 128; 130]; [226; 128; 131]; [226; 128; 132];
    [226; 128; 133]; [226; 128; 134]; [226; 128; 135]; [226; 128; 136]; [226; 128; 137];
    [226; 128; 138]; [226; 128; 168]; [226; 128; 169]; [226; 128; 175]; [226; 129; 159];
    [227; 128; 128]].

Definition HasSuffix (s suffix : string) : bool :=
  let n := String.length suffix in
  Nat.leb n (String.length s) && bool_decide (string_drop (String.length s - n) s = suffix).

(** Each round drops at least one byte, so the length of the text is enough fuel. *)
Fixpoint trim_left (fuel : nat) (s : string) : string :=
  match fuel with
  | O => s
  | S fuel =>
      match find (HasPrefix s) spaces with
      | Some w => trim_left fuel (string_drop (String.length w) s)
      | None => s
      end
  end.

Fixpoint trim_right (fuel : nat) (s : string) : string :=
  match fuel with
  | O => s
  | S fuel =>
      match find (HasSuffix s) spaces with
      | Some w => trim_right fuel (string_take (String.length s - String.length w) s)
      | None => s
      end
  end.

Definition TrimSpace (s : string) : string :=
  let s := trim_left (String.length s) s in trim_right (String.length s) s.

(** [strings.TrimSuffix]. *)
Definition TrimSuffix (s suffix : string) : string :=
  if HasSuffix s suffix then string_take (String.length s - String.length suffix) s else s.

(** The last byte and what precedes it. *)
Fixpoint unsnoc (s : string) : option (string * ascii) :=
  match s with
  | EmptyString => None
  | String a s =>
      match unsnoc s with
      | None => Some (EmptyString, a)
      | Some (s, b) => Some (String a s, b)
      end
  end.

(** [strings.TrimRight(s, cutset)] for a one-byte set: the text up to its
    last byte outside the set. *)
Fixpoint TrimRight (c : ascii) (s : string) : string :=
  match s with
  | EmptyString => EmptyString
  | String a s =>
      match TrimRight c s with
      | EmptyString => if bool_decide (a = c) then EmptyString else String a EmptyString
      | t => String a t
      end
  end.
End GoText.

(** ** [net/url], from a URL to text *)

Module UrlText.
Import URL.

Definition validEncoded (mode : encoding) (s : string) : bool :=
  all_bytes (fun c => one_of "!$&'()*+,;=:@[]%" c || negb (shouldEscape c mode)) s.

Definition escaped (mode : encoding) (raw decoded : string) : option string :=
  if negb (bool_decide (raw = EmptyString)) && validEncoded mode raw
     && bool_decide (unescape mode raw = Some decoded)
  then Some raw else None.

Definition EscapedPath (u : t) : string :=
  match escaped encodePath (RawPath u) (Path u) with
  | Some p => p
  | None => if bool_decide (Path u = "*"%string) then "*" else escape encodePath (Path u)
  end.

Definition EscapedFragment (u : t) : string :=
  match escaped encodeFragment (RawFragment u) (Fragment u) with
  | Some p => p
  | None => escape encodeFragment (Fragment u)
  end.

Definition Userinfo_String (ui : string * option string) : string :=
  match ui with
  | (user, None) => escape encodeUserPassword user
  | (user, Some password) =>
      escape encodeUserPassword user +:+ ":" +:+ escape encodeUserPassword password
  end.

Definition nonempty (s : string) : bool := negb (bool_decide (s = EmptyString)).
Definition is_Some_b {A} (o : option A) : bool := match o with Some _ => true | None => false end.

Definition String_ (u : t) : string :=
  let prefix := if nonempty (Scheme u) then Scheme u +:+ ":" else EmptyString in
  let body :=
    if nonempty (Opaque u) then prefix +:+ Opaque u
    else
      let authority :=
        if (nonempty (Scheme u) || nonempty (Host u) || is_Some_b (User u))
           && negb (OmitHost u && negb (nonempty (Host u)) && negb (is_Some_b (User u)))
        then (if nonempty (Host u) || nonempty (Path u) || is_Some_b (User u) then "//" else "")
             +:+ match User u with Some ui => Userinfo_String ui +:+ "@" | None => "" end
             +:+ escape encodeHost (Host u)
        else EmptyString in
      let path := EscapedPath u in
      let buf := prefix +:+ authority
        +:+ (if nonempty path && negb (HasPrefix path "/") && nonempty (Host u) then "/" else "") in
      buf +:+ (if negb (nonempty buf) && Contains ":" (Cut "/" path).1.1 then "./" else "") +:+ path in
  body +:+ (if ForceQuery u || nonempty (RawQuery u) then "?" +:+ RawQuery u else "")
       +:+ (if nonempty (Fragment u) then "#" +:+ EscapedFragment u else "").

(** [u.setPath]; a path that does not unescape leaves the URL as it is. *)
Definition setPath (p : string) (u : t) : t :=
  match set_component encodePath p with
  | Some (path, raw) => mk (Scheme u) (Opaque u) (User u) (Host u) path raw (OmitHost u)
      (ForceQuery u) (RawQuery u) (Fragment u) (RawFragment u)
  | None => u
  end.

(** The loop of [resolvePath]: [dst] is what has been written after the
    initial slash. One round per segment, so the length is enough fuel. *)
Fixpoint resolve_loop (fuel : nat) (first : bool) (dst remaining : string) : string :=
  match fuel with
  | O => dst
  | S fuel =>
      let '(elem, rest, found) := Cut "/" remaining in
      let dot := bool_decide (elem = "."%string) in
      let dotdot := bool_decide (elem = ".."%string) in
      let '(first, dst) :=
        if dot then (false, dst)
        else if dotdot then
          match LastIndex "/" dst with
          | None => (true, EmptyString)
          | Some i => (first, string_take i dst)
          end
        else (false, (if first then dst else dst +:+ "/") +:+ elem) in
      if found then resolve_loop fuel first dst rest
      else if dot || dotdot then dst +:+ "/" else dst
  end.

Definition resolvePath (base ref : string) : string :=
  let full :=
    if negb (nonempty ref) then base
    else if HasPrefix ref "/" then ref
    else match LastIndex "/" base with
         | Some i => string_take (S i) base +:+ ref
         | None => ref
         end in
  if negb (nonempty full) then EmptyString
  else
    let r := "/" +:+ resolve_loop (S (String.length full)) true EmptyString full in
    if Nat.ltb 1 (String.length r) && HasPrefix (string_drop 1 r) "/" then string_drop 1 r else r.

Definition ResolveReference (u ref : t) : t :=
  let scheme := if nonempty (Scheme ref) then Scheme ref else Scheme u in
  let url := mk scheme (Opaque ref) (User ref) (Host ref) (Path ref) (RawPath ref) (OmitHost ref)
               (ForceQuery ref) (RawQuery ref) (Fragment ref) (RawFragment ref) in
  if nonempty (Scheme ref) || nonempty (Host ref) || is_Some_b (User ref)
  then setPath (resolvePath (EscapedPath ref) "") url
  else if nonempty (Opaque ref)
  then mk scheme (Opaque ref) None "" "" (RawPath ref) (OmitHost ref) (ForceQuery ref)
         (RawQuery ref) (Fragment ref) (RawFragment ref)
  else
    let inherit := negb (nonempty (Path ref)) && negb (ForceQuery ref) && negb (nonempty (RawQuery ref)) in
    let query := if inherit then RawQuery u else RawQuery ref in
    let '(frag, rawfrag) :=
      if inherit && negb (nonempty (Fragment ref)) then (Fragment u, RawFragment u)
      else (Fragment ref, RawFragment ref) in
    if negb (nonempty (Path ref)) && nonempty (Opaque u)
    then mk scheme (Opaque u) None "" "" (RawPath ref) (OmitHost ref) (ForceQuery ref) query frag rawfrag
    else setPath (resolvePath (EscapedPath u) (EscapedPath ref))
           (mk scheme (Opaque ref) (User u) (Host u) (Path ref) (RawPath ref) (OmitHost ref)
              (ForceQuery ref) query frag rawfrag).

(** [url.ParseQuery]: the values of each key in order, or nothing when a
    pair does not parse. One round per pair. *)
Fixpoint parse_query (fuel : nat) (m : gmap string (list string)) (bad : bool) (query : string)
    : gmap string (list string) * bool :=
  match fuel with
  | O => (m, bad)
  | S fuel =>
      if negb (nonempty query) then (m, bad)
      else
        let '(param, rest, _) := Cut "&" query in
        if Contains ";" param then parse_query fuel m true rest
        else if negb (nonempty param) then parse_query fuel m bad rest
        else
          let '(key, value, _) := Cut "=" param in
          match unescape encodeQueryComponent key, unescape encodeQueryComponent value with
          | Some k, Some v => parse_query fuel (<[k := default [] (m !! k) ++ [v]]> m) bad rest
          | _, _ => parse_query fuel m true rest
          end
  end.

Definition ParseQuery (query : string) : option (gmap string (list string)) :=
  let '(m, bad) := parse_query (S (String.length query)) ∅ false query in
  if bad then None else Some m.

Definition QueryEscape (s : string) : string := escape encodeQueryComponent s.
End UrlText.

(** ** [pkg/ogp/extractor.go] *)

Module Extractor.
Import GoText.

Definition MaxExtractedURLs : nat := 5.

(** The class [[^\s<>] plus quotes and backquote: what a URL runs over. *)
Definition url_byte (c : Z) : bool :=
  (negb (one_of "<>'`" c || (c =? 34) || (c =? 32) || (c =? 9) || (c =? 10) || (c =? 12) || (c =? 13)))%Z.

Fixpoint span (f : Z -> bool) (s : string) : string :=
  match s with
  | EmptyString => EmptyString
  | String a s => if f (code a) then String a (span f s) else EmptyString
  end.

(** A match of [urlRE] at the start of [s]. *)
Definition match_at (s : string) : option string :=
  let scheme := if HasPrefix s "https://" then Some 8 else if HasPrefix s "http://" then Some 7 else None in
  n ← scheme;
  let body := span url_byte (string_drop n s) in
  if bool_decide (body = EmptyString) then None else Some (string_take n s +:+ body).

(** [FindAllString]: leftmost matches, each search resuming after the last. *)
Fixpoint find_all (skip : nat) (s : string) : list string :=
  match s with
  | EmptyString => []
  | String _ s' =>
      match skip with
      | S skip => find_all skip s'
      | O =>
          match match_at s with
          | Some m => m :: find_all (pred (String.length m)) s'
          | None => find_all 0 s'
          end
      end
  end.

Definition trailingTrim (c : Z) : bool := (one_of ".,;:!?'\*>}]" c || (c =? 34))%Z.

(** Whether the loop of [trimTrailing] drops the last byte of [s]. *)
Definition droppable (s : string) (last : ascii) : bool :=
  trailingTrim (code last)
  || (bool_decide (last = ")"%char) && Nat.ltb (Count "(" s) (Count ")" s))
  || (bool_decide (last = "]"%char) && Nat.ltb (Count "[" s) (Count "]" s))
  || (bool_decide (last = "}"%char) && Nat.ltb (Count "{" s) (Count "}" s)).

Fixpoint trim_loop (fuel : nat) (s : string) : string :=
  match fuel with
  | O => s
  | S fuel =>
      match unsnoc s with
      | Some (s', last) => if droppable s last then trim_loop fuel s' else s
      | None => s
      end
  end.

(** Each round drops a byte. *)
Definition trimTrailing (s : string) : string := trim_loop (String.length s) s.

Fixpoint collect (seen : gset string) (n : nat) (matches : list string) : list string :=
  match matches with
  | [] => []
  | m :: matches =>
      let m := trimTrailing m in
      if bool_decide (m = EmptyString) then collect seen n matches
      else if bool_decide (m ∈ seen) then collect seen n matches
      else if Nat.leb MaxExtractedURLs (S n) then [m]
      else m :: collect ({[m]} ∪ seen) (S n) matches
  end.

Definition ExtractURLs (content : string) : list string := collect ∅ 0 (find_all 0 content).
End Extractor.

(** ** [pkg/ogp/normalizer.go] *)

(** What [Normalize] asks of code outside the repository: the Unicode tables
    behind [strings.ToLower] and [idna.Lookup.ToASCII]. *)
Class HostTables := {
  unicode_lower : string -> string;
  idna_ToASCII : string -> option string;
}.

Module Normalizer.
Import GoText UrlText URL.
Local Open Scope string_scope.

Section normalizer.
Context `{GoRuntime, HostTables}.

Definition trackingParams : list string :=
  ["utm_source"; "utm_medium"; "utm_campaign"; "utm_term"; "utm_content"; "gclid"; "fbclid";
   "ref"; "mc_cid"; "mc_eid"].

(** [%q] of a text that needs no escaping, as a URL scheme. *)
Definition quoted (s : string) : string := String "034"%char (s +:+ String "034"%char EmptyString).

(** [strings.ToLower]. *)
Definition to_lower (s : string) : string := if ascii_only s then ToLower s else unicode_lower s.

Definition defaultPort (scheme : string) : string := if bool_decide (scheme = "http") then "80" else "443".

(** [multiSlashRE.ReplaceAllString(path, "/")]. *)
Fixpoint collapse (prev_slash : bool) (s : string) : string :=
  match s with
  | EmptyString => EmptyString
  | String a s =>
      if bool_decide (a = "/"%char)
      then if prev_slash then collapse true s else String a (collapse true s)
      else String a (collapse false s)
  end.

Definition normalizePath (path : string) : string :=
  if bool_decide (path = "") then "/"
  else
    let cleaned := collapse false path in
    if bool_decide (cleaned = "/") then "/" else TrimRight "/" cleaned.

(** The [for k := range values] loop. *)
Definition drop_tracking (values : gmap string (list string)) : gmap string (list string) :=
  filter (fun kv => kv.1 ∉ trackingParams) values.

Definition sorted_keys (values : gmap string (list string)) : list string :=
  sort_asc (fun k => k) (elements (dom values)).

Definition encode_pair (k v : string) : string := QueryEscape k +:+ "=" +:+ QueryEscape v.

Definition encode_values (values : gmap string (list string)) : list string :=
  sorted_keys values ≫= fun k => encode_pair k <$> default [] (values !! k).

Definition normalizeQuery (raw : string) : string :=
  if bool_decide (raw = "") then ""
  else
    match ParseQuery raw with
    | None => raw
    | Some values =>
        let values := drop_tracking values in
        if bool_decide (values = ∅) then "" else String.concat "&" (encode_values values)
    end.

(** [net.JoinHostPort] in its last branch. *)
Definition joinHostPort (host port : string) : string :=
  if bool_decide (port = "") then
    if Contains ":" host then "[" +:+ host +:+ "]" else host
  else if Contains ":" host then "[" +:+ host +:+ "]:" +:+ port
  else host +:+ ":" +:+ port.

Definition normal_host (u : URL.t) : goerror + string :=
  let host := TrimSuffix (to_lower (NetIP.Hostname u)) "." in
  if bool_decide (host = "") then inl (ErrorString "missing host")
  else
    match NetIP.ParseIP host with
    | Some _ => inr host
    | None =>
        match idna_ToASCII host with
        | Some ascii => inr ascii
        | None => inl (Wrapped "idna: " (ErrorString host) "")
        end
    end.

Definition normal_port (scheme : string) (u : URL.t) : string :=
  let port := NetIP.Port u in
  if negb (bool_decide (port = "")) && bool_decide (defaultPort scheme = port) then "" else port.

(** The text of the errors of [url.Parse] and of [idna] is abbreviated to
    the input they quote. *)
Definition Normalize (rawURL : string) : goerror + string :=
  let rawURL := TrimSpace rawURL in
  if bool_decide (rawURL = "") then inl (ErrorString "empty URL")
  else
    match URL.Parse rawURL with
    | None => inl (Wrapped "parse: " (ErrorString rawURL) "")
    | Some u =>
        let scheme := to_lower (Scheme u) in
        if negb (bool_decide (scheme = "http")) && negb (bool_decide (scheme = "https"))
        then inl (ErrorString ("unsupported scheme " +:+ quoted (Scheme u)))
        else
          match normal_host u with
          | inl e => inl e
          | inr host =>
              inr (String_ (URL.mk scheme (Opaque u) (User u) (joinHostPort host (normal_port scheme u))
                (normalizePath (Path u)) (RawPath u) (OmitHost u) (ForceQuery u)
                (normalizeQuery (RawQuery u)) "" ""))
          end
    end.

Definition Hash (normalizedURL : string) : string := Sha256.SumHex normalizedURL.
End normalizer.
End Normalizer.

(** Tables for ASCII hosts, for evaluation. *)
Definition ascii_tables : HostTables := {|
  unicode_lower s := s;
  idna_ToASCII s := if ascii_only s then Some s else None;
|}.

Section examples.
Local Existing Instance ascii_tables.
Local Open Scope string_scope.

Example normalize_ex1 :
  Normalizer.Normalize " HTTPS://Example.COM.:443//a///b/?utm_source=x&b=2&a=1&b=1#frag " =
  inr "https://example.com/a/b?a=1&b=2&b=1".
Proof. vm_compute. reflexivity. Qed.
Example normalize_ex2 : Normalizer.Normalize "http://[::1]:8080" = inr "http://[::1]:8080/".
Proof. vm_compute. reflexivity. Qed.
Example normalize_ex3 : Normalizer.Normalize "ftp://x/" =
  inl (ErrorString ("unsupported scheme " +:+ Normalizer.quoted "ftp")).
Proof. vm_compute. reflexivity. Qed.
Example extract_ex :
  Extractor.ExtractURLs "see (https://example.com/path), http://x.y/(a)! and https://example.com/path" =
  ["https://example.com/path"; "http://x.y/(a)"].
Proof. vm_compute. reflexivity. Qed.
Example resolve_ex :
  (fun r => UrlText.String_ <$> (b ← URL.Parse "https://e.com/a/b/c?q#f"; r' ← URL.Parse r; Some (UrlText.ResolveReference b r')))
    <$> ["../x"; "/img/card.png"; "//cdn.e.com/i"; "?z=1"; "./"; "javascript:alert(1)"] =
  [Some "https://e.com/a/x"; Some "https://e.com/img/card.png"; Some "https://cdn.e.com/i"; Some "https://e.com/a/b/c?z=1";
   Some "https://e.com/a/b/"; Some "javascript:alert(1)"].
Proof. vm_compute. reflexivity. Qed.
End examples.
