(* ===== verification/OgpUrlThms.v ===== *)
(** * What extraction and normalization guarantee *)

From S2P Require Import Prelude Errors GoStrings Cursor NetUrl NetIP OgpUrl.
From Stdlib Require Import Ascii.

Section strings.
Lemma code_inj a b : code a = code b -> a = b.
Proof. intros E. rewrite <-(Base64.char_code a), <-(Base64.char_code b). by rewrite E. Qed.

Lemma code_eqb a b : (code a =? code b)%Z = bool_decide (a = b).
Proof.
  case_bool_decide as E; [subst; apply Z.eqb_refl|]. apply Z.eqb_neq. intros ?%code_inj. done.
Qed.

Lemma string_app_empty_r s : s +:+ EmptyString = s.
Proof. induction s as [|a s IH]; [done|]. change (String a (s +:+ EmptyString) = String a s). by rewrite IH. Qed.

Lemma string_app_assoc s t u : s +:+ (t +:+ u) = (s +:+ t) +:+ u.
Proof. induction s as [|a s IH]; [done|]. change (String a (s +:+ (t +:+ u)) = String a ((s +:+ t) +:+ u)). by rewrite IH. Qed.

Lemma app_String a s t : String a s +:+ t = String a (s +:+ t).
Proof. done. Qed.

Lemma unsnoc_app s t a : GoText.unsnoc s = Some (t, a) -> s = t +:+ String a EmptyString.
Proof.
  revert t a. induction s as [|b s IH]; intros t a; [done|]. cbn [GoText.unsnoc].
  destruct (GoText.unsnoc s) as [[s' b']|] eqn:E.
  - intros [= <- <-]. rewrite app_String. f_equal. by apply IH.
  - intros [= <- <-]. destruct s as [|c s]; [done|]. cbn in E. by destruct (GoText.unsnoc s) as [[??]|].
Qed.

Lemma unsnoc_snoc s a : GoText.unsnoc (s +:+ String a EmptyString) = Some (s, a).
Proof. induction s as [|b s IH]; [done|]. rewrite app_String. cbn [GoText.unsnoc]. by rewrite IH. Qed.

Lemma unsnoc_length s t a : GoText.unsnoc s = Some (t, a) -> String.length s = S (String.length t).
Proof. intros ->%unsnoc_app. rewrite length_append. cbn. lia. Qed.

Lemma unsnoc_None s : GoText.unsnoc s = None -> s = EmptyString.
Proof. destruct s; [done|]. cbn. by destruct (GoText.unsnoc s) as [[??]|]. Qed.

Lemma all_bytes_app f s t : all_bytes f (s +:+ t) = all_bytes f s && all_bytes f t.
Proof. induction s as [|a s IH]; [done|]. rewrite app_String. cbn. by rewrite IH, andb_assoc. Qed.

Lemma HasPrefix_take s p : HasPrefix s p = true -> string_take (String.length p) s = p.
Proof.
  revert s. induction p as [|b p IH]; intros s; [done|]. destruct s as [|a s]; [done|].
  cbn [HasPrefix String.length string_take]. intros [->%Z.eqb_eq%code_inj Hp]%andb_true_iff. f_equal. auto.
Qed.

Lemma HasPrefix_app p t : HasPrefix (p +:+ t) p = true.
Proof. induction p as [|a p IH]; [by destruct t|]. rewrite app_String. cbn [HasPrefix]. by rewrite Z.eqb_refl. Qed.

(** [sep] does not occur in [s]. *)
Definition free_of (sep : ascii) (s : string) : bool := all_bytes (fun c => negb (c =? code sep)%Z) s.

Lemma Cut_app sep s t : free_of sep s = true -> Cut sep (s +:+ String sep t) = (s, t, true).
Proof.
  induction s as [|a s IH]; intros Hf.
  - change (EmptyString +:+ String sep t) with (String sep t). cbn [Cut]. by rewrite Z.eqb_refl.
  - rewrite app_String. cbn [free_of all_bytes Cut] in Hf |- *.
    apply andb_true_iff in Hf as [->%negb_true_iff Hf]. by rewrite IH.
Qed.

Lemma Cut_free sep s : free_of sep s = true -> Cut sep s = (s, EmptyString, false).
Proof.
  induction s as [|a s IH]; intros Hf; [done|].
  cbn [free_of all_bytes Cut] in Hf |- *. apply andb_true_iff in Hf as [->%negb_true_iff Hf]. by rewrite IH.
Qed.

Lemma Contains_free sep s : free_of sep s = true -> Contains sep s = false.
Proof.
  unfold Contains. intros Hf. apply negb_false_iff, Nat.eqb_eq. revert Hf.
  induction s as [|a s IH]; intros Hf; [done|].
  cbn [free_of all_bytes Count] in Hf |- *. apply andb_true_iff in Hf as [->%negb_true_iff Hf]. auto.
Qed.
End strings.

(** ** Extraction *)

(** *** What the pattern and the trimming mean *)

(** A byte a link runs over: no white space, quote, backquote or angle bracket. *)
Definition link_byte (a : ascii) : Prop :=
  a ∉ ["009"; "010"; "012"; "013"; " "; "034"; "'"; "`"; "<"; ">"]%char.

(** The scheme, and at least one byte after it. *)
Definition is_link (m : string) : Prop :=
  exists scheme body, (scheme = "http://" \/ scheme = "https://")%string /\ m = scheme +:+ body /\
    body <> EmptyString /\ Forall link_byte (String.list_ascii_of_string body).

Definition begins_link (s : string) : Prop := exists m t, s = m +:+ t /\ is_link m.

(** The links of a text, from left to right: the first one begins where no
    earlier one could, runs as far as it can, and the others are those of
    the text after it. *)
Inductive links_in : string -> list string -> Prop :=
  | no_link s : (forall pre t, s = pre +:+ t -> ~ begins_link t) -> links_in s []
  | next_link pre m rest ms :
      (forall p q, pre = p +:+ q -> q <> EmptyString -> ~ begins_link (q +:+ (m +:+ rest))) ->
      is_link m -> (forall a t, rest = String a t -> ~ link_byte a) ->
      links_in rest ms -> links_in (pre +:+ (m +:+ rest)) (m :: ms).

Definition punctuation : list ascii :=
  ["."; ","; ";"; ":"; "!"; "?"; "034"; "'"; "092"; "*"; ">"; "}"; "]"]%char.

(** The last byte is punctuation, or closes a parenthesis the text does not open. *)
Definition ends_in_prose (s : string) : Prop :=
  exists t a, s = t +:+ String a EmptyString /\
    (a ∈ punctuation \/ (a = ")"%char /\ Count "(" s < Count ")" s)).

(** [u] is what is left of [m] once the bytes that end in prose are cut, one by one. *)
Definition trimmed (m u : string) : Prop :=
  exists cut, m = u +:+ cut /\ ~ ends_in_prose u /\
    forall c d, cut = c +:+ d -> c <> EmptyString -> ends_in_prose (u +:+ c).

(** Each text at its first place only. *)
Fixpoint distinct (l : list string) : list string :=
  match l with
  | [] => []
  | x :: l => x :: filter (fun y => y <> x) (distinct l)
  end.

Section extract.
Import Extractor GoText.

Lemma url_byte_spec a : url_byte (code a) = bool_decide (link_byte a).
Proof. destruct a as [[] [] [] [] [] [] [] []]; reflexivity. Qed.

Lemma trailingTrim_spec a : trailingTrim (code a) = bool_decide (a ∈ punctuation).
Proof. destruct a as [[] [] [] [] [] [] [] []]; reflexivity. Qed.

(** *** Trimming *)

Lemma unsnoc_Some s t a : unsnoc s = Some (t, a) <-> s = t +:+ String a EmptyString.
Proof. split; [apply unsnoc_app|]. intros ->. apply unsnoc_snoc. Qed.

(** The tests for the brackets and braces never matter: both are punctuation. *)
Lemma droppable_spec s t a : unsnoc s = Some (t, a) -> droppable s a = true <-> ends_in_prose s.
Proof.
  intros Hs. unfold droppable. rewrite trailingTrim_spec, !orb_true_iff, !andb_true_iff, !bool_decide_eq_true, !Nat.ltb_lt.
  split.
  - intros H. exists t, a. split; [by apply unsnoc_Some|].
    destruct H as [[[?|[? ?]]|[-> _]]|[-> _]]; [by left|by right|left|left]; apply (bool_decide_unpack _); vm_compute; exact I.
  - intros (t' & a' & Hs' & Ha). apply unsnoc_Some in Hs'. rewrite Hs in Hs'. injection Hs' as <- <-. tauto.
Qed.

Lemma app_eq_snoc c : forall d x a, c +:+ d = x +:+ String a EmptyString ->
  (c = x +:+ String a EmptyString) \/ exists d', d = d' +:+ String a EmptyString /\ x = c +:+ d'.
Proof.
  induction c as [|b c IH]; intros d x a; [right; by exists x|]. rewrite app_String.
  destruct x as [|b' x].
  - intros [= -> Hcd]. left. destruct c; [done|]. by rewrite app_String in Hcd.
  - rewrite app_String. intros [= -> Hcd]. destruct (IH d x a Hcd) as [->|(d' & -> & ->)]; [by left|].
    right. by exists d'.
Qed.

Lemma trim_loop_trimmed fuel : forall s, String.length s <= fuel -> trimmed s (trim_loop fuel s).
Proof.
  assert (Hstop : forall s, ~ ends_in_prose s -> trimmed s s).
  { intros s Hs. exists EmptyString. rewrite string_app_empty_r. split_and!; [done|done|]. by intros [|? ?] d. }
  induction fuel as [|fuel IH]; intros s Hl; cbn [trim_loop].
  { destruct s; [|cbn in Hl; lia]. apply Hstop. intros (t & x & E & _). by destruct t. }
  destruct (unsnoc s) as [[t a]|] eqn:E.
  - pose proof (droppable_spec s t a E) as Hd. destruct (droppable s a).
    + destruct (IH t) as (cut & Ht & Hu & Hc); [apply unsnoc_length in E; lia|]. apply unsnoc_Some in E.
      exists (cut +:+ String a EmptyString). split; [by rewrite string_app_assoc, <-Ht|]. split; [done|].
      intros c d Hcd Hne. symmetry in Hcd. destruct (app_eq_snoc c d cut a Hcd) as [->|(d' & _ & ->)]; [|by eapply Hc].
      rewrite string_app_assoc, <-Ht, <-E. by apply Hd.
    + apply Hstop. intros Hp. by apply Hd in Hp.
  - apply Hstop. intros (t & a & Ht%unsnoc_Some & _). congruence.
Qed.

Lemma trimTrailing_trimmed s : trimmed s (trimTrailing s).
Proof. by apply trim_loop_trimmed. Qed.

(** The slashes of the scheme are never cut. *)
Lemma trimmed_link m u : is_link m -> trimmed m u -> u <> EmptyString.
Proof.
  intros (scheme & body & Hs & -> & _) (cut & Hm & _ & Hc) ->. change (EmptyString +:+ cut) with cut in Hm. subst cut.
  destruct (Hc scheme body) as (t & a & E & Ha); [done|by destruct Hs as [-> | ->]|].
  change (EmptyString +:+ scheme) with scheme in E.
  assert (a = "/"%char) as ->.
  { apply unsnoc_Some in E. destruct Hs as [-> | ->]; vm_compute in E; by injection E. }
  destruct Ha as [Hin|[? _]]; [|done]. apply (bool_decide_eq_true_2 _) in Hin. by vm_compute in Hin.
Qed.

(** *** Matching *)

Lemma span_split f s : exists r, s = span f s +:+ r /\ all_bytes f (span f s) = true /\
  match r with String a _ => f (code a) = false | EmptyString => True end.
Proof.
  induction s as [|a s (r & IH & Hb & Hr)]; [by exists EmptyString|]. cbn [span].
  destruct (f (code a)) eqn:E; [|by exists (String a s)].
  exists r. rewrite app_String, <-IH. cbn [all_bytes]. by rewrite E.
Qed.

Lemma all_link_bytes s : all_bytes url_byte s = true <-> Forall link_byte (String.list_ascii_of_string s).
Proof.
  induction s as [|a s IH]; cbn [all_bytes String.list_ascii_of_string]; [done|].
  by rewrite andb_true_iff, IH, Forall_cons, url_byte_spec, bool_decide_eq_true.
Qed.

Lemma take_drop_string n : forall s, s = string_take n s +:+ string_drop n s.
Proof. induction n as [|n IH]; intros [|a s]; cbn [string_take string_drop]; [done..|]. by rewrite app_String, <-IH. Qed.

Lemma match_at_scheme s p : (p = "http://" \/ p = "https://")%string -> forall t, s = p +:+ t ->
  match_at s = let body := span url_byte t in if bool_decide (body = EmptyString) then None else Some (p +:+ body).
Proof. intros [-> | ->] t ->; by destruct t. Qed.

(** [match_at] finds the link that begins a text, as long as it goes. *)
Lemma match_at_Some s m : match_at s = Some m ->
  is_link m /\ exists rest, s = m +:+ rest /\ forall a t, rest = String a t -> ~ link_byte a.
Proof.
  intros H.
  assert (exists p, (p = "http://" \/ p = "https://")%string /\ exists t, s = p +:+ t) as (p & Hp & t & Ht).
  { unfold match_at in H. destruct (HasPrefix s "https://") eqn:E1; [|destruct (HasPrefix s "http://") eqn:E2; [|done]].
    - exists "https://"%string. split; [by right|]. eexists. rewrite <-(HasPrefix_take _ _ E1). apply take_drop_string.
    - exists "http://"%string. split; [by left|]. eexists. rewrite <-(HasPrefix_take _ _ E2). apply take_drop_string. }
  rewrite (match_at_scheme s p Hp t Ht) in H. cbv zeta in H. case_bool_decide as Hne; [done|]. injection H as <-.
  destruct (span_split url_byte t) as (r & Hr & Hb & Hrest). split.
  - exists p, (span url_byte t). split_and!; [done|done|done|by apply all_link_bytes].
  - exists r. split; [by rewrite Ht, <-string_app_assoc, <-Hr|]. intros a t' ->.
    rewrite url_byte_spec, bool_decide_eq_false in Hrest. done.
Qed.

Lemma match_at_None s : match_at s = None -> ~ begins_link s.
Proof.
  intros H (m & t & -> & p & body & Hp & -> & Hne & Hb). rewrite <-string_app_assoc in H.
  rewrite (match_at_scheme _ p Hp _ eq_refl) in H. cbv zeta in H. case_bool_decide as E; [|done].
  destruct body as [|a body]; [done|]. cbn [String.list_ascii_of_string] in Hb. apply Forall_cons in Hb as [Ha _].
  rewrite app_String in E. cbn [span] in E. by rewrite url_byte_spec, bool_decide_eq_true_2 in E.
Qed.

Lemma find_all_skip s : forall k, find_all k s = find_all 0 (string_drop k s).
Proof.
  induction s as [|a s IH]; intros [|k]; [done..|]. cbn [find_all string_drop]. apply IH.
Qed.

Lemma links_later a s ms : ~ begins_link (String a s) -> links_in s ms -> links_in (String a s) ms.
Proof.
  intros Ha Hl. destruct Hl as [s Hno|pre m rest ms Hno Hm Hr Hl].
  - apply no_link. intros [|b pre] t.
    { intros E. change (EmptyString +:+ t) with t in E. by subst t. }
    rewrite app_String. intros [= -> Ht]. by eapply Hno.
  - rewrite <-app_String. apply next_link; try done. intros [|b p] q.
    { intros E _. change (EmptyString +:+ q) with q in E. subst q. by rewrite app_String. }
    rewrite app_String. intros [= -> Hq]. by eapply Hno.
Qed.

Lemma drop_app p t : string_drop (String.length p) (p +:+ t) = t.
Proof. induction p as [|a p IH]; [by destruct t|]. rewrite app_String. exact IH. Qed.

(** [FindAllString] finds the links. *)
Lemma find_all_links s : links_in s (find_all 0 s).
Proof.
  induction s as [s IH] using (induction_ltof1 _ String.length). unfold ltof in IH.
  destruct s as [|a s].
  - apply no_link. intros pre t E (m & t' & -> & p & body & Hp & -> & _).
    destruct pre; [|done]. change (EmptyString +:+ ((p +:+ body) +:+ t')) with ((p +:+ body) +:+ t') in E.
    destruct Hp as [-> | ->]; done.
  - cbn [find_all]. destruct (match_at (String a s)) as [m|] eqn:E; [|apply links_later; [by apply match_at_None|]].
    2:{ apply IH. cbn. lia. }
    apply match_at_Some in E as (Hm & rest & Hs & Hrest). rewrite find_all_skip.
    assert (Hne : exists b m', m = String b m').
    { destruct Hm as (p & body & [-> | ->] & -> & _); by eexists _, _. }
    destruct Hne as (b & m' & Em). assert (string_drop (pred (String.length m)) s = rest) as ->.
    { rewrite Em, app_String in Hs. injection Hs as _ Hs. rewrite Hs, Em. cbn [String.length pred]. apply drop_app. }
    rewrite Hs. apply (next_link EmptyString); [|done|done|].
    + by intros [|? ?] [|? ?].
    + apply IH. rewrite Hs, length_append, Em. cbn. lia.
Qed.

(** *** Collecting *)

Lemma collect_distinct (seen : gset string) : forall ms n, n < MaxExtractedURLs -> Forall (fun m => trimTrailing m <> EmptyString) ms ->
  collect seen n ms = take (MaxExtractedURLs - n) (filter (fun u => u ∉ seen) (distinct (trimTrailing <$> ms))).
Proof.
  intros ms. revert seen. induction ms as [|m ms IH]; intros seen n Hn Hne; cbn [collect fmap list_fmap distinct].
  { by rewrite filter_nil, take_nil. }
  apply Forall_cons in Hne as [Hm Hne]. rewrite bool_decide_eq_false_2 by done.
  rewrite filter_cons, list_filter_filter. set (x := trimTrailing m) in *.
  case_bool_decide as Hs.
  - rewrite decide_False by tauto. rewrite IH by done. f_equal. apply list_filter_iff. intros u. split; [|tauto].
    intros Hu. split; [done|]. by intros ->.
  - rewrite decide_True by done. destruct (Nat.leb_spec MaxExtractedURLs (S n)).
    + replace (MaxExtractedURLs - n) with 1 by lia. cbn [take]. by rewrite take_0.
    + replace (MaxExtractedURLs - n) with (S (MaxExtractedURLs - S n)) by lia. cbn [take]. f_equal.
      rewrite IH by (done || lia). f_equal. apply list_filter_iff. intros u. rewrite not_elem_of_union, not_elem_of_singleton. tauto.
Qed.

(** What [ExtractURLs] returns. *)
Lemma ExtractURLs_spec content : exists ms us, links_in content ms /\ Forall2 trimmed ms us /\
  Forall (fun u => u <> EmptyString) us /\ ExtractURLs content = take 5 (distinct us).
Proof.
  pose proof (find_all_links content) as Hl. set (ms := find_all 0 content) in *.
  assert (Hm : Forall is_link ms) by (clear -Hl; induction Hl; by constructor).
  assert (Hne : Forall (fun m => trimTrailing m <> EmptyString) ms).
  { eapply Forall_impl; [exact Hm|]. intros m ?. eapply trimmed_link; [done|apply trimTrailing_trimmed]. }
  exists ms, (trimTrailing <$> ms). split_and!; [done| |by apply Forall_fmap|].
  - clear. induction ms; constructor; [apply trimTrailing_trimmed|done].
  - unfold ExtractURLs. fold ms. rewrite collect_distinct by (unfold MaxExtractedURLs; done || lia). f_equal.
    induction (distinct _) as [|u l IH]; [done|]. rewrite filter_cons_True by set_solver. by rewrite IH.
Qed.

Lemma distinct_NoDup l : NoDup (distinct l).
Proof.
  induction l as [|x l IH]; cbn [distinct]; constructor; [|by apply NoDup_filter].
  by intros [? _]%list_elem_of_filter.
Qed.

Lemma elem_of_distinct u l : u ∈ distinct l <-> u ∈ l.
Proof.
  induction l as [|x l IH]; cbn [distinct]; [done|]. rewrite !elem_of_cons, list_elem_of_filter, IH.
  destruct (decide (u = x)); naive_solver.
Qed.
End extract.

(** ** Paths *)

Section path.
Import Normalizer GoText.

(** No two slashes in a row. *)
Fixpoint single_slashes (s : string) : bool :=
  match s with
  | EmptyString => true
  | String a s' => negb (bool_decide (a = "/"%char) && HasPrefix s' "/") && single_slashes s'
  end.

(** The canonical paths: the root, or a text with single slashes whose last
    byte is not a slash. *)
Definition canonical_path (p : string) : Prop :=
  p = "/"%string \/
  (single_slashes p = true /\ match unsnoc p with Some (_, a) => a <> "/"%char | None => True end).

Lemma collapse_head s : HasPrefix (collapse true s) "/" = false.
Proof.
  induction s as [|a s IH]; [done|]. cbn [collapse]. case_bool_decide as E; [done|].
  cbn [HasPrefix]. rewrite code_eqb, bool_decide_eq_false_2; [done|]. done.
Qed.

Lemma collapse_single b s : single_slashes (collapse b s) = true.
Proof.
  revert b. induction s as [|a s IH]; intros b; [done|]. cbn [collapse]. case_bool_decide as E.
  - destruct b; [apply IH|]. cbn [single_slashes]. by rewrite collapse_head, andb_false_r, IH.
  - cbn [single_slashes]. rewrite bool_decide_eq_false_2 by done. apply IH.
Qed.

Lemma collapse_id s : single_slashes s = true -> forall b, (b = true -> HasPrefix s "/" = false) -> collapse b s = s.
Proof.
  induction s as [|a s IH]; intros Hs b Hb; [done|]. cbn [single_slashes collapse] in *.
  apply andb_true_iff in Hs as [Hh Hs]. case_bool_decide as E.
  - subst. destruct b.
    { specialize (Hb eq_refl). by destruct s. }
    f_equal. apply IH; [done|].
    intros _. by destruct (HasPrefix s "/").
  - f_equal. by apply IH.
Qed.

Lemma TrimRight_last c s : match unsnoc (TrimRight c s) with Some (_, a) => a <> c | None => True end.
Proof.
  induction s as [|a s IH]; [done|]. cbn [TrimRight]. destruct (TrimRight c s) as [|b t] eqn:E.
  - case_bool_decide; [done|]. done.
  - change (unsnoc (String a (String b t))) with
      (match unsnoc (String b t) with None => Some (EmptyString, a) | Some (s, x) => Some (String a s, x) end).
    destruct (unsnoc (String b t)) as [[? ?]|] eqn:E'; [done|]. by apply unsnoc_None in E'.
Qed.

Lemma TrimRight_id c s : match unsnoc s with Some (_, a) => a <> c | None => True end -> TrimRight c s = s.
Proof.
  induction s as [|a s IH]; [done|]. cbn [unsnoc TrimRight].
  destruct (unsnoc s) as [[t x]|] eqn:E; intros Hx.
  - rewrite IH by done. by destruct s.
  - apply unsnoc_None in E as ->. cbn. by rewrite bool_decide_eq_false_2.
Qed.

Lemma TrimRight_single c s : single_slashes s = true -> single_slashes (TrimRight c s) = true.
Proof.
  induction s as [|a s IH]; [done|]. cbn [single_slashes TrimRight]. intros [Hh Hs]%andb_true_iff.
  specialize (IH Hs). destruct (TrimRight c s) as [|b t] eqn:E.
  - destruct (bool_decide (a = c)); [done|]. cbn. by rewrite andb_false_r.
  - rewrite <-E. rewrite <-E in IH. cbn [single_slashes]. rewrite IH, andb_true_r.
    assert (HasPrefix (TrimRight c s) "/" = HasPrefix s "/") as ->; [|done].
    destruct s as [|x s]; [done|]. cbn [TrimRight] in E |- *. destruct (TrimRight c s).
    + destruct (bool_decide (x = c)); [done|]. by destruct s.
    + by destruct s.
Qed.

Lemma normalizePath_canonical p : canonical_path (normalizePath p).
Proof.
  unfold normalizePath, canonical_path. case_bool_decide; [by left|]. case_bool_decide; [by left|]. right.
  split; [apply TrimRight_single, collapse_single|apply TrimRight_last].
Qed.

Lemma normalizePath_id p : canonical_path p -> p <> EmptyString -> normalizePath p = p.
Proof.
  intros [->|[Hs Hl]] Hne; [done|]. unfold normalizePath. rewrite bool_decide_eq_false_2 by done.
  rewrite collapse_id by done. case_bool_decide; [done|]. by apply TrimRight_id.
Qed.
(** *** Segments *)

Definition cons_nonempty (w : string) (ws : list string) : list string :=
  if bool_decide (w = EmptyString) then ws else w :: ws.

(** The text before the first slash, and the segments after it. *)
Fixpoint pieces (s : string) : string * list string :=
  match s with
  | EmptyString => (EmptyString, [])
  | String a s =>
      let '(w, ws) := pieces s in
      if bool_decide (a = "/"%char) then (EmptyString, cons_nonempty w ws) else (String a w, ws)
  end.

(** What stands between the slashes of a path, where something does. *)
Definition segments (s : string) : list string := let '(w, ws) := pieces s in cons_nonempty w ws.

Lemma collapse_pieces s : segments (collapse true s) = segments s /\ pieces (collapse false s) = pieces s.
Proof.
  induction s as [|a s [IH1 IH2]]; [done|]. cbn [collapse]. case_bool_decide as Ha.
  - subst a. split.
    + rewrite IH1. unfold segments at 2. cbn [pieces]. rewrite bool_decide_eq_true_2 by done.
      unfold segments. by destruct (pieces s).
    + cbn [pieces]. rewrite bool_decide_eq_true_2 by done. revert IH1. unfold segments. destruct (pieces (collapse true s)), (pieces s). by intros ->.
  - unfold segments. cbn [pieces]. by rewrite IH2.
Qed.

Lemma TrimRight_pieces s : pieces (TrimRight "/" s) = pieces s.
Proof.
  induction s as [|a s IH]; [done|]. cbn [TrimRight pieces]. rewrite <-IH.
  destruct (TrimRight "/" s) as [|b t]; [|done]. destruct (bool_decide (a = "/"%char)) eqn:Ea; cbn; by rewrite ?Ea.
Qed.

Lemma normalizePath_segments p : segments (normalizePath p) = segments p.
Proof.
  unfold normalizePath. case_bool_decide as Hp; [by rewrite Hp|].
  assert (Hc : segments (collapse false p) = segments p) by (unfold segments; by rewrite (proj2 (collapse_pieces p))).
  rewrite <-Hc. case_bool_decide as Hs; [by rewrite Hs|]. unfold segments. by rewrite TrimRight_pieces.
Qed.
End path.

(** ** Queries *)

Section query.
Import Normalizer UrlText.
Local Open Scope string_scope.

Definition query_byte (c : Z) : bool := negb (one_of "&=;" c).

(** Every byte of an escaped key or value, and its decoding. *)
Lemma escape_byte a t :
  all_bytes query_byte (escape encodeQueryComponent (String a "")) = true /\
  escape encodeQueryComponent (String a t) = escape encodeQueryComponent (String a "") +:+ escape encodeQueryComponent t /\
  unescape encodeQueryComponent (escape encodeQueryComponent (String a "") +:+ t) = String a <$> unescape encodeQueryComponent t.
Proof. destruct a as [[] [] [] [] [] [] [] []]; repeat split; reflexivity. Qed.

Lemma QueryEscape_bytes s : all_bytes query_byte (QueryEscape s) = true.
Proof.
  unfold QueryEscape. induction s as [|a s IH]; [done|].
  destruct (escape_byte a s) as (Hb & -> & _). by rewrite all_bytes_app, Hb, IH.
Qed.

Lemma unescape_QueryEscape s : unescape encodeQueryComponent (QueryEscape s) = Some s.
Proof.
  unfold QueryEscape. induction s as [|a s IH]; [done|].
  destruct (escape_byte a s) as (_ & -> & _).
  destruct (escape_byte a (escape encodeQueryComponent s)) as (_ & _ & ->). by rewrite IH.
Qed.

Lemma free_query sep s : one_of "&=;" (code sep) = true -> all_bytes query_byte s = true -> free_of sep s = true.
Proof.
  intros Hsep. apply all_bytes_impl. intros c Hc. apply negb_true_iff, Z.eqb_neq. intros ->.
  unfold query_byte in Hc. by rewrite Hsep in Hc.
Qed.

Definition add_value (m : gmap string (list string)) (kv : string * string) : gmap string (list string) :=
  <[kv.1 := (default [] (m !! kv.1) ++ [kv.2])%list]> m.

Definition encoded (l : list (string * string)) : string :=
  String.concat "&" ((fun kv => encode_pair kv.1 kv.2) <$> l).

Lemma encode_pair_free k v : free_of "&" (encode_pair k v) = true /\ free_of ";" (encode_pair k v) = true.
Proof.
  unfold encode_pair, free_of. rewrite !all_bytes_app.
  split; (rewrite !andb_true_iff; split; [by apply free_query, QueryEscape_bytes|split; [done|by apply free_query, QueryEscape_bytes]]).
Qed.

Lemma encode_pair_parts k v :
  Cut "=" (encode_pair k v) = (QueryEscape k, QueryEscape v, true) /\ encode_pair k v <> "".
Proof.
  unfold encode_pair. change ("=" +:+ QueryEscape v) with (String "=" (QueryEscape v)). split.
  - apply Cut_app, free_query; [done|apply QueryEscape_bytes].
  - by destruct (QueryEscape k).
Qed.

(** Reading back an encoded list of pairs. *)
Lemma parse_encoded l : forall fuel m,
  length l < fuel -> parse_query fuel m false (encoded l) = (foldl add_value m l, false).
Proof.
  induction l as [|[k v] l IH]; intros fuel m Hf; (destruct fuel as [|fuel]; [cbn in Hf; lia|]); [done|].
  destruct (encode_pair_parts k v) as [Hcut Hne]. destruct (encode_pair_free k v) as [Hamp Hsemi].
  assert (Hc : exists b, Cut "&" (encoded ((k, v) :: l)) = (encode_pair k v, encoded l, b)).
  { unfold encoded. destruct l as [|p l].
    - exists false. by apply Cut_free.
    - exists true. change (Cut "&" (encode_pair k v +:+ String "&" (encoded (p :: l))) = (encode_pair k v, encoded (p :: l), true)).
      by apply Cut_app. }
  destruct Hc as [b Hc]. cbn [parse_query].
  assert (nonempty (encoded ((k, v) :: l)) = true) as ->.
  { unfold nonempty. rewrite bool_decide_eq_false_2; [done|].
    intros E. rewrite E in Hc. cbn in Hc. congruence. }
  cbn [negb]. rewrite Hc, Contains_free by done. unfold nonempty. rewrite bool_decide_eq_false_2 by done.
  cbn [negb]. rewrite Hcut, !unescape_QueryEscape. apply IH. cbn in Hf. lia.
Qed.

Lemma encode_pair_length k v : 1 <= String.length (encode_pair k v).
Proof. unfold encode_pair. rewrite !length_append. cbn. lia. Qed.

Lemma encoded_length l : length l <= String.length (encoded l).
Proof.
  induction l as [|[k v] l IH]; [done|]. pose proof (encode_pair_length k v). unfold encoded in *.
  destruct l as [|p l]; [cbn in *; lia|]. cbn [fmap list_fmap String.concat length] in *.
  rewrite !length_append. cbn [String.length]. lia.
Qed.

Lemma ParseQuery_encoded l : ParseQuery (encoded l) = Some (foldl add_value ∅ l).
Proof.
  unfold ParseQuery. rewrite parse_encoded; [done|]. pose proof (encoded_length l). lia.
Qed.

(** What reading a list of pairs leaves under a key: its values, in order. *)
Lemma add_values_lookup l : forall m k,
  foldl add_value m l !! k =
  (let vs := snd <$> filter (fun kv => kv.1 = k) l in
   if bool_decide (vs = []) then m !! k else Some (default [] (m !! k) ++ vs)%list).
Proof.
  induction l as [|[x v] l IH]; intros m k; [done|]. cbn [foldl]. rewrite IH. clear IH. cbn zeta.
  rewrite filter_cons. unfold add_value. cbn [fst snd]. destruct (decide (x = k)) as [->|Hne].
  - rewrite lookup_insert_eq. cbn [fmap list_fmap snd default from_option id]. rewrite (bool_decide_eq_false_2 (v :: _ = [])) by done.
    case_bool_decide as E; [by rewrite E|]. by rewrite <-(assoc_L (++))%list.
  - by rewrite lookup_insert_ne.
Qed.

Definition nonempty_values (m : gmap string (list string)) : Prop := map_Forall (fun _ vs => vs <> []) m.

Lemma parse_query_values fuel : forall m bad q, nonempty_values m -> nonempty_values (parse_query fuel m bad q).1.
Proof.
  induction fuel as [|fuel IH]; intros m bad q Hm; cbn [parse_query]; [done|].
  repeat case_match; auto. apply IH. apply map_Forall_insert_2; [|done]. by destruct (default [] _).
Qed.

Definition pairs (m : gmap string (list string)) : list (string * string) :=
  sorted_keys m ≫= fun k => (k,.) <$> default [] (m !! k).

Lemma encode_values_pairs m : String.concat "&" (encode_values m) = encoded (pairs m).
Proof.
  unfold encoded, encode_values, pairs. f_equal.
  induction (sorted_keys m) as [|k l IH]; [done|]. cbn [mbind list_bind]. rewrite fmap_app. f_equal; [|apply IH].
  rewrite <-list_fmap_compose. done.
Qed.

Lemma NoDup_sorted_keys m : NoDup (sorted_keys m) /\ forall k, k ∈ sorted_keys m <-> is_Some (m !! k).
Proof.
  unfold sorted_keys. split.
  - rewrite sort_asc_perm. apply NoDup_elements.
  - intros k. by rewrite elem_of_sort_asc, elem_of_elements, elem_of_dom.
Qed.

Lemma pairs_filter m k : snd <$> filter (fun kv => kv.1 = k) (pairs m) = default [] (m !! k).
Proof.
  destruct (NoDup_sorted_keys m) as [Hnd Hin]. unfold pairs.
  assert (Hl : forall l, NoDup l -> snd <$> filter (fun kv => kv.1 = k) (l ≫= fun k => (k,.) <$> default [] (m !! k)) =
    (if bool_decide (k ∈ l) then default [] (m !! k) else [])).
  { clear Hnd Hin. induction l as [|x l IH]; intros Hnd; [done|]. apply NoDup_cons in Hnd as [Hx Hnd].
    cbn [mbind list_bind]. rewrite filter_app, fmap_app. change (list_bind _ _ ?f l) with (l ≫= f). rewrite IH by done.
    destruct (decide (x = k)) as [->|Hne].
    - rewrite list_filter_all by (by intros y (v & -> & _)%list_elem_of_fmap).
      rewrite <-list_fmap_compose. rewrite (bool_decide_eq_false_2 (k ∈ l)) by done.
      rewrite bool_decide_eq_true_2 by (by left). rewrite app_nil_r. unfold compose. cbn. apply list_fmap_id.
    - rewrite list_filter_none by (by intros y (v & -> & _)%list_elem_of_fmap). cbn.
      destruct (decide (k ∈ l)) as [Hk|Hk].
      + rewrite !bool_decide_eq_true_2; [done|by right|done].
      + rewrite !bool_decide_eq_false_2; [done|by intros [->|?]%elem_of_cons|done]. }
  rewrite Hl by done. case_bool_decide as Hk; [done|]. destruct (m !! k) eqn:E; [|done].
  exfalso. apply Hk, Hin. by eexists.
Qed.

(** A query written from a table of values reads back as the table. *)
Lemma ParseQuery_encode m : nonempty_values m -> ParseQuery (String.concat "&" (encode_values m)) = Some m.
Proof.
  intros Hm. rewrite encode_values_pairs, ParseQuery_encoded. f_equal. apply map_eq. intros k.
  rewrite add_values_lookup, pairs_filter. cbn zeta. rewrite lookup_empty.
  destruct (m !! k) as [vs|] eqn:E; cbn; [|done]. rewrite bool_decide_eq_false_2; [done|]. by apply (Hm k).
Qed.
End query.

Section normalize.
Import Normalizer UrlText.
Context `{GoRuntime, HostTables}.
Local Open Scope string_scope.

Lemma ParseQuery_values raw m : ParseQuery raw = Some m -> nonempty_values m.
Proof.
  unfold ParseQuery. pose proof (parse_query_values (S (String.length raw)) ∅ false raw) as Hv.
  destruct (parse_query _ _ _ _) as [m' []]; [done|]. intros [= <-]. apply Hv, map_Forall_empty.
Qed.

(** Dropping the tracking keys is all that normalization does to the values. *)
Lemma normalizeQuery_values raw m :
  ParseQuery raw = Some m -> ParseQuery (normalizeQuery raw) = Some (drop_tracking m).
Proof.
  intros Hm. unfold normalizeQuery. case_bool_decide as He.
  { subst. cbn in Hm. injection Hm as <-. unfold drop_tracking. by rewrite map_filter_empty. }
  rewrite Hm. case_bool_decide as Hd; [by rewrite Hd|].
  apply ParseQuery_encode. apply map_Forall_lookup. intros k vs [Hk _]%map_lookup_filter_Some.
  by apply (ParseQuery_values _ _ Hm k).
Qed.

Lemma drop_tracking_idemp m : drop_tracking (drop_tracking m) = drop_tracking m.
Proof.
  unfold drop_tracking. apply map_eq. intros k. rewrite !map_lookup_filter.
  destruct (m !! k); cbn; [|done]. by repeat case_guard.
Qed.

Lemma normalizeQuery_idemp raw : normalizeQuery (normalizeQuery raw) = normalizeQuery raw.
Proof.
  destruct (ParseQuery raw) as [m|] eqn:E.
  - pose proof (normalizeQuery_values raw m E) as E'. unfold normalizeQuery at 1. rewrite E', drop_tracking_idemp.
    unfold normalizeQuery. rewrite E. repeat case_bool_decide; congruence.
  - assert (normalizeQuery raw = raw) as E'; [|by rewrite !E'].
    unfold normalizeQuery. rewrite E. by case_bool_decide.
Qed.

(** A URL with a host is neither opaque nor written without its host. *)
(** Empty, or from the root. *)
Definition rooted (p : string) : Prop := p = "" \/ HasPrefix p "/" = true.

Definition hosted (u : URL.t) : Prop :=
  URL.Host u = "" \/
  (URL.Opaque u = "" /\ URL.OmitHost u = false /\ rooted (URL.Path u) /\ rooted (URL.RawPath u)).

Lemma IndexByte_drop c s i : IndexByte c s = Some i -> HasPrefix (string_drop i s) (String c "") = true.
Proof.
  revert i. induction s as [|a s IH]; intros i; cbn [IndexByte]; [done|]. rewrite code_eqb.
  case_bool_decide as Ha; [intros [= <-]; subst; apply (HasPrefix_app (String c EmptyString) s)|].
  destruct (IndexByte c s) as [k|]; [|done]. intros [= <-]. by apply IH.
Qed.

Lemma set_component_rooted r p rp : rooted r -> URL.set_component encodePath r = Some (p, rp) -> rooted p /\ rooted rp.
Proof.
  intros Hr. unfold URL.set_component. destruct (unescape encodePath r) as [x|] eqn:E; [|done].
  cbn [mbind option_bind]. intros [= <- <-]. split; [|case_bool_decide; [by left|done]].
  destruct Hr as [-> |Hr]; [left; by injection E|]. right. destruct r as [|a r]; [done|].
  assert (a = "/"%char) as ->.
  { cbn in Hr. apply andb_true_iff in Hr as [Ha _]. rewrite code_eqb in Ha. by apply bool_decide_eq_true in Ha. }
  cbn in E. destruct (unescape encodePath r) as [t|]; [|done]. injection E as <-. apply (HasPrefix_app "/" t).
Qed.

Lemma parse_hosted s u : URL.parse s = Some u -> hosted u.
Proof.
  unfold URL.parse. destruct (URL.stringContainsCTLByte s); [done|]. case_bool_decide; [intros [= <-]; by left|].
  destruct (URL.getScheme s) as [[sch rst]|]; cbn [mbind option_bind]; [|done].
  generalize (if Nat.eqb (Count "?" rst) 1 && bool_decide (LastIndex "?" rst = Some (pred (String.length rst)))
      then (string_take (pred (String.length rst)) rst, true, "")
      else let '(r, q, _) := Cut "?" rst in (r, false, q)). intros [[r fq] q].
  destruct (_ && _); [intros [= <-]; by left|]. destruct (_ && _); [done|].
  destruct (_ && _).
  - destruct (match IndexByte _ _ with Some i => _ | None => _ end) as [authority r'] eqn:Er.
    assert (Hr : rooted r').
    { destruct (IndexByte "/" (string_drop 2 r)) as [i|] eqn:Ei; injection Er as _ <-; [|by left].
      right. by apply IndexByte_drop. }
    destruct (URL.parseAuthority authority) as [[us h]|]; cbn [mbind option_bind]; [|done].
    destruct (URL.set_component _ _) as [[p rp]|] eqn:Es; cbn [mbind option_bind]; [|done]. intros [= <-]. right.
    by destruct (set_component_rooted r' p rp Hr Es).
  - cbn [mbind option_bind].
    destruct (URL.set_component _ _) as [[p rp]|]; cbn [mbind option_bind]; [|done]. intros [= <-]. by left.
Qed.

(** *** What a parsed query does not hold *)

Lemma scheme_loop_bytes f s : forall first acc whole sch rest,
  all_bytes f whole = true -> all_bytes f s = true ->
  URL.scheme_loop first acc whole s = Some (sch, rest) -> all_bytes f rest = true.
Proof.
  induction s as [|a s IH]; intros first acc whole sch rest Hw Hs; cbn [URL.scheme_loop]; [by intros [= _ <-]|].
  cbn [all_bytes] in Hs. apply andb_true_iff in Hs as [_ Hs].
  repeat case_match; try done; try (by intros [= _ <-]); by apply IH.
Qed.

Lemma Cut_bytes f sep s : all_bytes f s = true ->
  all_bytes f (Cut sep s).1.1 = true /\ all_bytes f (Cut sep s).1.2 = true.
Proof.
  induction s as [|a s IH]; [done|]. cbn [all_bytes Cut]. intros [Ha Hs]%andb_true_iff. destruct (IH Hs) as [H1 H2].
  destruct (_ =? _)%Z; [done|]. destruct (Cut sep s) as [[x y] b]. cbn in *. by rewrite Ha.
Qed.

Lemma Cut_before sep s : free_of sep (Cut sep s).1.1 = true.
Proof.
  induction s as [|a s IH]; [done|]. cbn [Cut]. destruct (code a =? code sep)%Z eqn:E; [done|].
  destruct (Cut sep s) as [[x y] b]. unfold free_of in *. cbn in *. by rewrite E.
Qed.

Lemma parse_query_bytes f s u : all_bytes f s = true -> URL.parse s = Some u -> all_bytes f (URL.RawQuery u) = true.
Proof.
  intros Hs. unfold URL.parse. destruct (URL.stringContainsCTLByte s); [done|]. case_bool_decide; [by intros [= <-]|].
  destruct (URL.getScheme s) as [[sch rst]|] eqn:Eg; cbn [mbind option_bind]; [|done].
  apply (scheme_loop_bytes f) in Eg; [|done..]. pose proof (proj2 (Cut_bytes f "?" rst Eg)) as Hq.
  assert (Hq' : all_bytes f (if Nat.eqb (Count "?" rst) 1 && bool_decide (LastIndex "?" rst = Some (pred (String.length rst)))
      then (string_take (pred (String.length rst)) rst, true, "")
      else let '(r, q, _) := Cut "?" rst in (r, false, q)).2 = true).
  { destruct (_ && _); [done|]. by destruct (Cut "?" rst) as [[? ?] ?]. }
  revert Hq'. clear. generalize (if Nat.eqb (Count "?" rst) 1 && bool_decide (LastIndex "?" rst = Some (pred (String.length rst)))
      then (string_take (pred (String.length rst)) rst, true, "")
      else let '(r, q, _) := Cut "?" rst in (r, false, q)). intros [[r fq] q]. cbn [snd]. intros Hq.
  destruct (_ && _); [by intros [= <-]|]. destruct (_ && _); [done|].
  match goal with |- context [mbind _ ?x] => destruct x as [[[[us h] r'] oh]|] end; cbn [mbind option_bind]; [|done].
  destruct (URL.set_component _ _) as [[p rp]|]; cbn [mbind option_bind]; [|done]. by intros [= <-].
Qed.

Lemma Parse_facts s u : URL.Parse s = Some u -> hosted u /\ free_of "#" (URL.RawQuery u) = true.
Proof.
  unfold URL.Parse. pose proof (Cut_before "#" s) as Hfree. destruct (Cut "#" s) as [[a f] b]. cbn in Hfree.
  destruct (URL.parse a) as [url|] eqn:E; cbn [mbind option_bind]; [|done].
  pose proof (parse_query_bytes _ _ _ Hfree E) as Hq. apply parse_hosted in E.
  case_bool_decide; [by intros [= <-]|].
  destruct (URL.set_component _ _) as [[x y]|]; cbn [mbind option_bind]; [|done]. by intros [= <-].
Qed.

Lemma normal_host_nonempty u h : normal_host u = inr h -> URL.Host u <> "".
Proof. intros Hh E. unfold normal_host, NetIP.Hostname in Hh. by rewrite E in Hh. Qed.

Lemma TrimRight_empty c a s : GoText.TrimRight c (String a s) = "" -> a = c /\ GoText.TrimRight c s = "".
Proof. cbn [GoText.TrimRight]. destruct (GoText.TrimRight c s); [|done]. by case_bool_decide. Qed.

Lemma normalizePath_nonempty p : normalizePath p <> "".
Proof.
  unfold normalizePath. case_bool_decide as Hp; [done|]. case_bool_decide as Hc; [done|].
  destruct p as [|a p]; [done|]. cbn [collapse] in Hc |- *. case_bool_decide as Ha.
  - subst. pose proof (collapse_head p) as Hh. intros [_ Ht]%TrimRight_empty.
    destruct (collapse true p) as [|b t]; [done|]. apply TrimRight_empty in Ht as [-> _]. by destruct t.
  - by intros [? _]%TrimRight_empty.
Qed.

(** *** Escaping keeps delimiters out *)

Lemma escape_cons mode a s : escape mode (String a s) = escape mode (String a "") +:+ escape mode s.
Proof. cbn [escape]. destruct (shouldEscape _ _); [destruct (_ && _)|]; done. Qed.

Lemma escape_free mode sep s :
  (forall a, free_of sep (escape mode (String a "")) = true) -> free_of sep (escape mode s) = true.
Proof.
  intros Ha. induction s as [|a s IH]; [done|]. rewrite escape_cons. unfold free_of in *. by rewrite all_bytes_app, Ha, IH.
Qed.

Lemma escape_path_free s : free_of "?" (escape encodePath s) = true /\ free_of "#" (escape encodePath s) = true.
Proof. split; apply escape_free; intros [[] [] [] [] [] [] [] []]; reflexivity. Qed.

(** The bytes that end an authority. *)
Definition authority_bytes (s : string) : Prop :=
  free_of "/" s = true /\ free_of "?" s = true /\ free_of "#" s = true.

Lemma authority_app s t : authority_bytes s -> authority_bytes t -> authority_bytes (s +:+ t).
Proof. unfold authority_bytes, free_of. rewrite !all_bytes_app, !andb_true_iff. tauto. Qed.

Lemma escape_host_bytes s : authority_bytes (escape encodeHost s).
Proof. split_and!; apply escape_free; intros [[] [] [] [] [] [] [] []]; reflexivity. Qed.

Lemma escape_user_bytes s : authority_bytes (escape encodeUserPassword s).
Proof. split_and!; apply escape_free; intros [[] [] [] [] [] [] [] []]; reflexivity. Qed.

Lemma escape_query_free s : free_of "#" (QueryEscape s) = true.
Proof. apply escape_free; intros [[] [] [] [] [] [] [] []]; reflexivity. Qed.

Lemma unescape_escape_path s : unescape encodePath (escape encodePath s) = Some s.
Proof.
  induction s as [|a s IH]; [done|]. rewrite escape_cons.
  assert (Hb : forall t, unescape encodePath (escape encodePath (String a "") +:+ t) = String a <$> unescape encodePath t)
    by (intros t; by destruct a as [[] [] [] [] [] [] [] []]).
  by rewrite Hb, IH.
Qed.

(** What [EscapedPath] writes for a path from the root. *)
Lemma EscapedPath_spec u :
  HasPrefix (URL.Path u) "/" = true -> rooted (URL.RawPath u) ->
  unescape encodePath (EscapedPath u) = Some (URL.Path u) /\ HasPrefix (EscapedPath u) "/" = true /\
  free_of "?" (EscapedPath u) = true /\ free_of "#" (EscapedPath u) = true.
Proof.
  intros Hp Hr. unfold EscapedPath, escaped. destruct (negb _ && _ && _) eqn:E.
  - apply andb_true_iff in E as [[Hne%negb_true_iff%bool_decide_eq_false Hv]%andb_true_iff Hu%bool_decide_eq_true].
    split; [done|]. split; [by destruct Hr|]. unfold validEncoded in Hv.
    split; (eapply all_bytes_impl; [|exact Hv]); intros c Hc; apply negb_true_iff, Z.eqb_neq; intros ->; by vm_compute in Hc.
  - destruct (URL.Path u) as [|a p]; [done|]. cbn [HasPrefix] in Hp. apply andb_true_iff in Hp as [Ha _].
    rewrite code_eqb in Ha. apply bool_decide_eq_true in Ha as ->. rewrite bool_decide_eq_false_2 by done.
    split; [apply unescape_escape_path|]. split; [|apply escape_path_free]. rewrite escape_cons.
    exact (HasPrefix_app "/" (escape encodePath p)).
Qed.

Lemma normalizePath_rooted p : rooted p -> HasPrefix (normalizePath p) "/" = true.
Proof.
  intros Hr. pose proof (normalizePath_nonempty p) as Hne. unfold normalizePath in *. case_bool_decide as Hp; [done|].
  destruct Hr as [?|Hr]; [done|]. destruct p as [|a p]; [done|]. cbn [HasPrefix] in Hr.
  apply andb_true_iff in Hr as [Ha _]. rewrite code_eqb in Ha. apply bool_decide_eq_true in Ha as ->.
  case_bool_decide; [done|]. cbn [collapse] in *. rewrite bool_decide_eq_true_2 in * by done. cbn [GoText.TrimRight] in *.
  destruct (GoText.TrimRight "/" (collapse true p)) as [|b t]; [done|]. exact (HasPrefix_app "/" (String b t)).
Qed.

Lemma concat_free sep d l : free_of sep d = true -> Forall (fun s => free_of sep s = true) l ->
  free_of sep (String.concat d l) = true.
Proof.
  intros Hd. unfold free_of in *. induction 1 as [|x l Hx Hl IH]; [done|]. cbn [String.concat].
  destruct l; [done|]. by rewrite !all_bytes_app, Hx, Hd, IH.
Qed.

Lemma normalizeQuery_free q : free_of "#" q = true -> free_of "#" (normalizeQuery q) = true.
Proof.
  intros Hq. unfold normalizeQuery. case_bool_decide; [done|]. destruct (ParseQuery q) as [m|]; [|done].
  case_bool_decide; [done|]. apply concat_free; [done|]. apply Forall_forall. intros s (k & Hs & _)%list_elem_of_bind.
  apply list_elem_of_fmap in Hs as (v & -> & _). unfold encode_pair, free_of. rewrite !all_bytes_app.
  pose proof (escape_query_free k). pose proof (escape_query_free v). unfold free_of in *. by rewrite !andb_true_iff.
Qed.

(** Two queries with the same parameters are normalised to the same text. *)
Lemma normalizeQuery_same q q' m : ParseQuery q = Some m -> ParseQuery q' = Some m -> normalizeQuery q = normalizeQuery q'.
Proof.
  assert (Hn : forall q, ParseQuery q = Some m -> normalizeQuery q =
    if bool_decide (drop_tracking m = ∅) then "" else String.concat "&" (encode_values (drop_tracking m))).
  { intros q0 Hm. unfold normalizeQuery. case_bool_decide as E; [|by rewrite Hm].
    subst q0. assert (m = ∅) as -> by (vm_compute in Hm; by injection Hm as <-).
    by rewrite bool_decide_eq_true_2. }
  intros H1 H2. by rewrite (Hn q H1), (Hn q' H2).
Qed.

(** *** The parts of a normalised URL *)

Definition user_part (ui : option (string * option string)) : string :=
  match ui with Some ui => Userinfo_String ui +:+ "@" | None => "" end.

Lemma user_part_bytes ui : authority_bytes (user_part ui).
Proof.
  destruct ui as [[user [password|]]|]; cbn [user_part Userinfo_String]; [| |done];
    repeat apply authority_app; try apply escape_user_bytes; done.
Qed.

(** [n] is the URL of these parts. *)
Definition url_text (scheme authority path : string) (query : option string) : string :=
  scheme +:+ "://" +:+ authority +:+ path +:+ match query with Some q => "?" +:+ q | None => "" end.

Lemma Normalize_parts raw n : Normalize raw = inr n -> exists u host,
  URL.Parse (GoText.TrimSpace raw) = Some u /\ normal_host u = inr host /\
  let scheme := to_lower (URL.Scheme u) in
  let v := URL.mk scheme "" (URL.User u) (joinHostPort host (normal_port scheme u)) (normalizePath (URL.Path u))
             (URL.RawPath u) false (URL.ForceQuery u) (normalizeQuery (URL.RawQuery u)) "" "" in
  (scheme = "http" \/ scheme = "https") /\ rooted (URL.Path u) /\ rooted (URL.RawPath u) /\
  free_of "#" (URL.RawQuery u) = true /\
  n = url_text scheme (user_part (URL.User u) +:+ escape encodeHost (URL.Host v)) (EscapedPath v)
        (if URL.ForceQuery u || nonempty (normalizeQuery (URL.RawQuery u)) then Some (normalizeQuery (URL.RawQuery u)) else None).
Proof.
  unfold Normalize. case_bool_decide; [done|]. destruct (URL.Parse _) as [u|] eqn:E; [|done].
  destruct (_ && _) eqn:Es; [done|]. destruct (normal_host u) as [e|h] eqn:Eh; [done|]. intros [= <-]. exists u, h.
  apply Parse_facts in E as [[Hh|(Ho & Hom & Hp & Hrp)] Hq]; [by apply normal_host_nonempty in Eh|].
  split; [done|]. split; [done|]. cbv zeta.
  assert (Hs : to_lower (URL.Scheme u) = "http" \/ to_lower (URL.Scheme u) = "https").
  { apply andb_false_iff in Es as [Es%negb_false_iff%bool_decide_eq_true|Es%negb_false_iff%bool_decide_eq_true]; auto. }
  split_and!; try done. rewrite Ho, Hom. set (scheme := to_lower (URL.Scheme u)) in *.
  set (v := URL.mk _ _ _ _ _ _ _ _ _ _ _).
  destruct (EscapedPath_spec v) as (_ & Hpre & _); [by apply normalizePath_rooted|done|].
  unfold String_. cbn [v URL.Scheme URL.Opaque URL.User URL.Host URL.Path URL.OmitHost URL.ForceQuery URL.RawQuery URL.Fragment andb orb negb].
  fold v. change (nonempty "") with false. cbv iota.
  assert (nonempty (normalizePath (URL.Path u)) = true) as ->.
  { unfold nonempty. by rewrite bool_decide_eq_false_2 by apply normalizePath_nonempty. }
  assert (nonempty scheme = true) as -> by by destruct Hs as [-> | ->].
  rewrite Hpre, orb_true_r. cbn [andb orb negb]. rewrite andb_false_r. cbv iota.
  change (user_part (URL.User u)) with (match URL.User u with Some ui => Userinfo_String ui +:+ "@" | None => "" end).
  rewrite !string_app_empty_r.
  assert (nonempty ((scheme +:+ ":") +:+ "//" +:+ (match URL.User u with Some ui => Userinfo_String ui +:+ "@" | None => "" end)
     +:+ escape encodeHost (joinHostPort h (normal_port scheme u))) = true) as -> by by destruct Hs as [-> | ->].
  cbn [negb andb]. unfold url_text. rewrite <-!string_app_assoc. destruct (_ || _); done.
Qed.
End normalize.
