(* ===== verification/JsonOut.v ===== *)
(** * What the program writes: the encoder of [encoding/json]

    [json.Marshal] of structs, slices, strings and numbers, byte by byte:
    strings are escaped for HTML, invalid UTF-8 becomes U+FFFD. A struct is
    given as the list of the members it writes, [omitempty] being an empty
    list. The decoder of [Json] finds in the output exactly the value that
    went in, whatever follows it, and no output has a byte below a space. *)

From S2P Require Import Prelude GoStrings Cursor NetUrl Json OgpUrlThms.
From Stdlib Require Import Ascii.

Local Open Scope Z_scope.

Module JsonOut.

(** ** Strings *)

Definition hexdigit (n : Z) : ascii := if n <? 10 then char (48 + n) else char (87 + n).

(** A byte below 128. *)
Definition escape_byte (a : ascii) : string :=
  let c := code a in
  let short e := String "\" (String e EmptyString) in
  if (c =? 92) || (c =? 34) then short a
  else if c =? 8 then short "b"%char
  else if c =? 12 then short "f"%char
  else if c =? 10 then short "n"%char
  else if c =? 13 then short "r"%char
  else if c =? 9 then short "t"%char
  else if (c <? 32) || (c =? 60) || (c =? 62) || (c =? 38)
  then "\u00" +:+ String (hexdigit (c / 16)) (String (hexdigit (c mod 16)) EmptyString)
  else String a EmptyString.

(** A well-formed sequence of several bytes: U+2028 and U+2029 are escaped. *)
Definition escape_rune (r : string) : string :=
  if bool_decide (r = Json.EncodeRune 8232) then "\u2028"
  else if bool_decide (r = Json.EncodeRune 8233) then "\u2029"
  else r.

Fixpoint escape_fuel (fuel : nat) (s : string) : string :=
  match fuel, s with
  | S fuel, String a r =>
      if code a <? 128 then escape_byte a +:+ escape_fuel fuel r
      else match rune_size s with
           | 1%nat => "\ufffd" +:+ escape_fuel fuel r
           | n => escape_rune (string_take n s) +:+ escape_fuel fuel (string_drop n s)
           end
  | _, _ => EmptyString
  end.

Definition escape (s : string) : string := escape_fuel (String.length s) s.

Definition quote : ascii := "034"%char.

Definition quoted (s : string) : string := String quote (escape s +:+ String quote EmptyString).

(** ** Values *)

Inductive value :=
  | VNull
  | VBool (b : bool)
  | VNum (n : Z)
  | VStr (s : string)
  | VArr (l : list value)
  | VObj (l : list (string * value)).

(** [json.Marshal] *)
Fixpoint Marshal (v : value) : string :=
  match v with
  | VNull => "null"
  | VBool b => if b then "true" else "false"
  | VNum n => pretty n
  | VStr s => quoted s
  | VArr l => "[" +:+ String.concat "," (Marshal <$> l) +:+ "]"
  | VObj l => "{" +:+ String.concat "," ((fun kv => quoted kv.1 +:+ ":" +:+ Marshal kv.2) <$> l) +:+ "}"
  end.

(** [omitempty] on a pointer, a slice or a string. *)
Definition omitempty {A} (key : string) (f : A -> value) (x : option A) : list (string * value) :=
  match x with Some a => [(key, f a)] | None => [] end.

(** The value a reader finds. *)
Fixpoint tree (v : value) : Json.json :=
  match v with
  | VNull => Json.JNull
  | VBool b => Json.JBool b
  | VNum n => Json.JNum (pretty n)
  | VStr s => Json.JStr (escape s)
  | VArr l => Json.JArr (tree <$> l)
  | VObj l => Json.JObj ((fun kv => (escape kv.1, tree kv.2)) <$> l)
  end.

Fixpoint nest (v : value) : nat :=
  match v with
  | VArr l => S (max_list (nest <$> l))
  | VObj l => S (max_list ((fun kv => nest kv.2) <$> l))
  | _ => O
  end.

(** What is not UTF-8 replaced, byte by byte. *)
Fixpoint to_valid_fuel (fuel : nat) (s : string) : string :=
  match fuel, s with
  | S fuel, String a r =>
      if code a <? 128 then String a (to_valid_fuel fuel r)
      else match rune_size s with
           | 1%nat => Json.EncodeRune 65533 +:+ to_valid_fuel fuel r
           | n => string_take n s +:+ to_valid_fuel fuel (string_drop n s)
           end
  | _, _ => EmptyString
  end.

Definition to_valid (s : string) : string := to_valid_fuel (String.length s) s.

(** [omitempty] looks at whether a string is empty. *)
Definition nonempty (s : string) : option string := if bool_decide (s = "") then None else Some s.

(** The result of an encoding that may fail, the error as text. *)
Definition on_value {A B} (f : A -> B) (x : string + A) : string + B :=
  match x with inl err => inl err | inr a => inr (f a) end.

(** [time.Time.MarshalJSON] of a time in UTC, in a field of the type named. *)
Definition time_value (type : string) (t : Z) : string + value :=
  let y := Civil.year (Civil.of_days (t / Rfc3339.ns_per_day)) in
  if (0 <=? y) && (y <=? 9999) then inr (VStr (Rfc3339.Format t))
  else inl ("json: error calling MarshalJSON for type " +:+ type +:+ ": Time.MarshalJSON: year outside of range [0,9999]").

(** Encoding several values: the first error stops it. *)
Fixpoint collect {A} (l : list (string + A)) : string + list A :=
  match l with
  | [] => inr []
  | inl err :: _ => inl err
  | inr a :: l => match collect l with inl err => inl err | inr l => inr (a :: l) end
  end.

(** ** Reading back *)

(** The strings a reader makes of the texts between the quotes. *)
Fixpoint decoded (j : Json.json) : Json.json :=
  match j with
  | Json.JStr raw => Json.JStr (Json.text raw)
  | Json.JArr l => Json.JArr (decoded <$> l)
  | Json.JObj l => Json.JObj ((fun kv => (Json.text kv.1, decoded kv.2)) <$> l)
  | j => j
  end.

(** A text that is one JSON value and nothing else but white space. *)
Definition read (s : string) : option Json.json :=
  match Json.scan_value Json.maxNestingDepth s with
  | Some (j, rest) => match Json.skip_space rest with EmptyString => Some (decoded j) | _ => None end
  | None => None
  end.

Definition member (key : string) (l : list (string * Json.json)) : option Json.json :=
  snd <$> List.find (fun kv => bool_decide (kv.1 = key)) l.

Definition text_at (key : string) (l : list (string * Json.json)) : option string :=
  j ← member key l; match j with Json.JStr s => Some s | _ => None end.

(** What the reader of [Marshal v] gets. *)
Fixpoint shown (v : value) : Json.json :=
  match v with
  | VNull => Json.JNull
  | VBool b => Json.JBool b
  | VNum n => Json.JNum (pretty n)
  | VStr s => Json.JStr (to_valid s)
  | VArr l => Json.JArr (shown <$> l)
  | VObj l => Json.JObj ((fun kv => (to_valid kv.1, shown kv.2)) <$> l)
  end.
End JsonOut.

Import JsonOut.

(** ** Runes of several bytes *)

Definition high (c : Z) : bool := 128 <=? c.

Definition wide (s : string) : Prop := (1 < rune_size s)%nat.

(** Which of the tests of [rune_size] hold, for each of its results. *)
Ltac rune_tests :=
  unfold rune_size, byte_at, cont, in_range; cbn [String.get fmap option_fmap option_map];
  repeat match goal with H : ?b = _ |- context [?b] => rewrite H end.

Lemma byte_high a : (128 <= byte_of a)%N -> high (code a) = true.
Proof. unfold byte_of, high, code. rewrite Z.leb_le. lia. Qed.

(** The bytes of a wide rune, each at least 128. *)
Lemma wide_cases s : wide s ->
  exists r t, s = r +:+ t /\ String.length r = rune_size s /\ all_bytes high r = true /\
    (forall t', rune_size (r +:+ t') = rune_size s).
Proof.
  unfold wide. destruct s as [|a s]; [cbn; lia|]. destruct s as [|b s]; [|destruct s as [|c s]; [|destruct s as [|d s]]].
  all: unfold rune_size at 1, byte_at, cont, in_range; cbn [String.get fmap option_fmap option_map].
  all: repeat (case_match; try lia); intros Hw; try lia; try discriminate.
  all: match type of Hw with
       | (_ < 2)%nat => exists (String a (String b EmptyString))
       | (_ < 3)%nat => exists (String a (String b (String c EmptyString)))
       | (_ < 4)%nat => exists (String a (String b (String c (String d EmptyString))))
       end.
  all: eexists; split; [reflexivity|]; split; [rune_tests; reflexivity|].
  all: split; [|intros t'; rewrite !app_String; change (EmptyString +:+ t') with t'; rune_tests; reflexivity].
  all: rewrite ?andb_true_iff, ?N.leb_le, ?N.ltb_ge, ?N.eqb_eq in *; cbn; rewrite !byte_high by lia; reflexivity.
Qed.

(** ** One step of the encoder *)

(** [esc] is read as one piece, and stands for [val]. *)
Record piece (esc val : string) : Prop := {
  piece_scan x : Json.scan_string (esc +:+ x) = '(t, rest) ← Json.scan_string x; Some (esc +:+ t, rest);
  piece_text f x : Json.unquote (S f) (esc +:+ x) = val +:+ Json.unquote f x;
  piece_nonempty : (1 <= String.length esc)%nat;
}.

Lemma getu4_short e x : (code e =? 117) = false -> Json.getu4 (String "\" (String e x)) = None.
Proof. intros He. do 4 (destruct x as [|? x]; [done|]). cbn [Json.getu4]. by rewrite He, andb_false_r. Qed.

Lemma piece_byte a : code a < 128 -> piece (escape_byte a) (String a EmptyString).
Proof.
  intros Ha. destruct a as [[] [] [] [] [] [] [] []]; try (exfalso; revert Ha; vm_compute; discriminate); clear Ha.
  all: split; [intros x; reflexivity| |vm_compute; lia].
  all: intros f x; first [reflexivity|idtac].
  all: match goal with |- Json.unquote _ (escape_byte ?a +:+ _) = _ =>
    let v := eval vm_compute in (escape_byte a) in change (escape_byte a) with v end.
  all: rewrite !app_String; change (EmptyString +:+ x) with x; cbn [Json.unquote]; rewrite getu4_short by reflexivity; reflexivity.
Qed.

Lemma piece_bad : piece "\ufffd" (Json.EncodeRune 65533).
Proof. split; [intros x; reflexivity|intros f x; reflexivity|cbn; lia]. Qed.

Lemma scan_high r x : all_bytes high r = true -> Json.scan_string (r +:+ x) = '(t, rest) ← Json.scan_string x; Some (r +:+ t, rest).
Proof.
  induction r as [|a r IH]; cbn [all_bytes].
  - intros _. change (EmptyString +:+ x) with x. by destruct (Json.scan_string x) as [[t rest]|].
  - intros [Ha%Z.leb_le Hr]%andb_true_iff. rewrite app_String. cbn [Json.scan_string].
    rewrite !(proj2 (Z.eqb_neq _ _)), (proj2 (Z.ltb_ge _ _)) by lia. rewrite IH by done.
    by destruct (Json.scan_string x) as [[t rest]|].
Qed.

Lemma text_wide r f x : wide (r +:+ x) -> String.length r = rune_size (r +:+ x) -> all_bytes high r = true ->
  Json.unquote (S f) (r +:+ x) = r +:+ Json.unquote f x.
Proof.
  intros Hw Hl Hh. destruct r as [|a r]; [unfold wide in Hw; rewrite <- Hl in Hw; cbn in Hw; lia|].
  cbn [all_bytes] in Hh. apply andb_true_iff in Hh as [Ha%Z.leb_le _]. rewrite app_String in *. cbn [Json.unquote].
  rewrite (proj2 (Z.eqb_neq (code a) 92)), (proj2 (Z.ltb_ge _ _)) by lia. rewrite <- app_String, <- Hl in *.
  unfold wide in Hw. rewrite <- Hl in Hw. destruct r as [|b r]; [cbn in Hw; lia|]. cbn [String.length].
  change (S (S (String.length r))) with (String.length (String a (String b r))).
  by rewrite string_take_app, string_drop_app.
Qed.

Lemma piece_wide s : wide s -> exists r t, s = r +:+ t /\ rune_size s = String.length r /\ piece (escape_rune r) r.
Proof.
  intros Hw. destruct (wide_cases s Hw) as (r & t & -> & Hl & Hh & Hsz). exists r, t. split; [done|]. split; [done|].
  unfold escape_rune. case_bool_decide as E1; [|case_bool_decide as E2].
  - rewrite E1. split; [intros x; reflexivity|intros f x; reflexivity|cbn; lia].
  - rewrite E2. split; [intros x; reflexivity|intros f x; reflexivity|cbn; lia].
  - split; [intros x; by apply scan_high| |unfold wide in Hw; lia].
    intros f x. apply text_wide; [unfold wide; by rewrite Hsz|by rewrite Hsz|done].
Qed.

(** The encoder and the text it stands for go through the string together. *)
Lemma escape_step f a s : exists esc val next,
  escape_fuel (S f) (String a s) = esc +:+ escape_fuel f next /\
  to_valid_fuel (S f) (String a s) = val +:+ to_valid_fuel f next /\
  piece esc val /\ (String.length next <= String.length s)%nat.
Proof.
  cbn [escape_fuel to_valid_fuel]. destruct (code a <? 128) eqn:Ea.
  { exists (escape_byte a), (String a EmptyString), s. apply Z.ltb_lt in Ea. by split_and!; [..|apply piece_byte|]. }
  pose proof (rune_size_pos a s) as Hpos. destruct (decide (wide (String a s))) as [Hw|Hw].
  - destruct (piece_wide _ Hw) as (r & t & Hs & Hr & Hp). unfold wide in Hw.
    exists (escape_rune r), r, t. destruct (rune_size (String a s)) as [|[|n]] eqn:En; [lia|lia|].
    rewrite Hs, Hr, string_take_app, string_drop_app. split_and!; [done..|].
    apply (f_equal String.length) in Hs. rewrite length_append in Hs. cbn [String.length] in Hs. lia.
  - unfold wide in Hw. assert (rune_size (String a s) = 1%nat) as -> by lia.
    exists "\ufffd", (Json.EncodeRune 65533), s. by split_and!; [..|apply piece_bad|].
Qed.

Lemma escape_scan f : forall s x, (String.length s <= f)%nat ->
  Json.scan_string (escape_fuel f s +:+ String quote x) = Some (escape_fuel f s, x).
Proof.
  induction f as [|f IH]; intros s x Hs; [destruct s; [done|cbn in Hs; lia]|].
  destruct s as [|a s]; [done|]. destruct (escape_step f a s) as (esc & val & next & -> & _ & Hp & Hn).
  cbn [String.length] in Hs. rewrite <- string_app_assoc, (piece_scan _ _ Hp), IH by lia. done.
Qed.

Lemma escape_text f : forall s g, (String.length s <= f)%nat -> (String.length (escape_fuel f s) <= g)%nat ->
  Json.unquote g (escape_fuel f s) = to_valid_fuel f s.
Proof.
  induction f as [|f IH]; intros s g Hs Hg; [destruct s; [by destruct g|cbn in Hs; lia]|].
  destruct s as [|a s]; [by destruct g|]. destruct (escape_step f a s) as (esc & val & next & He & Hv & Hp & Hn).
  rewrite He, Hv in *. rewrite length_append in Hg. pose proof (piece_nonempty _ _ Hp).
  cbn [String.length] in Hs. destruct g as [|g]; [lia|]. rewrite (piece_text _ _ Hp), IH by lia. done.
Qed.

(** A reader finds the escaped text and undoes the escapes. *)
Lemma scan_escape s x : Json.scan_string (escape s +:+ String quote x) = Some (escape s, x).
Proof. by apply escape_scan. Qed.

Lemma text_escape s : Json.text (escape s) = to_valid s.
Proof. by apply escape_text. Qed.

(** ** Numbers *)

Lemma num_head x : forall s, (0 < x)%N -> exists c t, pretty_N_go x s = String c t /\ between 49 57 (code c) = true.
Proof.
  induction x as [x IH] using (well_founded_induction N.lt_wf_0). intros s Hx. rewrite pretty_N_go_step by done.
  destruct (decide (0 < x / 10)%N) as [Hd|Hd]; [apply IH; [by apply N.div_lt|done]|].
  assert ((x / 10 = 0)%N) as Hz by by apply N.le_0_r, N.nlt_ge. rewrite Hz, pretty_N_go_0. apply N.div_small_iff in Hz; [|done].
  rewrite N.mod_small by done. eexists _, _. split; [done|]. assert (Hin : x ∈ [1; 2; 3; 4; 5; 6; 7; 8; 9]%N)
    by (rewrite !elem_of_cons; lia).
  revert Hin. clear. intros Hin. repeat (apply elem_of_cons in Hin as [->|Hin]; [reflexivity|]). by apply elem_of_nil in Hin.
Qed.

(** Nothing that would go on with a number. *)
Definition ends (x : string) : Prop :=
  match x with String a _ => is_num (code a) || one_of ".eE" (code a) = false | EmptyString => True end.

Lemma span_num_app s x : all_bytes is_num s = true -> ends x -> Json.span_num (s +:+ x) = (s, x).
Proof.
  intros Hs Hx. induction s as [|a s IH]; cbn [all_bytes] in Hs.
  - change (EmptyString +:+ x) with x. destruct x as [|a x]; [done|]. cbn in Hx. apply orb_false_iff in Hx as [Hx _].
    cbn. by rewrite Hx.
  - apply andb_true_iff in Hs as [Ha Hs]. rewrite app_String. cbn [Json.span_num]. by rewrite Ha, IH.
Qed.

Lemma scan_tail x : ends x -> Json.scan_frac x = Some (EmptyString, x) /\ Json.scan_exp x = Some (EmptyString, x).
Proof.
  destruct x as [|a x]; [done|]. cbn [ends one_of]. intros [_ H]%orb_false_iff. rewrite !orb_false_iff in H. destruct H as (H1 & H2 & H3 & _).
  unfold Json.scan_frac, Json.scan_exp. change ((46 =? code a) = false) in H1. change ((101 =? code a) = false) in H2.
  change ((69 =? code a) = false) in H3. rewrite Z.eqb_sym in H1, H2, H3. by rewrite H1, H2, H3.
Qed.

(** The digits of a positive number. *)
Lemma scan_pos p x : ends x -> exists c t, pretty (Npos p) = String c t /\ is_num (code c) = true /\
  Json.scan_int (pretty (Npos p) +:+ x) = Some (pretty (Npos p), x).
Proof.
  intros Hx. unfold pretty, pretty_N. rewrite decide_False by done.
  destruct (num_head (Npos p) "" eq_refl) as (c & t & Hc & Hb). exists c, t. split; [done|].
  assert (Hn : is_num (code c) = true) by (unfold is_num, between in *; lia). split; [done|].
  pose proof (digits_num (Npos p) "" eq_refl) as Hd. rewrite Hc in *. rewrite app_String. cbn [Json.scan_int].
  rewrite (proj2 (Z.eqb_neq (code c) 48)) by (unfold between in Hb; lia). rewrite Hb, <- app_String.
  by rewrite span_num_app.
Qed.

Lemma scan_pretty (n : Z) x : ends x -> Json.scan_number (pretty n +:+ x) = Some (pretty n, x).
Proof.
  intros Hx. destruct (scan_tail x Hx) as [Hf He]. unfold Json.scan_number. destruct n as [|p|p].
  - change (pretty 0) with "0". rewrite app_String. change (EmptyString +:+ x) with x. cbn [mbind option_bind].
    change (code "0" =? 45) with false. cbv beta iota. cbn [Json.scan_int]. change (code "0" =? 48) with true. cbv iota.
    cbn [mbind option_bind]. rewrite Hf. cbn [mbind option_bind]. rewrite He. done.
  - change (pretty (Zpos p)) with (pretty (Npos p)). destruct (scan_pos p x Hx) as (c & t & Hc & Hn & Hs).
    rewrite Hc in *. rewrite app_String. rewrite app_String in Hs.
    rewrite (proj2 (Z.eqb_neq (code c) 45)) by (unfold is_num, between in Hn; lia).
    rewrite Hs. cbn [mbind option_bind]. rewrite Hf. cbn [mbind option_bind]. rewrite He. cbn [mbind option_bind].
    change (EmptyString +:+ EmptyString) with EmptyString. by rewrite string_app_empty_r.
  - change (pretty (Zneg p)) with ("-" +:+ pretty (Npos p)). destruct (scan_pos p x Hx) as (c & t & Hc & Hn & Hs).
    rewrite <- string_app_assoc, app_String. change (EmptyString +:+ ?z) with z. change (code "-" =? 45) with true. cbv beta iota.
    rewrite Hs. cbn [mbind option_bind]. rewrite Hf. cbn [mbind option_bind]. rewrite He. cbn [mbind option_bind].
    change (EmptyString +:+ EmptyString) with EmptyString. by rewrite string_app_empty_r.
Qed.

(** The head of a number. *)
Lemma pretty_head (n : Z) : exists c t, pretty n = String c t /\ (code c =? 45) || is_num (code c) = true.
Proof.
  destruct n as [|p|p]; [by exists "0"%char, EmptyString| |by exists "-"%char, (pretty (Npos p))].
  destruct (scan_pos p EmptyString I) as (c & t & Hc & Hn & _). exists c, t. by rewrite Hn, orb_true_r.
Qed.

(** ** The loops of the scanner *)

Section loops.
Context (scan : string -> option (Json.json * string)).

Fixpoint elems (fuel : nat) (s : string) : option (list Json.json * string) :=
  match fuel with
  | O => None
  | S fuel =>
      '(v, s) ← scan s;
      match Json.skip_space s with
      | String b s =>
          if code b =? 44 then '(l, s) ← elems fuel s; Some (v :: l, s)
          else if code b =? 93 then Some ([v], s) else None
      | EmptyString => None
      end
  end.

Fixpoint members (fuel : nat) (s : string) : option (list (string * Json.json) * string) :=
  match fuel with
  | O => None
  | S fuel =>
      match Json.skip_space s with
      | String q s =>
          if code q =? 34 then
            '(k, s) ← Json.scan_string s;
            match Json.skip_space s with
            | String b s =>
                if code b =? 58 then
                  '(v, s) ← scan s;
                  match Json.skip_space s with
                  | String b s =>
                      if code b =? 44 then '(l, s) ← members fuel s; Some ((k, v) :: l, s)
                      else if code b =? 125 then Some ([(k, v)], s) else None
                  | EmptyString => None
                  end
                else None
            | EmptyString => None
            end
          else None
      | EmptyString => None
      end
  end.

(** What [scan] finds of the elements written one after the other. *)
Definition reads (v : value) : Prop := forall x, ends x -> scan (Marshal v +:+ x) = Some (tree v, x).

Definition item (v : value) : string := Marshal v.
Definition entry (kv : string * value) : string := quoted kv.1 +:+ ":" +:+ Marshal kv.2.

Lemma concat_cons {A} (f : A -> string) a b l x :
  String.concat "," (f <$> a :: b :: l) +:+ x = f a +:+ String "," (String.concat "," (f <$> b :: l) +:+ x).
Proof. cbn [fmap list_fmap String.concat]. rewrite <- !string_app_assoc. by rewrite app_String. Qed.

Lemma elems_reads l : forall fuel x, Forall reads l -> l <> [] -> (length l <= fuel)%nat ->
  elems fuel (String.concat "," (Marshal <$> l) +:+ String "]" x) = Some (tree <$> l, x).
Proof.
  induction l as [|v l IH]; intros fuel x Hl Hne Hf; [done|]. destruct fuel as [|fuel]; [cbn in Hf; lia|].
  apply Forall_cons in Hl as [Hv Hl]. destruct l as [|w l].
  - cbn [fmap list_fmap String.concat elems]. rewrite Hv by done. done.
  - rewrite concat_cons. cbn [elems]. rewrite Hv by done. cbn [mbind option_bind].
    change (Json.skip_space (String "," ?z)) with (String "," z). cbv beta iota. change (code "," =? 44) with true. cbv iota.
    rewrite IH by (done || cbn in *; lia). done.
Qed.

Lemma members_reads l : forall fuel x, Forall (fun kv => reads kv.2) l -> l <> [] -> (length l <= fuel)%nat ->
  members fuel (String.concat "," (entry <$> l) +:+ String "}" x) = Some ((fun kv => (escape kv.1, tree kv.2)) <$> l, x).
Proof.
  assert (Hentry : forall kv z, entry kv +:+ z = String quote (escape kv.1 +:+ String quote (String ":" (Marshal kv.2 +:+ z)))).
  { intros kv z. unfold entry, quoted. rewrite <- !string_app_assoc, !app_String, <- string_app_assoc. done. }
  induction l as [|kv l IH]; intros fuel x Hl Hne Hf; [done|]. destruct fuel as [|fuel]; [cbn in Hf; lia|].
  apply Forall_cons in Hl as [Hv Hl]. destruct l as [|w l].
  - cbn [fmap list_fmap String.concat members]. rewrite Hentry. cbn [Json.skip_space].
    change (Json.is_space (code quote)) with false. cbv iota. change (code quote =? 34) with true. cbv iota.
    rewrite scan_escape. cbn [mbind option_bind]. cbn [Json.skip_space]. change (Json.is_space (code ":")) with false. cbv iota.
    change (code ":" =? 58) with true. cbv iota. rewrite Hv by done. done.
  - rewrite concat_cons, Hentry. cbn [members Json.skip_space].
    change (Json.is_space (code quote)) with false. cbv iota. change (code quote =? 34) with true. cbv iota.
    rewrite scan_escape. cbn [mbind option_bind]. cbn [Json.skip_space]. change (Json.is_space (code ":")) with false. cbv iota.
    change (code ":" =? 58) with true. cbv iota. rewrite Hv by done. cbn [mbind option_bind].
    change (Json.skip_space (String "," ?z)) with (String "," z). cbv beta iota. change (code "," =? 44) with true. cbv iota.
    rewrite IH by (done || cbn in *; lia). done.
Qed.
End loops.

Lemma scan_array d r : Json.scan_value (S d) (String "[" r) =
  match Json.skip_space r with
  | String b rest => if code b =? 93 then Some (Json.JArr [], rest)
                     else '(l, rest) ← elems (Json.scan_value d) (String.length r) r; Some (Json.JArr l, rest)
  | EmptyString => None
  end.
Proof. reflexivity. Qed.

Lemma scan_object d r : Json.scan_value (S d) (String "{" r) =
  match Json.skip_space r with
  | String b rest => if code b =? 125 then Some (Json.JObj [], rest)
                     else '(l, rest) ← members (Json.scan_value d) (String.length r) r; Some (Json.JObj l, rest)
  | EmptyString => None
  end.
Proof. reflexivity. Qed.

(** ** The whole value *)

Lemma Marshal_head v : exists c t, Marshal v = String c t /\ Json.is_space (code c) = false /\ (code c =? 93) = false.
Proof.
  destruct v as [|[]|n|s|l|l]; try (eexists _, _; split; [reflexivity|by split]).
  destruct (pretty_head n) as (c & t & Hc & Hn). exists c, t. split; [done|].
  unfold Json.is_space, is_num, between in *. lia.
Qed.

Lemma concat_length {A} (f : A -> string) l : Forall (fun a => (1 <= String.length (f a))%nat) l ->
  (length l <= String.length (String.concat "," (f <$> l)))%nat.
Proof.
  induction 1 as [|a l Ha _ IH]; [cbn; lia|]. destruct l as [|b l]; [cbn; lia|].
  change (String.concat "," (f <$> a :: b :: l)) with (f a +:+ "," +:+ String.concat "," (f <$> b :: l)).
  rewrite !length_append. cbn [String.length length] in *. lia.
Qed.

Lemma concat_head {A} (f : A -> string) a l : exists u, String.concat "," (f <$> a :: l) = f a +:+ u.
Proof. destruct l as [|b l]; [exists EmptyString; by rewrite string_app_empty_r|eexists; reflexivity]. Qed.

Lemma scan_num d n : reads (Json.scan_value d) (VNum n).
Proof.
  intros x Hx. destruct (pretty_head n) as (c & t & Hc & Hn). pose proof (scan_pretty n x Hx) as Hs.
  cbn [Marshal tree]. rewrite Hc in *. rewrite app_String in *.
  assert (Hsp : Json.is_space (code c) = false) by (unfold Json.is_space, is_num, between in *; lia).
  assert (Hp : forall b p, (code b =? 45) || is_num (code b) = false -> HasPrefix (String c (t +:+ x)) (String b p) = false).
  { intros b p Hb. unfold HasPrefix; fold HasPrefix. destruct (code c =? code b) eqn:E; [|done].
    apply Z.eqb_eq in E. congruence. }
  destruct d as [|d]; cbn [Json.scan_value Json.skip_space]; rewrite Hsp, (proj2 (Z.eqb_neq (code c) 34)) by
    (unfold is_num, between in Hn; lia); rewrite !Hp by reflexivity; by rewrite Hn, Hs.
Qed.

Lemma scan_str d s : reads (Json.scan_value d) (VStr s).
Proof.
  intros x _. cbn [Marshal tree]. unfold quoted. rewrite app_String, <- string_app_assoc, app_String.
  change (EmptyString +:+ x) with x.
  destruct d as [|d]; cbn [Json.scan_value Json.skip_space]; change (Json.is_space (code quote)) with false; cbv iota;
    change (code quote =? 34) with true; cbv iota; by rewrite scan_escape.
Qed.

Lemma max_list_le n l : (max_list l <= n)%nat -> Forall (fun m => (m <= n)%nat) l.
Proof. induction l as [|m l IH]; cbn; intros Hn; constructor; [lia|apply IH; lia]. Qed.

Lemma nest_values {A} (f : A -> value) l d : (S (max_list ((nest ∘ f) <$> l)) <= S d)%nat ->
  Forall (fun a => (nest (f a) <= d)%nat) l.
Proof. intros Hd%le_S_n. by apply max_list_le, Forall_fmap in Hd. Qed.

(** Induction through arrays and objects. *)
Lemma value_nested_ind (P : value -> Prop) :
  P VNull -> (forall b, P (VBool b)) -> (forall n, P (VNum n)) -> (forall s, P (VStr s)) ->
  (forall l, Forall P l -> P (VArr l)) -> (forall l, Forall (fun kv => P kv.2) l -> P (VObj l)) ->
  forall v, P v.
Proof.
  intros Hnull Hbool Hnum Hstr Harr Hobj v. cut (forall d v, (nest v <= d)%nat -> P v); [intros H; by apply (H (nest v))|].
  clear v. induction d as [|d IH]; intros [| | | |l|l] Hd; auto; cbn [nest] in Hd; try lia.
  - apply Harr. eapply Forall_impl; [by apply (nest_values id)|]. auto.
  - apply Hobj. eapply Forall_impl; [by apply (nest_values snd)|]. intros kv. apply IH.
Qed.

Lemma Marshal_reads d : forall v, (nest v <= d)%nat -> reads (Json.scan_value d) v.
Proof.
  induction d as [|d IH]; intros v Hd; destruct v as [|b|n|s|l|l]; try apply scan_num; try apply scan_str;
    try (intros [|a x] _; first [reflexivity|destruct b; reflexivity]); cbn [nest] in Hd; try lia.
  - intros x _. cbn [Marshal tree]. rewrite !app_String. change (EmptyString +:+ ?z) with z.
    rewrite <- string_app_assoc, app_String. change (EmptyString +:+ x) with x. rewrite scan_array.
    destruct l as [|v l]; [reflexivity|]. destruct (Marshal_head v) as (c & t & Hc & Hsp & Hb).
    destruct (concat_head Marshal v l) as [u Hu].
    assert (Hrs : Forall (reads (Json.scan_value d)) (v :: l)).
    { eapply Forall_impl; [by apply (nest_values id)|]. apply IH. }
    assert (Hlen : (length (v :: l) <= String.length (String.concat "," (Marshal <$> v :: l) +:+ String "]" x))%nat).
    { rewrite length_append. etransitivity; [apply (concat_length Marshal)|lia]. apply Forall_forall. intros w _.
      destruct (Marshal_head w) as (? & ? & -> & _). cbn. lia. }
    rewrite (elems_reads _ (v :: l)) by done. rewrite Hu, Hc, !app_String. cbn [Json.skip_space]. by rewrite Hsp, Hb.
  - intros x _. cbn [Marshal tree]. rewrite !app_String. change (EmptyString +:+ ?z) with z.
    rewrite <- string_app_assoc, app_String. change (EmptyString +:+ x) with x. rewrite scan_object.
    destruct l as [|kv l]; [reflexivity|]. destruct (concat_head entry kv l) as [u Hu].
    assert (Hrs : Forall (fun kv => reads (Json.scan_value d) kv.2) (kv :: l)).
    { eapply Forall_impl; [by apply (nest_values snd)|]. intros w. apply IH. }
    assert (Hlen : (length (kv :: l) <= String.length (String.concat "," (entry <$> kv :: l) +:+ String "}" x))%nat).
    { rewrite length_append. etransitivity; [apply (concat_length entry)|lia]. apply Forall_forall. intros w _.
      unfold entry, quoted. rewrite !app_String. cbn. lia. }
    change (String.concat "," ((fun kv => quoted kv.1 +:+ ":" +:+ Marshal kv.2) <$> kv :: l)) with
      (String.concat "," (entry <$> kv :: l)).
    rewrite (members_reads _ (kv :: l)) by done. rewrite Hu. unfold entry at 1, quoted. rewrite !app_String. done.
Qed.

(** The decoder finds what was encoded. *)
Lemma scan_Marshal v x : (nest v <= Json.maxNestingDepth)%nat -> ends x ->
  Json.scan_value Json.maxNestingDepth (Marshal v +:+ x) = Some (tree v, x).
Proof. intros Hv. by apply Marshal_reads. Qed.

Lemma decoded_tree v : decoded (tree v) = shown v.
Proof.
  induction v as [| | | |l IH|l IH] using value_nested_ind; cbn [tree decoded shown]; try done.
  - by rewrite text_escape.
  - f_equal. rewrite <- list_fmap_compose. apply list_fmap_ext. intros i v Hi. by eapply Forall_lookup_1 in IH.
  - f_equal. rewrite <- list_fmap_compose. apply list_fmap_ext. intros i kv Hi.
    unfold compose. cbv beta. cbn [fst snd]. rewrite text_escape. f_equal. by eapply Forall_lookup_1 in IH.
Qed.

(** A document is read back as it was meant. *)
Lemma read_Marshal_app v x : (nest v <= Json.maxNestingDepth)%nat -> ends x -> Json.skip_space x = "" ->
  read (Marshal v +:+ x) = Some (shown v).
Proof. intros Hv Hx Hs. unfold read. by rewrite scan_Marshal, Hs, decoded_tree. Qed.

Lemma read_Marshal v : (nest v <= Json.maxNestingDepth)%nat -> read (Marshal v) = Some (shown v).
Proof. intros Hv. rewrite <- (string_app_empty_r (Marshal v)). by apply read_Marshal_app. Qed.

(** A time in the years 1 to 9999. *)
Definition dated (t : Time) : Prop := 0 <= t < max_time.

Lemma time_value_ok type t : dated t -> time_value type t = inr (VStr (Rfc3339.Format t)).
Proof.
  intros Ht. unfold time_value. assert (Hn : 0 <= t / Rfc3339.ns_per_day < 3652059).
  { unfold dated, max_time, Rfc3339.ns_per_day in *. lia_div. }
  pose proof (Civil.of_days_year _ Hn). by replace ((0 <=? _) && (_ <=? 9999)) with true by lia.
Qed.

(** ASCII text is what it is. *)
Lemma to_valid_ascii s : all_bytes (fun c => c <? 128) s = true -> to_valid s = s.
Proof.
  unfold to_valid. enough (H : forall f, (String.length s <= f)%nat -> all_bytes (fun c => c <? 128) s = true ->
    to_valid_fuel f s = s) by (intros; by apply H).
  induction s as [|a s IH]; intros [|f] Hf; [done..|cbn in Hf; lia|]. cbn [all_bytes]. intros [Ha Hs]%andb_true_iff.
  cbn [to_valid_fuel]. rewrite Ha, IH; [done| |done]. cbn in Hf. lia.
Qed.

Lemma time_read t : dated t -> Rfc3339.Parse (to_valid (Rfc3339.Format t)) = Some t.
Proof.
  intros Ht. rewrite to_valid_ascii.
  - unfold Rfc3339.Parse. by rewrite Rfc3339.parse_Format.
  - eapply all_bytes_impl; [|by apply Format_bytes]. unfold time_byte. intros c. lia.
Qed.

(** Members are looked up under keys known in advance. *)
Ltac read_members :=
  repeat match goal with |- context [JsonOut.to_valid (String ?a ?b)] =>
    let v := eval vm_compute in (JsonOut.to_valid (String a b)) in change (JsonOut.to_valid (String a b)) with v end;
  repeat match goal with |- context [bool_decide (String ?a ?b = String ?x ?y)] =>
    let v := eval vm_compute in (bool_decide (String a b = String x y)) in
    change (bool_decide (String a b = String x y)) with v end.

(** ** What never appears in the output

    No byte below a space, so no line ends, and none of the three characters
    a page could read as markup. *)

Definition plain (c : Z) : bool := (32 <=? c) && negb ((c =? 60) || (c =? 62) || (c =? 38)).

Lemma escape_byte_plain a : code a < 128 -> all_bytes plain (escape_byte a) = true.
Proof. intros Ha. destruct a as [[] [] [] [] [] [] [] []]; try (exfalso; revert Ha; vm_compute; discriminate); reflexivity. Qed.

Lemma high_plain s : all_bytes high s = true -> all_bytes plain s = true.
Proof. apply all_bytes_impl. intros c Hc. unfold high, plain in *. lia. Qed.

Lemma escape_rune_plain r : all_bytes high r = true -> all_bytes plain (escape_rune r) = true.
Proof. intros Hr. unfold escape_rune. repeat case_bool_decide; [done..|by apply high_plain]. Qed.

Lemma escape_plain s : all_bytes plain (escape s) = true.
Proof.
  unfold escape. generalize (String.length s). intros f. revert s. induction f as [|f IH]; intros [|a s]; [done..|].
  cbn [escape_fuel]. destruct (code a <? 128) eqn:Ea.
  { apply Z.ltb_lt in Ea. by rewrite all_bytes_app, IH, escape_byte_plain. }
  pose proof (rune_size_pos a s) as Hpos. destruct (decide (wide (String a s))) as [Hw|Hw].
  - destruct (wide_cases _ Hw) as (r & t & Hs & Hr & Hh & _). unfold wide in Hw.
    destruct (rune_size (String a s)) as [|[|n]]; [lia|lia|]. rewrite Hs, <- Hr, string_take_app, string_drop_app.
    by rewrite all_bytes_app, escape_rune_plain, IH.
  - unfold wide in Hw. assert (rune_size (String a s) = 1%nat) as -> by lia. by rewrite all_bytes_app, IH.
Qed.

Lemma num_plain (n : Z) : all_bytes plain (pretty n) = true.
Proof.
  assert (Hp : forall m : Z, 0 <= m -> all_bytes plain (pretty m) = true).
  { intros m Hm. eapply all_bytes_impl; [|by apply port_digits].
    intros c Hc. unfold is_num, between, plain in *. lia. }
  destruct n as [|p|p]; [by apply Hp..|]. change (pretty (Zneg p)) with (String "-" (pretty (Npos p))).
  change (pretty (Npos p)) with (pretty (Zpos p)). cbn [all_bytes]. by rewrite Hp.
Qed.

Lemma quoted_plain s : all_bytes plain (quoted s) = true.
Proof. unfold quoted. cbn [all_bytes]. by rewrite all_bytes_app, escape_plain. Qed.

Lemma concat_plain {A} (f : A -> string) l : Forall (fun a => all_bytes plain (f a) = true) l ->
  all_bytes plain (String.concat "," (f <$> l)) = true.
Proof.
  induction 1 as [|a l Ha Hl IH]; [done|]. destruct l as [|b l]; [done|].
  change (String.concat "," (f <$> a :: b :: l)) with (f a +:+ "," +:+ String.concat "," (f <$> b :: l)).
  by rewrite !all_bytes_app, Ha, IH.
Qed.

Lemma Marshal_plain v : all_bytes plain (Marshal v) = true.
Proof.
  induction v as [| [] | | |l IH|l IH] using value_nested_ind; cbn [Marshal]; auto using num_plain, quoted_plain.
  - by rewrite !all_bytes_app, concat_plain.
  - rewrite !all_bytes_app, concat_plain; [done|]. eapply Forall_impl; [done|]. intros kv Hkv. cbn.
    by rewrite !all_bytes_app, quoted_plain, Hkv.
Qed.

(** ** Encoding several values *)

Lemma collect_inr {A} (l : list (string + A)) l' : collect l = inr l' <-> l = inr <$> l'.
Proof.
  revert l'. induction l as [|[err|a] l IH]; intros l'; cbn [collect].
  - split; [by intros [= <-]|]. by destruct l'.
  - split; [done|]. by destruct l'.
  - destruct (collect l) as [err|l0]; split; [done| |intros [= <-]; cbn; f_equal; by apply IH|].
    + destruct l' as [|a' l']; [done|]. intros [= -> Hl]. by apply IH in Hl.
    + destruct l' as [|a' l']; [done|]. intros [= -> Hl]. apply IH in Hl. congruence.
Qed.
