(* ===== verification/Logging.v ===== *)
(** * [pkg/logger]: one JSON object per line

    The state is what has been written to the logger's writer and to standard
    error; a write that fails is ignored by the code and not told here. With
    it come the middlewares that log: [LoggingMiddleware], with the status
    its [responseWriter] remembers, and the log call of
    [RecoveryMiddleware]. Reading the log back line by line gives the entries
    that passed the level, in order and complete, whatever they contain. *)

From S2P Require Import Prelude Errors Cursor NetUrl Json JsonOut OgpUrl OgpUrlThms.
From Stdlib Require Import Ascii.

Local Open Scope string_scope.
Local Open Scope Z_scope.

Module Logger.

Definition DebugLevel : Z := 0.
Definition InfoLevel : Z := 1.
Definition WarnLevel : Z := 2.
Definition ErrorLevel : Z := 3.

(** An [interface{}]: nil, a string, or some other value, known by what
    [json.Marshal] makes of it, the text of an error or a value. *)
Inductive any := ANil | AStr (s : string) | AOther (v : string + JsonOut.value).

Definition AInt (n : Z) : any := AOther (inr (JsonOut.VNum n)).

Definition any_value (a : any) : string + JsonOut.value :=
  match a with
  | ANil => inr JsonOut.VNull
  | AStr s => inr (JsonOut.VStr s)
  | AOther v => v
  end.

Record Entry := mkEntry {
  Timestamp : string; Level : string; Message : string; Fields : gmap string any;
  RequestID : string; UserID : any; EError : string;
}.

(** [New] and [NewWithWriter] choose the same level. *)
Definition New (level : string) : Z :=
  if bool_decide (level = "debug") then DebugLevel
  else if bool_decide (level = "info") then InfoLevel
  else if bool_decide (level = "warn") then WarnLevel
  else if bool_decide (level = "error") then ErrorLevel
  else InfoLevel.

(** What the two context keys hold. *)
Record context := mkContext { requestIDKey : option string; userIDKey : any }.

Definition background : context := mkContext None ANil.

Definition WithRequestID (id : string) (c : context) : context := mkContext (Some id) (userIDKey c).
Definition WithUserID (id : any) (c : context) : context := mkContext (requestIDKey c) id.
Definition getRequestID (c : context) : string := default "" (requestIDKey c).
Definition getUserID (c : context) : any := userIDKey c.

Fixpoint fieldsToMap_from (result : gmap string any) (fields : list any) : gmap string any :=
  match fields with
  | AStr key :: value :: fields => fieldsToMap_from (<[key := value]> result) fields
  | _ :: _ :: fields => fieldsToMap_from result fields
  | _ => result
  end.

Definition fieldsToMap (fields : list any) : gmap string any := fieldsToMap_from ∅ fields.

(** ** An entry as JSON *)

Definition sorted_keys (m : gmap string any) : list string := sort_asc (fun k => k) (elements (dom m)).

(** A map is written with its keys in order, up to the first value that
    cannot be. *)
Definition map_members (m : gmap string any) : string + list (string * JsonOut.value) :=
  JsonOut.collect ((fun k => match any_value (default ANil (m !! k)) with inl err => inl err | inr v => inr (k, v) end)
    <$> sorted_keys m).

(** [json.Marshal(entry)], up to the text. *)
Definition entry_value (e : Entry) : string + JsonOut.value :=
  match map_members (Fields e), any_value (UserID e) with
  | inl err, _ => inl err
  | _, inl err => inl err
  | inr fields, inr user =>
      inr (JsonOut.VObj (
        [("timestamp", JsonOut.VStr (Timestamp e)); ("level", JsonOut.VStr (Level e));
         ("message", JsonOut.VStr (Message e))] ++
        (if bool_decide (Fields e = ∅) then [] else [("fields", JsonOut.VObj fields)]) ++
        JsonOut.omitempty "request_id" JsonOut.VStr (JsonOut.nonempty (RequestID e)) ++
        match UserID e with ANil => [] | _ => [("user_id", user)] end ++
        JsonOut.omitempty "error" JsonOut.VStr (JsonOut.nonempty (EError e))))
  end.

(** ** Writing *)

Record output := mkOutput { writer : string; stderr : string }.

Definition newline : string := String "010"%char EmptyString.

Definition writeEntry (e : Entry) (o : output) : output :=
  match entry_value e with
  | inl err => mkOutput (writer o) (stderr o +:+ "failed to marshal log entry: " +:+ err +:+ newline)
  | inr v => mkOutput (writer o +:+ JsonOut.Marshal v +:+ newline) (stderr o)
  end.

(** [t.UTC().Format(time.RFC3339)]: no fraction. *)
Definition timestamp (now : Time) : string := Rfc3339.Format (now - now mod Second).

Section logger.
Context (level : Z).

Definition log (now : Time) (c : context) (lvl message : string) (fields : list any) (o : output) : output :=
  writeEntry (mkEntry (timestamp now) lvl message (fieldsToMap fields) (getRequestID c) (getUserID c) "") o.

Definition logWithError (now : Time) (c : context) (lvl message : string) (err : option goerror)
    (fieldMap : gmap string any) (o : output) : output :=
  let errMsg := match err with Some e => Error e | None => "" end in
  writeEntry (mkEntry (timestamp now) lvl message fieldMap (getRequestID c) (getUserID c) errMsg) o.

Definition Debug now c message fields o :=
  if level <=? DebugLevel then log now c "DEBUG" message fields o else o.
Definition Info now c message fields o :=
  if level <=? InfoLevel then log now c "INFO" message fields o else o.
Definition Warn now c message fields o :=
  if level <=? WarnLevel then log now c "WARN" message fields o else o.
Definition LogError now c message err fields o :=
  if level <=? ErrorLevel then logWithError now c "ERROR" message err (fieldsToMap fields) o else o.
End logger.
End Logger.

(** ** The middlewares that log *)

Module Access.
Import Logger.

Record responseWriter := mkWriter { statusCode : Z; written : bool }.

(** What a handler does with its writer. *)
Inductive write := WriteHeader (code : Z) | Write (bytes : string).

Definition on_header (code : Z) (rw : responseWriter) : responseWriter :=
  if written rw then rw else mkWriter code true.

Definition on_write (w : write) (rw : responseWriter) : responseWriter :=
  match w with
  | WriteHeader code => on_header code rw
  | Write _ => on_header 200 rw
  end.

Definition recorded (ws : list write) : Z := statusCode (foldl (fun rw w => on_write w rw) (mkWriter 200 false) ws).

(** The access log line of a request that took [duration] milliseconds; no
    part of the program puts the logger's keys on a request's context. *)
Definition LoggingMiddleware (level : Z) (now : Time) (method path : string) (duration : Z) (ws : list write)
    (o : output) : output :=
  Info level now background "HTTP Request"
    [AStr "method"; AStr method; AStr "path"; AStr path; AStr "status"; AInt (recorded ws);
     AStr "duration_ms"; AInt duration] o.

(** The log call of [RecoveryMiddleware] for a panic with [reason]. *)
Definition panic_logged (level : Z) (now : Time) (reason : string) (o : output) : output :=
  LogError level now background "Panic recovered" (Some (ErrorString ("panic recovered: " +:+ reason))) [] o.
End Access.

Import Logger.

(** ** Calls *)

Inductive severity := IsDebug | IsInfo | IsWarn | IsError (err : option goerror).

Definition rank (s : severity) : Z := match s with IsDebug => 0 | IsInfo => 1 | IsWarn => 2 | IsError _ => 3 end.

Definition label (s : severity) : string :=
  match s with IsDebug => "DEBUG" | IsInfo => "INFO" | IsWarn => "WARN" | IsError _ => "ERROR" end.

Record call := mkCall {
  sev : severity; at_ : Time; ctx : context; message : string; fields : list any;
}.

Definition perform (level : Z) (k : call) (o : output) : output :=
  match sev k with
  | IsDebug => Debug level (at_ k) (ctx k) (message k) (fields k) o
  | IsInfo => Info level (at_ k) (ctx k) (message k) (fields k) o
  | IsWarn => Warn level (at_ k) (ctx k) (message k) (fields k) o
  | IsError err => LogError level (at_ k) (ctx k) (message k) err (fields k) o
  end.

Definition entry_of (k : call) : Entry :=
  mkEntry (timestamp (at_ k)) (label (sev k)) (message k) (fieldsToMap (fields k)) (getRequestID (ctx k)) (getUserID (ctx k))
    (match sev k with IsError (Some e) => Error e | _ => "" end).

(** The document a call writes, if any. *)
Definition document (level : Z) (k : call) : option JsonOut.value :=
  if level <=? rank (sev k) then match entry_value (entry_of k) with inl _ => None | inr v => Some v end else None.

Definition line (v : JsonOut.value) : string := JsonOut.Marshal v +:+ newline.

Lemma perform_writes level k o :
  writer (perform level k o) = writer o +:+ match document level k with Some v => line v | None => "" end.
Proof.
  unfold perform, document, entry_of. destruct k as [s t c m f]. cbn [sev at_ ctx message fields].
  destruct s as [| | |[e|]]; cbn [rank label];
    unfold Debug, Info, Warn, LogError, DebugLevel, InfoLevel, WarnLevel, ErrorLevel, log, logWithError, writeEntry;
    (destruct (level <=? _); [|by rewrite string_app_empty_r]);
    (destruct (entry_value _); cbn [writer]; [by rewrite string_app_empty_r|done]).
Qed.

(** ** Reading the log *)

Fixpoint read_log (fuel : nat) (s : string) : list (option Json.json) :=
  match fuel, s with
  | S fuel, String _ _ => let '(text, rest, _) := Cut "010"%char s in JsonOut.read text :: read_log fuel rest
  | _, _ => []
  end.

Definition the_log (s : string) : list (option Json.json) := read_log (String.length s) s.

Lemma Cut_line t rest : all_bytes plain t = true -> Cut "010"%char (t +:+ String "010"%char rest) = (t, rest, true).
Proof.
  induction t as [|a t IH]; [done|]. cbn [all_bytes]. intros [Ha Ht]%andb_true_iff. rewrite app_String. cbn [Cut].
  rewrite IH by done. unfold plain in Ha. change (code "010") with 10. by rewrite (proj2 (Z.eqb_neq _ _)) by lia.
Qed.

Lemma read_lines (vs : list JsonOut.value) : forall fuel,
  Forall (fun v => (JsonOut.nest v <= Json.maxNestingDepth)%nat) vs -> (length vs <= fuel)%nat ->
  read_log fuel (foldr (fun v s => line v +:+ s) "" vs) = (fun v => Some (JsonOut.shown v)) <$> vs.
Proof.
  induction vs as [|v vs IH]; intros fuel Hn Hf; [by destruct fuel|]. destruct fuel as [|fuel]; [cbn in Hf; lia|].
  apply Forall_cons in Hn as [Hv Hn]. cbn [foldr fmap list_fmap]. set (rest := foldr _ _ vs) in *.
  assert (line v +:+ rest = JsonOut.Marshal v +:+ String "010"%char rest) as ->.
  { unfold line, newline. by rewrite <- string_app_assoc, app_String. }
  pose proof (Cut_line (JsonOut.Marshal v) rest (Marshal_plain v)) as Hcut.
  destruct (Marshal_head v) as (c & t & Hc & _). rewrite Hc in Hcut |- *. rewrite app_String in *. cbn [read_log].
  cbn [length] in Hf. rewrite Hcut, <- Hc, read_Marshal, IH by (done || lia). done.
Qed.

Lemma lines_length vs : (length vs <= String.length (foldr (fun v s => line v +:+ s) "" vs))%nat.
Proof.
  induction vs as [|v vs IH]; cbn [foldr length]; [cbn; lia|]. rewrite length_append.
  assert (1 <= String.length (line v))%nat by (unfold line; rewrite length_append; cbn [String.length newline]; lia). lia.
Qed.

Lemma read_the_log vs : Forall (fun v => (JsonOut.nest v <= Json.maxNestingDepth)%nat) vs ->
  the_log (foldr (fun v s => line v +:+ s) "" vs) = (fun v => Some (JsonOut.shown v)) <$> vs.
Proof. intros Hv. apply read_lines; [done|apply lines_length]. Qed.

Lemma perform_all level ks : forall o,
  writer (foldl (fun o k => perform level k o) o ks) =
  writer o +:+ foldr (fun v s => line v +:+ s) "" (omap (document level) ks).
Proof.
  induction ks as [|k ks IH]; intros o; cbn [foldl omap list_omap]; [by rewrite string_app_empty_r|].
  rewrite IH, perform_writes. destruct (document level k); cbn [foldr]; [by rewrite string_app_assoc|].
  by rewrite string_app_empty_r.
Qed.

(** ** Fields *)

(** The [n]th pair of the fields gives [key] the value [a]. A last odd field
    is no pair. *)
Definition gives (fields : list any) (key : string) (n : nat) (a : any) : Prop :=
  fields !! (2 * n)%nat = Some (AStr key) /\ fields !! (2 * n + 1)%nat = Some a.

(** The last pair of the fields with this key gives it the value [a]. *)
Definition last_given (fields : list any) (key : string) (a : any) : Prop :=
  exists n, gives fields key n a /\ forall m b, (n < m)%nat -> ~ gives fields key m b.

Lemma gives_S x y fs key n a : gives (x :: y :: fs) key (S n) a <-> gives fs key n a.
Proof.
  unfold gives. replace (2 * S n)%nat with (S (S (2 * n))) by lia.
  by replace (S (S (2 * n)) + 1)%nat with (S (S (2 * n + 1))) by lia.
Qed.

Lemma gives_0 x y fs key a : gives (x :: y :: fs) key 0 a <-> x = AStr key /\ y = a.
Proof. unfold gives. cbn. split; [by intros [[= ->] [= ->]]|by intros [-> ->]]. Qed.

Lemma last_given_pair x y fs key a :
  last_given (x :: y :: fs) key a <->
  last_given fs key a \/ ((forall n b, ~ gives fs key n b) /\ x = AStr key /\ y = a).
Proof.
  split.
  - intros ([|n] & Hg & Hlast).
    + right. split; [|by apply (gives_0 x y fs)]. intros m b Hm. apply (Hlast (S m) b); [lia|by apply gives_S].
    + left. exists n. split; [by apply (gives_S x y)|]. intros m b Hm Hb. apply (Hlast (S m) b); [lia|by apply gives_S].
  - intros [(n & Hg & Hlast)|(Hno & -> & ->)].
    + exists (S n). split; [by apply gives_S|]. intros [|m] b Hm; [lia|]. rewrite gives_S. apply Hlast. lia.
    + exists 0%nat. split; [by apply gives_0|]. intros [|m] b Hm; [lia|]. rewrite gives_S. apply Hno.
Qed.

(** Fewer than two fields give nothing. *)
Lemma gives_short fs key n a : (length fs < 2)%nat -> ~ gives fs key n a.
Proof. intros Hl [_ Hn]. apply lookup_lt_Some in Hn. lia. Qed.

Lemma fieldsToMap_from_lookup fs key a : forall m,
  fieldsToMap_from m fs !! key = Some a <->
  last_given fs key a \/ ((forall n b, ~ gives fs key n b) /\ m !! key = Some a).
Proof.
  assert (Hshort : forall fs (m : gmap string any), (length fs < 2)%nat -> m !! key = Some a <->
    last_given fs key a \/ ((forall n b, ~ gives fs key n b) /\ m !! key = Some a)).
  { intros fs' m Hl. split; [right; split; [by intros n b; apply gives_short|done]|].
    intros [(n & Hg & _)|[_ ?]]; [by destruct (gives_short _ _ _ _ Hl Hg)|done]. }
  induction fs as [fs IH] using (induction_ltof1 _ (@length any)). unfold ltof in IH. intros m.
  destruct fs as [|x [|y fs]].
  - by apply Hshort; cbn; lia.
  - destruct x; apply (Hshort [_]); cbn; lia.
  - assert (Hstep : fieldsToMap_from m (x :: y :: fs) =
      fieldsToMap_from match x with AStr k => <[k := y]> m | _ => m end fs) by (by destruct x).
    rewrite Hstep, IH, last_given_pair by (cbn; lia). clear Hstep IH Hshort.
    assert (Hno : (forall n b, ~ gives (x :: y :: fs) key n b) <-> (forall n b, ~ gives fs key n b) /\ x <> AStr key).
    { split.
      - intros Hn. split; [intros n b; rewrite <-(gives_S x y); apply Hn|]. intros ->. apply (Hn 0%nat y). by apply gives_0.
      - intros [Hn Hx] [|n] b; [by intros [? _]%gives_0|]. rewrite gives_S. apply Hn. }
    assert (Hlook : match x with AStr k => <[k := y]> m | _ => m end !! key = Some a <->
      (x = AStr key /\ y = a) \/ (x <> AStr key /\ m !! key = Some a)).
    { destruct x as [|k|v]; [naive_solver| |naive_solver]. rewrite lookup_insert_Some. naive_solver. }
    rewrite Hno, Hlook. naive_solver.
Qed.

Lemma fieldsToMap_lookup fs key a : fieldsToMap fs !! key = Some a <-> last_given fs key a.
Proof. unfold fieldsToMap. rewrite fieldsToMap_from_lookup, lookup_empty. naive_solver. Qed.

(** ** What a line holds *)

Definition encodable (a : any) : Prop := match any_value a with inr _ => True | inl _ => False end.

(** All there is in a call to encode. *)
Definition call_encodable (k : call) : Prop :=
  encodable (userIDKey (ctx k)) /\ forall key a, last_given (fields k) key a -> encodable a.

Definition holds_fields (m : gmap string any) (fs : list (string * JsonOut.value)) : Prop :=
  forall key v, (key, v) ∈ fs <-> exists a, m !! key = Some a /\ any_value a = inr v.

Lemma elem_of_sorted_keys m k : k ∈ sorted_keys m <-> is_Some (m !! k).
Proof. unfold sorted_keys. by rewrite elem_of_sort_asc, elem_of_elements, elem_of_dom. Qed.

Lemma collect_total {A} (l : list (string + A)) : (forall err, inl err ∉ l) -> exists l', JsonOut.collect l = inr l'.
Proof.
  induction l as [|[err|a] l IH]; intros Hl; [by eexists| |].
  - destruct (Hl err). by left.
  - destruct IH as [l' Hl']; [intros err Hin; apply (Hl err); by right|]. cbn. rewrite Hl'. by eexists.
Qed.

Lemma map_members_fields m fs : map_members m = inr fs -> holds_fields m fs.
Proof.
  unfold map_members. intros Hc%collect_inr key v.
  assert (Hin : (key, v) ∈ fs <-> inr (key, v) ∈ (inr : _ -> string + _) <$> fs).
  { rewrite list_elem_of_fmap. split; [by exists (key, v)|]. by intros (y & [= <-] & ?). }
  rewrite Hin, <- Hc, list_elem_of_fmap. split.
  - intros (k & E & Hk). destruct (any_value (default ANil (m !! k))) as [err|v'] eqn:Ev; [done|]. injection E as <- <-.
    apply elem_of_sorted_keys in Hk as [a Ha]. exists a. by rewrite Ha in Ev.
  - intros (a & Ha & Hv). exists key. rewrite Ha. cbn [default from_option id]. rewrite Hv. split; [done|]. apply elem_of_sorted_keys. eauto.
Qed.

Lemma map_members_total m : (forall key a, m !! key = Some a -> encodable a) <-> exists fs, map_members m = inr fs.
Proof.
  split.
  - intros Hm. apply collect_total. intros err Hin. apply list_elem_of_fmap in Hin as (k & E & [a Ha]%elem_of_sorted_keys).
    specialize (Hm k a Ha). unfold encodable in Hm. rewrite Ha in E. cbn in E. by destruct (any_value a).
  - intros [fs Hfs] key a Ha. unfold map_members in Hfs. apply collect_inr in Hfs. unfold encodable.
    destruct (any_value a) as [err|v] eqn:E; [|done].
    assert (Hin : inl err ∈ (inr : _ -> string + (string * JsonOut.value)) <$> fs).
    { rewrite <- Hfs. apply list_elem_of_fmap. exists key. rewrite Ha. cbn. rewrite E. split; [done|].
      apply elem_of_sorted_keys. eauto. }
    by apply list_elem_of_fmap in Hin as (? & ? & _).
Qed.

(** A call is dropped below the level and when something in it cannot be
    encoded; otherwise its line holds all of it. *)
Lemma document_spec level k :
  match document level k with
  | None => rank (sev k) < level \/ ~ call_encodable k
  | Some v => level <= rank (sev k) /\ call_encodable k /\ exists rest,
      v = JsonOut.VObj ([("timestamp", JsonOut.VStr (timestamp (at_ k))); ("level", JsonOut.VStr (label (sev k)));
                         ("message", JsonOut.VStr (message k))] ++ rest) /\
      ((exists key a, last_given (fields k) key a) -> exists fs, ("fields", JsonOut.VObj fs) ∈ rest /\
         forall key v, (key, v) ∈ fs <-> exists a, last_given (fields k) key a /\ any_value a = inr v) /\
      (forall e, sev k = IsError (Some e) -> Error e <> "" -> ("error", JsonOut.VStr (Error e)) ∈ rest)
  end.
Proof.
  unfold document. destruct (Z.leb_spec level (rank (sev k))) as [Hl|Hl]; [|by left].
  unfold entry_value, entry_of. cbn [Fields UserID Timestamp Level Message RequestID EError].
  destruct (map_members (fieldsToMap (fields k))) as [err|fs] eqn:Efs.
  { right. intros [_ Henc]. destruct (proj1 (map_members_total (fieldsToMap (fields k)))) as [fs Hfs]; [|congruence].
    intros key a Ha. by eapply Henc, fieldsToMap_lookup. }
  unfold getUserID. destruct (any_value (userIDKey (ctx k))) as [err|u] eqn:Eu.
  { right. intros [Henc _]. unfold encodable in Henc. by rewrite Eu in Henc. }
  split; [done|]. split.
  { split; [unfold encodable; by rewrite Eu|]. intros key a Ha%fieldsToMap_lookup.
    by eapply (proj2 (map_members_total (fieldsToMap (fields k)))); eauto. }
  eexists. split; [reflexivity|]. split.
  - intros (key & a & Ha%fieldsToMap_lookup). exists fs. split.
    + rewrite bool_decide_eq_false_2; [left|]. intros E. by rewrite E, lookup_empty in Ha.
    + intros key' v. rewrite (map_members_fields _ _ Efs key' v). by setoid_rewrite fieldsToMap_lookup.
  - intros e He Hne. rewrite He. unfold JsonOut.nonempty. rewrite (bool_decide_eq_false_2 (Error e = "")) by done. do 3 (apply elem_of_app; right). by left.
Qed.

(** ** The access log *)

Lemma recorded_first ws :
  Access.recorded ws = match ws with Access.WriteHeader code :: _ => code | _ => 200 end.
Proof.
  assert (Hdone : forall ws code, foldl (fun rw w => Access.on_write w rw) (Access.mkWriter code true) ws = Access.mkWriter code true).
  { induction ws0 as [|[c|b] ws0 IH]; intros code; [done|apply IH..]. }
  unfold Access.recorded. destruct ws as [|[code|bytes] ws]; [done|cbn; by rewrite Hdone..].
Qed.
