(* ===== verification/OgpHtml.v ===== *)
(** * Metadata of a page: pkg/ogp/parser.go and fetcher.go

    Walking the document for Open Graph tags, resolving the addresses found,
    and the fetch around it. The HTML parser and the HTTP client are
    parameters. *)

From S2P Require Import Prelude Errors Monad GoStrings Cursor NetUrl NetIP OgpUrl OgpUrlThms.
From S2P Require Import Domain Repository.
From Stdlib Require Import Ascii.

(** ** [golang.org/x/net/html]: the tree the code walks *)

Inductive node_type := TextNode | ElementNode | OtherNode.

Inductive node := Node (Type_ : node_type) (Data : string) (Attr : list (string * string)) (children : list node).

(** What [io.Reader] delivers: its bytes, then an error other than [io.EOF], or the end. *)
Record reader := mkReader { content : string; read_err : option goerror }.

Class HtmlLib := { html_Parse : reader -> goerror + node }.

Definition is_element (n : node) : bool :=
  match n with Node ElementNode _ _ _ => true | _ => false end.
Definition node_data (n : node) : string := let 'Node _ d _ _ := n in d.
Definition node_attr (n : node) : list (string * string) := let 'Node _ _ a _ := n in a.
Definition node_children (n : node) : list node := let 'Node _ _ _ c := n in c.

Module Parser.
Local Open Scope string_scope.
Import GoText UrlText.

Module Metadata.
Record t := mk {
  Title : string;
  Description : string;
  ImageURL : string;
  SiteName : string;
  CanonicalURL : string;
}.
Definition empty : t := mk "" "" "" "" "".
Definition set_Title (s : string) (m : t) : t := mk s (Description m) (ImageURL m) (SiteName m) (CanonicalURL m).
Definition set_Description (s : string) (m : t) : t := mk (Title m) s (ImageURL m) (SiteName m) (CanonicalURL m).
Definition set_ImageURL (s : string) (m : t) : t := mk (Title m) (Description m) s (SiteName m) (CanonicalURL m).
Definition set_SiteName (s : string) (m : t) : t := mk (Title m) (Description m) (ImageURL m) s (CanonicalURL m).
Definition set_CanonicalURL (s : string) (m : t) : t := mk (Title m) (Description m) (ImageURL m) (SiteName m) s.
End Metadata.
Import Metadata.

(** The nodes in the order [walk] visits them. *)
Fixpoint walk (n : node) : list node :=
  let 'Node _ _ _ cs := n in
  n :: (fix go (cs : list node) : list node := match cs with [] => [] | c :: cs => (walk c ++ go cs)%list end) cs.

(** The value the attribute loop leaves in the variable of [key]. *)
Definition attr (key : string) (attrs : list (string * string)) : string :=
  foldl (fun v a => if bool_decide (a.1 = key) then a.2 else v) "" attrs.

Definition one (s : string) (l : list string) : bool := bool_decide (s ∈ l).

(** [if *field == "" { *field = content }]. *)
Definition if_empty (get : t -> string) (set : string -> t -> t) (content : string) (m : t) : t :=
  if bool_decide (get m = "") then set content m else m.

Definition apply_property (property content : string) (m : t) : t :=
  if bool_decide (property = "og:title") then set_Title content m
  else if bool_decide (property = "og:description") then set_Description content m
  else if one property ["og:image"; "og:image:secure_url"; "og:image:url"]
  then if_empty ImageURL set_ImageURL content m
  else if bool_decide (property = "og:site_name") then set_SiteName content m
  else if bool_decide (property = "og:url") then set_CanonicalURL content m
  else m.

Definition apply_name (name content : string) (m : t) : t :=
  if bool_decide (name = "twitter:title") then if_empty Title set_Title content m
  else if bool_decide (name = "twitter:description") then if_empty Description set_Description content m
  else if one name ["twitter:image"; "twitter:image:src"] then if_empty ImageURL set_ImageURL content m
  else if bool_decide (name = "description") then if_empty Description set_Description content m
  else m.

Definition applyMeta (n : node) (m : t) : t :=
  let content := TrimSpace (attr "content" (node_attr n)) in
  if bool_decide (content = "") then m
  else apply_name (attr "name" (node_attr n)) content (apply_property (attr "property" (node_attr n)) content m).

Definition applyLink (n : node) (m : t) : t :=
  if negb (bool_decide (CanonicalURL m = "")) then m
  else if bool_decide (attr "rel" (node_attr n) = "canonical")
  then set_CanonicalURL (TrimSpace (attr "href" (node_attr n))) m
  else m.

Definition textOf (n : node) : string :=
  TrimSpace (String.concat ""
    (omap (fun c => match c with Node TextNode d _ _ => Some d | _ => None end) (node_children n))).

(** The visitor of [Parse], on the pair of [title] and [m]. *)
Definition visit (st : string * t) (n : node) : string * t :=
  let '(title, m) := st in
  if negb (is_element n) then (title, m)
  else if bool_decide (node_data n = "title") then (if bool_decide (title = "") then textOf n else title, m)
  else if bool_decide (node_data n = "meta") then (title, applyMeta n m)
  else if bool_decide (node_data n = "link") then (title, applyLink n m)
  else (title, m).

Definition resolveURL (base ref : string) : string :=
  if bool_decide (ref = "") then ""
  else
    match URL.Parse base with
    | None => ""
    | Some b =>
        if negb (URL.IsAbs b) then ""
        else
          match URL.Parse ref with
          | None => ""
          | Some r => String_ (ResolveReference b r)
          end
    end.

Definition resolveSafeURL (base ref : string) : string :=
  let abs := resolveURL base ref in
  if bool_decide (abs = "") then ""
  else
    match URL.Parse abs with
    | None => ""
    | Some u =>
        if negb (bool_decide (URL.Scheme u = "http")) && negb (bool_decide (URL.Scheme u = "https")) then ""
        else abs
    end.

(** [Parse] after [html.Parse]: the walk and the fallbacks. *)
Definition metadata (root : node) (baseURL : string) : t :=
  let '(title, m) := foldl visit ("", empty) (walk root) in
  let m := if_empty Title set_Title title m in
  set_CanonicalURL (resolveSafeURL baseURL (CanonicalURL m)) (set_ImageURL (resolveSafeURL baseURL (ImageURL m)) m).

Definition Parse `{HtmlLib} (r : reader) (baseURL : string) : goerror + t :=
  match html_Parse r with
  | inl e => inl e
  | inr root => inr (metadata root baseURL)
  end.
End Parser.

(** ** [pkg/ogp/fetcher.go] *)

Module Fetcher.
Local Open Scope string_scope.
Local Open Scope go_scope.
Import GoText.

Definition DefaultUserAgent : string := "FujuBot/1.0 (+https://fuju.example.com/bot)".
Definition DefaultAcceptLanguage : string := "en,ja;q=0.8".
Definition MaxBodyBytes : Z := 5 * 1024 * 1024.

Definition ErrNotHTML : goerror := ErrorString "ogp: response is not HTML".
Definition DeadlineExceeded : goerror := ErrorString "context deadline exceeded".

Definition is_error (target e : goerror) : bool :=
  match target with ErrorString m => is_sentinel m e | _ => false end.

Definition Retriable (e : goerror) : bool :=
  match as_bad_status e with
  | Some status => (500 <=? status)%Z
  | None =>
      if is_error DeadlineExceeded e then true
      else if is_error NetIP.ErrBlockedAddress e || is_error NetIP.ErrBlockedScheme e then false
      else if is_error ErrNotHTML e then false
      else true
  end.

Record options := mkOptions { opt_UserAgent : string; opt_AcceptLanguage : string }.

(** The header values of [NewFetcher], nil options included. *)
Definition user_agent (o : option options) : string :=
  match o with
  | Some o => if bool_decide (opt_UserAgent o = "") then DefaultUserAgent else opt_UserAgent o
  | None => DefaultUserAgent
  end.
Definition accept_language (o : option options) : string :=
  match o with
  | Some o => if bool_decide (opt_AcceptLanguage o = "") then DefaultAcceptLanguage else opt_AcceptLanguage o
  | None => DefaultAcceptLanguage
  end.

Record request := mkRequest { req_url : string; req_headers : list (string * string) }.
Record response := mkResponse {
  StatusCode : Z;
  ContentType : string;
  Body : reader;
  final_url : option URL.t;    (* resp.Request.URL *)
}.

(** [http.Client.Do] of the guarded client. *)
Class HttpClient (S : Type) := { Do : request -> M S response }.

(** [http.MaxBytesReader(nil, body, n)]. *)
Definition MaxBytesReader (n : Z) (r : reader) : reader :=
  if (Z.of_nat (String.length (content r)) <=? n)%Z then r
  else mkReader (string_take (Z.to_nat n) (content r)) (Some (ErrorString "http: request body too large")).

Section fetch.
Context `{GoRuntime, HostTables, HtmlLib}.

Definition isHTMLContentType (ct : string) : bool :=
  let ct := Normalizer.to_lower (TrimSpace ct) in
  if bool_decide (ct = "") then true
  else
    let ct := match IndexByte ";"%char ct with Some i => TrimSpace (string_take i ct) | None => ct end in
    bool_decide (ct = "text/html") || bool_decide (ct = "application/xhtml+xml").

Context {S : Type} `{HttpClient S, Runtime.t S}.

Definition headers (o : option options) : list (string * string) :=
  [("User-Agent", user_agent o); ("Accept", "text/html,application/xhtml+xml;q=0.9,*/*;q=0.1");
   ("Accept-Language", accept_language o)].

Definition of_sum {A} (pre : string) (x : goerror + A) : M S A :=
  match x with inl e => fail (Wrapped pre e "") | inr a => ret a end.

(** [http.NewRequestWithContext]: the URL has to parse. *)
Definition new_request (url : string) : goerror + unit :=
  match URL.Parse url with None => inl (ErrorString url) | Some _ => inr tt end.

Definition Fetch (o : option options) (rawURL : string) : M S OGPPreview.t :=
  let! normalized := of_sum "normalize: " (Normalizer.Normalize rawURL) in
  of_sum "build request: " (new_request normalized) ;;;
  let! resp := Do (mkRequest normalized (headers o)) in
  guard (negb (StatusCode resp =? 200)%Z) (ErrBadStatus (StatusCode resp)) ;;;
  guard (negb (isHTMLContentType (ContentType resp))) ErrNotHTML ;;;
  let body := MaxBytesReader MaxBodyBytes (Body resp) in
  let baseURL := match final_url resp with Some u => UrlText.String_ u | None => normalized end in
  let! meta := of_sum "parse: " (Parser.Parse body baseURL) in
  let! now := Runtime.Now in
  ret (OGPPreview.mk (Normalizer.Hash normalized) normalized
    (Parser.Metadata.Title meta) (Parser.Metadata.Description meta) (Parser.Metadata.ImageURL meta)
    (Parser.Metadata.SiteName meta) (Parser.Metadata.CanonicalURL meta) now time_zero "" "").
End fetch.
End Fetcher.

(** ** Which tag wins *)

Section priority.
Import Parser Parser.Metadata GoText.
Local Open Scope string_scope.

(** The trimmed content of a [<meta>] element, unless it is empty. *)
Definition meta_content (n : node) : option string :=
  if is_element n && bool_decide (node_data n = "meta") then
    let c := TrimSpace (attr "content" (node_attr n)) in
    if bool_decide (c = "") then None else Some c
  else None.

(** The contents of the metas a predicate on (property, name) selects, in document order. *)
Definition contents (sel : string -> string -> bool) (l : list node) : list string :=
  omap (fun n => c ← meta_content n;
    if sel (attr "property" (node_attr n)) (attr "name" (node_attr n)) then Some c else None) l.

Definition og_title (p n : string) : bool := bool_decide (p = "og:title").
Definition twitter_title (p n : string) : bool := bool_decide (n = "twitter:title").
Definition any_image (p n : string) : bool :=
  one p ["og:image"; "og:image:secure_url"; "og:image:url"] || one n ["twitter:image"; "twitter:image:src"].

Definition titles (l : list node) : list string :=
  omap (fun n => if is_element n && bool_decide (node_data n = "title") && negb (bool_decide (textOf n = ""))
                 then Some (textOf n) else None) l.

Lemma contents_cons sel n l :
  contents sel (n :: l) =
  ((match meta_content n with
   | Some c => if sel (attr "property" (node_attr n)) (attr "name" (node_attr n)) then [c] else []
   | None => []
   end) ++ contents sel l)%list.
Proof.
  unfold contents at 1. cbn [omap list_omap]. destruct (meta_content n) as [c|]; cbn [mbind option_bind]; [|done].
  by destruct (sel _ _).
Qed.

(** One visit of a meta. *)
Lemma visit_meta title m n :
  (visit (title, m) n).2 =
  match meta_content n with
  | Some c => apply_name (attr "name" (node_attr n)) c (apply_property (attr "property" (node_attr n)) c m)
  | None => if is_element n && bool_decide (node_data n = "link") then applyLink n m else m
  end.
Proof.
  unfold visit, meta_content, applyMeta. destruct (is_element n); cbn [negb andb]; [|done].
  destruct (decide (node_data n = "meta")) as [->|Hm].
  - change (bool_decide ("meta" = "title")) with false. change (bool_decide ("meta" = "meta")) with true.
    change (bool_decide ("meta" = "link")) with false. cbv iota zeta. by case_bool_decide.
  - rewrite (bool_decide_eq_false_2 (node_data n = "meta")) by done. case_bool_decide as Ht; [|by destruct (bool_decide _)].
    rewrite Ht. by destruct (bool_decide (title = "")).
Qed.

Lemma meta_content_nonempty n c : meta_content n = Some c -> c <> "".
Proof. unfold meta_content. destruct (_ && _); [|done]. case_bool_decide; [done|]. by intros [= <-]. Qed.

Lemma applyLink_keeps n m : Title (applyLink n m) = Title m /\ ImageURL (applyLink n m) = ImageURL m.
Proof. unfold applyLink. destruct (negb _); [done|]. by destruct (bool_decide _). Qed.

Lemma meta_title p nm c m : c <> "" ->
  Title (apply_name nm c (apply_property p c m)) =
  (if og_title p nm then c else if twitter_title p nm && bool_decide (Title m = "") then c else Title m).
Proof.
  intros Hc. unfold og_title, twitter_title, apply_name, apply_property, if_empty.
  repeat case_bool_decide; subst; cbn in *; repeat case_match; cbn in *; try done; congruence.
Qed.

Lemma meta_image p nm c m : c <> "" ->
  ImageURL (apply_name nm c (apply_property p c m)) =
  (if any_image p nm && bool_decide (ImageURL m = "") then c else ImageURL m).
Proof.
  intros Hc. unfold any_image, apply_name, apply_property, if_empty, one.
  repeat case_bool_decide; subst; cbn in *; repeat case_match; cbn in *; try done; try congruence; set_solver.
Qed.

Lemma fold_title l : forall title m,
  Title (foldl visit (title, m) l).2 =
  match last (contents og_title l) with
  | Some t => t
  | None => if bool_decide (Title m = "") then default "" (head (contents twitter_title l)) else Title m
  end.
Proof.
  induction l as [|n l IH]; intros title m.
  { cbn. by case_bool_decide. }
  cbn [foldl]. pose proof (visit_meta title m n) as Hv. destruct (visit (title, m) n) as [title' m'].
  cbn [snd] in Hv. rewrite IH, !contents_cons. destruct (meta_content n) as [c|] eqn:Ec.
  - pose proof (meta_content_nonempty n c Ec) as Hc. rewrite Hv, (meta_title _ _ _ _ Hc).
    destruct (og_title _ _) eqn:Eo.
    + cbn [app]. destruct (last (contents og_title l)) as [t|] eqn:El.
      * rewrite last_cons, El. done.
      * rewrite last_cons, El. by rewrite bool_decide_eq_false_2.
    + cbn [app]. destruct (last (contents og_title l)); [done|].
      destruct (twitter_title _ _); cbn [andb app head]; [|done].
      destruct (decide (Title m = "")) as [Hm|Hm].
      * rewrite !(bool_decide_eq_true_2 (Title m = "")) by done. by rewrite bool_decide_eq_false_2.
      * by rewrite !(bool_decide_eq_false_2 (Title m = "")).
  - cbn [app]. destruct (is_element n && _); subst; [|done]. by destruct (applyLink_keeps n m) as [-> _].
Qed.

Lemma fold_image l : forall title m,
  ImageURL (foldl visit (title, m) l).2 =
  (if bool_decide (ImageURL m = "") then default "" (head (contents any_image l)) else ImageURL m).
Proof.
  induction l as [|n l IH]; intros title m.
  { cbn. by case_bool_decide. }
  cbn [foldl]. pose proof (visit_meta title m n) as Hv. destruct (visit (title, m) n) as [title' m'].
  cbn [snd] in Hv. rewrite IH, !contents_cons. destruct (meta_content n) as [c|] eqn:Ec.
  - pose proof (meta_content_nonempty n c Ec) as Hc. rewrite Hv, (meta_image _ _ _ _ Hc).
    destruct (any_image _ _); cbn [andb app head]; [|done].
    destruct (decide (ImageURL m = "")) as [Hm|Hm].
    + rewrite !(bool_decide_eq_true_2 (ImageURL m = "")) by done. by rewrite bool_decide_eq_false_2.
    + by rewrite !(bool_decide_eq_false_2 (ImageURL m = "")).
  - cbn [app]. destruct (is_element n && _); subst; [|done]. by destruct (applyLink_keeps n m) as [_ ->].
Qed.

Lemma fold_first_title l : forall title m,
  (foldl visit (title, m) l).1 = (if bool_decide (title = "") then default "" (head (titles l)) else title).
Proof.
  induction l as [|n l IH]; intros title m.
  { cbn. by case_bool_decide. }
  cbn [foldl]. assert (Hv : exists m', visit (title, m) n =
    (if is_element n && bool_decide (node_data n = "title") && bool_decide (title = "") then textOf n else title, m')).
  { unfold visit. destruct (is_element n); cbn; [|by eexists]. repeat case_bool_decide; by eexists. }
  destruct Hv as [m' ->]. rewrite IH. unfold titles. cbn [omap list_omap].
  destruct (is_element n && bool_decide (node_data n = "title")) eqn:E; cbn [andb]; [|done].
  destruct (decide (title = "")) as [->|Ht].
  - rewrite (bool_decide_eq_true_2 ("" = "")) by done. cbn [andb]. by destruct (bool_decide (textOf n = "")%string).
  - by rewrite !(bool_decide_eq_false_2 (title = "")) by done.
Qed.

Lemma resolveSafeURL_safe base ref : resolveSafeURL base ref <> "" ->
  exists u, URL.Parse (resolveSafeURL base ref) = Some u /\ (URL.Scheme u = "http" \/ URL.Scheme u = "https").
Proof.
  unfold resolveSafeURL. case_bool_decide; [done|]. destruct (URL.Parse _) as [u|] eqn:E; [|done].
  destruct (_ && _) eqn:Es; [done|]. intros _. exists u. split; [done|].
  apply andb_false_iff in Es as [Es%negb_false_iff%bool_decide_eq_true|Es%negb_false_iff%bool_decide_eq_true]; auto.
Qed.
End priority.
