(* ===== verification/OgpUC.v ===== *)
(** * Link previews: internal/usecase/ogp

    The commit hook that attaches or enqueues the links of a post, and the
    background worker that drains the queue. Logging is not modelled. *)

From S2P Require Import Prelude Errors Monad GoStrings Domain.
From S2P Require Import MemPosts MemOGP Repository Backend PostInv PostThms.
From S2P Require Import NetUrl NetIP OgpUrl OgpUrlThms OgpHtml.

(** A call whose error is logged and dropped. *)
Definition ignore {S} {A} (m : M S A) : M S unit := bind (try m) (fun _ => ret tt).

Module Enqueuer.
Local Open Scope string_scope.
Local Open Scope go_scope.

Section enqueuer.
Context `{GoRuntime, HostTables} {S : Type}.
Context `{OGPCacheRepository.t S, OGPJobQueue.t S, PostRepository.t S, Runtime.t S}.

(** The row found, when the lookup did not fail. *)
Definition cached_row (r : goerror + option OGPPreview.t) : option OGPPreview.t :=
  match r with inl _ => None | inr c => c end.

(** [cached != nil && !cached.IsExpired(now)]. *)
Definition fresh (now : Time) (cached : option OGPPreview.t) : option OGPPreview.t :=
  match cached with
  | Some p => if OGPPreview.IsExpired now p then None else Some p
  | None => None
  end.

(** The body of the loop for the URL at [position]. *)
Definition enqueue_url (now : Time) (post : Post.t) (pos_url : nat * string) : M S unit :=
  let position := Z.of_nat pos_url.1 in
  match Normalizer.Normalize pos_url.2 with
  | inl _ => ret tt
  | inr normalized =>
      let urlHash := Normalizer.Hash normalized in
      let! cached := try (OGPCacheRepository.Get urlHash) in
      match fresh now (cached_row cached) with
      | Some p =>
          if bool_decide (OGPPreview.Status p = OGPStatusOK)
          then ignore (PostRepository.AttachOGP (Post.ID post) urlHash position)
          else ret tt
      | None =>
          let! id := Runtime.MakeULID in
          ignore (OGPJobQueue.Enqueue id urlHash normalized (Post.ID post) position)
      end
  end.

Definition EnqueueForPost (post : option Post.t) : M S unit :=
  match post with
  | None => ret tt
  | Some post =>
      if bool_decide (Post.Content post = "") then ret tt
      else
        let urls := Extractor.ExtractURLs (Post.Content post) in
        if bool_decide (urls = []) then ret tt
        else
          let! now := Runtime.Now in
          for_each (enqueue_url now post) (zip (seq 0 (length urls)) urls)
  end.
End enqueuer.
End Enqueuer.

Module Worker.
Local Open Scope string_scope.
Local Open Scope go_scope.

Definition SuccessTTL : Duration := (3 * 24 * Hour)%Z.
Definition ErrorTTL : Duration := (30 * Minute)%Z.
Definition MaxAttempts : Z := 3.

Definition truncate (s : string) (maxLen : nat) : string :=
  if Nat.leb (String.length s) maxLen then s else string_take maxLen s.

Section worker.
Context `{GoRuntime, HostTables, HtmlLib} {S : Type}.
Context `{OGPCacheRepository.t S, OGPJobQueue.t S, PostRepository.t S, Runtime.t S, Fetcher.HttpClient S}.
Context (opts : option Fetcher.options).

Definition markFailed (jobID reason : string) (retriable : bool) : M S unit :=
  ignore (OGPJobQueue.MarkFailed jobID reason retriable).

Definition error_preview (job : OGPJob.t) (now : Time) (err : goerror) : OGPPreview.t :=
  OGPPreview.mk (OGPJob.URLHash job) (OGPJob.URL job) "" "" "" "" "" now (time_Add now ErrorTTL)
    OGPStatusError (truncate (Error err) 255).

Definition process (job : OGPJob.t) : M S unit :=
  let! preview := try (Fetcher.Fetch opts (OGPJob.URL job)) in
  match preview with
  | inr preview =>
      let! now := Runtime.Now in
      let preview := OGPPreview.set_ok (time_Add now SuccessTTL) preview in
      let! upsert := try (OGPCacheRepository.Upsert (Some preview)) in
      match upsert with
      | inl upsertErr => markFailed (OGPJob.ID job) (Error upsertErr) true
      | inr _ =>
          (if bool_decide (OGPJob.PostID job = "") then ret tt
           else ignore (PostRepository.AttachOGP (OGPJob.PostID job) (OGPPreview.URLHash preview) (OGPJob.Position job))) ;;;
          ignore (OGPJobQueue.MarkDone (OGPJob.ID job))
      end
  | inl err =>
      if Fetcher.Retriable err && (OGPJob.Attempts job <? MaxAttempts)%Z
      then markFailed (OGPJob.ID job) (Error err) true
      else
        let! now := Runtime.Now in
        ignore (OGPCacheRepository.Upsert (Some (error_preview job now err))) ;;;
        markFailed (OGPJob.ID job) (Error err) false
  end.

(** One cycle; a miss, after which the worker sleeps, does nothing. *)
Definition runOnce : M S unit :=
  let! claimed := try (OGPJobQueue.Claim "ogp-worker") in
  match claimed with
  | inl _ => ret tt
  | inr None => ret tt
  | inr (Some job) => process job
  end.

(** [n] turns of the loop of [Run]. *)
Fixpoint run (n : nat) : M S unit :=
  match n with
  | O => ret tt
  | Datatypes.S n => runOnce ;;; run n
  end.
End worker.
End Worker.

(** ** The commit hook *)

Section hook.
Context `{GoRuntime, !HostTables} {S : Type} `{!Backend S}.

Lemma ignore_spec {A} (m : M S A) f d (Q : res unit -> DB -> Prop) :
  implements m f -> (forall t, (forall why, (f t d).2 <> Panic why) /\ Q (Ok tt) (f t d).1) ->
  (faults S = true -> Q (Ok tt) d) -> vwp (ignore m) d Q.
Proof.
  intros Hm Hok Herr. apply vwp_bind, vwp_try. eapply vwp_op; [done|..].
  - intros t. destruct (Hok t) as [Hnp HQ]. destruct (f t d).2; [by apply vwp_ret..|]. by destruct (Hnp why).
  - intros Hf e. apply vwp_ret. auto.
Qed.

(** Jobs are only added, each new one queued for [post] under the hash of
    its URL, and every attachment is to a preview that is fresh and good. *)
Definition enqueued (post : Post.t) (d d' : DB) : Prop :=
  hook_frame d d' /\ ogp d' = ogp d /\
  (forall id j, jobs d !! id = Some j -> jobs d' !! id = Some j) /\
  (forall id j, jobs d' !! id = Some j -> jobs d !! id = Some j \/
     (OGPJob.Status j = OGPJobQueued /\ OGPJob.Attempts j = 0%Z /\ OGPJob.ID j = id /\
      OGPJob.PostID j = Post.ID post /\ OGPJob.URLHash j = Normalizer.Hash (OGPJob.URL j) /\
      exists raw, raw ∈ Extractor.ExtractURLs (Post.Content post) /\
        Normalizer.Normalize raw = inr (OGPJob.URL j))) /\
  (forall pid l, l ∈ Links.ogps pid (links d') -> l ∈ Links.ogps pid (links d) \/
     (pid = Post.ID post /\ exists p, ogp d !! Links.URLHash l = Some p /\ OGPPreview.Status p = OGPStatusOK)).

Lemma enqueued_refl post d : enqueued post d d.
Proof. split; [apply hook_frame_refl|]. split; [done|]. split; [done|]. split; by left. Qed.

Lemma enqueued_trans post d1 d2 d3 : enqueued post d1 d2 -> enqueued post d2 d3 -> enqueued post d1 d3.
Proof.
  intros (F1 & O1 & J1 & N1 & L1) (F2 & O2 & J2 & N2 & L2). split; [by eapply hook_frame_trans|].
  split; [congruence|]. split; [auto|]. split.
  - intros id j [Hj|Hj]%N2; [auto|by right].
  - intros pid l [Hl|Hl]%L2; [auto|]. rewrite O1 in Hl. by right.
Qed.

Lemma attached_ogp pid h pos s q l :
  l ∈ Links.ogps q (Links.attachOGP pid h pos s) -> l ∈ Links.ogps q s \/ (q = pid /\ Links.URLHash l = h).
Proof.
  rewrite Links.attachOGP_ogps. case_bool_decide as E; [|by left]. destruct E as (-> & _).
  rewrite elem_of_merge_sort, elem_of_app, list_elem_of_singleton. intros [?| ->]; [by left|by right].
Qed.

Lemma attach_frame pid h pos d : hook_frame d (with_links (Posts.AttachOGP pid h pos (links d)) d).
Proof.
  unfold hook_frame. cbn. do 7 (split; [done|]). unfold Posts.AttachOGP, Links.attachOGP.
  destruct (existsb _ _); repeat split; done.
Qed.

Lemma enqueue_url_spec now post pos raw d :
  raw ∈ Extractor.ExtractURLs (Post.Content post) ->
  vwp (S:=S) (Enqueuer.enqueue_url now post (pos, raw)) d (fun r d' => r = Ok tt /\ enqueued post d d').
Proof.
  intros Hraw. unfold Enqueuer.enqueue_url. cbn [fst snd].
  destruct (Normalizer.Normalize raw) as [e|url] eqn:En; [apply vwp_ret; split; [done|apply enqueued_refl]|].
  set (h := Normalizer.Hash url). apply vwp_bind, vwp_try.
  assert (Hrest : forall c, (forall p, Enqueuer.cached_row c = Some p -> ogp d !! h = Some p) ->
    vwp (S:=S) (match Enqueuer.fresh now (Enqueuer.cached_row c) with
         | Some p => if bool_decide (OGPPreview.Status p = OGPStatusOK)
                     then ignore (PostRepository.AttachOGP (Post.ID post) h (Z.of_nat pos)) else ret tt
         | None => bind Runtime.MakeULID (fun id => ignore (OGPJobQueue.Enqueue id h url (Post.ID post) (Z.of_nat pos)))
         end) d (fun r d' => r = Ok tt /\ enqueued post d d')).
  { intros c Hc. destruct (Enqueuer.fresh now (Enqueuer.cached_row c)) as [p|] eqn:Ef.
    - assert (Hp : ogp d !! h = Some p).
      { unfold Enqueuer.fresh in Ef. destruct (Enqueuer.cached_row c) as [q|]; [|done].
        destruct (OGPPreview.IsExpired now q); [done|]. injection Ef as <-. by apply Hc. }
      case_bool_decide as Hst; [|apply vwp_ret; split; [done|apply enqueued_refl]].
      eapply ignore_spec; [eauto with store|intros t; spec_cbn; split; [done|]|intros _; split; [done|apply enqueued_refl]].
      split; [done|]. split; [by apply attach_frame|]. split; [done|]. split; [done|]. split; [by left|].
      intros pid l. unfold Posts.AttachOGP. cbn [links with_links].
      intros [Hl|[-> Hl]]%attached_ogp; [by left|]. right. split; [done|]. exists p. by rewrite Hl.
    - apply vwp_bind. eapply vwp_exact; [eauto with store|]. intros t. spec_cbn.
      set (d1 := with_ulids _ d).
      assert (H1 : enqueued post d d1).
      { split; [unfold d1, hook_frame; cbn; repeat split; lia|]. split; [done|]. split; [done|]. split; by left. }
      eapply ignore_spec; [eauto with store|intros t'; spec_cbn; split; [done|]|intros _; split; [done|exact H1]].
      split; [done|]. eapply enqueued_trans; [exact H1|]. clear H1. unfold OGPQueue.Enqueue.
      destruct (jobs d1 !! ulid_Make (ulids d)) as [j0|] eqn:Ej.
      { replace (with_jobs (jobs d1) d1) with d1 by (by destruct d1). apply enqueued_refl. }
      split; [by repeat split|]. split; [done|]. cbn [jobs links with_jobs]. split; [|split; [|by left]].
      + intros id j Hj. rewrite lookup_insert_ne; [done|]. congruence.
      + intros id j [[<- <-]|[_ Hj]]%lookup_insert_Some; [|by left]. right. cbn.
        do 5 (split; [done|]). by exists raw. }
  eapply vwp_op; [eauto with store|intros t; spec_cbn|intros _ e]; apply Hrest; [|done].
  intros p. cbn. done.
Qed.

(** The hook never fails, whatever the backend does. *)
Lemma EnqueueForPost_spec post d :
  vwp (S:=S) (Enqueuer.EnqueueForPost (Some post)) d (fun r d' => r = Ok tt /\ enqueued post d d').
Proof.
  unfold Enqueuer.EnqueueForPost.
  case_bool_decide; [apply vwp_ret; split; [done|apply enqueued_refl]|].
  case_bool_decide; [apply vwp_ret; split; [done|apply enqueued_refl]|].
  set (urls := Extractor.ExtractURLs (Post.Content post)).
  apply vwp_bind. eapply vwp_exact; [eauto with store|]. intros t. spec_cbn.
  apply (vwp_for_each _ _ _ (fun l d' => enqueued post d d' /\ forall x, x ∈ l -> x.2 ∈ urls)).
  - split; [apply enqueued_refl|]. intros [i u] Hu. by apply elem_of_zip_r in Hu.
  - intros [i u] l' d' [Henq Hin].
    eapply vwp_mono; [apply enqueue_url_spec; apply (Hin (i, u)); by left|].
    intros r d'' [-> Hd'']. split; [by eapply enqueued_trans|]. intros x Hx. apply Hin. by right.
  - intros d' [Henq _]. by split.
Qed.

Lemma EnqueueForPost_best_effort post : best_effort (S:=S) (Enqueuer.EnqueueForPost (Some post)).
Proof. intros d. eapply vwp_mono; [apply EnqueueForPost_spec|]. by intros r d' [-> [? _]]. Qed.
End hook.

(** ** Nothing is forgotten *)

Section coverage.
Context `{GoRuntime, !UniqueULIDs, !HostTables} {S : Type} `{!Backend S}.

Definition jobs_fresh (d : DB) : Prop := forall k, ulids d <= k -> jobs d !! ulid_Make k = None.

(** The preview of [n] is in the cache at [now], or a job for it is queued. *)
Definition covered (post : Post.t) (now : Time) (i : nat) (n : string) (d : DB) : Prop :=
  (exists p, ogp d !! Normalizer.Hash n = Some p /\ OGPPreview.IsExpired now p = false) \/
  (exists id j, jobs d !! id = Some j /\ OGPJob.URL j = n /\ OGPJob.PostID j = Post.ID post /\
     OGPJob.Position j = Z.of_nat i).

Lemma covered_later post now i n d d' : enqueued post d d' -> covered post now i n d -> covered post now i n d'.
Proof.
  intros (_ & Ho & Hj & _) [(p & Hp & He)|(id & j & Hl & Hrest)].
  - left. exists p. by rewrite Ho.
  - right. exists id, j. split; [by apply Hj|done].
Qed.

Lemma enqueue_url_covers now post i raw d :
  faults S = false -> jobs_fresh d ->
  vwp (S:=S) (Enqueuer.enqueue_url now post (i, raw)) d (fun r d' =>
    jobs_fresh d' /\ forall n, Normalizer.Normalize raw = inr n -> covered post now i n d').
Proof.
  intros Hf Hfr. unfold Enqueuer.enqueue_url, ignore. cbn [fst snd].
  destruct (Normalizer.Normalize raw) as [e|url] eqn:En; [by apply vwp_ret|].
  set (h := Normalizer.Hash url). repeat (vstep; try congruence); cbn [Enqueuer.cached_row Enqueuer.fresh] in *.
  - split; [exact Hfr|]. intros n [= <-]. left. unfold OGPCache.Get, Enqueuer.fresh in *.
    destruct (ogp d !! h) as [p|] eqn:Eh; [|done].
    cbn [links ogp with_links]. destruct (OGPPreview.IsExpired now p) eqn:Ee; [done|]. by exists p.
  - split; [exact Hfr|]. intros n [= <-]. left. unfold OGPCache.Get, Enqueuer.fresh in *.
    destruct (ogp d !! h) as [p|] eqn:Eh; [|done].
    destruct (OGPPreview.IsExpired now p) eqn:Ee; [done|]. by exists p.
  - unfold OGPQueue.Enqueue. cbn [jobs with_ulids]. rewrite (Hfr _ (le_n _)). split.
    + intros k Hk. cbn in *. rewrite lookup_insert_ne; [apply Hfr; lia|]. intros E%ulid_inj. lia.
    + intros n [= <-]. right. eexists _, _. split; [apply lookup_insert_eq|done].
Qed.

Lemma EnqueueForPost_covers post d :
  faults S = false -> jobs_fresh d ->
  vwp (S:=S) (Enqueuer.EnqueueForPost (Some post)) d (fun r d' => jobs_fresh d' /\ exists t,
    forall i raw n, Extractor.ExtractURLs (Post.Content post) !! i = Some raw ->
      Normalizer.Normalize raw = inr n -> covered post (clock t) i n d').
Proof.
  intros Hf Hfr. unfold Enqueuer.EnqueueForPost.
  case_bool_decide as Hc; [apply vwp_ret; split; [done|exists 0; rewrite Hc; done]|].
  case_bool_decide as Hu; [apply vwp_ret; split; [done|exists 0; rewrite Hu; done]|].
  set (urls := Extractor.ExtractURLs (Post.Content post)).
  apply vwp_bind. eapply vwp_exact; [eauto with store|]. intros t. spec_cbn.
  apply (vwp_for_each _ _ _ (fun l d' => jobs_fresh d' /\ (forall x, x ∈ l -> x.2 ∈ urls) /\
    forall i raw n, urls !! i = Some raw -> Normalizer.Normalize raw = inr n ->
      (i, raw) ∈ l \/ covered post (clock t) i n d')).
  - split; [done|]. split; [intros [i u] Hx; by apply elem_of_zip_r in Hx|]. intros i raw n Hi _. left.
    apply list_elem_of_lookup. exists i. rewrite lookup_zip_with, Hi, lookup_seq_lt; [done|].
    by apply lookup_lt_Some in Hi.
  - intros [i u] l' d' (Hfr' & Hin & Hcov).
    eapply vwp_mono; [apply vwp_and; [by apply (enqueue_url_covers (clock t) post i u d')|
      apply (enqueue_url_spec (clock t) post i u d'); apply (Hin (i, u)); by left]|].
    intros r d'' [[Hfr'' Hnew] [-> Henq]]. split; [done|]. split; [intros x Hx; apply Hin; by right|].
    intros k raw n Hk Hn. destruct (Hcov k raw n Hk Hn) as [[[= -> ->]|Hl]%elem_of_cons|Hold].
    + right. by apply Hnew.
    + by left.
    + right. by eapply covered_later.
  - intros d' (Hfr' & _ & Hcov). split; [done|]. exists t. intros i raw n Hi Hn.
    by destruct (Hcov i raw n Hi Hn) as [?%not_elem_of_nil|].
Qed.
End coverage.
