(* ===== verification/WorkerThms.v ===== *)
(** * The preview worker drains its queue

    What one cycle does to the tables of a backend that does not fail, the
    bound on attempts it keeps, and that enough cycles leave nothing queued. *)

From S2P Require Import Prelude Errors Monad GoStrings Domain.
From S2P Require Import MemPosts MemOGP Repository Backend PostThms.
From S2P Require Import OgpUrl OgpHtml OgpUC.

Local Open Scope Z_scope.

(** Jobs are claimed at most [MaxAttempts] times, a queued one less. *)
Definition attempts_ok (jobs : gmap string OGPJob.t) : Prop :=
  forall id j, jobs !! id = Some j ->
    0 <= OGPJob.Attempts j <= Worker.MaxAttempts /\ (OGPQueue.queued j -> OGPJob.Attempts j < Worker.MaxAttempts).

(** How many more claims the queued jobs can need. *)
Definition weight (j : OGPJob.t) : nat :=
  if bool_decide (OGPQueue.queued j) then Z.to_nat (Worker.MaxAttempts - OGPJob.Attempts j) else 0%nat.

Definition backlog (jobs : gmap string OGPJob.t) : nat := sum_list (weight <$> (map_to_list jobs).*2).

Section backlog.
Lemma backlog_insert id j jobs : jobs !! id = None -> backlog (<[id := j]> jobs) = (weight j + backlog jobs)%nat.
Proof. intros Hn. unfold backlog. by rewrite map_to_list_insert. Qed.

Lemma backlog_replace id j j' jobs :
  jobs !! id = Some j -> (backlog (<[id := j']> jobs) + weight j = backlog jobs + weight j')%nat.
Proof.
  intros Hj. rewrite <-(insert_delete_id jobs id j Hj) at 2. rewrite <-insert_delete_eq.
  rewrite !backlog_insert by apply lookup_delete_eq. lia.
Qed.

Lemma backlog_pos jobs id j : attempts_ok jobs -> jobs !! id = Some j -> OGPQueue.queued j -> (0 < backlog jobs)%nat.
Proof.
  intros Hok Hj Hq. destruct (Hok _ _ Hj) as [[? ?] Hlt]. specialize (Hlt Hq).
  rewrite <-(insert_delete_id jobs id j Hj), backlog_insert by apply lookup_delete_eq.
  unfold weight. rewrite bool_decide_eq_true_2 by done. lia.
Qed.
End backlog.

Section worker_thms.
Context `{GoRuntime, !HostTables, !HtmlLib} {S : Type} `{!Backend S, !Fetcher.HttpClient S}.

(** The remote site does not touch our tables, and the client reports
    failures as errors. *)
Definition remote_http : Prop := forall rq d,
  vwp (S:=S) (Fetcher.Do rq) d (fun r d' => d' = d /\ no_panic r).

(** A fetched preview is keyed by the hash of its own URL. *)
Definition fetched (url : string) (p : OGPPreview.t) : Prop :=
  Normalizer.Normalize url = inr (OGPPreview.URL p) /\
  OGPPreview.URLHash p = Normalizer.Hash (OGPPreview.URL p) /\ exists t, OGPPreview.FetchedAt p = clock t.

Lemma of_sum_spec {A} pre (x : goerror + A) d (Q : res A -> DB -> Prop) :
  (forall e, x = inl e -> Q (Err (Wrapped pre e "")) d) -> (forall a, x = inr a -> Q (Ok a) d) ->
  vwp (S:=S) (Fetcher.of_sum pre x) d Q.
Proof. intros Hl Hr. destruct x; [apply vwp_fail|apply vwp_ret]; auto. Qed.

Lemma Fetch_spec opts url d :
  remote_http ->
  vwp (S:=S) (Fetcher.Fetch opts url) d (fun r d' =>
    d' = d /\ no_panic r /\ forall p, r = Ok p -> fetched url p).
Proof.
  intros Hr. unfold Fetcher.Fetch. apply vwp_bind, of_sum_spec; [done|]. intros n En.
  apply vwp_bind, of_sum_spec; [done|]. intros [] _. apply vwp_bind.
  eapply vwp_mono; [apply Hr|]. intros [resp|e|why] d' [-> Hnp]; [|done|by destruct (Hnp why)].
  do 2 (apply vwp_bind, vwp_guard; [done|intros _]).
  apply vwp_bind, of_sum_spec; [done|]. intros meta _. ustep. ustep. ustep. split; [done|]. split; [done|].
  intros p [= <-]. split; [done|]. split; [done|]. by eexists.
Qed.

(** How a claimed job ends its cycle: [j] as it was queued, [j'] after. *)
Inductive outcome (d d' : DB) (j j' : OGPJob.t) : Prop :=
  | fetch_done p :
      OGPJob.Status j' = OGPJobDone -> fetched (OGPJob.URL j) p ->
      OGPPreview.Status p = OGPStatusOK ->
      (exists t, OGPPreview.ExpiresAt p = time_Add (clock t) Worker.SuccessTTL) ->
      ogp d' = OGPCache.Upsert (Some p) (ogp d) ->
      links d' = (if bool_decide (OGPJob.PostID j = "") then links d
                  else Posts.AttachOGP (OGPJob.PostID j) (OGPPreview.URLHash p) (OGPJob.Position j) (links d)) ->
      outcome d d' j j'
  | fetch_retry :
      OGPQueue.queued j' -> OGPJob.Attempts j + 1 < Worker.MaxAttempts ->
      ogp d' = ogp d -> links d' = links d -> outcome d d' j j'
  | fetch_failed p :
      OGPJob.Status j' = OGPJobFailed ->
      OGPPreview.URLHash p = OGPJob.URLHash j -> OGPPreview.Status p = OGPStatusError ->
      OGPPreview.ExpiresAt p = time_Add (OGPPreview.FetchedAt p) Worker.ErrorTTL ->
      ogp d' = OGPCache.Upsert (Some p) (ogp d) -> links d' = links d -> outcome d d' j j'.

(** What one cycle does: nothing without a queued job, and otherwise the
    oldest queued one is claimed and settled. *)
Definition cycle (d d' : DB) : Prop :=
  hook_frame d d' /\
  (((forall id j, jobs d !! id = Some j -> ~ OGPQueue.queued j) /\ d' = d) \/
   exists id j j', jobs d !! id = Some j /\ OGPQueue.queued j /\
     (forall id2 j2, jobs d !! id2 = Some j2 -> OGPQueue.queued j2 -> OGPJob.EnqueuedAt j <= OGPJob.EnqueuedAt j2) /\
     jobs d' = <[id := j']> (jobs d) /\ OGPJob.ID j' = OGPJob.ID j /\ OGPJob.Attempts j' = OGPJob.Attempts j + 1 /\
     outcome d d' j j').

Lemma mark_failed_spec id why retriable d :
  faults S = false ->
  vwp (S:=S) (Worker.markFailed id why retriable) d (fun r d' => r = Ok tt /\
    exists t, d' = with_jobs (OGPQueue.MarkFailed (clock t) id why retriable (jobs d)) d).
Proof.
  intros Hf. eapply ignore_spec; [eauto with store|intros t; spec_cbn; split; [done|]|congruence].
  split; [done|]. by exists t.
Qed.

(** The cycle of a claimed job, from the tables the claim leaves. *)
Lemma process_spec opts id j now d :
  faults S = false -> remote_http ->
  OGPJob.ID j = id -> 0 <= OGPJob.Attempts j < Worker.MaxAttempts ->
  let d1 := with_jobs (<[id := OGPQueue.set_running now j]> (jobs d)) d in
  vwp (S:=S) (Worker.process opts (OGPQueue.set_running now j)) d1 (fun r d' => r = Ok tt /\
    hook_frame d d' /\ exists j', jobs d' = <[id := j']> (jobs d) /\ OGPJob.ID j' = OGPJob.ID j /\
      OGPJob.Attempts j' = OGPJob.Attempts j + 1 /\ outcome d d' j j').
Proof.
  intros Hf Hr Hid Hatt d1.
  assert (Hw : wrap64 (OGPJob.Attempts j + 1) = OGPJob.Attempts j + 1).
  { apply wrap64_small. unfold int64_min, int64_max, Worker.MaxAttempts in *. lia. }
  unfold Worker.process. apply vwp_bind, vwp_try.
  eapply vwp_mono; [by apply Fetch_spec|]. intros [p|e|why] d' (-> & Hnp & Hok); [| |by destruct (Hnp why)].
  - specialize (Hok p eq_refl). ustep. ustep. apply vwp_bind, vwp_try.
    eapply vwp_op; [eauto with store|intros t1; spec_cbn|congruence].
    set (q := OGPPreview.set_ok _ _). set (d2 := with_ogp _ d1). apply vwp_bind.
    set (ls := if bool_decide (OGPJob.PostID j = "") then links d
               else Posts.AttachOGP (OGPJob.PostID j) (OGPPreview.URLHash q) (OGPJob.Position j) (links d)).
    assert (Hls : vwp (S:=S) (if bool_decide (OGPJob.PostID (OGPQueue.set_running now j) = "") then ret tt
        else ignore (PostRepository.AttachOGP (OGPJob.PostID (OGPQueue.set_running now j)) (OGPPreview.URLHash q)
          (OGPJob.Position (OGPQueue.set_running now j)))) d2 (fun r d3 => r = Ok tt /\ d3 = with_links ls d2)).
    { unfold ls. cbn [OGPJob.PostID OGPQueue.set_running OGPJob.Position]. case_bool_decide.
      - apply vwp_ret. split; [done|]. by destruct d.
      - eapply ignore_spec; [eauto with store|intros t2; spec_cbn; split; [done|done]|congruence]. }
    eapply vwp_mono; [exact Hls|]. intros r d3 [-> ->]. clear Hls.
    eapply ignore_spec; [eauto with store|intros t2; spec_cbn; split; [done|]|congruence].
    split; [done|]. unfold OGPQueue.MarkDone. cbn [OGPJob.ID OGPQueue.set_running jobs with_links d2 with_ogp d1 with_jobs].
    rewrite Hid, lookup_insert_eq, insert_insert_eq.
    assert (Hfr : hook_frame d (with_links ls d)).
    { unfold ls. case_bool_decide; [by destruct d; repeat split|apply attach_frame]. }
    split; [unfold hook_frame in *; cbn in *; tauto|]. eexists. split; [done|]. cbn. rewrite Hid. split; [done|]. split; [done|].
    eapply (fetch_done _ _ _ _ q); try done. by eexists.
  - destruct (Fetcher.Retriable e && _) eqn:Eret.
    + apply andb_true_iff in Eret as [_ Hlt%Z.ltb_lt]. cbn [OGPQueue.set_running OGPJob.Attempts] in Hlt.
      eapply vwp_mono; [by apply mark_failed_spec|]. intros r d' [-> [t ->]]. split; [done|].
      unfold OGPQueue.MarkFailed. cbn [OGPJob.ID OGPQueue.set_running jobs d1 with_jobs].
      rewrite Hid, lookup_insert_eq, insert_insert_eq. split; [by repeat split|].
      eexists. split; [done|]. split; [by cbn|]. split; [done|]. apply fetch_retry; try done. lia.
    + ustep. ustep. apply vwp_bind.
      eapply ignore_spec; [eauto with store|intros t1; spec_cbn; split; [done|]|congruence].
      set (q := Worker.error_preview _ _ _). set (d2 := with_ogp _ d1).
      eapply vwp_mono; [by apply mark_failed_spec|]. intros r d' [-> [t2 ->]]. split; [done|].
      unfold OGPQueue.MarkFailed. cbn [OGPJob.ID OGPQueue.set_running jobs d2 with_ogp d1 with_jobs].
      rewrite Hid, lookup_insert_eq, insert_insert_eq. split; [by repeat split|].
      eexists. split; [done|]. split; [by cbn|]. split; [done|]. by apply (fetch_failed _ _ _ _ q).
Qed.

Lemma runOnce_spec opts d :
  faults S = false -> remote_http -> OGPQueue.wf (jobs d) -> attempts_ok (jobs d) ->
  vwp (S:=S) (Worker.runOnce opts) d (fun r d' => r = Ok tt /\ cycle d d').
Proof.
  intros Hf Hr Hwf Hok. unfold Worker.runOnce. apply vwp_bind, vwp_try.
  eapply vwp_op; [eauto with store|intros t; spec_cbn|congruence]. cbn [OGPJobQueue.Claim_spec fst snd].
  unfold OGPQueue.Claim. pose proof (OGPQueue.oldest_queued_spec t (jobs d)) as Hold.
  destruct (OGPQueue.oldest_queued t (jobs d)) as [[id j]|].
  - destruct Hold as (Hj & Hq & Hmin). cbn [fst snd]. destruct (Hok _ _ Hj) as [[? ?] Hlt]. specialize (Hlt Hq).
    eapply vwp_mono; [apply process_spec; [done..|by apply Hwf|done]|].
    intros r d' (-> & Hfr & j' & Hjobs & Hid & Ha & Hout). split; [done|]. split; [done|]. right.
    exists id, j, j'. split_and!; done.
  - cbn. ustep. split; [done|]. replace (with_jobs (jobs d) d) with d by (by destruct d).
    split; [apply hook_frame_refl|]. by left.
Qed.

(** A cycle keeps the queue well formed and its attempts bounded, and uses
    up backlog unless there is none. *)
Lemma cycle_step d d' :
  OGPQueue.wf (jobs d) -> attempts_ok (jobs d) -> cycle d d' ->
  OGPQueue.wf (jobs d') /\ attempts_ok (jobs d') /\
  (backlog (jobs d') <= backlog (jobs d) - 1)%nat.
Proof.
  intros Hwf Hok [_ [[Hnone ->]|(id & j & j' & Hj & Hq & _ & Hjobs & Hid & Ha & Hout)]].
  - split; [done|]. split; [done|].
    assert (backlog (jobs d) = 0%nat) as ->; [|lia].
    unfold backlog. assert (Hall : forall l, (forall j, j ∈ l -> ~ OGPQueue.queued j) -> sum_list (weight <$> l) = 0%nat).
    { induction l as [|x l IH]; intros Hl; [done|]. cbn. rewrite IH by (intros; apply Hl; by right).
      unfold weight. rewrite bool_decide_eq_false_2 by (apply Hl; by left). done. }
    apply Hall. intros j ([id j2] & -> & Hin)%list_elem_of_fmap. apply elem_of_map_to_list in Hin. by eapply Hnone.
  - destruct (Hok _ _ Hj) as [[? ?] Hlt]. specialize (Hlt Hq). rewrite Hjobs. split; [|split].
    + intros id2 j2 [[<- <-]|[_ Hj2]]%lookup_insert_Some; [|by apply Hwf]. rewrite Hid. by apply Hwf.
    + intros id2 j2 [[<- <-]|[_ Hj2]]%lookup_insert_Some; [|by apply (Hok id2)]. rewrite Ha.
      split; [lia|]. intros Hq'. destruct Hout as [? Hs| |? Hs]; [|lia|]; unfold OGPQueue.queued in Hq'; by rewrite Hs in Hq'.
    + pose proof (backlog_replace id j j' (jobs d) Hj) as Hb. unfold weight in Hb.
      rewrite (bool_decide_eq_true_2 (OGPQueue.queued j)) in Hb by done. case_bool_decide; lia.
Qed.

(** Enough cycles leave nothing queued. *)
Lemma run_drains opts n : forall d,
  faults S = false -> remote_http -> OGPQueue.wf (jobs d) -> attempts_ok (jobs d) ->
  vwp (S:=S) (Worker.run opts n) d (fun r d' => r = Ok tt /\ hook_frame d d' /\
    OGPQueue.wf (jobs d') /\ attempts_ok (jobs d') /\ (backlog (jobs d') <= backlog (jobs d) - n)%nat).
Proof.
  induction n as [|n IH]; intros d Hf Hr Hwf Hok; cbn [Worker.run].
  - apply vwp_ret. split; [done|]. split; [apply hook_frame_refl|]. split; [done|]. split; [done|lia].
  - apply vwp_bind. eapply vwp_mono; [by apply runOnce_spec|]. intros r d1 [-> Hc].
    destruct (cycle_step d d1 Hwf Hok Hc) as (Hwf1 & Hok1 & Hle).
    eapply vwp_mono; [by apply IH|]. intros r d2 (-> & Hfr & Hwf2 & Hok2 & Hle2). split; [done|].
    split; [eapply hook_frame_trans; [apply Hc|done]|]. split; [done|]. split; [done|lia].
Qed.

Lemma backlog_0 js : attempts_ok js -> backlog js = 0%nat -> forall id j, js !! id = Some j -> ~ OGPQueue.queued j.
Proof. intros Hok Hb id j Hj Hq. pose proof (backlog_pos js id j Hok Hj Hq). lia. Qed.

Lemma backlog_bound js : attempts_ok js -> (backlog js <= 3 * size js)%nat.
Proof.
  induction js as [|id j js Hn IH] using map_ind; intros Hok; [done|].
  rewrite backlog_insert, map_size_insert_None by done.
  assert (attempts_ok js) as Hok'.
  { intros id2 j2 Hj2. apply (Hok id2). rewrite lookup_insert_ne; [done|congruence]. }
  specialize (IH Hok'). destruct (Hok id j) as [[? ?] _]; [apply lookup_insert_eq|].
  unfold weight, Worker.MaxAttempts in *. case_bool_decide; lia.
Qed.
End worker_thms.
