(* ===== verification/ImageUC.v ===== *)
(** * Images: internal/usecase/image and pkg/storage/r2.go

    The object store behind [PutObject] and [DeleteObject] is a parameter;
    the storage service on top of it and the three use cases are modelled.
    [Execute] overwrites [req.FileSize] before it calls the service. *)

From S2P Require Import Prelude Errors Monad GoStrings Cursor NetUrl Domain.
From S2P Require Import MemPosts MemLikes Repository Backend PostUC PostInv PostThms.
From Stdlib Require Import Ascii.

Module UploadImageRequest.
Record t := mk {
  FileName : string;
  FileData : string;
  MimeType : string;
  FileSize : Z;
  UserID : string;
}.

Definition set_FileSize (n : Z) (r : t) : t := mk (FileName r) (FileData r) (MimeType r) n (UserID r).
End UploadImageRequest.

(** [domain.StorageService]. *)
Module StorageService.
Class t (S : Type) := {
  Upload : UploadImageRequest.t -> M S (string * string);
  Delete : string -> M S unit;
  GetPublicURL : string -> string;
}.
End StorageService.

(** ** [pkg/storage]: the service over an object store *)

Module R2.
Local Open Scope string_scope.
Local Open Scope go_scope.

(** The two calls of the S3 client: bucket, key, and for a put the body
    and its content type. *)
Class ObjectStore (S : Type) := {
  PutObject : string -> string -> string -> string -> M S unit;
  DeleteObject : string -> string -> M S unit;
}.

(** [strings.ReplaceAll(s, "\\", "/")]. *)
Fixpoint slashed (s : string) : string :=
  match s with
  | EmptyString => EmptyString
  | String a s => String (if bool_decide (a = "\"%char) then "/"%char else a) (slashed s)
  end.

(** The text without its trailing slashes. *)
Fixpoint trim_slashes (s : string) : string :=
  match s with
  | EmptyString => EmptyString
  | String a s =>
      match trim_slashes s with
      | EmptyString => if bool_decide (a = "/"%char) then EmptyString else String a EmptyString
      | t => String a t
      end
  end.

(** What follows the last slash. *)
Fixpoint after_slash (s : string) : string :=
  match s with
  | EmptyString => EmptyString
  | String a s' => if Contains "/" s' then after_slash s'
                   else if bool_decide (a = "/"%char) then s' else s
  end.

(** [filepath.Base] on Unix. *)
Definition Base (path : string) : string :=
  if bool_decide (path = "") then "."
  else
    let p := after_slash (trim_slashes path) in
    if bool_decide (p = "") then "/" else p.

Definition sanitizeFilename (name : string) : string :=
  let name := Base (slashed name) in
  if bool_decide (name = "") || bool_decide (name = ".") || bool_decide (name = "/") then "file" else name.

Section service.
Context `{GoRuntime} {S : Type} `{ObjectStore S, Runtime.t S} (bucketName publicDomain : string).

Definition storage_key (userID objectID safeName : string) : string :=
  "images/" +:+ userID +:+ "/" +:+ objectID +:+ "/" +:+ safeName.

Definition external (message : string) {A} (m : M S A) : M S A :=
  map_err (fun e => New ErrExternalService message 500 (Some e)) m.

#[export] Instance R2Service : StorageService.t S := {|
  StorageService.Upload req :=
    let! objectID := Runtime.MakeULID in
    let storageKey := storage_key (UploadImageRequest.UserID req) objectID
                        (sanitizeFilename (UploadImageRequest.FileName req)) in
    external "failed to upload file to R2"
      (PutObject bucketName storageKey (UploadImageRequest.FileData req) (UploadImageRequest.MimeType req)) ;;;
    ret (storageKey, publicDomain +:+ "/" +:+ storageKey);
  StorageService.Delete storageKey :=
    external "failed to delete file from R2" (DeleteObject bucketName storageKey);
  StorageService.GetPublicURL storageKey := publicDomain +:+ "/" +:+ storageKey;
|}.
End service.
End R2.

(** ** The use cases *)

Module ImageUC.
Local Open Scope string_scope.
Local Open Scope go_scope.

Section image.
Context `{GoRuntime} {S : Type} `{ImageRepository.t S, Runtime.t S, StorageService.t S}.

Definition new_image (id storageKey publicURL : string) (req : UploadImageRequest.t) : Image.t :=
  Image.mk id storageKey (UploadImageRequest.FileName req) (UploadImageRequest.MimeType req)
    (UploadImageRequest.FileSize req) publicURL (UploadImageRequest.UserID req) time_zero time_zero None.

Definition Upload (req : option UploadImageRequest.t) : M S Image.t :=
  let! req := or_missing (InvalidRequest "upload request is required" None) req in
  guard (bool_decide (UploadImageRequest.FileData req = "")) (InvalidRequest "file data is empty" None) ;;;
  let req := UploadImageRequest.set_FileSize (Z.of_nat (String.length (UploadImageRequest.FileData req))) req in
  guard (MaxImageBytes <? UploadImageRequest.FileSize req)%Z (InvalidRequest "file size exceeds 5MB limit" None) ;;;
  let! (storageKey, publicURL) := StorageService.Upload req in
  let! id := Runtime.MakeULID in
  or_db "failed to save image metadata" (ImageRepository.Create (new_image id storageKey publicURL req)).

Definition GetUserImages (userSub : string) : M S (list Image.t) :=
  guard (bool_decide (userSub = "")) (InvalidRequest "invalid user sub" None) ;;;
  or_db "failed to retrieve user images" (ImageRepository.GetByUserID userSub).

Definition Delete (imageID userSub : string) : M S unit :=
  guard (bool_decide (imageID = "")) (InvalidRequest "image ID is required" None) ;;;
  let! image := or_db "failed to retrieve image" (ImageRepository.GetByID imageID) in
  let! image := or_missing (NotFound "image not found") image in
  guard (negb (bool_decide (Image.UserID image = userSub))) (Forbidden "not authorized to delete this image") ;;;
  let! _ := try (StorageService.Delete (Image.StorageKey image)) in
  or_db "failed to delete image" (ImageRepository.Delete imageID).
End image.
End ImageUC.

Example sanitize_ex :
  R2.sanitizeFilename <$> ["a/b\c.png"; ""; "/"; "../../etc/passwd"; ".."; "x/."]%string
  = ["c.png"; "file"; "file"; "passwd"; ".."; "file"]%string.
Proof. vm_compute. reflexivity. Qed.

(** ** What they guarantee *)

Section sanitize.
Import R2.
Local Open Scope string_scope.

Definition no_separator (s : string) : Prop := Contains "/" s = false /\ Contains "\" s = false.

Lemma Contains_cons c a s : Contains c (String a s) = (code a =? code c)%Z || Contains c s.
Proof. unfold Contains. cbn [Count]. by destruct (code a =? code c)%Z. Qed.

Lemma slashed_free s : Contains "\" (slashed s) = false.
Proof.
  induction s as [|a s IH]; [done|]. cbn [slashed]. rewrite Contains_cons, IH, orb_false_r.
  case_bool_decide as E; [done|]. apply Z.eqb_neq. intros Hc. apply E.
  by rewrite <-(Base64.char_code a), Hc.
Qed.

Lemma trim_slashes_free c s : Contains c s = false -> Contains c (trim_slashes s) = false.
Proof.
  induction s as [|a s IH]; [done|]. cbn [trim_slashes]. rewrite Contains_cons. intros [Ha Hs]%orb_false_iff.
  specialize (IH Hs). destruct (trim_slashes s); [case_bool_decide; [done|]|]; by rewrite Contains_cons, Ha.
Qed.

Lemma after_slash_free s : Contains "/" (after_slash s) = false.
Proof.
  induction s as [|a s IH]; [done|]. cbn [after_slash]. destruct (Contains "/" s) eqn:E; [done|].
  case_bool_decide as Ha; [done|]. rewrite Contains_cons, E, orb_false_r. apply Z.eqb_neq. intros Hc. apply Ha.
  by rewrite <-(Base64.char_code a), Hc.
Qed.

Lemma after_slash_sub c s : Contains c s = false -> Contains c (after_slash s) = false.
Proof.
  induction s as [|a s IH]; [done|]. cbn [after_slash]. rewrite Contains_cons. intros [Ha Hs]%orb_false_iff.
  destruct (Contains "/" s); [auto|]. case_bool_decide; [done|]. by rewrite Contains_cons, Ha.
Qed.

(** A stored name is one path component, though it may be "..". *)
Lemma sanitizeFilename_spec name :
  no_separator (sanitizeFilename name) /\ sanitizeFilename name <> "" /\ sanitizeFilename name <> ".".
Proof.
  unfold sanitizeFilename. set (b := Base _).
  destruct (_ || _ || _) eqn:E; [done|]. rewrite !orb_false_iff, !bool_decide_eq_false in E.
  destruct E as [[? ?] Hsl]. split; [|done]. unfold b, Base in *. clear b. case_bool_decide; [done|].
  case_bool_decide; [done|]. split; [apply after_slash_free|].
  by apply after_slash_sub, trim_slashes_free, slashed_free.
Qed.
End sanitize.

(** Image rows are stored under their own identifier and none is stored yet
    under an identifier still to be minted. *)
Record image_inv `{GoRuntime} (d : DB) : Prop := {
  images_keyed : forall id i, images d !! id = Some i -> Image.ID i = id;
  images_fresh : forall k, ulids d <= k -> images d !! ulid_Make k = None;
}.

Section image_thms.
Context `{GoRuntime, !UniqueULIDs} {S : Type} `{!Backend S, !StorageService.t S}.

(** A storage service keeps its objects elsewhere: of our tables it only
    uses up identifiers. *)
Definition remote_storage : Prop :=
  (forall rq d, vwp (S:=S) (StorageService.Upload rq) d (fun r d' =>
    exists n, ulids d <= n /\ d' = with_ulids n d /\ no_panic r)) /\
  (forall k d, vwp (S:=S) (StorageService.Delete k) d (fun r d' => d' = d /\ no_panic r)).

Lemma image_inv_grow d d' : images d' = images d -> ulids d <= ulids d' -> image_inv d -> image_inv d'.
Proof. intros Hi Hu [Hk Hf]. split; rewrite Hi; [done|]. intros k Hk'. apply Hf. lia. Qed.

(** An upload adds one image, under a fresh identifier, owned by the
    uploader, of the size of the data and within the limit. *)
Definition uploaded (rq : UploadImageRequest.t) (d d' : DB) (im : Image.t) : Prop :=
  images d !! Image.ID im = None /\ images d' = <[Image.ID im := im]> (images d) /\
  Image.UserID im = UploadImageRequest.UserID rq /\ Image.DeletedAt im = None /\
  Image.FileSize im = Z.of_nat (String.length (UploadImageRequest.FileData rq)) /\
  (0 < Image.FileSize im <= MaxImageBytes)%Z.

Lemma post_inv_images n ims d :
  post_inv d -> ulids d <= n ->
  (forall i im, images d !! i = Some im -> exists im', ims !! i = Some im' /\ Image.UserID im' = Image.UserID im) ->
  post_inv (with_images ims (with_ulids n d)).
Proof.
  intros [? [Hf1 Hf2] ? ? ? ? Ha] Hn Hi. split; try done.
  - split; intros k Hk; cbn in *; [apply Hf1|apply Hf2]; lia.
  - intros pid l Hl. destruct (Ha pid l Hl) as (q & Hq & Hall). exists q. split; [done|].
    intros i Hin. destruct (Hall i Hin) as (im & Him & Hu). destruct (Hi _ _ Him) as (im' & Him' & Hu').
    exists im'. split; [done|congruence].
Qed.

Lemma Upload_spec req d :
  remote_storage -> image_inv d -> post_inv d ->
  vwp (S:=S) (ImageUC.Upload req) d (fun r d' =>
    no_panic r /\ image_inv d' /\ post_inv d' /\
    (forall im, r = Ok im -> exists rq, req = Some rq /\ uploaded rq d d' im)).
Proof.
  intros [Hup _] Hinv Hp. unfold ImageUC.Upload. ustep. ustep; [done|]. subst req. ustep. ustep; [done|].
  ustep. ustep; [done|].
  ustep. eapply vwp_mono; [apply Hup|]. intros r d' (n & Hn & -> & Hnp).
  assert (Hp1 : forall m, n <= m -> post_inv (with_ulids m d)).
  { intros m Hm. pose proof (post_inv_images m (images d) d Hp ltac:(lia)) as Hp1.
    replace (with_images (images d) (with_ulids m d)) with (with_ulids m d) in Hp1 by (by destruct d).
    apply Hp1. intros i im Him. by exists im. }
  assert (Hi1 : forall m, n <= m -> image_inv (with_ulids m d)) by (intros m Hm; eapply image_inv_grow; [..|exact Hinv]; [done|cbn; lia]).
  destruct r as [[key url]|e|why]; [| |by destruct (Hnp why)].
  2: { split; [done|]. split; [by apply Hi1|]. split; [by apply Hp1|done]. }
  ustep. ustep. ustep; [|split; [done|]; split; [apply (Hi1 (Datatypes.S n)); lia|split; [apply (Hp1 (Datatypes.S n)); lia|done]]].
  match goal with H : bool_decide (UploadImageRequest.FileData _ = _) = false |- _ => apply bool_decide_eq_false in H; rename H into Hne end.
  match goal with H : (MaxImageBytes <? _)%Z = false |- _ => apply Z.ltb_ge in H; cbn in H; rename H into Hle end.
  assert (Hnone : images d !! ulid_Make n = None) by (by apply (images_fresh _ Hinv)).
  split; [done|]. split; [|split].
  - split; cbn.
    + intros id i [[<- <-]|[_ Hi]]%lookup_insert_Some; [done|by apply (images_keyed _ Hinv)].
    + intros k Hk. rewrite lookup_insert_ne; [apply (images_fresh _ Hinv); lia|]. intros E%ulid_inj. lia.
  - apply (post_inv_images (Datatypes.S n) _ d); [done|lia|]. intros i im Him. exists im. split; [|done].
    cbn. rewrite lookup_insert_ne; [done|]. congruence.
  - intros im [= <-]. eexists. split; [done|]. cbn. split; [done|]. split; [done|]. split; [done|].
    split; [done|]. split; [done|]. destruct (UploadImageRequest.FileData a); [done|]. cbn in *. lia.
Qed.

Lemma Delete_image_spec imageID userSub d :
  remote_storage -> image_inv d -> post_inv d ->
  vwp (S:=S) (ImageUC.Delete imageID userSub) d (fun r d' =>
    no_panic r /\ image_inv d' /\ post_inv d' /\
    (forall x, x <> imageID -> images d' !! x = images d !! x) /\
    (r = Ok tt -> owned d userSub imageID /\ Images.GetByID imageID (images d') = None)).
Proof.
  intros [_ Hdel] Hinv Hp. unfold ImageUC.Delete. repeat (ustep; try done).
  eapply vwp_mono; [apply Hdel|]. intros r d' [-> Hnp].
  match goal with H : Images.GetByID _ _ = Some _ |- _ => rename H into Hget end.
  match goal with H : negb _ = false |- _ => apply negb_false_iff, bool_decide_eq_true in H; rename H into Hown end.
  assert (Hrow : images d !! imageID = Some a).
  { unfold Images.GetByID in Hget. destruct (images d !! imageID) as [x|]; [|done]. by destruct (Images.live x); simplify_eq. }
  assert (Hok : vwp (S:=S) (or_db "failed to delete image" (ImageRepository.Delete imageID)) d (fun r d' =>
    no_panic r /\ image_inv d' /\ post_inv d' /\
    (forall x, x <> imageID -> images d' !! x = images d !! x) /\
    (r = Ok tt -> owned d userSub imageID /\ Images.GetByID imageID (images d') = None))).
  { ustep; [|by split_and!]. unfold Images.Delete. rewrite Hrow.
    split; [done|]. split; [split; cbn|split; [|split]].
    - intros id i [[<- <-]|[_ Hi]]%lookup_insert_Some; [cbn|]; by apply (images_keyed _ Hinv).
    - intros k Hk. rewrite lookup_insert_ne; [by apply (images_fresh _ Hinv)|]. intros ->.
      by rewrite (images_fresh _ Hinv k Hk) in Hrow.
    - apply (post_inv_images (ulids d) _ d); [done|done|]. intros i im Him. destruct (decide (i = imageID)) as [->|Hne].
      + eexists. split; [apply lookup_insert_eq|]. cbn. congruence.
      + exists im. by rewrite lookup_insert_ne.
    - intros x Hx. cbn. by rewrite lookup_insert_ne.
    - intros _. split; [by exists a|]. unfold Images.GetByID. cbn. by rewrite lookup_insert_eq. }
  destruct r as [[]|e|why]; [exact Hok|exact Hok|by destruct (Hnp why)].
Qed.
End image_thms.
