(* ===== verification/Frames.v ===== *)
(** * What a use case leaves alone

    [keeps R m]: whatever happens, [m] moves the database along the
    preorder [R]. The rules are compositional, so that a frame is proved by
    running through the text of a use case, without its values. *)

From S2P Require Import Prelude Errors Monad Domain Cursor MemPosts MemTags MemFollows MemOGP.
From S2P Require Import Repository Backend PostUC PostThms WorkerThms.

Section keeps.
Context {S : Type} `{!Store S} (R : relation DB).

Definition keeps {A} (m : M S A) : Prop := forall d, vwp m d (fun _ d' => R d d').

Context `{!PreOrder R}.

Lemma keeps_ret {A} (a : A) : keeps (ret a).
Proof. intros d. by apply vwp_ret. Qed.

Lemma keeps_fail {A} e : keeps (fail (A:=A) e).
Proof. intros d. by apply vwp_fail. Qed.

Lemma keeps_bind {A B} (m : M S A) (f : A -> M S B) : keeps m -> (forall a, keeps (f a)) -> keeps (bind m f).
Proof.
  intros Hm Hf d. apply vwp_bind. eapply vwp_mono; [apply Hm|]. intros [a|e|p] d' Hd; [|done..].
  eapply vwp_mono; [apply Hf|]. intros r d'' Hd'. by etrans.
Qed.

Lemma keeps_map_err {A} g (m : M S A) : keeps m -> keeps (map_err g m).
Proof. intros Hm d. apply vwp_map_err. eapply vwp_mono; [apply Hm|]. by intros [a|e|p]. Qed.

Lemma keeps_try {A} (m : M S A) : keeps m -> keeps (try m).
Proof. intros Hm d. apply vwp_try. eapply vwp_mono; [apply Hm|]. by intros [a|e|p]. Qed.

Lemma keeps_guard b e : keeps (guard b e).
Proof. destruct b; [apply keeps_fail|apply keeps_ret]. Qed.

Lemma keeps_for_each {A} (f : A -> M S unit) l : (forall x, keeps (f x)) -> keeps (for_each f l).
Proof. intros Hf. induction l as [|x l IH]; cbn; [apply keeps_ret|]. by apply keeps_bind. Qed.

Lemma keeps_op {A} (m : M S A) (f : spec A) : implements m f -> (forall t d, R d (f t d).1) -> keeps m.
Proof. intros Hm Hf d. eapply vwp_op; [done|done|]. by intros. Qed.

Lemma keeps_exact {A} (m : M S A) (f : spec A) : implements_exactly m f -> (forall t d, R d (f t d).1) -> keeps m.
Proof. intros Hm Hf d. by eapply vwp_exact. Qed.

Lemma keeps_or_missing {A} e (x : option A) : keeps (or_missing e x).
Proof. destruct x; [apply keeps_ret|apply keeps_fail]. Qed.

Lemma keeps_or_invalid e : keeps (or_invalid e).
Proof. destruct e; [apply keeps_fail|apply keeps_ret]. Qed.

Lemma keeps_run_hook (hook : option (M S unit)) : (forall h, hook = Some h -> keeps h) -> keeps (run_hook hook).
Proof. intros Hh. destruct hook; [by apply Hh|apply keeps_ret]. Qed.
End keeps.

(** One rule per control operator; what is left are the calls, whose effect
    [solve_call] has to put in [R], and the hooks. *)
Ltac frame_with solve_call :=
  repeat lazymatch goal with
  | |- forall _, _ => intros ?
  | |- keeps _ (bind _ _) => apply keeps_bind; [apply _| |intros ?]
  | |- keeps _ (map_err _ _) => apply keeps_map_err
  | |- keeps _ (or_db _ _) => apply keeps_map_err
  | |- keeps _ (try _) => apply keeps_try
  | |- keeps _ (ret _) => apply keeps_ret; apply _
  | |- keeps _ (fail _) => apply keeps_fail; apply _
  | |- keeps _ (guard _ _) => apply keeps_guard; apply _
  | |- keeps _ (or_missing _ _) => apply keeps_or_missing; apply _
  | |- keeps _ (or_invalid _) => apply keeps_or_invalid; apply _
  | |- keeps _ (for_each _ _) => apply keeps_for_each; [apply _|intros ?]
  | |- keeps _ (run_hook _) => apply keeps_run_hook; [apply _|]
  | |- keeps _ (if ?b then _ else _) => destruct b
  | |- keeps _ (match ?x with _ => _ end) => destruct x
  | |- keeps _ ((fun _ => _) _) => cbv beta
  | |- keeps _ (let _ := _ in _) => cbv zeta
  | |- keeps _ _ => first
      [ eapply keeps_op; [apply _|solve [eauto with store]|intros ? ?; spec_cbn; solve [solve_call]]
      | eapply keeps_exact; [solve [eauto with store]|intros ? ?; spec_cbn; solve [solve_call]] ]
  end.

(** ** The frames of the packages *)

(** Identifiers are only used up. *)
Lemma upsert_one_ulids `{GoRuntime} now n name st : n <= (Tags.upsert_one now n name st).1.1.
Proof. unfold Tags.upsert_one. repeat case_match; cbn; lia. Qed.

Lemma upsert_loop_ulids `{GoRuntime} now names : forall seen n st, n <= (Tags.upsert_loop now seen names n st).1.1.
Proof.
  induction names as [|name names IH]; intros seen n st; cbn [Tags.upsert_loop]; [done|].
  case_bool_decide; [apply IH|]. case_bool_decide; [apply IH|].
  pose proof (upsert_one_ulids now n name st) as Hone.
  destruct (Tags.upsert_one now n name st) as [[n1 st1] [t|e|p]]; cbn in *; [|done..].
  pose proof (IH ({[name]} ∪ seen) n1 st1) as Hrest.
  destruct (Tags.upsert_loop _ _ _ _ _) as [[n2 st2] [ts|e|p]]; cbn in *; lia.
Qed.

(** A read changes nothing. *)
#[export] Instance eq_preorder : PreOrder (@eq DB).
Proof. split; apply _. Qed.

(** Well-formed queues stay well formed. *)
Definition jobs_ok (js : gmap string OGPJob.t) : Prop := OGPQueue.wf js /\ attempts_ok js.

(** The post package writes posts, links, likes and tags, mints identifiers
    and, through its hook, adds jobs. *)
Definition post_frame (d d' : DB) : Prop :=
  users d' = users d /\ images d' = images d /\ badges d' = badges d /\ follows d' = follows d /\
  ogp d' = ogp d /\ ulids d <= ulids d' /\ (jobs_ok (jobs d) -> jobs_ok (jobs d')).

#[export] Instance post_frame_preorder : PreOrder post_frame.
Proof.
  split; [intros d; unfold post_frame; by split_and!|]. intros d1 d2 d3. unfold post_frame. intros. destruct_and!.
  split_and!; try congruence; [lia|auto].
Qed.

(** Follows and profiles write two tables; the badges write one. *)
Definition social_frame (d d' : DB) : Prop :=
  posts d' = posts d /\ links d' = links d /\ images d' = images d /\ likes d' = likes d /\
  tags d' = tags d /\ badges d' = badges d /\ ogp d' = ogp d /\ jobs d' = jobs d /\ ulids d' = ulids d.

#[export] Instance social_frame_preorder : PreOrder social_frame.
Proof.
  split; [intros d; by repeat split|]. intros d1 d2 d3. unfold social_frame. intros. destruct_and!.
  split_and!; congruence.
Qed.

Definition badge_frame (d d' : DB) : Prop :=
  posts d' = posts d /\ links d' = links d /\ images d' = images d /\ likes d' = likes d /\
  tags d' = tags d /\ users d' = users d /\ follows d' = follows d /\ ogp d' = ogp d /\ jobs d' = jobs d /\
  ulids d <= ulids d'.

#[export] Instance badge_frame_preorder : PreOrder badge_frame.
Proof.
  split; [intros d; by repeat split|]. intros d1 d2 d3. unfold badge_frame. intros. destruct_and!.
  split_and!; try congruence. lia.
Qed.

(** Images write one table. *)
Definition image_frame (d d' : DB) : Prop :=
  posts d' = posts d /\ links d' = links d /\ likes d' = likes d /\ tags d' = tags d /\
  badges d' = badges d /\ users d' = users d /\ follows d' = follows d /\ ogp d' = ogp d /\
  jobs d' = jobs d /\ ulids d <= ulids d'.

#[export] Instance image_frame_preorder : PreOrder image_frame.
Proof.
  split; [intros d; by repeat split|]. intros d1 d2 d3. unfold image_frame. intros. destruct_and!.
  split_and!; try congruence. lia.
Qed.

Ltac frame_call :=
  repeat case_match; hnf; split_and?; cbn; first [reflexivity | lia | exact (fun x => x)].

(** ** Reads that cannot panic

    [reads P m]: on a database that satisfies [P], [m] changes nothing and
    returns a result or an error. *)

Section reads.
Context {S : Type} `{!Store S} (P : DB -> Prop).

Definition reads {A} (m : M S A) : Prop := forall d, P d -> vwp m d (fun r d' => no_panic r /\ d' = d).

Lemma reads_ret {A} (a : A) : reads (ret a).
Proof. intros d _. by apply vwp_ret. Qed.

Lemma reads_fail {A} e : reads (fail (A:=A) e).
Proof. intros d _. by apply vwp_fail. Qed.

Lemma reads_bind {A B} (m : M S A) (f : A -> M S B) : reads m -> (forall a, reads (f a)) -> reads (bind m f).
Proof.
  intros Hm Hf d HP. apply vwp_bind. eapply vwp_mono; [by apply Hm|].
  intros [a|e|p] d' [Hnp ->]; [by apply Hf|done|by destruct (Hnp p)].
Qed.

Lemma reads_map_err {A} g (m : M S A) : reads m -> reads (map_err g m).
Proof.
  intros Hm d HP. apply vwp_map_err. eapply vwp_mono; [by apply Hm|].
  intros [a|e|p] d' [Hnp ->]; [done|done|by destruct (Hnp p)].
Qed.

Lemma reads_guard b e : reads (guard b e).
Proof. destruct b; [apply reads_fail|apply reads_ret]. Qed.

Lemma reads_or_missing {A} e (x : option A) : reads (or_missing e x).
Proof. destruct x; [apply reads_ret|apply reads_fail]. Qed.

Lemma reads_op {A} (m : M S A) (f : spec A) :
  implements m f -> (forall t d, P d -> (f t d).1 = d /\ no_panic (f t d).2) -> reads m.
Proof.
  intros Hm Hf d HP. eapply vwp_op; [done|..].
  - intros t. destruct (Hf t d HP) as [-> Hnp]. done.
  - by intros _ e.
Qed.
End reads.

Ltac reads_with solve_call :=
  repeat lazymatch goal with
  | |- forall _, _ => intros ?
  | |- reads _ (bind _ _) => apply reads_bind; [|intros ?]
  | |- reads _ (map_err _ _) => apply reads_map_err
  | |- reads _ (or_db _ _) => apply reads_map_err
  | |- reads _ (ret _) => apply reads_ret
  | |- reads _ (fail _) => apply reads_fail
  | |- reads _ (guard _ _) => apply reads_guard
  | |- reads _ (or_missing _ _) => apply reads_or_missing
  | |- reads _ (if ?b then _ else _) => destruct b
  | |- reads _ (match ?x with _ => _ end) => destruct x
  | |- reads _ ((fun _ => _) _) => cbv beta
  | |- reads _ (let _ := _ in _) => cbv zeta
  | |- reads _ _ => eapply reads_op; [solve [eauto with store]|intros ? ? ?; spec_cbn; solve [solve_call]]
  end.

(** A cut at [limit] finds its last row. *)
Lemma slice_last {A} (l : list A) limit :
  (0 < limit)%Z -> (limit < Z.of_nat (length l))%Z -> is_Some (slice_to limit l !! Z.to_nat (limit - 1)).
Proof.
  intros Hpos Hlt. unfold slice_to. apply lookup_lt_is_Some. rewrite length_take. lia.
Qed.

Lemma paginate_no_panic l limit why : Posts.paginate l limit <> Panic why.
Proof.
  unfold Posts.paginate. destruct (Z.leb_spec limit 0); [done|].
  destruct (Z.leb_spec (Z.of_nat (length l)) limit); [done|].
  destruct (slice_last l limit) as [x Hx]; [lia..|]. by rewrite Hx.
Qed.

Lemma listSide_no_panic `{GoRuntime} seed sub c limit side fs why :
  Follows.listSide seed sub c limit side fs <> Panic why.
Proof.
  unfold Follows.listSide. destruct (Z.leb_spec limit 0); [done|].
  set (ms := merge_sort _ _). cbn zeta. destruct (Z.leb_spec (Z.of_nat (length ms)) limit); [done|].
  destruct (slice_last ms limit) as [x Hx]; [lia..|]. by rewrite Hx.
Qed.
