(* ===== verification/Server.v ===== *)
(** * The server: requests in any order

    The handlers' use cases as one type of requests, each run to its end on
    a shared backend, wired as cmd/server/main.go wires them: the create hook
    of the posts is the preview enqueuer, the other commit hooks feed the
    analytics dispatcher, which has no table here. [reachable] are the states
    of a server that started empty, and [server_inv] holds of all of them. *)

From S2P Require Import Prelude Errors Monad GoStrings Domain.
From S2P Require Import MemUsers MemPosts MemTags MemBadges MemFollows MemOGP Repository Backend.
From S2P Require Import PostUC PostInv PostThms BadgeUC FollowUC UserUC OgpUrl OgpHtml OgpUC WorkerThms ImageUC Frames.

Inductive request :=
  | CreatePost (userSub : string) (req : option CreatePostRequest.t)
  | DeletePost (postID userSub : string)
  | LikePost (userSub postID : string)
  | UnlikePost (userSub postID : string)
  | FollowUser (me target : string)
  | UnfollowUser (me target : string)
  | SignIn (accessToken userSub : string)
  | UpdateProfile (target current : string) (req : option UpdateUserProfileRequest.t)
  | WriteBadge (adminSub : string) (w : badge_write)
  | UploadImage (req : option UploadImageRequest.t)
  | DeleteImage (imageID userSub : string)
  | WorkerCycle
  | GetPost (seed : nat) (postID : string) (viewer : option string)
  | ListPosts (seed : nat) (userID cursor : option string) (limit : Z) (viewer : option string)
  | ListReplies (seed : nat) (postID : string) (cursor : option string) (limit : Z) (viewer : option string)
  | HomeTimeline (seed : nat) (sub : string) (cursor : option string) (limit : Z)
  | UserTimeline (seed : nat) (target : string) (cursor : option string) (limit : Z) (viewer : option string)
  | GlobalTimeline (seed : nat) (cursor : option string) (limit : Z) (viewer : option string)
  | ListFollowers (sub : string) (cursor : option string) (limit : Z)
  | ListFollowing (sub : string) (cursor : option string) (limit : Z)
  | GetUser (sub : string)
  | ListUsers (limit offset : Z)
  | GetUserBadges (sub : string)
  | ListUserBadgesBatch (subs : list string)
  | ListBadges
  | GetUserImages (sub : string).

(** ** Serving *)

Section server.
Context `{GoRuntime, HostTables, HtmlLib} {S : Type}.
Context `{!Backend S, !TagExtractor.t S, !AuthCore.Client S, !StorageService.t S, !Fetcher.HttpClient S}.
Context (profileTTL : Duration) (fetch_opts : option Fetcher.options).
Local Open Scope go_scope.

Definition done {A} (m : M S A) : M S unit := m ;;; ret tt.

Definition create_hook : option (Post.t -> M S unit) := Some (fun p => Enqueuer.EnqueueForPost (Some p)).

Definition handle (r : request) : M S unit :=
  match r with
  | CreatePost u req => done (PostUC.Create create_hook u req)
  | DeletePost p u => PostUC.Delete p u
  | LikePost u p => PostUC.Like None u p
  | UnlikePost u p => PostUC.Unlike u p
  | FollowUser a b => done (FollowUC.Follow None a b)
  | UnfollowUser a b => done (FollowUC.Unfollow a b)
  | SignIn tok u => done (UserUC.GetOrHydrateUser profileTTL tok u)
  | UpdateProfile t c req => done (UserUC.UpdateUserProfile t c req)
  | WriteBadge a w => run_write a w
  | UploadImage req => done (ImageUC.Upload req)
  | DeleteImage i u => ImageUC.Delete i u
  | WorkerCycle => Worker.runOnce fetch_opts
  | GetPost seed p v => done (PostUC.Get seed p v)
  | ListPosts seed u c l v => done (PostUC.List seed u c l v)
  | ListReplies seed p c l v => done (PostUC.ListReplies seed p c l v)
  | HomeTimeline seed u c l => done (TimelineUC.Home seed u c l)
  | UserTimeline seed u c l v => done (TimelineUC.User seed u c l v)
  | GlobalTimeline seed c l v => done (TimelineUC.Global seed c l v)
  | ListFollowers u c l => done (FollowUC.ListFollowers u c l)
  | ListFollowing u c l => done (FollowUC.ListFollowing u c l)
  | GetUser u => done (UserUC.GetUser u)
  | ListUsers l o => done (UserUC.ListUsers l o)
  | GetUserBadges u => done (BadgeUC.GetUserBadges u)
  | ListUserBadgesBatch us => done (BadgeUC.ListUserBadgesBatch us)
  | ListBadges => done BadgeUC.ListBadges
  | GetUserImages u => done (ImageUC.GetUserImages u)
  end.

(** The requests that only read. *)
Definition is_read (r : request) : bool :=
  match r with
  | CreatePost _ _ | DeletePost _ _ | LikePost _ _ | UnlikePost _ _ | FollowUser _ _ | UnfollowUser _ _
  | SignIn _ _ | UpdateProfile _ _ _ | WriteBadge _ _ | UploadImage _ | DeleteImage _ _ | WorkerCycle => false
  | _ => true
  end.

(** Every table below the 2^63 rows a counter can express. *)
Definition small (d : DB) : Prop :=
  bounded d /\ few_follows (follows d) /\ (Z.of_nat (size (users d)) <= int64_max - 100)%Z.

(** The states of a server that was started on an empty store. *)
Inductive reachable : S -> Prop :=
  | started s : view s = empty_DB -> reachable s
  | served s r : reachable s -> small (view s) -> reachable (handle r s).1.
End server.

(** ** The invariant *)

Record server_inv `{GoRuntime} (d : DB) : Prop := {
  si_posts : post_inv d;
  si_follows : follow_inv (users d) (follows d);
  si_badges : badge_inv d;
  si_images : image_inv d;
  si_cache : OGPCache.wf (ogp d);
  si_jobs : OGPQueue.wf (jobs d);
  si_attempts : attempts_ok (jobs d);
}.

Section frames.
Context `{GoRuntime, !HostTables, !HtmlLib} {S : Type}.
Context `{!Backend S, !TagExtractor.t S, !AuthCore.Client S, !StorageService.t S, !Fetcher.HttpClient S}.

(** What the collaborators outside the backend may do. *)
Definition collaborators : Prop :=
  pure_extractor (S:=S) /\ remote_client (S:=S) /\ remote_storage (S:=S) /\ remote_http (S:=S).

Lemma keeps_extract (R : relation DB) `{!Reflexive R} c :
  pure_extractor (S:=S) -> keeps R (TagExtractor.Extract (S:=S) c).
Proof. intros Hx d. eapply vwp_mono; [apply Hx|]. by intros r d' [-> _]. Qed.

Lemma keeps_profile (R : relation DB) `{!Reflexive R} tok :
  remote_client (S:=S) -> keeps R (AuthCore.GetProfile (S:=S) tok).
Proof. intros Hc d. eapply vwp_mono; [apply Hc|]. by intros r d' [-> _]. Qed.

Lemma upsert_names_frame t names d : post_frame d (TagRepository.UpsertByNames_spec names t d).1.
Proof.
  unfold TagRepository.UpsertByNames_spec, Tags.UpsertByNames. do 5 (split; [done|]). split; [|done].
  cbn. pose proof (upsert_loop_ulids (clock t) names ∅ (ulids d) (tags d)).
  destruct (Tags.upsert_loop _ _ _ _ _) as [[??]?]. cbn in *. lia.
Qed.

Ltac post_call := first [apply upsert_names_frame | frame_call].

Lemma enqueued_frame p d d' : enqueued p d d' -> post_frame d d'.
Proof.
  intros (Hf & Ho & _ & Hnew & _). unfold hook_frame in Hf. destruct_and!. split_and!; try done.
  intros [Hwf Hat]. split.
  - intros id j [Hj|(_ & _ & Hid & _)]%Hnew; [by apply Hwf|done].
  - intros id j [Hj|(_ & Ha & _)]%Hnew; [by apply (Hat id)|]. rewrite Ha. done.
Qed.

Lemma keeps_enqueue p h :
  (fun k : Post.t -> M S unit => k p) <$> create_hook = Some h -> keeps post_frame h.
Proof.
  intros [= <-] d. eapply vwp_mono; [apply EnqueueForPost_spec|]. intros r d' [_ Hf]. by eapply enqueued_frame.
Qed.

Lemma Create_frame u req :
  pure_extractor (S:=S) -> keeps post_frame (PostUC.Create (S:=S) create_hook u req).
Proof.
  intros Hx. unfold PostUC.Create, PostUC.resolve_root, PostUC.check_image, PostUC.count_reply.
  frame_with post_call; [by apply keeps_extract; [apply _|]|by eapply keeps_enqueue].
Qed.

Lemma Delete_frame p u : keeps post_frame (PostUC.Delete (S:=S) p u).
Proof. unfold PostUC.Delete, PostUC.uncount_reply. frame_with post_call. Qed.

Lemma Like_frame u p : keeps post_frame (PostUC.Like (S:=S) None u p).
Proof. unfold PostUC.Like. frame_with post_call. done. Qed.

Lemma Unlike_frame u p : keeps post_frame (PostUC.Unlike (S:=S) u p).
Proof. unfold PostUC.Unlike. frame_with post_call. Qed.

Lemma Follow_frame a b : keeps social_frame (FollowUC.Follow (S:=S) None a b).
Proof. unfold FollowUC.Follow, FollowUC.bump. frame_with frame_call. done. Qed.

Lemma Unfollow_frame a b : keeps social_frame (FollowUC.Unfollow (S:=S) a b).
Proof. unfold FollowUC.Unfollow, FollowUC.unbump. frame_with frame_call. Qed.

Lemma SignIn_frame ttl tok u : remote_client (S:=S) -> keeps social_frame (UserUC.GetOrHydrateUser (S:=S) ttl tok u).
Proof.
  intros Hc. unfold UserUC.GetOrHydrateUser, UserUC.lazyCreate, UserUC.refresh.
  frame_with frame_call; by apply keeps_profile; [apply _|].
Qed.

Lemma UpdateProfile_frame t c req : keeps social_frame (UserUC.UpdateUserProfile (S:=S) t c req).
Proof. unfold UserUC.UpdateUserProfile. frame_with frame_call. Qed.

Lemma run_write_frame a w : keeps badge_frame (run_write (S:=S) a w).
Proof.
  destruct w; unfold run_write, BadgeUC.GrantBadge, BadgeUC.RevokeBadge, BadgeUC.CreateBadge, BadgeUC.UpdateBadge,
    BadgeUC.ensureAdmin, AdminUC.IsAdmin; frame_with frame_call.
Qed.

Lemma Upload_frame req : remote_storage (S:=S) -> keeps image_frame (ImageUC.Upload (S:=S) req).
Proof.
  intros [Hup _]. unfold ImageUC.Upload. frame_with frame_call. intros d. eapply vwp_mono; [apply Hup|].
  intros r d' (n & Hn & -> & _). by repeat split.
Qed.

Lemma DeleteImage_frame i u : remote_storage (S:=S) -> keeps image_frame (ImageUC.Delete (S:=S) i u).
Proof.
  intros [_ Hdel]. unfold ImageUC.Delete. frame_with frame_call. intros d. eapply vwp_mono; [apply Hdel|].
  by intros r d' [-> _].
Qed.

Lemma keeps_done (R : relation DB) `{!PreOrder R} {A} (m : M S A) : keeps R m -> keeps R (done m).
Proof. intros Hm. apply keeps_bind; [apply _|done|]. intros a. apply keeps_ret. apply _. Qed.

Ltac read_call :=
  first [ by split
        | (split; [done|]; intros why; cbn;
           first [ apply paginate_no_panic | apply listSide_no_panic ]) ].

(** The reading requests change nothing and do not panic. *)
Lemma read_spec ttl opts r : is_read r = true -> reads small (handle (S:=S) ttl opts r).
Proof.
  destruct r; intros Hr; try discriminate Hr; clear Hr; cbn [handle]; unfold done;
    (apply reads_bind; [|intros ?; apply reads_ret]);
    unfold PostUC.Get, PostUC.List, PostUC.ListReplies, TimelineUC.Home, TimelineUC.User, TimelineUC.Global,
      PostUC.HydrateOne, PostUC.Hydrate, PostUC.viewer_state, FollowUC.ListFollowers, FollowUC.ListFollowing,
      UserUC.GetUser, BadgeUC.GetUserBadges, BadgeUC.ListUserBadgesBatch, BadgeUC.ListBadges,
      ImageUC.GetUserImages; reads_with read_call.
  intros d (_ & _ & Hsz). eapply vwp_mono; [by apply ListUsers_spec|]. by intros r d' (-> & ? & _).
Qed.
End frames.

(** ** Every request keeps the invariant *)

Section preserve.
Context `{GoRuntime, !UniqueULIDs, !CivilClock, !HostTables, !HtmlLib} {S : Type}.
Context `{!Backend S, !TagExtractor.t S, !AuthCore.Client S, !StorageService.t S, !Fetcher.HttpClient S}.

Lemma vwp_frame {A} (R : relation DB) (m : M S A) d (Q : res A -> DB -> Prop) :
  keeps R m -> vwp m d Q -> vwp m d (fun r d' => R d d' /\ Q r d').
Proof. intros HR HQ. apply vwp_and; [apply HR|exact HQ]. Qed.

Lemma vwp_done {A} (m : M S A) d (Q : DB -> Prop) :
  vwp m d (fun r d' => no_panic r /\ Q d') -> vwp (done m) d (fun r d' => no_panic r /\ Q d').
Proof.
  intros Hm. apply vwp_bind. eapply vwp_mono; [exact Hm|]. intros [a|e|why] d' [Hnp HQ].
  - by apply vwp_ret.
  - by split.
  - by destruct (Hnp why).
Qed.

(** The part of the invariant a frame carries over. *)
Lemma post_frame_inv d d' : post_frame d d' -> server_inv d -> post_inv d' -> server_inv d'.
Proof.
  intros (Hu & Hi & Hb & Hf & Ho & Hn & Hj) [? ? [Bw Bf Bs] [Ik If] ? Hjw Hja] Hp.
  destruct (Hj (conj Hjw Hja)) as [Hjw' Hja']. split; rewrite ?Hu, ?Hf, ?Ho; try done.
  - split; rewrite Hb; [done| |done]. intros k Hk. apply Bf. lia.
  - split; rewrite Hi; [done|]. intros k Hk. apply If. lia.
Qed.

Lemma social_frame_inv d d' :
  social_frame d d' -> server_inv d -> follow_inv (users d') (follows d') -> server_inv d'.
Proof.
  intros (Hp & Hl & Hi & Hk & Ht & Hb & Ho & Hj & Hn) [[? [Hf1 Hf2] ? ? ? ? ?] ? [Bw Bf Bs] [Ik If] ? Hjw Hja] Hfi.
  split; rewrite ?Ho, ?Hj; try done.
  - split; rewrite ?Hp, ?Hl, ?Hi, ?Hk, ?Ht; try done. split; by rewrite ?Hp, ?Ht, Hn.
  - split; by rewrite Hb, ?Hn.
  - split; by rewrite Hi, ?Hn.
Qed.

Lemma post_inv_same d d' :
  posts d' = posts d -> links d' = links d -> images d' = images d -> likes d' = likes d -> tags d' = tags d ->
  ulids d <= ulids d' -> post_inv d -> post_inv d'.
Proof.
  intros Hp Hl Hi Hk Ht Hn [? [Hf1 Hf2] ? ? ? ? ?]. split; rewrite ?Hp, ?Hl, ?Hi, ?Hk, ?Ht; try done.
  split; rewrite ?Hp, ?Ht; intros k Hk'; [apply Hf1|apply Hf2]; lia.
Qed.

Lemma badge_frame_inv d d' :
  badge_frame d d' -> server_inv d -> badge_inv d' -> server_inv d'.
Proof.
  intros (Hp & Hl & Hi & Hk & Ht & Hu & Hf & Ho & Hj & Hn) [? ? ? [Ik If] ? ? ?] Hbi.
  split; rewrite ?Hu, ?Hf, ?Ho, ?Hj; try done.
  - by eapply post_inv_same.
  - split; rewrite Hi; [done|]. intros k Hk'. apply If. lia.
Qed.

Lemma image_frame_inv d d' :
  image_frame d d' -> server_inv d -> post_inv d' -> image_inv d' -> server_inv d'.
Proof.
  intros (Hp & Hl & Hk & Ht & Hb & Hu & Hf & Ho & Hj & Hn) [? ? [Bw Bf Bs] ? ? ? ?] Hpi Hii.
  split; rewrite ?Hu, ?Hf, ?Ho, ?Hj; try done. split; rewrite Hb; [done| |done]. intros k Hk'. apply Bf. lia.
Qed.

Lemma cycle_inv d d' : cycle d d' -> server_inv d -> server_inv d'.
Proof.
  intros Hc [Hp ? [Bw Bf Bs] [Ik If] Hcache Hjw Hja]. destruct (cycle_step d d' Hjw Hja Hc) as (Hjw' & Hja' & _).
  destruct Hc as [Hf Hc]. pose proof (post_inv_hook _ _ Hf Hp) as Hp'.
  destruct Hf as (Hu & _ & Hi & _ & _ & Hb & Hfo & _ & _ & Hn).
  split; rewrite ?Hu, ?Hfo; try done.
  - split; rewrite Hb; [done| |done]. intros k Hk. apply Bf. lia.
  - split; rewrite Hi; [done|]. intros k Hk. apply If. lia.
  - destruct Hc as [[_ ->]|(id & j & j' & _ & _ & _ & _ & _ & _ & Hout)]; [done|].
    destruct Hout as [? ? ? ? ? Hog|? ? Hog|? ? ? ? ? Hog]; rewrite Hog; [by apply OGPCache.Upsert_wf|done|by apply OGPCache.Upsert_wf].
Qed.

Lemma profile_follow_inv d d' current :
  follows d' = follows d ->
  (forall x, x <> current -> users d' !! x = users d !! x) ->
  (forall old, users d !! current = Some old -> exists new, users d' !! current = Some new /\ profile_frame new = profile_frame old) ->
  (users d !! current = None -> users d' !! current = None) ->
  follow_inv (users d) (follows d) -> follow_inv (users d') (follows d').
Proof.
  intros Hf Ho Hc Hnone [Hr Hk Ht Hcnt]. rewrite Hf.
  assert (Hrow : forall x u', users d' !! x = Some u' -> exists u, users d !! x = Some u /\
    User.Sub u' = User.Sub u /\ User.FollowersCount u' = User.FollowersCount u).
  { intros x u' Hu'. destruct (decide (x = current)) as [->|Hne].
    - destruct (users d !! current) as [old|] eqn:E; [|by rewrite Hnone in Hu'].
      destruct (Hc old eq_refl) as (new & Hnew & Hpf). exists old. split; [done|]. rewrite Hnew in Hu'.
      injection Hu' as <-. unfold profile_frame in Hpf. by simplify_eq.
    - rewrite Ho in Hu' by done. by exists u'. }
  split; [done| | |].
  - intros x u' (u & Hu & -> & _)%Hrow. by apply Hk.
  - intros a b Hab. destruct (Ht a b Hab) as [u Hu]. destruct (decide (b = current)) as [->|Hne].
    + destruct (Hc u Hu) as (new & Hnew & _). by eexists.
    + rewrite Ho by done. by eexists.
  - intros x u' (u & Hu & _ & ->)%Hrow. by apply Hcnt.
Qed.

(** Profiles are updated, never created. *)
Definition no_new_users (d d' : DB) : Prop := forall x, users d !! x = None -> users d' !! x = None.

#[export] Instance no_new_users_preorder : PreOrder no_new_users.
Proof. split; [by intros d x|]. intros d1 d2 d3 H12 H23 x Hx. auto. Qed.

Lemma profile_row_None now t req us x : us !! x = None -> (Users.UpdateProfile now t req us).1 !! x = None.
Proof.
  intros Hx. unfold Users.UpdateProfile. destruct (us !! t) eqn:E; [|done].
  apply lookup_insert_None. split; [done|congruence].
Qed.

Lemma UpdateProfile_users t c req : keeps no_new_users (UserUC.UpdateUserProfile (S:=S) t c req).
Proof.
  unfold UserUC.UpdateUserProfile.
  frame_with ltac:(intros x Hx; first [exact Hx|by apply profile_row_None]).
Qed.

Lemma UpdateProfile_follows t c req :
  keeps (fun d d' => follows d' = follows d) (UserUC.UpdateUserProfile (S:=S) t c req).
Proof.
  assert (PreOrder (fun d d' => follows d' = follows d)) by (split; [done|intros d1 d2 d3; congruence]).
  unfold UserUC.UpdateUserProfile. frame_with ltac:(reflexivity).
Qed.

Lemma run_write_inv a w d : badge_inv d -> vwp (S:=S) (run_write a w) d (fun r d' => no_panic r /\ badge_inv d').
Proof.
  intros Hb. destruct w; cbn [run_write].
  - apply vwp_done. eapply vwp_mono; [by apply GrantBadge_spec|]. by intros r d' (? & ? & _).
  - eapply vwp_mono; [by apply RevokeBadge_spec|]. by intros r d' (? & ? & _).
  - apply vwp_done. eapply vwp_mono; [by apply CreateBadge_spec|]. by intros r d' (? & ? & _).
  - apply vwp_done. eapply vwp_mono; [by apply UpdateBadge_spec|]. by intros r d' (? & ? & _).
Qed.

(** The empty store. *)
Lemma empty_inv : server_inv empty_DB.
Proof.
  split; [split| |split|split| | |]; try done.
  all: try (by intros ? ? ?%lookup_empty_Some).
  split; cbn.
  - by intros ? ? ? ?%lookup_empty_Some.
  - by intros ? ? ?%lookup_empty_Some.
  - by intros ? ? [? ?%lookup_empty_Some].
  - by intros ? ? ?%lookup_empty_Some.
Qed.

Context (ttl : Duration) (opts : option Fetcher.options).
Hypothesis Hsafe : faults S = false.
Hypothesis Hcol : collaborators (S:=S).

Lemma settled_safe {A} (r : res A) : settled S r.
Proof using Hsafe. by left. Qed.

(** A request handled on a good database leaves a good database, and the
    handler does not panic. *)
Lemma handle_inv r d :
  server_inv d -> small d ->
  vwp (S:=S) (handle ttl opts r) d (fun r d' => no_panic r /\ server_inv d').
Proof using Type*.
  intros Hinv [Hbd [Hfew Husers]]. destruct Hcol as (Hx & Hc & Hst & Hhttp).
  pose proof (si_posts _ Hinv) as Hp. pose proof (si_follows _ Hinv) as Hf.
  pose proof (si_badges _ Hinv) as Hb. pose proof (si_images _ Hinv) as Hi.
  destruct (is_read r) eqn:Er.
  { eapply vwp_mono; [apply read_spec; [done|split; [done|by split]]|]. by intros r' d' [Hnp ->]. }
  destruct r; try discriminate Er; clear Er; cbn [handle].
  - apply vwp_done. eapply vwp_mono; [apply vwp_frame; [by apply Create_frame|apply CreatePost_spec; try done]|].
    + intros h p [= <-]. apply EnqueueForPost_best_effort.
    + intros r d' (Hfr & Hnp & Hok & _). split; [done|]. by eapply post_frame_inv; [..|apply Hok, settled_safe].
  - eapply vwp_mono; [apply vwp_frame; [apply Delete_frame|by apply DeletePost_spec]|].
    intros r d' (Hfr & Hnp & Hok & _). split; [done|]. by eapply post_frame_inv; [..|apply Hok, settled_safe].
  - eapply vwp_mono; [apply vwp_frame; [apply Like_frame|by apply Like_spec]|].
    intros r d' (Hfr & Hnp & Hok & _). split; [done|]. by eapply post_frame_inv; [..|apply Hok, settled_safe].
  - eapply vwp_mono; [apply vwp_frame; [apply Unlike_frame|by apply Unlike_spec]|].
    intros r d' (Hfr & Hnp & Hok & _). split; [done|]. by eapply post_frame_inv; [..|apply Hok, settled_safe].
  - apply vwp_done. eapply vwp_mono; [apply vwp_frame; [apply Follow_frame|by apply Follow_spec]|].
    intros r d' (Hfr & Hnp & Hok). split; [done|]. eapply social_frame_inv; [done..|]. apply Hok, settled_safe.
  - apply vwp_done. eapply vwp_mono; [apply vwp_frame; [apply Unfollow_frame|by apply Unfollow_spec]|].
    intros r d' (Hfr & Hnp & Hok). split; [done|]. eapply social_frame_inv; [done..|]. apply Hok, settled_safe.
  - apply vwp_done. eapply vwp_mono; [apply vwp_frame; [by apply SignIn_frame|apply GetOrHydrate_spec; [done|apply Hf]]|].
    intros r d' (Hfr & Hnp & Hh). split; [done|]. eapply social_frame_inv; [done..|].
    destruct Hh as (_ & Hfo & _ & _ & _ & Hfi & _). rewrite Hfo. by apply Hfi.
  - apply vwp_done. eapply vwp_mono.
    + apply vwp_frame; [apply UpdateProfile_frame|]. apply vwp_frame; [apply UpdateProfile_users|].
      apply vwp_frame; [apply UpdateProfile_follows|apply UpdateProfile_spec].
    + intros r d' (Hfr & Hnew & Hfo & Hnp & Ho & Hold & _). split; [done|]. eapply social_frame_inv; [done..|].
      eapply profile_follow_inv; [done|done| |apply Hnew|done]. intros old Hu.
      destruct (Hold old Hu) as (new & ? & ? & _). by exists new.
  - eapply vwp_mono; [apply vwp_frame; [apply run_write_frame|by apply run_write_inv]|].
    intros r d' (Hfr & Hnp & Hbi). split; [done|]. by eapply badge_frame_inv.
  - apply vwp_done. eapply vwp_mono; [apply vwp_frame; [by apply Upload_frame|by apply Upload_spec]|].
    intros r d' (Hfr & Hnp & Hi' & Hp' & _). split; [done|]. by eapply image_frame_inv.
  - eapply vwp_mono; [apply vwp_frame; [by apply DeleteImage_frame|by apply Delete_image_spec]|].
    intros r d' (Hfr & Hnp & Hi' & Hp' & _). split; [done|]. by eapply image_frame_inv.
  - eapply vwp_mono; [apply runOnce_spec; [done|done|apply Hinv|apply Hinv]|]. intros r d' [-> Hcy].
    split; [done|]. by eapply cycle_inv.
Qed.

(** Every state a server reaches satisfies the invariant. *)
Lemma reachable_inv s : reachable ttl opts s -> server_inv (view s).
Proof using Type*.
  induction 1 as [s Hs|s r _ IH Hsm].
  - rewrite Hs. apply empty_inv.
  - by apply (handle_inv r (view s) IH Hsm s).
Qed.
End preserve.
