(* ===== verification/LikeRace.v ===== *)
(** * Concurrent likes: the counter against its rows

    [PostUC.Like] and [PostUC.Unlike] are several repository calls, each
    atomic under the store's mutex (or a statement of the database), with
    nothing around them. Here the two use cases are cut at those calls and
    run by any number of threads. The floor of [DecrementLikesCount] makes
    the counter drift upwards when a like and an unlike of the same user and
    post overlap; it stays exact when such pairs are not run together. *)

From S2P Require Import Prelude Errors Monad Domain MemPosts MemLikes PostInv Repository Backend PostUC PostThms.
Import Posts Likes.

Local Open Scope Z_scope.

Record shared := mkShared { tposts : gmap string Post.t; tlikes : gmap string (gmap string Time) }.

(** What a thread does next: [Like] checks the post, inserts the row and
    counts it; [Unlike] deletes the row and uncounts it. *)
Inductive pc :=
  | WillCheck (u p : string)
  | WillInsert (u p : string)
  | WillCount (u p : string)
  | WillDelete (u p : string)
  | WillUncount (u p : string).

Definition who (th : pc) : string * string :=
  match th with
  | WillCheck u p | WillInsert u p | WillCount u p | WillDelete u p | WillUncount u p => (u, p)
  end.

(** One atomic call; [None] is the end of the request. *)
Definition advance (now : Time) (th : pc) (s : shared) : shared * option pc :=
  match th with
  | WillCheck u p =>
      match GetByID p (tposts s) with
      | Some _ => (s, Some (WillInsert u p))
      | None => (s, None)
      end
  | WillInsert u p =>
      let '(ls, inserted) := Likes.Create now u p (tlikes s) in
      (mkShared (tposts s) ls, if (inserted : bool) then Some (WillCount u p) else None)
  | WillCount u p => (mkShared (IncrementLikesCount p (tposts s)) (tlikes s), None)
  | WillDelete u p =>
      let '(ls, deleted) := Likes.Delete u p (tlikes s) in
      (mkShared (tposts s) ls, if (deleted : bool) then Some (WillUncount u p) else None)
  | WillUncount u p => (mkShared (DecrementLikesCount p (tposts s)) (tlikes s), None)
  end.

(** A thread on its own. Three calls are the most a request makes. *)
Fixpoint solo (fuel : nat) (now : Time) (th : pc) (s : shared) : shared :=
  match fuel with
  | O => s
  | S fuel =>
      match advance now th s with
      | (s, Some th) => solo fuel now th s
      | (s, None) => s
      end
  end.

(** Any number of threads; a new request may be kept from overlapping one of
    the same user and post. *)
Inductive step (exclusive : bool) : shared * list pc -> shared * list pc -> Prop :=
  | arrive s ths th u p :
      th = WillCheck u p \/ th = WillDelete u p ->
      (exclusive = true -> (u, p) ∉ (who <$> ths)) ->
      step exclusive (s, ths) (s, th :: ths)
  | call s now l th r s' th' :
      advance now th s = (s', th') ->
      step exclusive (s, l ++ th :: r) (s', l ++ option_list th' ++ r).

Inductive steps (exclusive : bool) : nat -> shared * list pc -> shared * list pc -> Prop :=
  | steps_0 c : steps exclusive 0 c c
  | steps_S n c1 c2 c3 : steps exclusive n c1 c2 -> step exclusive c2 c3 -> steps exclusive (S n) c1 c3.

(** ** The balance of a counter *)

Definition incs (p : string) (th : pc) : Z :=
  match th with WillCount _ q => if bool_decide (q = p) then 1 else 0 | _ => 0 end.
Definition decs (p : string) (th : pc) : Z :=
  match th with WillUncount _ q => if bool_decide (q = p) then 1 else 0 | _ => 0 end.

Fixpoint total (f : pc -> Z) (ths : list pc) : Z :=
  match ths with [] => 0 | th :: ths => f th + total f ths end.

Lemma total_app f l r : total f (l ++ r) = total f l + total f r.
Proof. induction l as [|x l IH]; cbn; [done|]. rewrite IH. lia. Qed.

Lemma total_nonneg f ths : (forall th, 0 <= f th) -> 0 <= total f ths.
Proof. intros Hf. induction ths as [|x l IH]; cbn; [done|]. pose proof (Hf x). lia. Qed.

Lemma incs_nonneg p th : 0 <= incs p th.
Proof. unfold incs. by repeat case_match. Qed.
Lemma decs_nonneg p th : 0 <= decs p th.
Proof. unfold decs. by repeat case_match. Qed.

(** How far the counter of [q] is above the rows, once the pending calls are done. *)
Definition drift (s : shared) (ths : list pc) (p : string) (q : Post.t) : Z :=
  Post.LikesCount q + total (incs p) ths - total (decs p) ths - Z.of_nat (size (likers (tlikes s) p)).

Record race_inv (bound : Z) (s : shared) (ths : list pc) : Prop := {
  ri_counts : forall p q, tposts s !! p = Some q -> live q = true -> 0 <= Post.LikesCount q <= bound;
  ri_drift : forall p q, tposts s !! p = Some q -> live q = true -> 0 <= drift s ths p q;
}.

(** What mutual exclusion adds. *)
Record exact_inv (s : shared) (ths : list pc) : Prop := {
  ei_alone : NoDup (who <$> ths);
  ei_counting : forall u p, WillCount u p ∈ ths -> liked (tlikes s) u p;
  ei_drift : forall p q, tposts s !! p = Some q -> live q = true -> drift s ths p q = 0;
}.

(** The effect of one call on a row, on the rows of the likes and on the
    pending work, for a live post. *)
Lemma advance_row now th s s' th' p q' :
  advance now th s = (s', th') -> tposts s' !! p = Some q' -> live q' = true ->
  exists q, tposts s !! p = Some q /\ live q = true /\
    q' = (if bool_decide (incs p th = 1) then inc_likes q else if bool_decide (decs p th = 1) then dec_likes q else q).
Proof.
  intros Ha Hq' Hl. destruct th; cbn in Ha.
  - destruct (GetByID _ _); simplify_eq; by exists q'.
  - destruct (Likes.Create _ _ _ _); simplify_eq; by exists q'.
  - simplify_eq. destruct (update_live_row _ _ _ _ _ keeps_inc_likes Hq' Hl) as (q & ? & ? & ->).
    exists q. split; [done|]. split; [done|]. cbn. by repeat case_bool_decide.
  - destruct (Likes.Delete _ _ _); simplify_eq; by exists q'.
  - simplify_eq. destruct (update_live_row _ _ _ _ _ keeps_dec_likes Hq' Hl) as (q & ? & ? & ->).
    exists q. split; [done|]. split; [done|]. cbn. by repeat case_bool_decide.
Qed.

(** Rows and pending work move together. *)
Lemma advance_pending now th s s' th' p :
  advance now th s = (s', th') ->
  Z.of_nat (size (likers (tlikes s') p)) - total (incs p) (option_list th') + total (decs p) (option_list th') =
  Z.of_nat (size (likers (tlikes s) p)).
Proof.
  intros Ha. destruct th as [u x|u x|u x|u x|u x]; cbn in Ha.
  - destruct (GetByID _ _); simplify_eq; cbn; lia.
  - pose proof (Likes.Create_likers now u x (tlikes s) p) as Hlk.
    destruct (Likes.Create_spec now u x (tlikes s)) as [Hres _].
    destruct (Likes.Create now u x (tlikes s)) as [ls ins]. cbn in Hlk, Hres. simplify_eq. cbn [tlikes].
    rewrite Hlk. destruct (IsLikedBy u x (tlikes s)) eqn:E; cbn.
    + case_bool_decide; subst; [|lia]. rewrite subseteq_union_1_L; [lia|].
      intros y ->%elem_of_singleton. by apply elem_of_likers.
    + destruct (decide (p = x)) as [->|Hne].
      * rewrite !bool_decide_eq_true_2 by done. rewrite size_union, size_singleton; [lia|].
        intros y ->%elem_of_singleton Hy%elem_of_likers. unfold liked in Hy. congruence.
      * rewrite !bool_decide_eq_false_2 by congruence. lia.
  - simplify_eq. cbn. lia.
  - pose proof (Likes.Delete_likers u x (tlikes s) p) as Hlk.
    destruct (Likes.Delete_spec u x (tlikes s)) as [Hres _].
    destruct (Likes.Delete u x (tlikes s)) as [ls del]. cbn in Hlk, Hres. simplify_eq. cbn [tlikes].
    rewrite Hlk. destruct (IsLikedBy u x (tlikes s)) eqn:E; cbn.
    + destruct (decide (p = x)) as [->|Hne].
      * rewrite !bool_decide_eq_true_2 by done.
        assert (Hin : u ∈ likers (tlikes s) x) by by apply elem_of_likers.
        assert (Hsz : (0 < size (likers (tlikes s) x))%nat).
        { apply Nat.neq_0_lt_0. intros E0%size_empty_inv. set_solver. }
        rewrite size_difference by set_solver. rewrite size_singleton. lia.
      * rewrite !bool_decide_eq_false_2 by congruence. lia.
    + case_bool_decide; subst; [|lia].
      assert (likers (tlikes s) x ∖ {[u]} = likers (tlikes s) x) as ->; [|lia].
      apply set_eq. intros y. rewrite elem_of_difference, elem_of_singleton, elem_of_likers.
      unfold liked. split; [tauto|]. intros Hy. split; [done|]. intros ->. congruence.
  - simplify_eq. cbn. lia.
Qed.

(** What one call does to the drift: nothing, except that uncounting at zero
    loses a decrement. *)
Lemma advance_drift now l th r s s' th' p q q' :
  advance now th s = (s', th') ->
  q' = (if bool_decide (incs p th = 1) then inc_likes q else if bool_decide (decs p th = 1) then dec_likes q else q) ->
  0 <= Post.LikesCount q < int64_max ->
  drift s' (l ++ option_list th' ++ r) p q' =
  drift s (l ++ th :: r) p q + (if bool_decide (decs p th = 1 /\ Post.LikesCount q = 0) then 1 else 0).
Proof.
  intros Ha -> Hc. pose proof (advance_pending _ _ _ _ _ p Ha) as Hp. unfold drift.
  rewrite !total_app. change (th :: r) with ([th] ++ r). rewrite !total_app.
  assert (Hth : total (incs p) [th] = incs p th /\ total (decs p) [th] = decs p th) by (cbn; lia).
  destruct Hth as [-> ->].
  assert (Hw : wrap64 (Post.LikesCount q + 1) = Post.LikesCount q + 1).
  { apply wrap64_small. unfold int64_min, int64_max in *. lia. }
  assert (Hcase : (incs p th = 1 /\ decs p th = 0) \/ (incs p th = 0 /\ decs p th = 1) \/ (incs p th = 0 /\ decs p th = 0)).
  { destruct th; cbn; repeat case_bool_decide; tauto. }
  destruct Hcase as [[-> ->]|[[-> ->]|[-> ->]]]; cbn [Z.eqb].
  - rewrite (bool_decide_eq_true_2 (1 = 1)) by done. rewrite (bool_decide_eq_false_2 (0 = 1 /\ Post.LikesCount q = 0)) by lia.
    cbn [inc_likes Post.LikesCount Post.set_LikesCount]. lia.
  - rewrite (bool_decide_eq_false_2 (0 = 1)), (bool_decide_eq_true_2 (1 = 1)) by done. unfold dec_likes.
    destruct (Z.ltb_spec 0 (Post.LikesCount q)); cbn [Post.LikesCount Post.set_LikesCount]; case_bool_decide; lia.
  - rewrite (bool_decide_eq_false_2 (0 = 1)), (bool_decide_eq_false_2 (0 = 1 /\ Post.LikesCount q = 0)) by lia. lia.
Qed.

Lemma count_step p th q bound :
  0 <= Post.LikesCount q <= bound -> bound < int64_max ->
  0 <= Post.LikesCount (if bool_decide (incs p th = 1) then inc_likes q
    else if bool_decide (decs p th = 1) then dec_likes q else q) <= bound + 1.
Proof.
  intros Hc Hb. repeat case_bool_decide.
  - cbn. rewrite wrap64_small; [lia|]. unfold int64_min, int64_max in *. lia.
  - unfold dec_likes. destruct (Z.ltb_spec 0 (Post.LikesCount q)); cbn; lia.
  - lia.
Qed.

Lemma drift_arrive s ths th u p x q : th = WillCheck u p \/ th = WillDelete u p -> drift s (th :: ths) x q = drift s ths x q.
Proof. unfold drift. by intros [-> | ->]. Qed.

Lemma race_step excl bound s ths s' ths' :
  step excl (s, ths) (s', ths') -> bound < int64_max -> race_inv bound s ths -> race_inv (bound + 1) s' ths'.
Proof.
  intros Hs Hb [Hc Hd]. inversion Hs; subst; clear Hs.
  - split; intros x q Hq Hl.
    + specialize (Hc _ _ Hq Hl). lia.
    + erewrite drift_arrive by done. by apply Hd.
  - split; intros x q' Hq' Hl;
      match goal with Ha : advance _ _ _ = _ |- _ =>
        destruct (advance_row _ _ _ _ _ _ _ Ha Hq' Hl) as (q & Hq & Hlq & E) end; specialize (Hc _ _ Hq Hlq).
    + rewrite E. by apply count_step.
    + erewrite advance_drift by (done || lia). specialize (Hd _ _ Hq Hlq).
      match goal with |- context [if bool_decide ?P then 1 else 0] => destruct (bool_decide P) end; lia.
Qed.

(** Likes are only removed by their own user. *)
Lemma advance_liked now th s s' th' v y (others : list pc) :
  advance now th s = (s', th') ->
  (forall v y, WillCount v y ∈ others -> liked (tlikes s) v y /\ (v, y) <> who th) ->
  WillCount v y ∈ others \/ th' = Some (WillCount v y) -> liked (tlikes s') v y.
Proof.
  intros Ha Ho Hc. destruct th as [u x|u x|u x|u x|u x]; cbn in Ha.
  - destruct (GetByID _ _); simplify_eq; destruct Hc as [Hc|Hc]; simplify_eq; by apply Ho.
  - pose proof (proj2 (Likes.Create_spec now u x (tlikes s)) v y) as Hl.
    destruct (Likes.Create now u x (tlikes s)) as [ls ins]. cbn in Hl. simplify_eq. cbn. apply Hl.
    destruct Hc as [Hc|Hc]; [right; by apply Ho|]. destruct ins; [|done]. left. by simplify_eq.
  - simplify_eq. destruct Hc as [Hc|Hc]; simplify_eq; by apply Ho.
  - pose proof (proj2 (Likes.Delete_spec u x (tlikes s)) v y) as Hl.
    destruct (Likes.Delete u x (tlikes s)) as [ls del]. cbn in Hl. simplify_eq. cbn. apply Hl.
    destruct Hc as [Hc|Hc]; [|by destruct del]. destruct (Ho _ _ Hc) as [? Hne]. split; [done|].
    intros [-> ->]. by apply Hne.
  - simplify_eq. destruct Hc as [Hc|Hc]; simplify_eq; by apply Ho.
Qed.

(** With exclusion the counters waiting to be bumped belong to distinct likers. *)
Lemma pending_le_likers ls ths p :
  NoDup (who <$> ths) -> (forall u, WillCount u p ∈ ths -> liked ls u p) ->
  total (incs p) ths <= Z.of_nat (size (likers ls p)).
Proof.
  intros Hnd Hl.
  assert (Hus : exists us : list string, NoDup us /\ total (incs p) ths = Z.of_nat (length us) /\
    forall u, u ∈ us -> WillCount u p ∈ ths).
  { clear Hl. induction ths as [|th ths IH]; [exists []; split; [constructor|split; [done|by intros u ?%not_elem_of_nil]]|].
    rewrite fmap_cons, NoDup_cons in Hnd. destruct Hnd as [Hni Hnd]. destruct (IH Hnd) as (us & Hus & Ht & Hin).
    change (total (incs p) (th :: ths)) with (incs p th + total (incs p) ths). rewrite Ht.
    assert (Hold : exists us : list string, NoDup us /\ 0 + Z.of_nat (length us) = Z.of_nat (length us) /\ forall u, u ∈ us -> WillCount u p ∈ th :: ths).
    { exists us. split; [done|]. split; [lia|]. intros u Hu. right. auto. }
    destruct th as [u x|u x|u x|u x|u x]; cbn; try (exists us; split; [done|]; split; [lia|]; intros v Hv; right; by apply Hin).
    case_bool_decide as E; [subst x|exists us; split; [done|]; split; [lia|]; intros v Hv; right; by apply Hin].
    exists (u :: us). split; [|split; [cbn; lia|]].
    - constructor; [|done]. intros Hu. apply Hni. change (who (WillCount u p)) with (who (WillCount u p)).
      apply list_elem_of_fmap_2. by apply Hin.
    - intros v [->|Hv]%elem_of_cons; [by left|right; by apply Hin]. }
  destruct Hus as (us & Hus & -> & Hin).
  rewrite <-(size_list_to_set (C:=gset string)) by done. apply inj_le, subseteq_size.
  intros u Hu%elem_of_list_to_set. apply elem_of_likers. auto.
Qed.

Lemma exact_step bound s ths s' ths' :
  step true (s, ths) (s', ths') -> bound < int64_max -> race_inv bound s ths -> exact_inv s ths -> exact_inv s' ths'.
Proof.
  intros Hs Hb [Hc _] [Hnd Hcount Hd]. inversion Hs as [? ? th u p Hth Hex|? now l th r ? th' Ha]; subst; clear Hs.
  - split.
    + rewrite fmap_cons, NoDup_cons. split; [|done]. specialize (Hex eq_refl). by destruct Hth as [-> | ->].
    + intros v y [E|Hin]%elem_of_cons; [destruct Hth; congruence|by apply Hcount].
    + intros x q Hq Hl. erewrite drift_arrive by done. by apply Hd.
  - assert (Hwho : forall x, x ∈ (who <$> option_list th') -> x = who th).
    { intros x. destruct th as [u x'|u x'|u x'|u x'|u x']; cbn in Ha.
      - destruct (GetByID _ _); simplify_eq; cbn; [by intros ->%list_elem_of_singleton|by intros ?%not_elem_of_nil].
      - destruct (Likes.Create _ _ _ _) as [? []]; simplify_eq; cbn; [by intros ->%list_elem_of_singleton|by intros ?%not_elem_of_nil].
      - simplify_eq. by intros ?%not_elem_of_nil.
      - destruct (Likes.Delete _ _ _) as [? []]; simplify_eq; cbn; [by intros ->%list_elem_of_singleton|by intros ?%not_elem_of_nil].
      - simplify_eq. by intros ?%not_elem_of_nil. }
    assert (Hrest : forall v y, WillCount v y ∈ l ++ r -> (v, y) <> who th).
    { intros v y Hin E. rewrite fmap_app, fmap_cons in Hnd. apply NoDup_app in Hnd as (_ & Hdis & Hr).
      apply NoDup_cons in Hr as [Hni _]. apply elem_of_app in Hin as [Hin|Hin].
      - apply (Hdis (who th)); [|by left]. rewrite <-E. by apply (list_elem_of_fmap_2 who _ (WillCount v y)).
      - apply Hni. rewrite <-E. by apply (list_elem_of_fmap_2 who _ (WillCount v y)). }
    split.
    + rewrite fmap_app, fmap_cons in Hnd. destruct th' as [th2|].
      * change (option_list (Some th2) ++ r) with (th2 :: r). rewrite fmap_app, fmap_cons. by rewrite (Hwho (who th2)) by (by left).
      * apply NoDup_app in Hnd as (Hl & Hdis & Hr). apply NoDup_cons in Hr as [_ Hr].
        change (option_list None ++ r) with r. rewrite fmap_app. apply NoDup_app. split; [done|]. split; [|done]. intros x Hx Hxr. apply (Hdis x Hx). by right.
    + intros v y Hin.
      assert (Hcase : WillCount v y ∈ l ++ r \/ th' = Some (WillCount v y)).
      { rewrite !elem_of_app in *. destruct Hin as [?|[Hin|?]]; [by left; left| |by left; right].
        destruct th' as [th2|]; [|by apply not_elem_of_nil in Hin]. apply list_elem_of_singleton in Hin as ->. by right. }
      eapply (advance_liked now th s s' th' v y (l ++ r)); [done| |done].
      intros w z Hwz. split; [|by apply Hrest]. apply Hcount. rewrite elem_of_app, elem_of_cons. apply elem_of_app in Hwz. tauto.
    + intros x q' Hq' Hl.
      destruct (advance_row _ _ _ _ _ _ _ Ha Hq' Hl) as (q & Hq & Hlq & E). specialize (Hc _ _ Hq Hlq).
      erewrite advance_drift by (done || lia). rewrite (Hd _ _ Hq Hlq).
      rewrite bool_decide_eq_false_2; [lia|]. intros [Hdec H0].
      pose proof (Hd _ _ Hq Hlq) as Hd0. unfold drift in Hd0.
      pose proof (pending_le_likers (tlikes s) (l ++ th :: r) x Hnd (fun u => Hcount u x)).
      rewrite !(total_app (decs x)) in Hd0. cbn [total] in Hd0.
      pose proof (total_nonneg (decs x) l (decs_nonneg x)). pose proof (total_nonneg (decs x) r (decs_nonneg x)). lia.
Qed.

(** ** Whole runs *)

Lemma race_run excl n : forall s ths s' ths' bound,
  steps excl n (s, ths) (s', ths') -> bound + Z.of_nat n <= int64_max ->
  race_inv bound s ths ->
  race_inv (bound + Z.of_nat n) s' ths' /\ (excl = true -> exact_inv s ths -> exact_inv s' ths').
Proof.
  induction n as [|n IH]; intros s ths s' ths' bound Hs Hb Hinv; inversion Hs as [|? ? [s1 ths1] ? Hs1 Hst]; subst.
  - replace (bound + Z.of_nat 0) with bound by lia. done.
  - destruct (IH _ _ _ _ bound Hs1 ltac:(lia) Hinv) as [H1 Hex]. split.
    + replace (bound + Z.of_nat (S n)) with (bound + Z.of_nat n + 1) by lia. eapply race_step; [done|lia|done].
    + intros -> He. eapply (exact_step (bound + Z.of_nat n)); [done|lia|done|auto].
Qed.

(** The invariants of a store at rest. *)
Lemma rest_inv ps ls bound :
  (forall p q, ps !! p = Some q -> live q = true -> Post.LikesCount q = Z.of_nat (size (likers ls p)) /\ Post.LikesCount q <= bound) ->
  race_inv bound (mkShared ps ls) [] /\ exact_inv (mkShared ps ls) [].
Proof.
  intros Hok. split; split; cbn.
  - intros p q Hq Hl. destruct (Hok _ _ Hq Hl). lia.
  - intros p q Hq Hl. destruct (Hok _ _ Hq Hl). unfold drift. cbn. lia.
  - constructor.
  - by intros u p ?%not_elem_of_nil.
  - intros p q Hq Hl. destruct (Hok _ _ Hq Hl). unfold drift. cbn. lia.
Qed.

(** ** The cut is faithful: a thread alone is the use case *)

(** ** Schedules

    An executable run: which request arrives, and which thread makes its
    next call. *)

Inductive event := Start (th : pc) | Call (i : nat) (now : Time).

Definition play (excl : bool) (e : event) (c : shared * list pc) : option (shared * list pc) :=
  match e with
  | Start th =>
      if match th with WillCheck _ _ | WillDelete _ _ => true | _ => false end
         && negb (excl && bool_decide (who th ∈ (who <$> c.2)))
      then Some (c.1, th :: c.2) else None
  | Call i now =>
      th ← c.2 !! i;
      let '(s', th') := advance now th c.1 in
      Some (s', take i c.2 ++ option_list th' ++ drop (S i) c.2)
  end.

Fixpoint plays (excl : bool) (es : list event) (c : shared * list pc) : option (shared * list pc) :=
  match es with
  | [] => Some c
  | e :: es => c ← play excl e c; plays excl es c
  end.

Lemma play_step excl e c c' : play excl e c = Some c' -> step excl c c'.
Proof.
  destruct c as [s ths]. destruct e as [th|i now]; cbn.
  - destruct (_ && _) eqn:E; [|done]. intros [= <-]. apply andb_true_iff in E as [Hth Hx].
    eapply (arrive excl s ths th (who th).1 (who th).2); [destruct th; cbn; auto; done|].
    intros ->. rewrite <-surjective_pairing. by apply negb_true_iff, bool_decide_eq_false_1 in Hx.
  - destruct (ths !! i) as [th|] eqn:E; [|done]. cbn. destruct (advance now th s) as [s' th'] eqn:Ea. intros [= <-].
    rewrite <-(take_drop_middle _ _ _ E) at 1. by apply call with now.
Qed.

Lemma steps_front excl n c1 c2 c3 : step excl c1 c2 -> steps excl n c2 c3 -> steps excl (S n) c1 c3.
Proof.
  intros H1 H2. revert c1 H1. induction H2 as [c|n c1 c2 c3 H2 IH H3]; intros c0 H1.
  - eapply steps_S; [apply steps_0|done].
  - eapply steps_S; [by apply IH|done].
Qed.

Lemma plays_steps excl es : forall c c', plays excl es c = Some c' -> steps excl (length es) c c'.
Proof.
  induction es as [|e es IH]; intros c c'; cbn; [intros [= <-]; apply steps_0|].
  destruct (play excl e c) as [c1|] eqn:E; [|done]. cbn. intros Hp.
  eapply steps_front; [by eapply play_step|by apply IH].
Qed.

Section alone.
Context `{GoRuntime}.

(** [PostUC.Like] on the in-memory backend leaves the tables a thread
    alone leaves. *)
Lemma solo_like u p w :
  u <> ""%string -> p <> ""%string ->
  exists now, let s := solo 3 now (WillCheck u p) (mkShared (posts (db w)) (likes (db w))) in
  let w' := (PostUC.Like None u p w).1 in posts (db w') = tposts s /\ likes (db w') = tlikes s.
Proof.
  intros Hu Hp. destruct w as [t d]. exists (clock (S t)). unfold PostUC.Like.
  rewrite (bool_decide_eq_false_2 (u = _)), (bool_decide_eq_false_2 (p = _)) by done.
  unfold bind, or_db, map_err, or_missing, guard, ret, fail, run_hook. cbn.
  destruct (GetByID p (posts d)) as [q|]; cbn; [|done].
  destruct (Likes.Create (clock (S t)) u p (likes d)) as [ls []] eqn:E; cbn; rewrite ?E; cbn; done.
Qed.

Lemma solo_unlike u p w :
  u <> ""%string -> p <> ""%string ->
  let s := solo 2 0 (WillDelete u p) (mkShared (posts (db w)) (likes (db w))) in
  let w' := (PostUC.Unlike u p w).1 in posts (db w') = tposts s /\ likes (db w') = tlikes s.
Proof.
  intros Hu Hp. destruct w as [t d]. unfold PostUC.Unlike.
  rewrite (bool_decide_eq_false_2 (u = _)), (bool_decide_eq_false_2 (p = _)) by done.
  unfold bind, or_db, map_err, or_missing, guard, ret, fail. cbn.
  destruct (Likes.Delete u p (likes d)) as [ls []] eqn:E; cbn; rewrite ?E; cbn; done.
Qed.
End alone.
