(* ===== verification/Dispatcher.v ===== *)
(** * The outbound bridge: internal/usecase/fuju and cmd/server/fuju_hooks.go

    Commit hooks put contents and events on two bounded channels; one
    background loop batches them to the recommendation service. The channel
    operations of any number of hooks and of the loop interleave one by one.
    Each stream carries, for the statements only, the list of the items that
    ever entered its channel and of those a full queue pushed out. *)

From S2P Require Import Prelude Domain.

(** ** Payloads ([pkg/fujumodel]) *)

Module Fuju.
Record Content := mkContent {
  ContentID : string; AuthorID : string; CText : option string; CreatedAt : option Time;
}.   (* the fields the hooks fill; the others stay nil *)

Record Event := mkEvent {
  UserID : string; ItemID : string; EventType : string; Timestamp : Time; EText : option string;
}.

Definition EventComment : string := "comment".
Definition EventLike : string := "like".
Definition EventFollow : string := "follow".

(** What [fujuPostCommitHook] enqueues for a new post. *)
Definition post_content (p : Post.t) : Content :=
  mkContent (Post.ID p) (Post.UserID p) (Some (Post.Content p)) (Some (Post.CreatedAt p)).
Definition post_event (p : Post.t) : option Event :=
  (fun parent => mkEvent (Post.UserID p) parent EventComment (Post.CreatedAt p) (Some (Post.Content p)))
    <$> Post.ParentPostID p.

(** The events of [fujuLikeCommitHook] and [fujuFollowCommitHook]. *)
Definition like_event (now : Time) (userSub postID : string) : Event :=
  mkEvent userSub postID EventLike now None.
Definition follow_event (now : Time) (followerSub followeeSub : string) : Event :=
  mkEvent followerSub followeeSub EventFollow now None.
End Fuju.

Module Dispatcher.
(** ** [NewDispatcher]: the effective options *)

Definition batch_size (opt : Z) : Z := if (opt <=? 0)%Z then 50 else opt.
Definition queue_capacity (opt_batch opt_cap : Z) : Z :=
  if (opt_cap <=? 0)%Z then wrap64 (batch_size opt_batch * 8) else opt_cap.

(** ** One stream *)

Section stream.
Context {A : Type}.

Record stream := mk {
  ch : list A;             (* the channel, oldest first *)
  batch : list A;          (* the slice of the loop *)
  sent : list (list A);    (* batches handed to the Sender *)
  accepted : list A;       (* ghost: every item that entered the channel *)
  dropped : list A;        (* ghost: items taken off to make room *)
  rejected : list A;       (* ghost: items that found no room twice *)
}.

Definition new_stream : stream := mk [] [] [] [] [] [].

(** A call of [Enqueue*]: its three selects. *)
Inductive producer := Offer (x : A) | DropOldest (x : A) | Retry (x : A).

Definition push (x : A) (s : stream) : stream :=
  mk (ch s ++ [x]) (batch s) (sent s) (accepted s ++ [x]) (dropped s) (rejected s).

Definition enqueue_step (cap : nat) (p : producer) (s : stream) : stream * option producer :=
  match p with
  | Offer x => if Nat.ltb (length (ch s)) cap then (push x s, None) else (s, Some (DropOldest x))
  | DropOldest x =>
      match ch s with
      | y :: rest => (mk rest (batch s) (sent s) (accepted s) (dropped s ++ [y]) (rejected s), Some (Retry x))
      | [] => (s, Some (Retry x))
      end
  | Retry x =>
      if Nat.ltb (length (ch s)) cap then (push x s, None)
      else (mk (ch s) (batch s) (sent s) (accepted s) (dropped s) (rejected s ++ [x]), None)
  end.

(** [flushContents]/[flushEvents] and [batch = batch[:0]]. *)
Definition flush (s : stream) : stream :=
  if bool_decide (length (batch s) = 0) then s
  else mk (ch s) [] (sent s ++ [batch s]) (accepted s) (dropped s) (rejected s).

(** [c := <-ch; batch = append(batch, c)]; [None] when nothing is there. *)
Definition take (s : stream) : option stream :=
  match ch s with
  | y :: rest => Some (mk rest (batch s ++ [y]) (sent s) (accepted s) (dropped s) (rejected s))
  | [] => None
  end.

(** The receive case of the loop. *)
Definition receive (size : nat) (s : stream) : option stream :=
  (fun s => if Nat.leb size (length (batch s)) then flush s else s) <$> take s.
End stream.
Arguments stream : clear implicits.
Arguments producer : clear implicits.

(** ** The dispatcher *)

Inductive mode := Running | DrainContents | DrainEvents | Stopped.

Record state := mkState {
  contents : stream Fuju.Content;
  events : stream Fuju.Event;
  content_calls : list (producer Fuju.Content);
  event_calls : list (producer Fuju.Event);
  status : mode;
}.

Definition initial : state := mkState new_stream new_stream [] [] Running.

Section steps.
Context (cap size : nat).

(** The interleaved steps: hooks calling in, their selects, and the loop
    with its final drain. *)
Inductive step : state -> state -> Prop :=
  | call_content c e cc ec m x :
      step (mkState c e cc ec m) (mkState c e (Offer x :: cc) ec m)
  | call_event c e cc ec m x :
      step (mkState c e cc ec m) (mkState c e cc (Offer x :: ec) m)
  | content_select c e l p r ec m c' p' :
      enqueue_step cap p c = (c', p') ->
      step (mkState c e (l ++ p :: r) ec m) (mkState c' e (l ++ option_list p' ++ r) ec m)
  | event_select c e cc l p r m e' p' :
      enqueue_step cap p e = (e', p') ->
      step (mkState c e cc (l ++ p :: r) m) (mkState c e' cc (l ++ option_list p' ++ r) m)
  | receive_content c e cc ec c' :
      receive size c = Some c' -> step (mkState c e cc ec Running) (mkState c' e cc ec Running)
  | receive_event c e cc ec e' :
      receive size e = Some e' -> step (mkState c e cc ec Running) (mkState c e' cc ec Running)
  | tick c e cc ec :
      step (mkState c e cc ec Running) (mkState (flush c) (flush e) cc ec Running)
  | cancel c e cc ec :
      step (mkState c e cc ec Running) (mkState c e cc ec DrainContents)
  | drain_content c e cc ec c' :
      take c = Some c' -> step (mkState c e cc ec DrainContents) (mkState c' e cc ec DrainContents)
  | contents_drained c e cc ec :
      take c = None -> step (mkState c e cc ec DrainContents) (mkState c e cc ec DrainEvents)
  | drain_event c e cc ec e' :
      take e = Some e' -> step (mkState c e cc ec DrainEvents) (mkState c e' cc ec DrainEvents)
  | events_drained c e cc ec :
      take e = None -> step (mkState c e cc ec DrainEvents) (mkState (flush c) (flush e) cc ec Stopped).

Inductive reachable : state -> Prop :=
  | reach_start : reachable initial
  | reach_step s s' : reachable s -> step s s' -> reachable s'.
End steps.

(** ** What the streams keep *)

Section invariant.
Context {A : Type} (cap size : nat).

Record stream_inv (m : mode) (calls : list (producer A)) (s : stream A) : Prop := {
  (* nothing is lost or invented: an item is sent, waiting or dropped *)
  balance : accepted s ≡ₚ concat (sent s) ++ batch s ++ dropped s ++ ch s;
  (* what goes out goes out in the order it came in *)
  in_order : exists taken, accepted s = taken ++ ch s /\ (concat (sent s) ++ batch s) `sublist_of` taken;
  queue_bound : length (ch s) <= cap;
  batch_bound : m = Running -> length (batch s) < size;
  sent_bound : Forall (fun b => b <> [] /\ (m = Running -> length b <= size)) (sent s);
  idle_after : m = Stopped -> batch s = [];   (* the final flush leaves no batch *)
  (* losses need a full queue *)
  loss : dropped s <> [] \/ rejected s <> [] \/ (exists p, p ∈ calls /\ match p with Offer _ => False | _ => True end) ->
    cap <= length (accepted s);
}.

Lemma inv_new : 0 < size -> stream_inv Running [] new_stream.
Proof.
  intros Hs. split; cbn; try done; [by exists []|lia|].
  intros [?|[?|(p & Hp & _)]]; [done..|by apply not_elem_of_nil in Hp].
Qed.

Lemma accepted_length m calls s : stream_inv m calls s -> length (ch s) <= length (accepted s).
Proof. intros [_ (t & -> & _) _ _ _ _ _]. rewrite length_app. lia. Qed.

(** The calls in flight matter only through those past their first select. *)
Lemma inv_calls m calls calls' s :
  (forall p, p ∈ calls' -> p ∈ calls \/ match p with Offer _ => True | _ => cap <= length (accepted s) end) ->
  stream_inv m calls s -> stream_inv m calls' s.
Proof.
  intros Hin [Hb Ho Hq Hbb Hsb Hi Hl]. split; try done.
  intros [?|[?|(p & Hp & Hslow)]]; [apply Hl; auto..|].
  destruct (Hin p Hp) as [Hp'|Hp']; [apply Hl; eauto|by destruct p].
Qed.

Lemma inv_push m calls x s : length (ch s) < cap -> stream_inv m calls s -> stream_inv m calls (push x s).
Proof.
  intros Hlt [Hb (t & Ht & Hs) Hq Hbb Hsb Hi Hl]. split; cbn; try done.
  - rewrite Hb. by rewrite <-!(assoc_L (++)).
  - exists t. split; [|done]. by rewrite Ht, (assoc_L (++)).
  - rewrite length_app. cbn. lia.
  - intros Hloss. specialize (Hl Hloss). rewrite length_app. lia.
Qed.

Lemma inv_drop m calls y rest s :
  ch s = y :: rest -> cap <= length (accepted s) -> stream_inv m calls s ->
  stream_inv m calls (mk rest (batch s) (sent s) (accepted s) (dropped s ++ [y]) (rejected s)).
Proof.
  intros Hch Hcap [Hb (t & Ht & Hs) Hq Hbb Hsb Hi Hl]. split; cbn; try done.
  - rewrite Hb, Hch. by rewrite <-!(assoc_L (++)).
  - exists (t ++ [y]). rewrite Ht, Hch. split; [by rewrite <-(assoc_L (++))|]. by apply sublist_inserts_r.
  - rewrite Hch in Hq. cbn in Hq. lia.
Qed.

Lemma inv_enqueue m l p r s s' p' :
  enqueue_step cap p s = (s', p') -> stream_inv m (l ++ p :: r) s -> stream_inv m (l ++ option_list p' ++ r) s'.
Proof.
  intros Hstep Hinv. pose proof (accepted_length _ _ _ Hinv) as Hacc.
  assert (Hsub : forall q, q ∈ l ++ r -> q ∈ l ++ p :: r).
  { intros q. rewrite !elem_of_app, elem_of_cons. tauto. }
  assert (Hslow : match p with Offer _ => False | _ => True end -> cap <= length (accepted s)).
  { intros Hp. apply (loss _ _ _ Hinv). right. right. exists p. split; [|done].
    rewrite elem_of_app, elem_of_cons. auto. }
  assert (Hgone : stream_inv m (l ++ r) s) by (eapply inv_calls; [|exact Hinv]; auto).
  assert (Hnext : forall q, cap <= length (accepted s) -> stream_inv m (l ++ [q] ++ r) s).
  { intros q Hc. eapply inv_calls; [|exact Hgone]. intros q'. rewrite !elem_of_app, list_elem_of_singleton.
    intros [?|[->|?]]; [by left; left|right; by destruct q|by left; right]. }
  destruct p as [x|x|x]; cbn [enqueue_step] in Hstep.
  - destruct (Nat.ltb_spec (length (ch s)) cap); simplify_eq; cbn; [by apply inv_push|apply Hnext; lia].
  - specialize (Hslow I). destruct (ch s) as [|y rest] eqn:Ech; simplify_eq; cbn.
    + by apply Hnext.
    + eapply inv_calls; [|apply (inv_drop m (l ++ r) y rest s Ech Hslow Hgone)].
      intros q'. rewrite !elem_of_app, elem_of_cons. intros [?|[->|?]]; [by left; left|by right|by left; right].
  - specialize (Hslow I). destruct (Nat.ltb_spec (length (ch s)) cap); simplify_eq; cbn; [by apply inv_push|].
    destruct Hgone as [Hb Ho Hq Hbb Hsb Hi Hl]. by split.
Qed.

Lemma inv_take m calls s s' :
  take s = Some s' -> m <> Stopped -> stream_inv m calls s ->
  (m = Running -> length (batch s') < size) -> stream_inv m calls s'.
Proof.
  unfold take. intros Ht Hm [Hb (t & Hacc & Hs) Hq Hbb Hsb Hi Hl] Hsz.
  destruct (ch s) as [|y rest] eqn:Ech; simplify_eq; cbn in *. split; cbn; try done.
  - rewrite Hb. rewrite <-!(assoc_L (++)). cbn. by rewrite (Permutation_middle (dropped s)).
  - exists (t ++ [y]). rewrite Hacc. split; [by rewrite <-(assoc_L (++))|].
    rewrite (assoc_L (++)). by apply sublist_app.
  - cbn in Hq. lia.
Qed.

(** The batch goes out; [m] may be the mode the flush ends in. *)
Lemma inv_flush m m' calls s :
  stream_inv m calls s -> (m' = Running -> m = Running /\ 0 < size) -> stream_inv m' calls (flush s).
Proof.
  intros [Hb (t & Hacc & Hs) Hq Hbb Hsb Hi Hl] Hm.
  assert (Hsb' : Forall (fun b => b <> [] /\ (m' = Running -> length b <= size)) (sent s)).
  { eapply Forall_impl; [exact Hsb|]. cbn. intros b [? Hlen]. split; [done|]. intros E. apply Hlen. by apply Hm. }
  unfold flush. case_bool_decide as He.
  { apply nil_length_inv in He. split; try done; [by exists t|]. intros E. rewrite He. cbn. by apply Hm. }
  split; cbn; try done.
  - rewrite Hb, concat_app. cbn. by rewrite app_nil_r, <-!(assoc_L (++)).
  - exists t. split; [done|]. rewrite concat_app. cbn. by rewrite !app_nil_r.
  - intros E. by apply Hm.
  - apply Forall_app. split; [done|]. apply Forall_singleton.
    split; [by intros E0; rewrite E0 in He|]. intros E. destruct (Hm E) as [-> _]. specialize (Hbb eq_refl). lia.
Qed.

Lemma inv_receive calls s s' :
  receive size s = Some s' -> 0 < size -> stream_inv Running calls s -> stream_inv Running calls s'.
Proof.
  unfold receive. intros (s1 & Ht & ->)%fmap_Some Hsz Hinv.
  assert (Hlen : length (batch s1) <= size).
  { pose proof (batch_bound _ _ _ Hinv eq_refl). unfold take in Ht. destruct (ch s); [done|]. injection Ht as <-.
    cbn. rewrite length_app. cbn. lia. }
  destruct (Nat.leb_spec size (length (batch s1))) as [Hfull|Hroom].
  - (* a full batch goes out at once *)
    pose proof Hinv as [Hb (t & Hacc & Hs) Hq Hbb Hsb Hi Hl]. unfold take in Ht.
    destruct (ch s) as [|y rest] eqn:Ech; [done|]. injection Ht as <-. cbn [batch] in Hlen, Hfull.
    unfold flush. cbn [batch]. rewrite bool_decide_eq_false_2 by (rewrite length_app; cbn; lia).
    split; cbn; try done.
    + rewrite Hb, concat_app. cbn. rewrite app_nil_r, <-!(assoc_L (++)). cbn.
      by rewrite (Permutation_middle (dropped s)).
    + exists (t ++ [y]). rewrite Hacc. split; [by rewrite <-(assoc_L (++))|].
      rewrite concat_app. cbn. rewrite !app_nil_r, (assoc_L (++)). by apply sublist_app.
    + cbn in Hq. lia.
    + apply Forall_app. split; [done|]. apply Forall_singleton. split; [by destruct (batch s)|done].
  - by eapply inv_take.
Qed.

Lemma inv_mode m m' calls s :
  stream_inv m calls s -> m' <> Running -> (m' = Stopped -> batch s = []) -> stream_inv m' calls s.
Proof.
  intros [Hb Ho Hq Hbb Hsb Hi Hl] Hm Hst. split; try done.
  eapply Forall_impl; [exact Hsb|]. by intros b [? _].
Qed.

Lemma sublist_full (l l' : list A) : l `sublist_of` l' -> length l' <= length l -> l = l'.
Proof.
  induction 1 as [|x l l' _ IH|x l l' Hs IH]; cbn; intros Hlen; [done|f_equal; apply IH; lia|].
  apply sublist_length in Hs. lia.
Qed.

(** When nothing waits and nothing was dropped, everything accepted has been
    sent, in order. *)
Lemma all_sent m calls s : stream_inv m calls s -> batch s = [] -> ch s = [] -> dropped s = [] -> concat (sent s) = accepted s.
Proof.
  intros [Hb (t & Ht & Hs) _ _ _ _ _] Hbatch Hch Hd. rewrite Hbatch, Hch, Hd, !app_nil_r in *.
  rewrite Ht in Hb |- *. apply sublist_full; [done|]. by rewrite Hb.
Qed.
End invariant.

Section reach.
Context (cap size : nat) (size_pos : 0 < size).

Definition dispatcher_inv (s : state) : Prop :=
  stream_inv cap size (status s) (content_calls s) (contents s) /\
  stream_inv cap size (status s) (event_calls s) (events s).

Lemma inv_step s s' : step cap size s s' -> dispatcher_inv s -> dispatcher_inv s'.
Proof using size_pos.
  intros Hs [Hc He]. destruct Hs; cbn [contents events content_calls event_calls status] in *; split;
    cbn [contents events content_calls event_calls status]; try done.
  - eapply inv_calls; [|exact Hc]. intros p [->|?]%elem_of_cons; [by right|by left].
  - eapply inv_calls; [|exact He]. intros p [->|?]%elem_of_cons; [by right|by left].
  - by eapply inv_enqueue.
  - by eapply inv_enqueue.
  - by eapply inv_receive.
  - by eapply inv_receive.
  - by eapply inv_flush.
  - by eapply inv_flush.
  - by eapply inv_mode.
  - by eapply inv_mode.
  - by eapply inv_take.
  - by eapply inv_mode.
  - by eapply inv_mode.
  - by eapply inv_take.
  - by eapply inv_flush.
  - by eapply inv_flush.
Qed.

Lemma reachable_dispatcher_inv s : reachable cap size s -> dispatcher_inv s.
Proof using size_pos.
  induction 1 as [|s s' _ IH Hs]; [|by eapply inv_step]. split; by apply inv_new.
Qed.
End reach.
End Dispatcher.
