(* ===== verification/ContractSuite.v ===== *)
(** * The contract tests of the repositories:
    internal/repository/testsupport

    The suite that both implementations run, as programs over the repository
    interfaces, so that it can be run on their models. [t.Fatalf] ends a test
    with an error; [t.Errorf], which marks it failed and goes on, is the same
    here, for only whether a test passes is looked at. An error returned by a
    repository is fatal everywhere. *)

From S2P Require Import Prelude Errors Monad GoStrings Domain Repository.

Local Open Scope string_scope.
Local Open Scope go_scope.

(** ** Fixtures *)

Definition userA : string := "01HAAAAAAAAAAAAAAAAAAAAAAA".
Definition userB : string := "01HABBBBBBBBBBBBBBBBBBBBBB".
Definition userC : string := "01HCCCCCCCCCCCCCCCCCCCCCCC".
Definition postA : string := "01HPAAAAAAAAAAAAAAAAAAAAAA".
Definition postB : string := "01HPBBBBBBBBBBBBBBBBBBBBBB".
Definition postC : string := "01HPCCCCCCCCCCCCCCCCCCCCCC".
Definition missingID : string := "01HZZZZZZZZZZZZZZZZZZZZZZZ".
Definition badgeKeyVerified : string := "verified".
Definition badgeKeyDeveloper : string := "developer".
Definition imageA : string := "01HIMGAAAAAAAAAAAAAAAAAAAA".
Definition imageB : string := "01HIMGBBBBBBBBBBBBBBBBBBBB".
Definition imageC : string := "01HIMGCCCCCCCCCCCCCCCCCCCC".
Definition ogpHashA : string := "00000000000000000000000000000000000000000000000000000000000abcd0".
Definition ogpHashB : string := "00000000000000000000000000000000000000000000000000000000000abcd1".
Definition jobA : string := "01HJOBAAAAAAAAAAAAAAAAAAAA".
Definition jobB : string := "01HJOBBBBBBBBBBBBBBBBBBBBB".
Definition jobC : string := "01HJOBCCCCCCCCCCCCCCCCCCCC".
Definition devID : string := "01HBADGEDEV000000000000000".
Definition verID : string := "01HBADGEVER000000000000000".

Section suite.
Context {S : Type} `{!UserRepository.t S, !PostRepository.t S, !LikeRepository.t S, !FollowRepository.t S, !TagRepository.t S}.
Context `{!BadgeRepository.t S, !ImageRepository.t S, !OGPCacheRepository.t S, !OGPJobQueue.t S, !Runtime.t S}.

(** [if !(b) { t.Fatalf(msg) }] *)
Definition check (b : bool) (msg : string) : M S unit := guard (negb b) (ErrorString msg).

(** The value is there and satisfies [P]. *)
Definition found {A} (P : A -> bool) (x : option A) : bool := match x with Some a => P a | None => false end.
Definition is_nil {A} (x : option A) : bool := match x with Some _ => false | None => true end.

(** The clock goes on. *)
Definition Sleep : M S unit := let! _ := Runtime.Now in ret tt.

Definition seedUser (sub : string) : M S unit :=
  let! now := Runtime.Now in
  let! _ := UserRepository.Upsert (User.mk sub sub sub "" now "" "" false 0 0 time_zero time_zero None) in
  ret tt.

(** [&domain.Post{ID: id, UserID: author, Content: content, Visibility: "public", ParentPostID: parent}] *)
Definition aPost (id author content : string) (parent : option string) : Post.t :=
  Post.mk id author content parent None 0 0 "public" time_zero time_zero None.

Definition seedPost (id author content : string) (parent : option string) : M S unit :=
  let! _ := PostRepository.Create (aPost id author content parent) [] [] in ret tt.

(** ** RunUserRepositoryContract *)

Definition aUser (sub name display : string) (now : Time) (bio banner : string) : User.t :=
  User.mk sub name display "" now bio banner false 0 0 time_zero time_zero None.

Definition GetBySub_miss_returns_nil : M S unit :=
  let! got := UserRepository.GetBySub missingID in
  check (is_nil got) "expected nil on miss".

Definition Upsert_insert_then_GetBySub : M S unit :=
  let! now := Runtime.Now in
  let! got := UserRepository.Upsert (User.mk userA "alice" "alice" "https://cdn/alice.png" now "hello"
                "https://cdn/banner.png" false 0 0 time_zero time_zero None) in
  check (bool_decide (User.Sub got = userA)) "Upsert returned unexpected" ;;;
  let! re := UserRepository.GetBySub userA in
  check (found (fun u => bool_decide (User.DisplayNameCached u = "alice") && bool_decide (User.Bio u = "hello") &&
                         bool_decide (User.BannerURL u = "https://cdn/banner.png")) re) "stored fields wrong".

Definition Upsert_update_preserves_is_admin_counters_created_at : M S unit :=
  let! now := Runtime.Now in
  let! seeded := UserRepository.Upsert (User.mk userA "alice" "alice" "" now "original bio" "https://orig/banner.png"
                   true 5 7 time_zero time_zero None) in
  let! now := Runtime.Now in
  let! out := UserRepository.Upsert (aUser userA "alice.v2" "alice" now "" "") in
  check (User.IsAdmin out) "expected IsAdmin preserved true" ;;;
  check (bool_decide (User.FollowersCount out = 5%Z) && bool_decide (User.FollowingCount out = 7%Z)) "expected counters preserved" ;;;
  check (bool_decide (User.Bio out = "original bio")) "expected bio preserved" ;;;
  check (bool_decide (User.BannerURL out = "https://orig/banner.png")) "expected banner preserved" ;;;
  check (bool_decide (User.CreatedAt out = User.CreatedAt seeded)) "expected CreatedAt preserved" ;;;
  check (bool_decide (User.DisplayNameCached out = "alice.v2")) "expected cached name updated".

Definition UpdateProfile_applies_non_nil_fields : M S unit :=
  seedUser userA ;;;
  let! out := UserRepository.UpdateProfile userA (UpdateUserProfileRequest.mk (Some "updated bio") None) in
  check (found (fun u => bool_decide (User.Bio u = "updated bio")) out) "expected bio updated".

Definition UpdateProfile_missing_returns_nil : M S unit :=
  let! out := UserRepository.UpdateProfile missingID (UpdateUserProfileRequest.mk (Some "x") None) in
  check (is_nil out) "expected nil on miss".

Definition UpdateProfile_nil_field_preserves_existing : M S unit :=
  let! now := Runtime.Now in
  let! _ := UserRepository.Upsert (aUser userA "alice" "alice" now "keep me" "https://keep/me.png") in
  let! out := UserRepository.UpdateProfile userA (UpdateUserProfileRequest.mk (Some "updated") None) in
  check (found (fun u => bool_decide (User.Bio u = "updated") && bool_decide (User.BannerURL u = "https://keep/me.png")) out)
    "bio not updated or banner not preserved".

Definition UpdateProfile_explicit_empty_string_clears : M S unit :=
  let! now := Runtime.Now in
  let! _ := UserRepository.Upsert (aUser userA "alice" "alice" now "old bio" "") in
  let! out := UserRepository.UpdateProfile userA (UpdateUserProfileRequest.mk (Some "") None) in
  check (found (fun u => bool_decide (User.Bio u = "")) out) "expected bio cleared".

Definition List_skips_soft_deleted_and_reports_total : M S unit :=
  seedUser userA ;;; seedUser userB ;;; seedUser userC ;;;
  UserRepository.Delete userC ;;;
  let! (list, total) := UserRepository.List 100 0 in
  check (bool_decide (total = 2%Z)) "expected total=2 live users" ;;;
  check (bool_decide (length list = 2%nat)) "expected 2 list entries" ;;;
  check (forallb (fun u => negb (bool_decide (User.Sub u = userC))) list) "soft-deleted user leaked into list".

Definition ListBySubs_batches_and_drops_missing : M S unit :=
  seedUser userA ;;; seedUser userB ;;;
  let! got := UserRepository.ListBySubs [userA; userB; missingID] in
  check (bool_decide (size got = 2%nat)) "expected 2 entries" ;;;
  check (negb (is_nil (got !! userA))) "expected userA present" ;;;
  check (negb (is_nil (got !! userB))) "expected userB present".

Definition Counter_mutators_floor_at_zero : M S unit :=
  seedUser userA ;;;
  UserRepository.IncrementFollowersCount userA ;;;
  UserRepository.IncrementFollowersCount userA ;;;
  UserRepository.DecrementFollowersCount userA ;;;
  UserRepository.IncrementFollowingCount userA ;;;
  let! u := UserRepository.GetBySub userA in
  check (found (fun u => bool_decide (User.FollowersCount u = 1%Z) && bool_decide (User.FollowingCount u = 1%Z)) u)
    "expected followers=1 following=1" ;;;
  UserRepository.DecrementFollowersCount userA ;;;
  UserRepository.DecrementFollowersCount userA ;;;
  let! u := UserRepository.GetBySub userA in
  check (found (fun u => bool_decide (User.FollowersCount u = 0%Z)) u) "expected followers=0 after flooring".

Definition Delete_soft_deletes_but_GetBySub_still_returns_row : M S unit :=
  seedUser userA ;;;
  UserRepository.Delete userA ;;;
  let! got := UserRepository.GetBySub userA in
  check (found (fun u => negb (is_nil (User.DeletedAt u))) got) "expected the soft-deleted row with DeletedAt" ;;;
  let! (_, total) := UserRepository.List 10 0 in
  check (bool_decide (total = 0%Z)) "expected List total=0 after soft-delete" ;;;
  let! bysubs := UserRepository.ListBySubs [userA] in
  check (is_nil (bysubs !! userA)) "expected soft-deleted user absent from ListBySubs".

Definition RunUserRepositoryContract : list (M S unit) := [
  GetBySub_miss_returns_nil; Upsert_insert_then_GetBySub; Upsert_update_preserves_is_admin_counters_created_at;
  UpdateProfile_applies_non_nil_fields; UpdateProfile_missing_returns_nil; UpdateProfile_nil_field_preserves_existing;
  UpdateProfile_explicit_empty_string_clears; List_skips_soft_deleted_and_reports_total; ListBySubs_batches_and_drops_missing;
  Counter_mutators_floor_at_zero; Delete_soft_deletes_but_GetBySub_still_returns_row].

(** ** RunPostRepositoryContract *)

Definition Create_then_GetByID : M S unit :=
  seedUser userA ;;;
  let! out := PostRepository.Create (aPost postA userA "hello world" None) [] [] in
  check (bool_decide (Post.ID out = postA)) "Create returned unexpected" ;;;
  check (negb (IsZero (Post.CreatedAt out)) && negb (IsZero (Post.UpdatedAt out))) "expected created_at / updated_at populated" ;;;
  let! got := PostRepository.GetByID postA in
  check (found (fun p => bool_decide (Post.Content p = "hello world")) got) "expected post restored".

Definition GetByID_missing_or_soft_deleted_returns_nil : M S unit :=
  let! got := PostRepository.GetByID missingID in
  check (is_nil got) "expected nil on miss" ;;;
  seedUser userA ;;; seedPost postA userA "x" None ;;;
  PostRepository.Delete postA ;;;
  let! got := PostRepository.GetByID postA in
  check (is_nil got) "expected nil for soft-deleted".

Definition List_cursor_pagination_desc_by_id : M S unit :=
  seedUser userA ;;;
  for_each (fun id => seedPost id userA ("c-" +:+ id) None) [postA; postB; postC] ;;;
  let! (page1, next1) := PostRepository.List None None 2 in
  check (bool_decide (Post.ID <$> page1 = [postC; postB])) "expected C,B" ;;;
  check (negb (bool_decide (next1 = ""))) "expected non-empty cursor after first page" ;;;
  let! (page2, next2) := PostRepository.List None (Some next1) 2 in
  check (bool_decide (Post.ID <$> page2 = [postA])) "expected [A]" ;;;
  check (bool_decide (next2 = "")) "expected empty cursor after last page".

Definition List_filter_by_user_id_skips_replies : M S unit :=
  seedUser userA ;;; seedUser userB ;;;
  seedPost postA userA "a" None ;;;
  seedPost postB userB "b" None ;;;
  seedPost postC userA "c" (Some postA) ;;;
  let! (list, _) := PostRepository.List (Some userA) None 10 in
  check (bool_decide (Post.ID <$> list = [postA])) "expected only postA".

Definition ListByUserIDs_unions_authors : M S unit :=
  seedUser userA ;;; seedUser userB ;;; seedUser userC ;;;
  for_each (fun p : string * string => seedPost p.1 p.2 p.1 None) [(postA, userA); (postB, userB); (postC, userC)] ;;;
  let! (list, _) := PostRepository.ListByUserIDs [userA; userB] None 10 in
  check (bool_decide (Post.ID <$> list = [postB; postA])) "expected order [postB, postA]".

Definition ListReplies_returns_only_replies_of_parent : M S unit :=
  seedUser userA ;;;
  seedPost postA userA "parent" None ;;;
  seedPost postB userA "r1" (Some postA) ;;;
  seedPost postC userA "top" None ;;;
  let! (replies, _) := PostRepository.ListReplies postA None 10 in
  check (bool_decide (Post.ID <$> replies = [postB])) "expected [postB]".

Definition Counters_increment_and_floor_at_zero : M S unit :=
  seedUser userA ;;; seedPost postA userA "x" None ;;;
  for_each (fun _ => PostRepository.IncrementLikesCount postA ;;; PostRepository.IncrementRepliesCount postA) (seq 0 3) ;;;
  for_each (fun _ => PostRepository.DecrementLikesCount postA) (seq 0 5) ;;;
  let! p := PostRepository.GetByID postA in
  check (found (fun p => bool_decide (Post.LikesCount p = 0%Z)) p) "expected likes floored at 0" ;;;
  check (found (fun p => bool_decide (Post.RepliesCount p = 3%Z)) p) "expected replies=3".

Definition RunPostRepositoryContract : list (M S unit) := [
  Create_then_GetByID; GetByID_missing_or_soft_deleted_returns_nil; List_cursor_pagination_desc_by_id;
  List_filter_by_user_id_skips_replies; ListByUserIDs_unions_authors; ListReplies_returns_only_replies_of_parent;
  Counters_increment_and_floor_at_zero].

(** ** RunLikeRepositoryContract *)

Definition Like_Create_returns_true_on_insert_false_on_duplicate : M S unit :=
  seedUser userA ;;; seedPost postA userA "x" None ;;;
  let! ok := LikeRepository.Create userA postA in
  check ok "expected true on first insert" ;;;
  let! ok := LikeRepository.Create userA postA in
  check (negb ok) "expected false on duplicate insert".

Definition Like_Delete_returns_true_on_hit_false_on_miss : M S unit :=
  seedUser userA ;;; seedPost postA userA "x" None ;;;
  let! _ := LikeRepository.Create userA postA in
  let! ok := LikeRepository.Delete userA postA in
  check ok "expected true on hit" ;;;
  let! ok := LikeRepository.Delete userA postA in
  check (negb ok) "expected false on miss".

Definition IsLikedBy_reflects_state : M S unit :=
  seedUser userA ;;; seedPost postA userA "x" None ;;;
  let! is_liked := LikeRepository.IsLikedBy userA postA in
  check (negb is_liked) "expected false before create" ;;;
  let! _ := LikeRepository.Create userA postA in
  let! is_liked := LikeRepository.IsLikedBy userA postA in
  check is_liked "expected true after create".

Definition ListLikedPostIDsByUser_filters_to_input_set : M S unit :=
  seedUser userA ;;;
  seedPost postA userA "x" None ;;; seedPost postB userA "x" None ;;; seedPost postC userA "x" None ;;;
  let! _ := LikeRepository.Create userA postA in
  let! _ := LikeRepository.Create userA postC in
  let! got := LikeRepository.ListLikedPostIDsByUser userA [postA; postB; postC] in
  check (bool_decide (size got = 2%nat) && default false (got !! postA) && default false (got !! postC) &&
         negb (default false (got !! postB))) "unexpected result".

Definition RunLikeRepositoryContract : list (M S unit) := [
  Like_Create_returns_true_on_insert_false_on_duplicate; Like_Delete_returns_true_on_hit_false_on_miss;
  IsLikedBy_reflects_state; ListLikedPostIDsByUser_filters_to_input_set].

(** ** RunFollowRepositoryContract *)

Definition Create_then_Delete_idempotent_bools : M S unit :=
  seedUser userA ;;; seedUser userB ;;;
  let! ok := FollowRepository.Create userA userB in
  check ok "expected true on first create" ;;;
  let! ok := FollowRepository.Create userA userB in
  check (negb ok) "expected false on duplicate create" ;;;
  let! ok := FollowRepository.Delete userA userB in
  check ok "expected true on delete" ;;;
  let! ok := FollowRepository.Delete userA userB in
  check (negb ok) "expected false on delete-of-missing".

Definition IsFollowing_reflects_state : M S unit :=
  seedUser userA ;;; seedUser userB ;;;
  let! follows := FollowRepository.IsFollowing userA userB in
  check (negb follows) "expected false before create" ;;;
  let! _ := FollowRepository.Create userA userB in
  let! follows := FollowRepository.IsFollowing userA userB in
  check follows "expected true after create".

Definition ListFollowingSubs_returns_everyone_follower_follows : M S unit :=
  seedUser userA ;;; seedUser userB ;;; seedUser userC ;;;
  let! _ := FollowRepository.Create userA userB in
  let! _ := FollowRepository.Create userA userC in
  let! got := FollowRepository.ListFollowingSubs userA in
  check (bool_decide (length got = 2%nat)) "expected 2" ;;;
  check (forallb (fun s => bool_decide (s = userB) || bool_decide (s = userC)) got) "unexpected sub".

Definition ListFollowers_cursor_paginates_desc : M S unit :=
  seedUser userA ;;; seedUser userB ;;; seedUser userC ;;;
  for_each (fun sub => let! _ := FollowRepository.Create sub userA in Sleep) [userB; userC] ;;;
  let! (page, next) := FollowRepository.ListFollowers userA None 1 in
  check (bool_decide (Follow.FollowerSub <$> page = [userC])) "expected userC first" ;;;
  check (negb (bool_decide (next = ""))) "expected cursor for next page" ;;;
  let! (page2, next2) := FollowRepository.ListFollowers userA (Some next) 5 in
  check (bool_decide (Follow.FollowerSub <$> page2 = [userB])) "expected [userB]" ;;;
  check (bool_decide (next2 = "")) "expected empty cursor at end".

Definition ListFollowing_cursor_paginates_desc : M S unit :=
  seedUser userA ;;; seedUser userB ;;; seedUser userC ;;;
  for_each (fun sub => let! _ := FollowRepository.Create userA sub in Sleep) [userB; userC] ;;;
  let! (page, next) := FollowRepository.ListFollowing userA None 1 in
  check (bool_decide (Follow.FolloweeSub <$> page = [userC])) "expected [userC]" ;;;
  check (negb (bool_decide (next = ""))) "expected cursor for next page" ;;;
  let! (page2, _) := FollowRepository.ListFollowing userA (Some next) 5 in
  check (bool_decide (Follow.FolloweeSub <$> page2 = [userB])) "expected [userB]".

Definition AreFollowing_batches_only_hits : M S unit :=
  seedUser userA ;;; seedUser userB ;;; seedUser userC ;;;
  let! _ := FollowRepository.Create userA userB in
  let! got := FollowRepository.AreFollowing userA [userB; userC] in
  check (bool_decide (size got = 1%nat) && default false (got !! userB) && negb (default false (got !! userC)))
    "unexpected result".

Definition RunFollowRepositoryContract : list (M S unit) := [
  Create_then_Delete_idempotent_bools; IsFollowing_reflects_state; ListFollowingSubs_returns_everyone_follower_follows;
  ListFollowers_cursor_paginates_desc; ListFollowing_cursor_paginates_desc; AreFollowing_batches_only_hits].

(** ** RunTagRepositoryContract *)

Definition UpsertByNames_dedup_and_persist : M S unit :=
  let! first := TagRepository.UpsertByNames ["golang"; "postgres"; "golang"; ""] in
  check (bool_decide (Tag.Name <$> first = ["golang"; "postgres"])) "expected 2 unique tags in order" ;;;
  let! second := TagRepository.UpsertByNames ["postgres"; "rust"] in
  check (bool_decide (length second = 2%nat)) "expected 2" ;;;
  check (bool_decide (Tag.ID <$> second !! 0%nat = Tag.ID <$> first !! 1%nat)) "expected postgres ID stable".

Definition ListByPostID_returns_alphabetical : M S unit :=
  seedUser userA ;;;
  let! tags := TagRepository.UpsertByNames ["zebra"; "alpha"; "mango"] in
  let! _ := PostRepository.Create (aPost postA userA "x" None) [] (Tag.ID <$> tags) in
  let! got := TagRepository.ListByPostID postA in
  check (bool_decide (Tag.Name <$> got = ["alpha"; "mango"; "zebra"])) "expected alphabetical order".

Definition Tag_ListByPostIDs_groups_and_skips_bare_posts : M S unit :=
  seedUser userA ;;;
  let! aTags := TagRepository.UpsertByNames ["alpha"] in
  let! bTags := TagRepository.UpsertByNames ["beta"; "gamma"] in
  let! _ := PostRepository.Create (aPost postA userA "a" None) [] (take 1 (Tag.ID <$> aTags)) in
  let! _ := PostRepository.Create (aPost postB userA "b" None) [] (take 2 (Tag.ID <$> bTags)) in
  seedPost postC userA "c" None ;;;
  let! got := TagRepository.ListByPostIDs [postA; postB; postC] in
  check (bool_decide (size got = 2%nat)) "expected 2 entries (C absent)" ;;;
  check (bool_decide (Tag.Name <$> default [] (got !! postA) = ["alpha"])) "postA tags wrong" ;;;
  check (bool_decide (Tag.Name <$> default [] (got !! postB) = ["beta"; "gamma"])) "postB tags wrong".

Definition RunTagRepositoryContract : list (M S unit) := [
  UpsertByNames_dedup_and_persist; ListByPostID_returns_alphabetical; Tag_ListByPostIDs_groups_and_skips_bare_posts].

(** ** RunBadgeRepositoryContract *)

Definition aBadge (id key label : string) (priority : Z) : Badge.t :=
  Badge.mk id key label "" "" "" priority time_zero time_zero.

Definition seedBadge (id key label : string) (priority : Z) : M S Badge.t :=
  let! b := BadgeRepository.Create (aBadge id key label priority) in
  match b with Some b => ret b | None => fail (ErrorString "seed badge returned nil") end.

Definition Create_duplicate_key_returns_nil_and_preserves_original : M S unit :=
  let! original := seedBadge devID badgeKeyDeveloper "dev" 5 in
  let! dup := BadgeRepository.Create (aBadge verID badgeKeyDeveloper "imposter" 1) in
  check (is_nil dup) "expected nil on duplicate key" ;;;
  let! survived := BadgeRepository.GetByKey badgeKeyDeveloper in
  check (found (fun b => bool_decide (Badge.ID b = Badge.ID original) && bool_decide (Badge.Label b = "dev") &&
                         bool_decide (Badge.Priority b = 5%Z)) survived) "dup overwrote original".

Definition GetByKey_GetByID_ListAll_priority_order : M S unit :=
  let! _ := seedBadge devID badgeKeyDeveloper "dev" 5 in
  let! _ := seedBadge verID badgeKeyVerified "ver" 10 in
  let! byKey := BadgeRepository.GetByKey badgeKeyDeveloper in
  check (found (fun b => bool_decide (Badge.ID b = devID)) byKey) "unexpected" ;;;
  let! byID := BadgeRepository.GetByID verID in
  check (found (fun b => bool_decide (Badge.Key b = badgeKeyVerified)) byID) "unexpected" ;;;
  let! all := BadgeRepository.ListAll in
  check (bool_decide (Badge.Key <$> all = [badgeKeyDeveloper; badgeKeyVerified])) "expected priority-asc [developer, verified]".

Definition Update_mutates_mutable_fields : M S unit :=
  let! _ := seedBadge devID badgeKeyDeveloper "dev" 5 in
  let! out := BadgeRepository.Update (Badge.mk devID "" "Developer" "updated" "https://cdn/dev.png" "gold" 3 time_zero time_zero) in
  check (found (fun b => bool_decide (Badge.Label b = "Developer") && bool_decide (Badge.Priority b = 3%Z)) out) "unexpected".

Definition Update_missing_returns_nil : M S unit :=
  let! out := BadgeRepository.Update (aBadge missingID "" "x" 0) in
  check (is_nil out) "expected nil".

Definition Grant_Revoke_and_active_grant_filtering : M S unit :=
  seedUser userA ;;; seedUser userB ;;;
  let! dev := seedBadge devID badgeKeyDeveloper "dev" 5 in
  let! ver := seedBadge verID badgeKeyVerified "ver" 10 in
  BadgeRepository.Grant userA (Badge.ID dev) userA None "" ;;;
  BadgeRepository.Grant userA (Badge.ID ver) userA None "" ;;;
  let! now := Runtime.Now in
  BadgeRepository.Grant userB (Badge.ID ver) userA (Some (time_Add now (- Hour))) "" ;;;
  let! active := BadgeRepository.ListByUserID userA in
  check (bool_decide (Badge.Key <$> active = [badgeKeyDeveloper; badgeKeyVerified])) "expected [developer, verified]" ;;;
  let! expiredList := BadgeRepository.ListByUserID userB in
  check (bool_decide (length expiredList = 0%nat)) "expected empty (expired filtered)" ;;;
  BadgeRepository.Revoke userA (Badge.ID dev) ;;;
  let! after := BadgeRepository.ListByUserID userA in
  check (bool_decide (Badge.Key <$> after = [badgeKeyVerified])) "expected [verified]".

Definition Grant_regrant_overwrites_expires_at_reason : M S unit :=
  seedUser userA ;;;
  let! dev := seedBadge devID badgeKeyDeveloper "dev" 5 in
  let! now := Runtime.Now in
  BadgeRepository.Grant userA (Badge.ID dev) userA (Some (time_Add now Hour)) "first" ;;;
  BadgeRepository.Grant userA (Badge.ID dev) userA None "second" ;;;
  let! got := BadgeRepository.ListByUserID userA in
  check (bool_decide (length got = 1%nat)) "expected 1 badge".

Definition ListByUserIDs_batches_and_drops_no_grants : M S unit :=
  seedUser userA ;;; seedUser userB ;;; seedUser userC ;;;
  let! dev := seedBadge devID badgeKeyDeveloper "dev" 5 in
  let! ver := seedBadge verID badgeKeyVerified "ver" 10 in
  BadgeRepository.Grant userA (Badge.ID dev) userA None "" ;;;
  BadgeRepository.Grant userA (Badge.ID ver) userA None "" ;;;
  BadgeRepository.Grant userB (Badge.ID ver) userA None "" ;;;
  let! got := BadgeRepository.ListByUserIDs [userA; userB; userC] in
  let keys sub := Badge.Key <$> default [] (got !! sub) in
  check (bool_decide (size got = 2%nat)) "expected 2 entries (userC absent)" ;;;
  check (bool_decide (length (keys userA) = 2%nat) && bool_decide (keys userA !! 0%nat = Some badgeKeyDeveloper)) "userA wrong" ;;;
  check (bool_decide (keys userB = [badgeKeyVerified])) "userB wrong".

Definition RunBadgeRepositoryContract : list (M S unit) := [
  Create_duplicate_key_returns_nil_and_preserves_original; GetByKey_GetByID_ListAll_priority_order;
  Update_mutates_mutable_fields; Update_missing_returns_nil; Grant_Revoke_and_active_grant_filtering;
  Grant_regrant_overwrites_expires_at_reason; ListByUserIDs_batches_and_drops_no_grants].

(** ** RunImageRepositoryContract *)

Definition makeImage (id userID : string) : Image.t :=
  Image.mk id ("storage/" +:+ id) (id +:+ ".jpg") "image/jpeg" 1024 ("https://cdn/" +:+ id) userID time_zero time_zero None.

Definition seedImage (id : string) : M S unit := let! _ := ImageRepository.Create (makeImage id userA) in ret tt.

Definition Image_Create_then_GetByID : M S unit :=
  seedUser userA ;;;
  let! out := ImageRepository.Create (makeImage imageA userA) in
  check (bool_decide (Image.ID out = imageA)) "unexpected" ;;;
  check (negb (IsZero (Image.CreatedAt out))) "expected created_at populated" ;;;
  let! got := ImageRepository.GetByID imageA in
  check (found (fun i => bool_decide (Image.StorageKey i = "storage/" +:+ imageA)) got) "unexpected".

Definition Image_GetByID_missing_or_soft_deleted_returns_nil : M S unit :=
  seedUser userA ;;;
  let! got := ImageRepository.GetByID missingID in
  check (is_nil got) "expected nil" ;;;
  seedImage imageA ;;;
  ImageRepository.Delete imageA ;;;
  let! got := ImageRepository.GetByID imageA in
  check (is_nil got) "expected nil on soft-deleted".

Definition GetByUserID_filters_soft_deleted : M S unit :=
  seedUser userA ;;;
  for_each seedImage [imageA; imageB; imageC] ;;;
  ImageRepository.Delete imageB ;;;
  let! got := ImageRepository.GetByUserID userA in
  check (bool_decide (length got = 2%nat)) "expected 2" ;;;
  check (forallb (fun i => negb (bool_decide (Image.ID i = imageB))) got) "soft-deleted image leaked".

Definition ListByPostID_ordered_by_position : M S unit :=
  seedUser userA ;;;
  for_each seedImage [imageA; imageB; imageC] ;;;
  let! _ := PostRepository.Create (aPost postA userA "x" None) [imageA; imageB; imageC] [] in
  let! got := ImageRepository.ListByPostID postA in
  check (bool_decide (Image.ID <$> got = [imageA; imageB; imageC])) "expected [A,B,C] in position order".

Definition ListByPostIDs_groups_and_drops_bare_posts : M S unit :=
  seedUser userA ;;;
  for_each seedImage [imageA; imageB] ;;;
  let! _ := PostRepository.Create (aPost postA userA "a" None) [imageA; imageB] [] in
  seedPost postB userA "b" None ;;;
  let! got := ImageRepository.ListByPostIDs [postA; postB] in
  let ids := Image.ID <$> default [] (got !! postA) in
  check (bool_decide (size got = 1%nat)) "expected 1 entry (postB absent)" ;;;
  check (bool_decide (length ids = 2%nat) && bool_decide (ids !! 0%nat = Some imageA)) "postA wrong".

Definition RunImageRepositoryContract : list (M S unit) := [
  Image_Create_then_GetByID; Image_GetByID_missing_or_soft_deleted_returns_nil; GetByUserID_filters_soft_deleted;
  ListByPostID_ordered_by_position; ListByPostIDs_groups_and_drops_bare_posts].

(** ** RunOGPCacheRepositoryContract *)

Definition seedOGPPreview (urlHash url : string) : M S unit :=
  let! now := Runtime.Now in
  OGPCacheRepository.Upsert (Some (OGPPreview.mk urlHash url ("title-" +:+ string_take 8 urlHash) "" "" "" ""
    time_zero (time_Add now (24 * Hour)) OGPStatusOK "")).

Definition Get_missing_returns_nil : M S unit :=
  let! got := OGPCacheRepository.Get ogpHashA in
  check (is_nil got) "expected nil on miss".

Definition Upsert_insert_then_Get : M S unit :=
  seedOGPPreview ogpHashA "https://example.com/a" ;;;
  let! got := OGPCacheRepository.Get ogpHashA in
  check (found (fun p => bool_decide (OGPPreview.URL p = "https://example.com/a")) got) "unexpected" ;;;
  check (found (fun p => negb (IsZero (OGPPreview.ExpiresAt p))) got) "expected expires_at populated".

Definition Upsert_update_overwrites_mutable_fields : M S unit :=
  seedOGPPreview ogpHashA "https://example.com/v1" ;;;
  let! now := Runtime.Now in
  OGPCacheRepository.Upsert (Some (OGPPreview.mk ogpHashA "https://example.com/v2" "updated" "" "" "" ""
    time_zero (time_Add now Hour) OGPStatusOK "")) ;;;
  let! got := OGPCacheRepository.Get ogpHashA in
  check (found (fun p => bool_decide (OGPPreview.Title p = "updated") &&
                         bool_decide (OGPPreview.URL p = "https://example.com/v2")) got) "unexpected".

Definition ListByPostIDs_orders_by_position : M S unit :=
  seedUser userA ;;;
  seedPost postA userA "x" None ;;; seedPost postB userA "y" None ;;;
  seedOGPPreview ogpHashA "https://example.com/a" ;;;
  seedOGPPreview ogpHashB "https://example.com/b" ;;;
  PostRepository.AttachOGP postA ogpHashB 1 ;;;
  PostRepository.AttachOGP postA ogpHashA 0 ;;;
  let! got := OGPCacheRepository.ListByPostIDs [postA; postB] in
  check (bool_decide (size got = 1%nat)) "expected 1 post with OGP (postB absent)" ;;;
  check (bool_decide (OGPPreview.URLHash <$> default [] (got !! postA) = [ogpHashA; ogpHashB]))
    "expected position 0 (hashA) then position 1 (hashB)".

Definition RunOGPCacheRepositoryContract : list (M S unit) := [
  Get_missing_returns_nil; Upsert_insert_then_Get; Upsert_update_overwrites_mutable_fields; ListByPostIDs_orders_by_position].

(** ** RunOGPJobQueueContract *)

Definition seed : M S unit := seedUser userA ;;; seedPost postA userA "x" None.

Definition enqueueA : M S unit := OGPJobQueue.Enqueue jobA ogpHashA "https://example.com/a" postA 0.

Definition Claim : M S (option OGPJob.t) := OGPJobQueue.Claim "worker-1".

Definition Claim_empty_returns_nil : M S unit :=
  let! got := Claim in
  check (is_nil got) "expected nil on empty queue".

Definition Enqueue_then_Claim_transitions_to_running : M S unit :=
  seed ;;; enqueueA ;;;
  let! j := Claim in
  check (found (fun j => bool_decide (OGPJob.ID j = jobA)) j) "unexpected id" ;;;
  check (found (fun j => bool_decide (OGPJob.Status j = OGPJobRunning)) j) "expected status=running" ;;;
  check (found (fun j => bool_decide (OGPJob.Attempts j = 1%Z)) j) "expected attempts=1" ;;;
  check (found (fun j => negb (is_nil (OGPJob.StartedAt j))) j) "expected started_at set".

(** The claims of the loop, in order. *)
Fixpoint claim_ids (n : nat) : M S (list string) :=
  match n with
  | O => ret []
  | Datatypes.S n =>
      let! j := Claim in
      match j with
      | None => fail (ErrorString "claim returned nil")
      | Some j => let! order := claim_ids n in ret (OGPJob.ID j :: order)
      end
  end.

Definition Claim_FIFO_by_enqueued_at : M S unit :=
  seed ;;;
  for_each (fun id => OGPJobQueue.Enqueue id ogpHashA ("https://example.com/" +:+ id) postA 0 ;;; Sleep) [jobA; jobB; jobC] ;;;
  let! order := claim_ids 3 in
  check (bool_decide (order = [jobA; jobB; jobC])) "expected FIFO order [A,B,C]".

Definition MarkDone_finalizes : M S unit :=
  seed ;;; enqueueA ;;;
  let! _ := Claim in
  OGPJobQueue.MarkDone jobA ;;;
  let! j := Claim in
  check (is_nil j) "expected empty queue".

Definition MarkFailed_retriable_requeues : M S unit :=
  seed ;;; enqueueA ;;;
  let! _ := Claim in
  OGPJobQueue.MarkFailed jobA "transient" true ;;;
  let! j := Claim in
  check (found (fun j => bool_decide (OGPJob.Attempts j = 2%Z)) j) "expected attempts=2 on retry" ;;;
  check (found (fun j => bool_decide (OGPJob.LastError j = "transient")) j) "expected last_error preserved".

Definition MarkFailed_terminal_finalizes : M S unit :=
  seed ;;; enqueueA ;;;
  let! _ := Claim in
  OGPJobQueue.MarkFailed jobA "permanent" false ;;;
  let! j := Claim in
  check (is_nil j) "expected queue empty (failed is terminal)".

Definition Enqueue_duplicate_id_is_noop : M S unit :=
  seed ;;; enqueueA ;;; enqueueA ;;;
  let! _ := Claim in
  let! j := Claim in
  check (is_nil j) "expected empty after single dedup".

Definition RunOGPJobQueueContract : list (M S unit) := [
  Claim_empty_returns_nil; Enqueue_then_Claim_transitions_to_running; Claim_FIFO_by_enqueued_at; MarkDone_finalizes;
  MarkFailed_retriable_requeues; MarkFailed_terminal_finalizes; Enqueue_duplicate_id_is_noop].

(** Everything both test packages run. *)
Definition contract : list (M S unit) :=
  RunUserRepositoryContract ++ RunPostRepositoryContract ++ RunLikeRepositoryContract ++ RunFollowRepositoryContract ++
  RunTagRepositoryContract ++ RunBadgeRepositoryContract ++ RunImageRepositoryContract ++ RunOGPCacheRepositoryContract ++
  RunOGPJobQueueContract.

(** Each test starts afresh. *)
Definition passes (s0 : S) (test : M S unit) : bool :=
  match (test s0).2 with Ok _ => true | _ => false end.
End suite.
