(* ===== verification/PgSql.v ===== *)
(** * SQL: the statements of internal/repository/postgres

    A table is a finite map from primary keys to rows. A statement is a
    function on the tables, built from the combinators below; its clauses
    are written in the order of the SQL text. What PostgreSQL leaves open is
    the class [Postgres]: the order rows are visited in, the clock, the
    collation of texts and what becomes of each message on the connection. *)

From S2P Require Import Prelude Errors GoStrings Domain.
From Stdlib Require Import Ascii.

(** ** The server *)

(** What becomes of a message: it is carried out and answered, it does not
    reach the server, or it is carried out and the answer is lost. *)
Inductive fate := Carried | Refused | Unanswered.

Class Postgres := {
  NOW : nat -> Time;                       (* NOW() of the transaction begun at tick [n] *)
  plan : nat -> forall {A : Type}, list A -> list A;   (* the order of a scan or join *)
  text_le : relation string;               (* the collation of the database *)
  link : nat -> fate;                      (* the message of tick [n] *)
  #[global] text_le_dec :: RelDecision text_le;
  plan_perm : forall n A (l : list A), plan n l ≡ₚ l;
}.

(** What its documentation promises: clocks have microseconds, a collation
    is a total order, and digits sort before capital letters in the order of
    the alphabet. *)
Class PostgresLaws `{Postgres} : Prop := {
  NOW_usec : forall n, (NOW n mod 1000 = 0)%Z;
  NOW_civil : forall n, (0 <= NOW n < max_time)%Z;
  #[global] text_le_trans :: Transitive text_le;
  #[global] text_le_total :: Total text_le;
  #[global] text_le_anti :: AntiSymm (=) text_le;
  text_le_ulid : forall a b, IsULID a = true -> IsULID b = true -> text_le a b <-> String.le a b;
}.

Definition text_lt `{Postgres} (a b : string) : bool := negb (bool_decide (text_le b a)).

(** A server with a clock of one tick per statement, in the C locale. *)
#[export] Instance test_postgres : Postgres | 100 := {
  NOW n := (1000 * (1 + Z.of_nat n mod 1000000))%Z;
  plan _ _ l := l;
  text_le := String.le;
  link _ := Carried;
  plan_perm _ _ l := Permutation_refl l;
}.

#[export] Instance test_postgres_laws : PostgresLaws (H := test_postgres).
Proof.
  split; cbn [NOW text_le test_postgres]; try apply _; try done.
  - intros n. rewrite Z.mul_comm. by apply Z.mod_mul.
  - intros n. pose proof (Z.mod_pos_bound (Z.of_nat n) 1000000). unfold max_time. lia.
Qed.

(** ** Errors: the SQLSTATE of the answer *)

Definition PgError (code : string) : goerror := ErrorString ("ERROR: SQLSTATE " +:+ code).
Definition unique_violation : goerror := PgError "23505".
Definition foreign_key_violation : goerror := PgError "23503".
Definition check_violation : goerror := PgError "23514".
Definition out_of_range : goerror := PgError "22003".
Definition bad_value : goerror := PgError "22001".   (* too long, or not the encoding *)
Definition ErrNoRows : goerror := ErrorString "no rows in result set".

(** ** Column types *)

Fixpoint spaces (n : nat) : string := match n with O => "" | S n => String " " (spaces n) end.

Fixpoint rtrim (s : string) : string :=
  match s with
  | EmptyString => EmptyString
  | String a s =>
      let t := rtrim s in
      if bool_decide (a = " "%char) && bool_decide (t = "") then EmptyString else String a t
  end.

(** The server's encoding is UTF-8, without the zero byte. *)
Fixpoint utf8_fuel (fuel : nat) (s : string) : bool :=
  match fuel, s with
  | S fuel, String a _ =>
      negb (byte_of a =? 0)%N && ((byte_of a <? 128)%N || negb (Nat.eqb (rune_size s) 1)) &&
      utf8_fuel fuel (string_drop (rune_size s) s)
  | _, _ => true
  end.

Definition encoded (s : string) : bool := utf8_fuel (String.length s) s.

(** Equality on CHAR(n) ignores trailing blanks: a value is read padded. *)
Definition bpchar (n : nat) (s : string) : string :=
  let t := rtrim s in t +:+ spaces (n - RuneCountInString t).

(** Assignment to a column: [None] is an error. *)
Definition char (n : nat) (s : string) : option string :=
  if encoded s && (RuneCountInString (rtrim s) <=? n)%nat then Some (bpchar n s) else None.

(** Excess blanks are cut, anything else is an error. *)
Definition varchar (n : nat) (s : string) : option string :=
  if negb (encoded s) then None
  else
    let excess := RuneCountInString s - n in
    if Nat.eqb excess 0 then Some s
    else
      let kept := string_take (String.length s - excess) s in
      if bool_decide (s = kept +:+ spaces excess) then Some kept else None.

Definition text (s : string) : option string := if encoded s then Some s else None.

Definition int_range (w z : Z) : bool := ((- 2 ^ (w - 1) <=? z) && (z <? 2 ^ (w - 1)))%Z.
Definition int (w z : Z) : option Z := if int_range w z then Some z else None.

(** TIMESTAMPTZ has microseconds. *)
Definition usec (t : Time) : Time := (t - t mod 1000)%Z.

Definition nullable {A} (f : A -> option A) (x : option A) : option (option A) :=
  match x with Some a => Some <$> f a | None => Some None end.

(** ** Statements *)

Section tables.
Context `{Postgres} {K R : Type} `{Countable K}.

Definition rows (m : gmap K R) : list R := (map_to_list m).*2.

(** FROM [l] WHERE [where], in the order of the plan. *)
Definition SELECT (t : nat) (where_ : R -> bool) (l : list R) : list R :=
  List.filter where_ (plan t l).

(** UPDATE ... SET [set] WHERE [where]: the table and the rows of RETURNING,
    unless the columns refuse a new value. *)
Definition UPDATE (set : R -> option R) (where_ : R -> bool) (m : gmap K R) : option (gmap K R * list R) :=
  let hit := filter (fun kv => where_ kv.2 = true) m in
  let new := omap set hit in
  if Nat.eqb (size new) (size hit) then Some (new ∪ m, rows new) else None.

(** DELETE FROM ... WHERE [where]: the table and the number of rows. *)
Definition DELETE (where_ : R -> bool) (m : gmap K R) : gmap K R * nat :=
  (filter (fun kv => where_ kv.2 = false) m, size (filter (fun kv => where_ kv.2 = true) m)).
End tables.

(** [a JOIN b ON on] *)
Definition JOIN {A B} (on : A -> B -> bool) (la : list A) (lb : list B) : list (A * B) :=
  la ≫= fun a => pair a <$> List.filter (on a) lb.

(** LIMIT *)
Definition LIMIT {A} (n : Z) (l : list A) : option (list A) :=
  if (n <? 0)%Z then None else Some (take (Z.to_nat n) l).

(** ORDER BY: a row that compares before stays before, ties keep the order
    of the plan. *)
Section order.
Context `{Postgres} {A : Type}.

Definition by_text (key : A -> string) : relation A := fun x y => text_le (key x) (key y).
Definition by_time (key : A -> Time) : relation A := fun x y => (key x <= key y)%Z.
Definition DESC (r : relation A) : relation A := fun x y => r y x.
(** [ORDER BY r, r'] *)
Definition THEN (r r' : relation A) : relation A := fun x y => r x y /\ (r y x -> r' x y).

#[export] Instance by_text_dec key : RelDecision (by_text key).
Proof. intros x y. unfold by_text. apply _. Defined.
#[export] Instance by_time_dec key : RelDecision (by_time key).
Proof. intros x y. unfold by_time. apply _. Defined.
#[export] Instance DESC_dec r `{!RelDecision r} : RelDecision (DESC r).
Proof. intros x y. unfold DESC. apply _. Defined.
#[export] Instance THEN_dec r r' `{!RelDecision r, !RelDecision r'} : RelDecision (THEN r r').
Proof. intros x y. unfold THEN. apply _. Defined.

#[local] Typeclasses Opaque by_text by_time DESC THEN.

Definition ORDER_BY (r : relation A) `{!RelDecision r} (l : list A) : list A := merge_sort r l.

#[export] Instance by_text_trans `{!PostgresLaws} key : Transitive (by_text key).
Proof. intros x y z Hx Hy. unfold by_text in *. by etrans. Qed.
#[export] Instance by_text_total `{!PostgresLaws} key : Total (by_text key).
Proof. intros x y. unfold by_text. apply text_le_total. Qed.
#[export] Instance by_time_trans key : Transitive (by_time key).
Proof. intros x y z Hx Hy. unfold by_time in *. lia. Qed.
#[export] Instance by_time_total key : Total (by_time key).
Proof. intros x y. unfold by_time. lia. Qed.
#[export] Instance DESC_trans r `{!Transitive r} : Transitive (DESC r).
Proof. intros x y z Hx Hy. unfold DESC in *. by etrans. Qed.
#[export] Instance DESC_total r `{!Total r} : Total (DESC r).
Proof. intros x y. unfold DESC. apply (total r). Qed.
#[export] Instance THEN_trans r r' `{!Transitive r, !Transitive r'} : Transitive (THEN r r').
Proof.
  intros x y z [Hxy Hxy'] [Hyz Hyz']. split; [by etrans|]. intros Hzx.
  etrans; [apply Hxy'|apply Hyz']; by etrans.
Qed.
#[export] Instance THEN_total r r' `{!RelDecision r, !Total r, !Total r'} : Total (THEN r r').
Proof.
  intros x y. unfold THEN. destruct (decide (r x y)) as [Hxy|Hxy], (decide (r y x)) as [Hyx|Hyx].
  - destruct (total r' x y); [left|right]; by split.
  - left. by split.
  - right. by split.
  - destruct (total r x y); done.
Qed.
End order.

#[global] Typeclasses Opaque by_text by_time DESC THEN.

(** ** Facts *)

Lemma rtrim_ulid s : string_forallb crockford s = true -> rtrim s = s.
Proof.
  induction s as [|a s IH]; cbn; [done|]. intros [Ha Hs]%andb_true_iff. rewrite IH by done.
  destruct (bool_decide_reflect (a = " "%char)) as [->|]; [|done]. done.
Qed.

Lemma crockford_ascii a : crockford a = true -> (byte_of a <? 128)%N = true /\ (byte_of a =? 0)%N = false.
Proof.
  unfold crockford. repeat rewrite orb_true_iff. repeat rewrite andb_true_iff. repeat rewrite N.leb_le.
  rewrite N.ltb_lt, N.eqb_neq. lia.
Qed.

Lemma ulid_ascii s : string_forallb crockford s = true -> ascii_only s = true.
Proof.
  induction s as [|a s IH]; cbn; [done|]. intros [Ha Hs]%andb_true_iff.
  by rewrite (proj1 (crockford_ascii a Ha)), IH.
Qed.

Lemma IsULID_inv s : IsULID s = true -> String.length s = 26 /\ string_forallb crockford s = true.
Proof. unfold IsULID. rewrite andb_true_iff, bool_decide_eq_true. tauto. Qed.

Lemma string_app_nil s : s +:+ "" = s.
Proof. induction s as [|a s IH]; [done|]. change (String a (s +:+ "") = String a s). by rewrite IH. Qed.

Lemma bpchar_ulid s : IsULID s = true -> bpchar 26 s = s.
Proof.
  intros [Hl Hc]%IsULID_inv. unfold bpchar. rewrite rtrim_ulid by done.
  rewrite RuneCountInString_ascii by (by apply ulid_ascii). rewrite Hl. apply string_app_nil.
Qed.

(** *** Tables whose rows repeat their key *)

Definition keyed {K R} `{Countable K} (key : R -> K) (m : gmap K R) : Prop := forall k r, m !! k = Some r -> key r = k.

Section facts.
Context `{Postgres} {K R : Type} `{Countable K}.
Implicit Types (m : gmap K R) (w : R -> bool) (l : list R).

Lemma elem_of_rows m r : r ∈ rows m <-> exists k, m !! k = Some r.
Proof.
  unfold rows. rewrite list_elem_of_fmap. split.
  - intros ([k x] & -> & Hx%elem_of_map_to_list). by exists k.
  - intros [k Hk]. exists (k, r). split; [done|]. by apply elem_of_map_to_list.
Qed.

Lemma SELECT_perm t w l : SELECT t w l ≡ₚ List.filter w l.
Proof.
  unfold SELECT. pose proof (plan_perm t R l) as Hp. induction Hp; cbn.
  - done.
  - by destruct (w x); [constructor|].
  - destruct (w x), (w y); try done. constructor.
  - by etrans.
Qed.

Lemma elem_of_SELECT t w l r : r ∈ SELECT t w l <-> w r = true /\ r ∈ l.
Proof. rewrite SELECT_perm, !list_elem_of_In, List.filter_In. tauto. Qed.

Lemma NoDup_table_rows (key : R -> K) m : keyed key m -> NoDup (rows m).
Proof.
  intros Hk. unfold rows. apply NoDup_fmap_2_strong; [|apply NoDup_map_to_list].
  intros [k x] [k' x'] Hx%elem_of_map_to_list Hx'%elem_of_map_to_list; cbn. intros ->.
  apply Hk in Hx, Hx'. congruence.
Qed.

Lemma NoDup_SELECT t w l : NoDup l -> NoDup (SELECT t w l).
Proof.
  intros Hl. rewrite SELECT_perm. induction Hl as [|x l Hx Hl IH]; cbn; [constructor|].
  destruct (w x); [|done]. constructor; [|done]. rewrite list_elem_of_In, List.filter_In, <- list_elem_of_In. tauto.
Qed.

(** Selecting by primary key. *)
Lemma SELECT_pk (key : R -> K) m t k w :
  keyed key m -> (forall r, w r = true -> key r = k) ->
  SELECT t w (rows m) = match m !! k with Some r => if w r then [r] else [] | None => [] end.
Proof.
  intros Hk Hw. set (rhs := match m !! k with Some _ => _ | None => _ end).
  assert (Hrhs : SELECT t w (rows m) ≡ₚ rhs).
  { apply NoDup_Permutation.
    - by apply NoDup_SELECT, (NoDup_table_rows key).
    - subst rhs. destruct (m !! k); [|constructor]. destruct (w r); [apply NoDup_singleton|constructor].
    - intros x. rewrite elem_of_SELECT, elem_of_rows. subst rhs. split.
      + intros [Hx [k' Hk']]. assert (k' = k) as -> by (rewrite <- (Hw x Hx); symmetry; by apply Hk).
        rewrite Hk', Hx. by apply list_elem_of_singleton.
      + destruct (m !! k) as [r|] eqn:E; [|by intros ?%elem_of_nil]. destruct (w r) eqn:Er; [|by intros ?%elem_of_nil].
        intros ->%list_elem_of_singleton. split; [done|]. by exists k. }
  subst rhs. destruct (m !! k) as [r|]; [destruct (w r)|].
  - by apply Permutation_singleton_r in Hrhs.
  - by apply Permutation_nil_r in Hrhs.
  - by apply Permutation_nil_r in Hrhs.
Qed.

(** Updating by primary key. *)
Lemma UPDATE_pk (key : R -> K) m set k w :
  keyed key m -> (forall r, w r = true -> key r = k) ->
  UPDATE set w m =
    match m !! k with
    | Some r => if w r then r' ← set r; Some (<[k := r']> m, [r']) else Some (m, [])
    | None => Some (m, [])
    end.
Proof.
  intros Hk Hw. unfold UPDATE.
  assert (Hhit : filter (fun kv : K * R => w kv.2 = true) m =
    match m !! k with Some r => if w r then {[k := r]} else ∅ | None => ∅ end).
  { apply map_eq. intros i. apply option_eq. intros x. rewrite map_lookup_filter_Some. cbn. split.
    - intros [Hx Hwx]. assert (i = k) as -> by (rewrite <- (Hw x Hwx); symmetry; by apply Hk).
      rewrite Hx, Hwx. apply lookup_singleton_eq.
    - destruct (m !! k) as [r|] eqn:E; [|by rewrite lookup_empty]. destruct (w r) eqn:Er; [|by rewrite lookup_empty].
      rewrite lookup_singleton_Some. by intros [<- <-]. }
  rewrite Hhit. destruct (m !! k) as [r|] eqn:E; [destruct (w r)|].
  - rewrite omap_singleton. destruct (set r) as [r'|]; cbn.
    + rewrite !map_size_singleton. cbn. unfold rows. by rewrite map_to_list_singleton, insert_union_singleton_l.
    + by rewrite map_size_empty, map_size_singleton.
  - rewrite omap_empty, map_size_empty. cbn. unfold rows. by rewrite map_to_list_empty, (left_id_L ∅ (∪)).
  - rewrite omap_empty, map_size_empty. cbn. unfold rows. by rewrite map_to_list_empty, (left_id_L ∅ (∪)).
Qed.

(** Deleting by primary key. *)
Lemma DELETE_pk (key : R -> K) m k w :
  keyed key m -> (forall r, w r = true <-> key r = k) -> DELETE w m = (delete k m, if m !! k is Some _ then 1 else 0).
Proof.
  intros Hk Hw. unfold DELETE. f_equal.
  - apply map_eq. intros i. apply option_eq. intros x. rewrite map_lookup_filter_Some, lookup_delete_Some. cbn.
    split; intros [Hx Hy].
    + split; [|done]. intros ->. apply Hk in Hx. apply Hw in Hx. congruence.
    + split; [done|]. apply not_true_is_false. intros Hwx%Hw. apply Hk in Hy. congruence.
  - assert (Hhit : filter (fun kv : K * R => w kv.2 = true) m = match m !! k with Some r => {[k := r]} | None => ∅ end).
    { apply map_eq. intros i. apply option_eq. intros x. rewrite map_lookup_filter_Some. cbn. split.
      - intros [Hx Hwx%Hw]. assert (i = k) as -> by (rewrite <- Hwx; symmetry; by apply Hk). rewrite Hx. apply lookup_singleton_eq.
      - destruct (m !! k) as [r|] eqn:E; [|by rewrite lookup_empty]. rewrite lookup_singleton_Some. intros [<- <-].
        split; [done|]. apply Hw. by apply Hk. }
    rewrite Hhit. destruct (m !! k); [by rewrite map_size_singleton|by rewrite map_size_empty].
Qed.

Lemma keyed_put (key : R -> K) m r : keyed key m -> keyed key (<[key r := r]> m).
Proof. intros Hk k x. rewrite lookup_insert_Some. intros [[<- <-]|[_ Hx]]; [done|by apply Hk]. Qed.

Lemma keyed_put_at (key : R -> K) m k r : keyed key m -> key r = k -> keyed key (<[k := r]> m).
Proof. intros Hk <-. by apply keyed_put. Qed.

Lemma keyed_drop (key : R -> K) m k : keyed key m -> keyed key (delete k m).
Proof. intros Hk k' x [_ Hx]%lookup_delete_Some. by apply Hk. Qed.
End facts.

Lemma elem_of_JOIN {A B} (on : A -> B -> bool) la lb x : x ∈ JOIN on la lb <-> x.1 ∈ la /\ x.2 ∈ lb /\ on x.1 x.2 = true.
Proof.
  unfold JOIN. rewrite list_elem_of_bind. split.
  - intros (a & Hx & Ha). apply list_elem_of_fmap in Hx as (b & -> & Hb). cbn.
    rewrite list_elem_of_In, List.filter_In, <- list_elem_of_In in Hb. tauto.
  - intros (Ha & Hb & Hon). exists x.1. split; [|done]. apply list_elem_of_fmap. exists x.2. split; [by destruct x|].
    by rewrite list_elem_of_In, List.filter_In, <- list_elem_of_In.
Qed.

Lemma NoDup_JOIN {A B} (on : A -> B -> bool) la lb : NoDup la -> NoDup lb -> NoDup (JOIN on la lb).
Proof.
  intros Hla Hlb. unfold JOIN. induction Hla as [|a la Ha Hla IH]; cbn; [constructor|].
  apply NoDup_app. split; [|split; [|done]].
  - apply NoDup_fmap_2; [apply _|]. clear -Hlb. induction Hlb as [|b lb Hb Hlb IH]; cbn; [constructor|].
    destruct (on a b); [|done]. constructor; [|done]. rewrite list_elem_of_In, List.filter_In, <- list_elem_of_In. tauto.
  - intros x (b & -> & _)%list_elem_of_fmap. fold (JOIN on la lb). rewrite elem_of_JOIN. cbn. tauto.
Qed.

(** Joining on the primary key of the left table. *)
Lemma JOIN_pk {K R B} `{Countable K} (key : R -> K) (fk : B -> K) (on : R -> B -> bool) (m : gmap K R) (l : list B) :
  keyed key m -> (forall r x, on r x = true <-> key r = fk x) -> NoDup l ->
  JOIN on (rows m) l ≡ₚ omap (fun x => r ← m !! fk x; Some (r, x)) l.
Proof.
  intros Hk Hon Hl. apply NoDup_Permutation.
  - apply NoDup_JOIN; [by apply (NoDup_table_rows key)|done].
  - induction Hl as [|x l Hx Hl IH]; cbn; [constructor|]. destruct (m !! fk x) as [r|] eqn:E; cbn; [|done].
    constructor; [|done]. intros (y & Hy & Ey)%list_elem_of_omap. destruct (m !! fk y); cbn in Ey; [|done]. congruence.
  - intros [r x]. rewrite elem_of_JOIN, elem_of_rows, list_elem_of_omap. cbn. split.
    + intros ([k Hr] & Hx & Ho%Hon). exists x. split; [done|]. rewrite <- Ho, (Hk _ _ Hr), Hr. done.
    + intros (y & Hy & Ey). destruct (m !! fk y) as [r'|] eqn:E; cbn in Ey; [|done]. injection Ey as -> ->.
      split; [by eexists|]. split; [done|]. apply Hon. by rewrite (Hk _ _ E).
Qed.
