(* ===== verification/PgSchema.v ===== *)
(** * The schema of db/migrations, and running a statement

    One table per CREATE TABLE, keyed by its primary key; [<table>_row] is
    what the column types make of a row, [None] an error. Foreign keys and
    CHECK constraints are tested by the statements that insert. Columns no
    repository reads are left out. *)

From S2P Require Import Prelude Errors Monad GoStrings Domain Repository PgSql.

Record Tables := mkTables {
  users : gmap string User.t;
  posts : gmap string Post.t;
  post_images : gmap (string * string) Z;        (* (post_id, image_id) -> position *)
  post_tags : gset (string * string);            (* (post_id, tag_id) *)
  post_ogp : gmap (string * string) Z;           (* (post_id, url_hash) -> position *)
  images : gmap string Image.t;
  likes : gmap (string * string) Time;           (* (user_id, post_id) -> created_at *)
  tags : gmap string Tag.t;
  badges : gmap string Badge.t;
  user_badges : gmap (string * string) UserBadge.t;
  follows : gmap (string * string) Follow.t;
  ogp_cache : gmap string OGPPreview.t;
  ogp_jobs : gmap string OGPJob.t;
}.

Definition empty_Tables : Tables := mkTables ∅ ∅ ∅ ∅ ∅ ∅ ∅ ∅ ∅ ∅ ∅ ∅ ∅.

Definition set_users x T := mkTables x (posts T) (post_images T) (post_tags T) (post_ogp T) (images T) (likes T) (tags T) (badges T) (user_badges T) (follows T) (ogp_cache T) (ogp_jobs T).
Definition set_posts x T := mkTables (users T) x (post_images T) (post_tags T) (post_ogp T) (images T) (likes T) (tags T) (badges T) (user_badges T) (follows T) (ogp_cache T) (ogp_jobs T).
Definition set_post_images x T := mkTables (users T) (posts T) x (post_tags T) (post_ogp T) (images T) (likes T) (tags T) (badges T) (user_badges T) (follows T) (ogp_cache T) (ogp_jobs T).
Definition set_post_tags x T := mkTables (users T) (posts T) (post_images T) x (post_ogp T) (images T) (likes T) (tags T) (badges T) (user_badges T) (follows T) (ogp_cache T) (ogp_jobs T).
Definition set_post_ogp x T := mkTables (users T) (posts T) (post_images T) (post_tags T) x (images T) (likes T) (tags T) (badges T) (user_badges T) (follows T) (ogp_cache T) (ogp_jobs T).
Definition set_images x T := mkTables (users T) (posts T) (post_images T) (post_tags T) (post_ogp T) x (likes T) (tags T) (badges T) (user_badges T) (follows T) (ogp_cache T) (ogp_jobs T).
Definition set_likes x T := mkTables (users T) (posts T) (post_images T) (post_tags T) (post_ogp T) (images T) x (tags T) (badges T) (user_badges T) (follows T) (ogp_cache T) (ogp_jobs T).
Definition set_tags x T := mkTables (users T) (posts T) (post_images T) (post_tags T) (post_ogp T) (images T) (likes T) x (badges T) (user_badges T) (follows T) (ogp_cache T) (ogp_jobs T).
Definition set_badges x T := mkTables (users T) (posts T) (post_images T) (post_tags T) (post_ogp T) (images T) (likes T) (tags T) x (user_badges T) (follows T) (ogp_cache T) (ogp_jobs T).
Definition set_user_badges x T := mkTables (users T) (posts T) (post_images T) (post_tags T) (post_ogp T) (images T) (likes T) (tags T) (badges T) x (follows T) (ogp_cache T) (ogp_jobs T).
Definition set_follows x T := mkTables (users T) (posts T) (post_images T) (post_tags T) (post_ogp T) (images T) (likes T) (tags T) (badges T) (user_badges T) x (ogp_cache T) (ogp_jobs T).
Definition set_ogp_cache x T := mkTables (users T) (posts T) (post_images T) (post_tags T) (post_ogp T) (images T) (likes T) (tags T) (badges T) (user_badges T) (follows T) x (ogp_jobs T).
Definition set_ogp_jobs x T := mkTables (users T) (posts T) (post_images T) (post_tags T) (post_ogp T) (images T) (likes T) (tags T) (badges T) (user_badges T) (follows T) (ogp_cache T) x.

(** ** Rows *)

Definition users_row (u : User.t) : option User.t :=
  sub ← char 26 (User.Sub u);
  name ← varchar 255 (User.DisplayNameCached u);
  handle ← varchar 64 (User.DisplayIDCached u);
  icon ← varchar 1024 (User.IconURLCached u);
  bio ← text (User.Bio u);
  banner ← varchar 1024 (User.BannerURL u);
  followers ← int 64 (User.FollowersCount u);
  following ← int 64 (User.FollowingCount u);
  Some (User.mk sub name handle icon (usec (User.ProfileRefreshedAt u)) bio banner (User.IsAdmin u)
    followers following (usec (User.CreatedAt u)) (usec (User.UpdatedAt u)) (usec <$> User.DeletedAt u)).

(** The length of the content is counted in characters. *)
Definition posts_row (p : Post.t) : option Post.t :=
  id ← char 26 (Post.ID p);
  user ← char 26 (Post.UserID p);
  content ← text (Post.Content p);
  parent ← nullable (char 26) (Post.ParentPostID p);
  root ← nullable (char 26) (Post.RootPostID p);
  likes ← int 32 (Post.LikesCount p);
  replies ← int 64 (Post.RepliesCount p);
  visibility ← varchar 16 (Post.Visibility p);
  Some (Post.mk id user content parent root likes replies visibility
    (usec (Post.CreatedAt p)) (usec (Post.UpdatedAt p)) (usec <$> Post.DeletedAt p)).

Definition posts_content_len (p : Post.t) : bool :=
  let n := RuneCountInString (Post.Content p) in (1 <=? n)%nat && (n <=? 120)%nat.

Definition images_row (i : Image.t) : option Image.t :=
  id ← char 26 (Image.ID i);
  key ← varchar 2000 (Image.StorageKey i);
  name ← varchar 500 (Image.FileName i);
  mime ← varchar 100 (Image.MimeType i);
  size ← int 64 (Image.FileSize i);
  url ← varchar 2000 (Image.PublicURL i);
  user ← char 26 (Image.UserID i);
  Some (Image.mk id key name mime size url user (usec (Image.CreatedAt i)) (usec (Image.UpdatedAt i)) (usec <$> Image.DeletedAt i)).

Definition tags_row (t : Tag.t) : option Tag.t :=
  id ← char 26 (Tag.ID t);
  name ← varchar 64 (Tag.Name t);
  Some (Tag.mk id name (usec (Tag.CreatedAt t))).

Definition badges_row (b : Badge.t) : option Badge.t :=
  id ← char 26 (Badge.ID b);
  key ← varchar 64 (Badge.Key b);
  label ← varchar 64 (Badge.Label b);
  description ← text (Badge.Description b);
  icon ← varchar 1024 (Badge.IconURL b);
  color ← varchar 16 (Badge.Color b);
  priority ← int 32 (Badge.Priority b);
  Some (Badge.mk id key label description icon color priority (usec (Badge.CreatedAt b)) (usec (Badge.UpdatedAt b))).

Definition user_badges_row (g : UserBadge.t) : option UserBadge.t :=
  user ← char 26 (UserBadge.UserID g);
  badge ← char 26 (UserBadge.BadgeID g);
  granter ← char 26 (UserBadge.GrantedBy g);
  reason ← varchar 255 (UserBadge.Reason g);
  Some (UserBadge.mk user badge (usec (UserBadge.GrantedAt g)) granter (usec <$> UserBadge.ExpiresAt g) reason).

Definition follows_row (f : Follow.t) : option Follow.t :=
  follower ← char 26 (Follow.FollowerSub f);
  followee ← char 26 (Follow.FolloweeSub f);
  Some (Follow.mk follower followee (usec (Follow.CreatedAt f))).

Definition ogp_cache_row (p : OGPPreview.t) : option OGPPreview.t :=
  hash ← char 64 (OGPPreview.URLHash p);
  url ← varchar 2048 (OGPPreview.URL p);
  title ← varchar 512 (OGPPreview.Title p);
  description ← varchar 1024 (OGPPreview.Description p);
  image ← varchar 2048 (OGPPreview.ImageURL p);
  site ← varchar 255 (OGPPreview.SiteName p);
  canonical ← varchar 2048 (OGPPreview.CanonicalURL p);
  status ← varchar 16 (OGPPreview.Status p);
  reason ← varchar 255 (OGPPreview.ErrorReason p);
  Some (OGPPreview.mk hash url title description image site canonical
    (usec (OGPPreview.FetchedAt p)) (usec (OGPPreview.ExpiresAt p)) status reason).

(** [post_id] is never NULL: every job is enqueued for a post, and posts are
    not deleted from their table. *)
Definition ogp_jobs_row (j : OGPJob.t) : option OGPJob.t :=
  id ← char 26 (OGPJob.ID j);
  hash ← char 64 (OGPJob.URLHash j);
  url ← varchar 2048 (OGPJob.URL j);
  post ← char 26 (OGPJob.PostID j);
  position ← int 16 (OGPJob.Position j);
  status ← varchar 16 (OGPJob.Status j);
  attempts ← int 32 (OGPJob.Attempts j);
  err ← varchar 512 (OGPJob.LastError j);
  Some (OGPJob.mk id hash url post position (usec (OGPJob.EnqueuedAt j)) (usec <$> OGPJob.StartedAt j)
    (usec <$> OGPJob.FinishedAt j) status attempts err).

(** ** Running statements

    [tx] is the tick at which the open transaction began; a statement
    outside one is its own transaction. A statement that fails, or does not
    reach the server, changes nothing. One whose answer is lost is done, and
    the program is told that the connection is gone. *)

Record PG := mkPG { pg_tick : nat; tx : option nat; tables : Tables; minted : nat }.

Definition set_tables (T : Tables) (s : PG) : PG := mkPG (pg_tick s) (tx s) T (minted s).
Definition advance (s : PG) : PG := mkPG (S (pg_tick s)) (tx s) (tables s) (minted s).

Definition connection_lost : goerror := ErrorString "conn closed".

Section run.
Context `{Postgres}.

(** A statement: given NOW() and the tick of its plan. *)
Definition statement (A : Type) : Type := Time -> nat -> Tables -> goerror + (Tables * A).

Definition exec {A} (q : statement A) : M PG A := fun s =>
  let now := NOW (default (pg_tick s) (tx s)) in
  let '(s', r) := match q now (pg_tick s) (tables s) with
                  | inl e => (advance s, Err e)
                  | inr (T, a) => (set_tables T (advance s), Ok a)
                  end in
  match link (pg_tick s) with
  | Carried => (s', r)
  | Refused => (advance s, Err connection_lost)
  | Unanswered => (s', Err connection_lost)
  end.

Definition query {A} (q : Time -> nat -> Tables -> A) : M PG A :=
  exec (fun now t T => inr (T, q now t T)).

(** [fmt.Errorf("postgres: ...: %w", err)] *)
Definition wrap {A} (what : string) (m : M PG A) : M PG A :=
  map_err (fun e => Wrapped ("postgres: " +:+ what +:+ ": ") e "") m.

(** The first row of RETURNING, where its absence is an error. *)
Definition one_row {A} (l : list A) : M PG A :=
  match l with r :: _ => ret r | [] => fail ErrNoRows end.

(** The rows are read into [make([]*T, 0, limit)], once the query is sent:
    a slice has at most 2^48 bytes of pointers. *)
Definition make_cap {A} (limit : Z) (m : M PG A) : M PG A := fun s =>
  match link (pg_tick s), m s with
  | Refused, x => x
  | _, (s', r) => (s', if (2 ^ 45 <? limit)%Z then Panic "makeslice: cap out of range" else r)
  end.

(** [pkgdb.WithTx]. The server forgets a transaction whose connection is
    gone; a COMMIT may be done without the program being told. *)
Definition WithTx {A} (fn : M PG A) : M PG A := fun s =>
  match link (pg_tick s) with
  | Refused | Unanswered => (advance s, Err (Wrapped "db: begin tx: " connection_lost ""))
  | Carried =>
    let rollback s' := mkPG (pg_tick s') None (tables s) (minted s') in
    match fn (mkPG (S (pg_tick s)) (Some (pg_tick s)) (tables s) (minted s)) with
    | (s', Ok a) =>
        let committed := mkPG (S (pg_tick s')) None (tables s') (minted s') in
        match link (pg_tick s') with
        | Carried => (committed, Ok a)
        | Refused => (rollback (advance s'), Err (Wrapped "db: commit tx: " connection_lost ""))
        | Unanswered => (committed, Err (Wrapped "db: commit tx: " connection_lost ""))
        end
    | (s', Err e) => (rollback s', Err e)
    | (s', Panic why) => (rollback s', Panic why)
    end
  end.
End run.

Definition or_fail {A} (e : goerror) (x : option A) : goerror + A :=
  match x with Some a => inr a | None => inl e end.

(** A value the columns refuse. *)
Definition coerce {A} (x : option A) : goerror + A := or_fail bad_value x.

(** An argument that is compared with a CHAR(n) column. *)
Definition char_arg (n : nat) (s : string) : goerror + string :=
  if encoded s then inr (bpchar n s) else inl bad_value.

Definition char_args (n : nat) (l : list string) : goerror + list string :=
  if forallb encoded l then inr (bpchar n <$> l) else inl bad_value.

Definition require (b : bool) (e : goerror) : goerror + unit := if b then inr tt else inl e.

Notation "'sql!' x := m 'in' k" := (match m with inl e => inl e | inr x => k end)
  (at level 10, x pattern, m at level 100, k at level 200).

Definition exists_row {K V} `{Countable K} (k : K) (m : gmap K V) : bool := bool_decide (is_Some (m !! k)).

(** ** The process's own clock and identifiers *)

#[export] Instance pg_Runtime `{GoRuntime} : Runtime.t PG := {|
  Runtime.Now := fun s => (advance s, Ok (clock (pg_tick s)));
  Runtime.MakeULID := fun s => (mkPG (pg_tick s) (tx s) (tables s) (S (minted s)), Ok (ulid_Make (minted s)));
|}.
