(* ===== verification/PgSocial.v ===== *)
(** * Users, follows and badges in PostgreSQL:
    internal/repository/postgres/user.go, follow.go and badge.go

    One Definition per method, its SQL as a statement on the tables. Scanning
    a row gives its Go struct: the columns are selected in the order of the
    fields. *)

From S2P Require Import Prelude Errors Monad GoStrings Domain Cursor MemFollows MemBadges Repository PgSql PgSchema.

Local Open Scope go_scope.

(** LIMIT and OFFSET with a negative argument are errors. *)
Definition negative_limit : goerror := PgError "2201W".
Definition negative_offset : goerror := PgError "2201X".

(** ** user.go *)

Module PgUsers.
Section ops.
Context `{GoRuntime, Postgres}.

Definition of_sub (sub : string) (u : User.t) : bool := bool_decide (User.Sub u = sub).
Definition live (u : User.t) : bool := bool_decide (User.DeletedAt u = None).

Definition GetBySub (sub : string) : M PG (option User.t) :=
  wrap "get user by sub" (exec (fun _ t T =>
    sql! sub := char_arg 26 sub in
    inr (T, head (SELECT t (of_sub sub) (rows (users T)))))).

(** ON CONFLICT (sub) DO UPDATE *)
Definition on_conflict (now : Time) (excluded old : User.t) : User.t :=
  User.mk (User.Sub old) (User.DisplayNameCached excluded) (User.DisplayIDCached excluded)
    (User.IconURLCached excluded) (User.ProfileRefreshedAt excluded)
    (if bool_decide (User.Bio excluded = "") then User.Bio old else User.Bio excluded)
    (if bool_decide (User.BannerURL excluded = "") then User.BannerURL old else User.BannerURL excluded)
    (User.IsAdmin old) (User.FollowersCount old) (User.FollowingCount old)
    (User.CreatedAt old) now (User.DeletedAt old).

Definition inserted (now createdAt : Time) (u : User.t) : User.t :=
  User.mk (User.Sub u) (User.DisplayNameCached u) (User.DisplayIDCached u) (User.IconURLCached u)
    (User.ProfileRefreshedAt u) (User.Bio u) (User.BannerURL u) (User.IsAdmin u)
    (User.FollowersCount u) (User.FollowingCount u) createdAt now None.

Definition upsert (createdAt : Time) (user : User.t) : statement User.t := fun now t T =>
  sql! row := coerce (users_row (inserted now createdAt user)) in
  let row := match users T !! User.Sub row with
             | Some old => on_conflict now row old
             | None => row
             end in
  inr (set_users (<[User.Sub row := row]> (users T)) T, row).

Definition Upsert (user : User.t) : M PG User.t :=
  let! createdAt := if IsZero (User.CreatedAt user) then Runtime.Now else ret (User.CreatedAt user) in
  wrap "upsert user" (exec (upsert createdAt user)).

(** COALESCE($n, column): the argument, or what is stored. *)
Definition coalesce (f : string -> option string) (x : option string) (stored : string) : option string :=
  match x with Some s => f s | None => Some stored end.

(** SET bio = COALESCE($2, bio), banner_url = COALESCE($3, banner_url) *)
Definition set_profile (now : Time) (req : UpdateUserProfileRequest.t) (u : User.t) : option User.t :=
  bio ← coalesce text (UpdateUserProfileRequest.Bio req) (User.Bio u);
  banner ← coalesce (varchar 1024) (UpdateUserProfileRequest.BannerURL req) (User.BannerURL u);
  Some (User.set_UpdatedAt now (User.set_BannerURL banner (User.set_Bio bio u))).

Definition args_encoded (l : list (option string)) : bool := forallb (fun x => encoded (default "" x)) l.

Definition UpdateProfile (sub : string) (req : UpdateUserProfileRequest.t) : M PG (option User.t) :=
  wrap "update user profile" (exec (fun now t T =>
    sql! sub := char_arg 26 sub in
    sql! _ := require (args_encoded [UpdateUserProfileRequest.Bio req; UpdateUserProfileRequest.BannerURL req]) bad_value in
    sql! (us, changed) := coerce (UPDATE (set_profile now req) (of_sub sub) (users T)) in
    inr (set_users us T, head changed))).

Definition newest_first : relation User.t := THEN (DESC (by_time User.CreatedAt)) (DESC (by_text User.Sub)).

#[export] Instance newest_first_dec : RelDecision newest_first.
Proof. unfold newest_first. apply _. Defined.

Definition List (limit offset : Z) : M PG (list User.t * Z) :=
  let! total := wrap "count users" (query (fun _ t T => Z.of_nat (length (SELECT t live (rows (users T)))))) in
  if ((limit <=? 0) || (total =? 0))%Z then ret ([], total)
  else
    let! page := wrap "list users" (exec (fun _ t T =>
      sql! _ := require (0 <=? offset)%Z negative_offset in
      sql! page := or_fail negative_limit
        (LIMIT limit (drop (Z.to_nat offset) (ORDER_BY newest_first (SELECT t live (rows (users T)))))) in
      inr (T, page))) in
    ret (page, total).

Definition ListBySubs (subs : list string) : M PG (gmap string User.t) :=
  if bool_decide (subs = []) then ret ∅
  else
    let! found := wrap "list users by subs" (exec (fun _ t T =>
      sql! subs := char_args 26 subs in
      inr (T, SELECT t (fun u => bool_decide (User.Sub u ∈ subs) && live u) (rows (users T))))) in
    ret (foldl (fun out u => <[User.Sub u := u]> out) ∅ found).

(** UPDATE users SET [...], updated_at = NOW() WHERE sub = $1 *)
Definition update (what sub : string) (set : Time -> User.t -> option User.t) : M PG unit :=
  wrap what (exec (fun now t T =>
    sql! sub := char_arg 26 sub in
    sql! (us, _) := or_fail out_of_range (UPDATE (fun u => User.set_UpdatedAt now <$> set now u) (of_sub sub) (users T)) in
    inr (set_users us T, tt))).

(** GREATEST(n - 1, 0) *)
Definition floored (w n : Z) : option Z := Z.max 0 <$> int w (n - 1).

Definition IncrementFollowersCount (sub : string) : M PG unit :=
  update "inc followers_count" sub (fun _ u =>
    n ← int 64 (User.FollowersCount u + 1); Some (User.set_FollowersCount n u)).

Definition DecrementFollowersCount (sub : string) : M PG unit :=
  update "dec followers_count" sub (fun _ u =>
    n ← floored 64 (User.FollowersCount u); Some (User.set_FollowersCount n u)).

Definition IncrementFollowingCount (sub : string) : M PG unit :=
  update "inc following_count" sub (fun _ u =>
    n ← int 64 (User.FollowingCount u + 1); Some (User.set_FollowingCount n u)).

Definition DecrementFollowingCount (sub : string) : M PG unit :=
  update "dec following_count" sub (fun _ u =>
    n ← floored 64 (User.FollowingCount u); Some (User.set_FollowingCount n u)).

Definition Delete (sub : string) : M PG unit :=
  wrap "delete user" (exec (fun now t T =>
    sql! sub := char_arg 26 sub in
    sql! (us, _) := coerce (UPDATE (fun u => Some (User.set_UpdatedAt now (User.set_DeletedAt (Some now) u)))
      (fun u => of_sub sub u && live u) (users T)) in
    inr (set_users us T, tt))).
End ops.
End PgUsers.

#[export] Instance pg_UserRepository `{GoRuntime, Postgres} : UserRepository.t PG := {|
  UserRepository.GetBySub := PgUsers.GetBySub;
  UserRepository.Upsert := PgUsers.Upsert;
  UserRepository.UpdateProfile := PgUsers.UpdateProfile;
  UserRepository.List := PgUsers.List;
  UserRepository.ListBySubs := PgUsers.ListBySubs;
  UserRepository.IncrementFollowersCount := PgUsers.IncrementFollowersCount;
  UserRepository.DecrementFollowersCount := PgUsers.DecrementFollowersCount;
  UserRepository.IncrementFollowingCount := PgUsers.IncrementFollowingCount;
  UserRepository.DecrementFollowingCount := PgUsers.DecrementFollowingCount;
  UserRepository.Delete := PgUsers.Delete;
|}.

(** ** follow.go *)

Module PgFollows.
Section ops.
Context `{Postgres}.

Definition pair_is (a b : string) (f : Follow.t) : bool :=
  bool_decide (Follow.FollowerSub f = a) && bool_decide (Follow.FolloweeSub f = b).

(** Both users exist and differ; a pair that is there already is kept. *)
Definition Create (followerSub followeeSub : string) : M PG bool :=
  wrap "create follow" (exec (fun now t T =>
    sql! row := coerce (follows_row (Follow.mk followerSub followeeSub now)) in
    let key := (Follow.FollowerSub row, Follow.FolloweeSub row) in
    sql! _ := require (negb (bool_decide (key.1 = key.2))) check_violation in
    if exists_row key (follows T) then inr (T, false)
    else
      sql! _ := require (exists_row key.1 (users T) && exists_row key.2 (users T)) foreign_key_violation in
      inr (set_follows (<[key := row]> (follows T)) T, true))).

Definition Delete (followerSub followeeSub : string) : M PG bool :=
  wrap "delete follow" (exec (fun _ t T =>
    sql! a := char_arg 26 followerSub in
    sql! b := char_arg 26 followeeSub in
    let '(fs, n) := DELETE (pair_is a b) (follows T) in
    inr (set_follows fs T, (0 <? n)%nat))).

Definition IsFollowing (followerSub followeeSub : string) : M PG bool :=
  wrap "is following" (exec (fun _ t T =>
    sql! a := char_arg 26 followerSub in
    sql! b := char_arg 26 followeeSub in
    inr (T, negb (bool_decide (SELECT t (pair_is a b) (rows (follows T)) = []))))).

Definition ListFollowingSubs (followerSub : string) : M PG (list string) :=
  wrap "list following subs" (exec (fun _ t T =>
    sql! a := char_arg 26 followerSub in
    inr (T, Follow.FolloweeSub <$> SELECT t (fun f => bool_decide (Follow.FollowerSub f = a)) (rows (follows T))))).

(** [(created_at, peer) < ($3, $4)] *)
Definition tuple_lt (side : bool) (c : option (Time * string)) (f : Follow.t) : bool :=
  match c with
  | None => true
  | Some (ct, cp) =>
      (Follow.CreatedAt f <? ct)%Z ||
      ((Follow.CreatedAt f =? ct)%Z && text_lt (rtrim (Follows.peerSub f side)) (rtrim cp))
  end.

Definition newest_first (side : bool) : relation Follow.t :=
  THEN (DESC (by_time Follow.CreatedAt)) (DESC (by_text (fun f => rtrim (Follows.peerSub f side)))).

#[export] Instance newest_first_dec side : RelDecision (newest_first side).
Proof. unfold newest_first. apply _. Defined.

Definition cursor_arg (c : option (Time * string)) : goerror + option (Time * string) :=
  match c with
  | None => inr None
  | Some (ct, cp) => sql! cp := char_arg 26 cp in inr (Some (usec ct, cp))
  end.

(** The row after the page only tells that there are more. *)
Definition page (side : bool) (limit : Z) (found : list Follow.t) : list Follow.t * string :=
  let page := take (Z.to_nat limit) found in
  if (Z.of_nat (length found) <=? limit)%Z then (page, "")
  else match last page with
       | Some l => (page, EncodeFollow (Follow.CreatedAt l) (Follows.peerSub l side))
       | None => (page, "")
       end.

(** [limit + 1] is an int. *)
Definition listSide (sub : string) (cursor : option string) (limit : Z) (side : bool) : M PG (list Follow.t * string) :=
  if (limit <=? 0)%Z then ret ([], "")
  else
    let! found := make_cap limit (wrap "list follows" (exec (fun _ t T =>
      sql! sub := char_arg 26 sub in
      sql! c := cursor_arg (DecodeFollow cursor) in
      sql! found := or_fail negative_limit (LIMIT (wrap64 (limit + 1)) (ORDER_BY (newest_first side)
        (SELECT t (fun f => bool_decide (Follows.ownerSub f side = sub) && tuple_lt side c f) (rows (follows T))))) in
      inr (T, found)))) in
    ret (page side limit found).

Definition ListFollowers (sub : string) (cursor : option string) (limit : Z) := listSide sub cursor limit true.
Definition ListFollowing (sub : string) (cursor : option string) (limit : Z) := listSide sub cursor limit false.

Definition AreFollowing (viewerSub : string) (targetSubs : list string) : M PG (gmap string bool) :=
  if bool_decide (targetSubs = []) then ret ∅
  else
    let! found := wrap "are following" (exec (fun _ t T =>
      sql! viewer := char_arg 26 viewerSub in
      sql! targets := char_args 26 targetSubs in
      inr (T, Follow.FolloweeSub <$> SELECT t (fun f => bool_decide (Follow.FollowerSub f = viewer) &&
                bool_decide (Follow.FolloweeSub f ∈ targets)) (rows (follows T))))) in
    ret (foldl (fun out sub => <[sub := true]> out) ∅ found).
End ops.
End PgFollows.

#[export] Instance pg_FollowRepository `{Postgres} : FollowRepository.t PG := {|
  FollowRepository.Create := PgFollows.Create;
  FollowRepository.Delete := PgFollows.Delete;
  FollowRepository.IsFollowing := PgFollows.IsFollowing;
  FollowRepository.ListFollowingSubs := PgFollows.ListFollowingSubs;
  FollowRepository.ListFollowers := PgFollows.ListFollowers;
  FollowRepository.ListFollowing := PgFollows.ListFollowing;
  FollowRepository.AreFollowing := PgFollows.AreFollowing;
|}.

(** ** badge.go *)

Module PgBadges.
Section ops.
Context `{Postgres}.

Definition of_id (id : string) (b : Badge.t) : bool := bool_decide (Badge.ID b = id).
Definition of_key (key : string) (b : Badge.t) : bool := bool_decide (Badge.Key b = key).

Definition by_priority : relation Badge.t := THEN (fun a b => (Badge.Priority a <= Badge.Priority b)%Z) (by_text Badge.Key).

#[export] Instance by_priority_dec : RelDecision by_priority.
Proof. unfold by_priority. apply @THEN_dec; [intros x y; apply _|apply _]. Defined.

Definition ListAll : M PG (list Badge.t) :=
  wrap "list badges" (query (fun _ t T => ORDER_BY by_priority (SELECT t (fun _ => true) (rows (badges T))))).

Definition GetByKey (key : string) : M PG (option Badge.t) :=
  wrap "get badge by key" (exec (fun _ t T =>
    sql! _ := require (encoded key) bad_value in
    inr (T, head (SELECT t (of_key key) (rows (badges T)))))).

Definition GetByID (id : string) : M PG (option Badge.t) :=
  wrap "get badge by id" (exec (fun _ t T =>
    sql! id := char_arg 26 id in
    inr (T, head (SELECT t (of_id id) (rows (badges T)))))).

(** COALESCE($8, NOW()) *)
Definition inserted (now : Time) (b : Badge.t) : Badge.t :=
  Badge.mk (Badge.ID b) (Badge.Key b) (Badge.Label b) (Badge.Description b) (Badge.IconURL b) (Badge.Color b)
    (Badge.Priority b) (if IsZero (Badge.CreatedAt b) then now else Badge.CreatedAt b) now.

(** A key that is taken gives no row; an id that is taken is an error. *)
Definition Create (badge : Badge.t) : M PG (option Badge.t) :=
  wrap "create badge" (exec (fun now t T =>
    sql! row := coerce (badges_row (inserted now badge)) in
    if negb (bool_decide (SELECT t (of_key (Badge.Key row)) (rows (badges T)) = [])) then inr (T, None)
    else
      sql! _ := require (negb (exists_row (Badge.ID row) (badges T))) unique_violation in
      inr (set_badges (<[Badge.ID row := row]> (badges T)) T, Some row))).

(** SET label = $2, description = $3, icon_url = $4, color = $5, priority = $6 *)
Definition edited (now : Time) (badge old : Badge.t) : option Badge.t :=
  label ← varchar 64 (Badge.Label badge);
  description ← text (Badge.Description badge);
  icon ← varchar 1024 (Badge.IconURL badge);
  color ← varchar 16 (Badge.Color badge);
  priority ← int 32 (Badge.Priority badge);
  Some (Badge.mk (Badge.ID old) (Badge.Key old) label description icon color priority (Badge.CreatedAt old) now).

Definition Update (badge : Badge.t) : M PG (option Badge.t) :=
  wrap "update badge" (exec (fun now t T =>
    sql! id := char_arg 26 (Badge.ID badge) in
    sql! _ := require (forallb encoded [Badge.Label badge; Badge.Description badge; Badge.IconURL badge; Badge.Color badge]) bad_value in
    sql! (bs, changed) := coerce (UPDATE (edited now badge) (of_id id) (badges T)) in
    inr (set_badges bs T, head changed))).

(** ON CONFLICT (user_id, badge_id) DO UPDATE replaces every other column. *)
Definition Grant (userID badgeID grantedBy : string) (expiresAt : option Time) (reason : string) : M PG unit :=
  wrap "grant badge" (exec (fun now t T =>
    sql! row := coerce (user_badges_row (UserBadge.mk userID badgeID now grantedBy expiresAt reason)) in
    sql! _ := require (exists_row (UserBadge.UserID row) (users T) && exists_row (UserBadge.BadgeID row) (badges T))
                foreign_key_violation in
    inr (set_user_badges (<[(UserBadge.UserID row, UserBadge.BadgeID row) := row]> (user_badges T)) T, tt))).

Definition Revoke (userID badgeID : string) : M PG unit :=
  wrap "revoke badge" (exec (fun _ t T =>
    sql! u := char_arg 26 userID in
    sql! b := char_arg 26 badgeID in
    let '(gs, _) := DELETE (fun g => bool_decide (UserBadge.UserID g = u) && bool_decide (UserBadge.BadgeID g = b)) (user_badges T) in
    inr (set_user_badges gs T, tt))).

(** expires_at IS NULL OR expires_at > NOW() *)
Definition active (now : Time) (g : UserBadge.t) : bool :=
  match UserBadge.ExpiresAt g with None => true | Some e => (now <? e)%Z end.

(** badges b JOIN user_badges ub ON ub.badge_id = b.id *)
Definition granted (T : Tables) : list (Badge.t * UserBadge.t) :=
  JOIN (fun b g => bool_decide (UserBadge.BadgeID g = Badge.ID b)) (rows (badges T)) (rows (user_badges T)).

Definition by_badge : relation (Badge.t * UserBadge.t) := fun x y => by_priority x.1 y.1.

#[export] Instance by_badge_dec : RelDecision by_badge.
Proof. intros x y. unfold by_badge. apply _. Defined.

Definition ListByUserID (userID : string) : M PG (list Badge.t) :=
  wrap "list badges by user" (exec (fun now t T =>
    sql! u := char_arg 26 userID in
    inr (T, fst <$> ORDER_BY by_badge (SELECT t (fun x => bool_decide (UserBadge.UserID x.2 = u) && active now x.2) (granted T))))).

(** [out[k] = append(out[k], v)] over the rows. *)
Definition append_rows {V} (l : list (string * V)) : gmap string (list V) :=
  foldl (fun out kv => <[kv.1 := default [] (out !! kv.1) ++ [kv.2]]> out) ∅ l.

Definition ListByUserIDs (userIDs : list string) : M PG (gmap string (list Badge.t)) :=
  if bool_decide (userIDs = []) then ret ∅
  else
    let! found := wrap "list badges by users" (exec (fun now t T =>
      sql! us := char_args 26 userIDs in
      inr (T, ORDER_BY by_badge (SELECT t (fun x => bool_decide (UserBadge.UserID x.2 ∈ us) && active now x.2) (granted T))))) in
    ret (append_rows ((fun x => (UserBadge.UserID x.2, x.1)) <$> found)).
End ops.
End PgBadges.

#[export] Instance pg_BadgeRepository `{Postgres} : BadgeRepository.t PG := {|
  BadgeRepository.ListAll := PgBadges.ListAll;
  BadgeRepository.GetByKey := PgBadges.GetByKey;
  BadgeRepository.GetByID := PgBadges.GetByID;
  BadgeRepository.Create := PgBadges.Create;
  BadgeRepository.Update := PgBadges.Update;
  BadgeRepository.Grant := PgBadges.Grant;
  BadgeRepository.Revoke := PgBadges.Revoke;
  BadgeRepository.ListByUserID := PgBadges.ListByUserID;
  BadgeRepository.ListByUserIDs := PgBadges.ListByUserIDs;
|}.
