(* ===== verification/PgPosts.v ===== *)
(** * Posts, likes, images and tags in PostgreSQL:
    internal/repository/postgres/post.go, like.go, image.go and tag.go *)

From S2P Require Import Prelude Errors Monad GoStrings Domain Repository PgSql PgSchema PgSocial.

Local Open Scope go_scope.

(** ** post.go *)

Module PgPosts.
Section ops.
Context `{Postgres}.

Definition of_id (id : string) (p : Post.t) : bool := bool_decide (Post.ID p = id).
Definition live (p : Post.t) : bool := bool_decide (Post.DeletedAt p = None).

Definition GetByID (id : string) : M PG (option Post.t) :=
  wrap "get post" (exec (fun _ t T =>
    sql! id := char_arg 26 id in
    inr (T, head (SELECT t (fun p => of_id id p && live p) (rows (posts T)))))).

Definition inserted (now : Time) (p : Post.t) : Post.t :=
  Post.mk (Post.ID p) (Post.UserID p) (Post.Content p) (Post.ParentPostID p) (Post.RootPostID p)
    (Post.LikesCount p) (Post.RepliesCount p)
    (if bool_decide (Post.Visibility p = "") then "public" else Post.Visibility p) now now None.

(** REFERENCES posts(id), where the reference may be NULL. *)
Definition refers (x : option string) (ps : gmap string Post.t) : bool :=
  match x with Some id => exists_row id ps | None => true end.

Definition insert_post (post : Post.t) : statement Post.t := fun now t T =>
  sql! row := coerce (posts_row (inserted now post)) in
  sql! _ := require (posts_content_len row) check_violation in
  sql! _ := require (negb (exists_row (Post.ID row) (posts T))) unique_violation in
  let ps := <[Post.ID row := row]> (posts T) in
  sql! _ := require (exists_row (Post.UserID row) (users T) && refers (Post.ParentPostID row) ps &&
                     refers (Post.RootPostID row) ps) foreign_key_violation in
  inr (set_posts ps T, row).

(** Primary key (post_id, image_id), UNIQUE (post_id, position), CHECK
    position IN 0..3. *)
Definition insert_post_image (postID imageID : string) (position : Z) : statement unit := fun _ _ T =>
  sql! p := coerce (char 26 postID) in
  sql! i := coerce (char 26 imageID) in
  sql! n := or_fail out_of_range (int 16 position) in
  sql! _ := require ((0 <=? n) && (n <? 4))%Z check_violation in
  sql! _ := require (negb (exists_row (p, i) (post_images T)) &&
                     forallb (fun kv => negb (bool_decide (kv.1.1 = p) && bool_decide (kv.2 = n))) (map_to_list (post_images T)))
              unique_violation in
  sql! _ := require (exists_row p (posts T) && exists_row i (images T)) foreign_key_violation in
  inr (set_post_images (<[(p, i) := n]> (post_images T)) T, tt).

Definition insert_post_tag (postID tagID : string) : statement unit := fun _ _ T =>
  sql! p := coerce (char 26 postID) in
  sql! g := coerce (char 26 tagID) in
  if bool_decide ((p, g) ∈ post_tags T) then inr (T, tt)
  else
    sql! _ := require (exists_row p (posts T) && exists_row g (tags T)) foreign_key_violation in
    inr (set_post_tags ({[(p, g)]} ∪ post_tags T) T, tt).

Definition Create (post : Post.t) (imageIDs tagIDs : list string) : M PG Post.t :=
  WithTx (
    let! p := wrap "insert post" (exec (insert_post post)) in
    for_each (fun x => wrap "attach image" (exec (insert_post_image (Post.ID p) x.2 (Z.of_nat x.1)))) (imap pair imageIDs) ;;;
    for_each (fun tagID => wrap "attach tag" (exec (insert_post_tag (Post.ID p) tagID))) tagIDs ;;;
    ret p).

Definition set_UpdatedAt (now : Time) (p : Post.t) : Post.t :=
  Post.mk (Post.ID p) (Post.UserID p) (Post.Content p) (Post.ParentPostID p) (Post.RootPostID p) (Post.LikesCount p)
    (Post.RepliesCount p) (Post.Visibility p) (Post.CreatedAt p) now (Post.DeletedAt p).

(** UPDATE posts SET [...], updated_at = NOW() WHERE id = $1 AND deleted_at IS NULL *)
Definition update (what id : string) (set : Time -> Post.t -> option Post.t) : M PG unit :=
  wrap what (exec (fun now t T =>
    sql! id := char_arg 26 id in
    sql! (ps, _) := or_fail out_of_range
      (UPDATE (fun p => set_UpdatedAt now <$> set now p) (fun p => of_id id p && live p) (posts T)) in
    inr (set_posts ps T, tt))).

Definition Delete (id : string) : M PG unit :=
  update "delete post" id (fun now p => Some (Post.set_DeletedAt (Some now) p)).

Definition IncrementRepliesCount (postID : string) : M PG unit :=
  update "inc replies_count" postID (fun _ p =>
    n ← int 64 (Post.RepliesCount p + 1); Some (Post.set_RepliesCount n p)).

Definition DecrementRepliesCount (postID : string) : M PG unit :=
  update "dec replies_count" postID (fun _ p =>
    n ← PgUsers.floored 64 (Post.RepliesCount p); Some (Post.set_RepliesCount n p)).

(** likes_count is an INT: 32 bits. *)
Definition IncrementLikesCount (postID : string) : M PG unit :=
  update "inc likes_count" postID (fun _ p =>
    n ← int 32 (Post.LikesCount p + 1); Some (Post.set_LikesCount n p)).

Definition DecrementLikesCount (postID : string) : M PG unit :=
  update "dec likes_count" postID (fun _ p =>
    n ← PgUsers.floored 32 (Post.LikesCount p); Some (Post.set_LikesCount n p)).

(** ON CONFLICT DO NOTHING, for the primary key and for the position. *)
Definition AttachOGP (postID urlHash : string) (position : Z) : M PG unit :=
  wrap "attach ogp" (exec (fun _ _ T =>
    sql! p := coerce (char 26 postID) in
    sql! h := coerce (char 64 urlHash) in
    sql! n := or_fail out_of_range (int 16 position) in
    if exists_row (p, h) (post_ogp T) ||
       existsb (fun kv => bool_decide (kv.1.1 = p) && bool_decide (kv.2 = n)) (map_to_list (post_ogp T))
    then inr (T, tt)
    else
      sql! _ := require (exists_row p (posts T) && exists_row h (ogp_cache T)) foreign_key_violation in
      inr (set_post_ogp (<[(p, h) := n]> (post_ogp T)) T, tt))).

(** *** The listings *)

Definition id_desc : relation Post.t := DESC (by_text (fun p => rtrim (Post.ID p))).

#[export] Instance id_desc_dec : RelDecision id_desc.
Proof. unfold id_desc. apply _. Defined.

(** A nil or empty cursor adds no condition. *)
Definition cursor_arg (cursor : option string) : goerror + option string :=
  match cursor with
  | Some c => if bool_decide (c = "") then inr None else sql! c := char_arg 26 c in inr (Some c)
  | None => inr None
  end.

Definition below (cursor : option string) (p : Post.t) : bool :=
  match cursor with Some c => text_lt (rtrim (Post.ID p)) (rtrim c) | None => true end.

(** [buildPostListQuery] *)
Definition list_query (where_ : Post.t -> bool) (limit : Z) (cursor : option string) (t : nat) (T : Tables)
    : goerror + list Post.t :=
  sql! c := cursor_arg cursor in
  or_fail negative_limit (LIMIT limit (ORDER_BY id_desc
    (SELECT t (fun p => live p && where_ p && below c p) (rows (posts T))))).

(** [scanPostPage], of the rows it reads; its slice is [make_cap]'s. *)
Definition scanPostPage (limit : Z) (found : list Post.t) : list Post.t * string :=
  if (limit <? Z.of_nat (length found))%Z
  then let page := take (Z.to_nat limit) found in (page, match last page with Some p => Post.ID p | None => "" end)
  else (found, "").

Definition top_level (p : Post.t) : bool := bool_decide (Post.ParentPostID p = None).

Definition List (userID cursor : option string) (limit : Z) : M PG (list Post.t * string) :=
  if (limit <=? 0)%Z then ret ([], "")
  else
    let! found := make_cap limit (wrap "list posts" (exec (fun _ t T =>
      sql! author := match userID with
                     | Some u => sql! u := char_arg 26 u in inr (fun p => bool_decide (Post.UserID p = u))
                     | None => inr (fun _ => true)
                     end in
      sql! found := list_query (fun p => top_level p && author p) (wrap64 (limit + 1)) cursor t T in
      inr (T, found)))) in
    ret (scanPostPage limit found).

Definition ListByUserIDs (userIDs : list string) (cursor : option string) (limit : Z) : M PG (list Post.t * string) :=
  if (limit <=? 0)%Z || bool_decide (userIDs = []) then ret ([], "")
  else
    let! found := make_cap limit (wrap "list posts by user ids" (exec (fun _ t T =>
      sql! us := char_args 26 userIDs in
      sql! found := list_query (fun p => top_level p && bool_decide (Post.UserID p ∈ us)) (wrap64 (limit + 1)) cursor t T in
      inr (T, found)))) in
    ret (scanPostPage limit found).

Definition ListReplies (postID : string) (cursor : option string) (limit : Z) : M PG (list Post.t * string) :=
  if (limit <=? 0)%Z then ret ([], "")
  else
    let! found := make_cap limit (wrap "list replies" (exec (fun _ t T =>
      sql! id := char_arg 26 postID in
      sql! found := list_query (fun p => bool_decide (Post.ParentPostID p = Some id)) (wrap64 (limit + 1)) cursor t T in
      inr (T, found)))) in
    ret (scanPostPage limit found).
End ops.
End PgPosts.

#[export] Instance pg_PostRepository `{Postgres} : PostRepository.t PG := {|
  PostRepository.GetByID := PgPosts.GetByID;
  PostRepository.Create := PgPosts.Create;
  PostRepository.Delete := PgPosts.Delete;
  PostRepository.List := PgPosts.List;
  PostRepository.ListByUserIDs := PgPosts.ListByUserIDs;
  PostRepository.ListReplies := PgPosts.ListReplies;
  PostRepository.IncrementRepliesCount := PgPosts.IncrementRepliesCount;
  PostRepository.DecrementRepliesCount := PgPosts.DecrementRepliesCount;
  PostRepository.IncrementLikesCount := PgPosts.IncrementLikesCount;
  PostRepository.DecrementLikesCount := PgPosts.DecrementLikesCount;
  PostRepository.AttachOGP := PgPosts.AttachOGP;
|}.

(** ** like.go *)

Module PgLikes.
Section ops.
Context `{Postgres}.

Definition like : Type := (string * string) * Time.

Definition all (T : Tables) : list like := map_to_list (likes T).

Definition Create (userID postID : string) : M PG bool :=
  wrap "create like" (exec (fun now t T =>
    sql! u := coerce (char 26 userID) in
    sql! p := coerce (char 26 postID) in
    if exists_row (u, p) (likes T) then inr (T, false)
    else
      sql! _ := require (exists_row u (users T) && exists_row p (posts T)) foreign_key_violation in
      inr (set_likes (<[(u, p) := now]> (likes T)) T, true))).

(** The primary key is the whole row but its time. *)
Definition Delete (userID postID : string) : M PG bool :=
  wrap "delete like" (exec (fun _ t T =>
    sql! u := char_arg 26 userID in
    sql! p := char_arg 26 postID in
    inr (set_likes (delete (u, p) (likes T)) T, exists_row (u, p) (likes T)))).

Definition IsLikedBy (userID postID : string) : M PG bool :=
  wrap "is liked by" (exec (fun _ t T =>
    sql! u := char_arg 26 userID in
    sql! p := char_arg 26 postID in
    inr (T, negb (bool_decide (SELECT t (fun l : like => bool_decide (l.1 = (u, p))) (all T) = []))))).

Definition ListLikedPostIDsByUser (userID : string) (postIDs : list string) : M PG (gmap string bool) :=
  if bool_decide (postIDs = []) then ret ∅
  else
    let! found := wrap "list liked post ids" (exec (fun _ t T =>
      sql! u := char_arg 26 userID in
      sql! ps := char_args 26 postIDs in
      inr (T, (fun l : like => l.1.2) <$>
              SELECT t (fun l : like => bool_decide (l.1.1 = u) && bool_decide (l.1.2 ∈ ps)) (all T)))) in
    ret (foldl (fun out id => <[id := true]> out) ∅ found).
End ops.
End PgLikes.

#[export] Instance pg_LikeRepository `{Postgres} : LikeRepository.t PG := {|
  LikeRepository.Create := PgLikes.Create;
  LikeRepository.Delete := PgLikes.Delete;
  LikeRepository.IsLikedBy := PgLikes.IsLikedBy;
  LikeRepository.ListLikedPostIDsByUser := PgLikes.ListLikedPostIDsByUser;
|}.

(** ** image.go *)

Module PgImages.
Section ops.
Context `{Postgres}.

Definition of_id (id : string) (i : Image.t) : bool := bool_decide (Image.ID i = id).
Definition live (i : Image.t) : bool := bool_decide (Image.DeletedAt i = None).

Definition GetByID (id : string) : M PG (option Image.t) :=
  wrap "get image" (exec (fun _ t T =>
    sql! id := char_arg 26 id in
    inr (T, head (SELECT t (fun i => of_id id i && live i) (rows (images T)))))).

Definition newest_first : relation Image.t := THEN (DESC (by_time Image.CreatedAt)) (DESC (by_text Image.ID)).

#[export] Instance newest_first_dec : RelDecision newest_first.
Proof. unfold newest_first. apply _. Defined.

Definition GetByUserID (userID : string) : M PG (list Image.t) :=
  wrap "get images by user" (exec (fun _ t T =>
    sql! u := char_arg 26 userID in
    inr (T, ORDER_BY newest_first (SELECT t (fun i => bool_decide (Image.UserID i = u) && live i) (rows (images T)))))).

(** COALESCE($8, NOW()) *)
Definition inserted (now : Time) (i : Image.t) : Image.t :=
  Image.mk (Image.ID i) (Image.StorageKey i) (Image.FileName i) (Image.MimeType i) (Image.FileSize i) (Image.PublicURL i)
    (Image.UserID i) (if IsZero (Image.CreatedAt i) then now else Image.CreatedAt i) now None.

Definition same_key (key : string) (i : Image.t) : bool := bool_decide (Image.StorageKey i = key).

(** Primary key and UNIQUE (storage_key). *)
Definition Create (image : Image.t) : M PG Image.t :=
  wrap "create image" (exec (fun now t T =>
    sql! row := coerce (images_row (inserted now image)) in
    sql! _ := require (negb (exists_row (Image.ID row) (images T)) &&
                       negb (existsb (same_key (Image.StorageKey row)) (rows (images T)))) unique_violation in
    sql! _ := require (exists_row (Image.UserID row) (users T)) foreign_key_violation in
    inr (set_images (<[Image.ID row := row]> (images T)) T, row))).

Definition deleted (now : Time) (i : Image.t) : Image.t :=
  Image.mk (Image.ID i) (Image.StorageKey i) (Image.FileName i) (Image.MimeType i) (Image.FileSize i) (Image.PublicURL i)
    (Image.UserID i) (Image.CreatedAt i) now (Some now).

Definition Delete (id : string) : M PG unit :=
  wrap "delete image" (exec (fun now t T =>
    sql! id := char_arg 26 id in
    sql! (ims, _) := coerce (UPDATE (fun i => Some (deleted now i)) (fun i => of_id id i && live i) (images T)) in
    inr (set_images ims T, tt))).

(** A row of images i JOIN post_images pi ON pi.image_id = i.id: the image,
    then the columns of post_images. *)
Definition attachment : Type := Image.t * ((string * string) * Z).

Definition attached (T : Tables) : list attachment :=
  JOIN (fun i (pi : (string * string) * Z) => bool_decide (pi.1.2 = Image.ID i)) (rows (images T)) (map_to_list (post_images T)).

Definition post_id (x : attachment) : string := x.2.1.1.
Definition position (x : attachment) : Z := x.2.2.

Definition by_position : relation attachment := by_time position.

#[export] Instance by_position_dec : RelDecision by_position.
Proof. unfold by_position. apply _. Defined.

Definition ListByPostID (postID : string) : M PG (list Image.t) :=
  wrap "list images by post" (exec (fun _ t T =>
    sql! p := char_arg 26 postID in
    inr (T, fst <$> ORDER_BY by_position (SELECT t (fun x => bool_decide (post_id x = p) && live x.1) (attached T))))).

(** ORDER BY pi.post_id, pi.position *)
Definition by_post_position : relation attachment := THEN (by_text (fun x => rtrim (post_id x))) by_position.

#[export] Instance by_post_position_dec : RelDecision by_post_position.
Proof. unfold by_post_position. apply _. Defined.

Definition ListByPostIDs (postIDs : list string) : M PG (gmap string (list Image.t)) :=
  if bool_decide (postIDs = []) then ret ∅
  else
    let! found := wrap "list images by posts" (exec (fun _ t T =>
      sql! ps := char_args 26 postIDs in
      inr (T, ORDER_BY by_post_position
                (SELECT t (fun x => bool_decide (post_id x ∈ ps) && live x.1) (attached T))))) in
    ret (PgBadges.append_rows ((fun x => (post_id x, x.1)) <$> found)).
End ops.
End PgImages.

#[export] Instance pg_ImageRepository `{Postgres} : ImageRepository.t PG := {|
  ImageRepository.GetByID := PgImages.GetByID;
  ImageRepository.GetByUserID := PgImages.GetByUserID;
  ImageRepository.Create := PgImages.Create;
  ImageRepository.Delete := PgImages.Delete;
  ImageRepository.ListByPostID := PgImages.ListByPostID;
  ImageRepository.ListByPostIDs := PgImages.ListByPostIDs;
|}.

(** ** tag.go *)

Module PgTags.
Section ops.
Context `{GoRuntime, Postgres}.

(** The names in order, without the empty one and without repetitions. *)
Fixpoint unique (seen : gset string) (names : list string) : list string :=
  match names with
  | [] => []
  | n :: names =>
      if bool_decide (n = "") || bool_decide (n ∈ seen) then unique seen names
      else n :: unique ({[n]} ∪ seen) names
  end.

Definition named (name : string) (g : Tag.t) : bool := bool_decide (Tag.Name g = name).

(** ON CONFLICT (name) DO UPDATE SET name = EXCLUDED.name RETURNING ...
    The text of an error leaves out the quoted name. *)
Definition upsert (id name : string) : statement Tag.t := fun now t T =>
  sql! row := coerce (tags_row (Tag.mk id name now)) in
  match SELECT t (named (Tag.Name row)) (rows (tags T)) with
  | old :: _ => inr (T, old)
  | [] =>
      sql! _ := require (negb (exists_row (Tag.ID row) (tags T))) unique_violation in
      inr (set_tags (<[Tag.ID row := row]> (tags T)) T, row)
  end.

Fixpoint upsert_all (names : list string) : M PG (list Tag.t) :=
  match names with
  | [] => ret []
  | name :: names =>
      let! proposedID := Runtime.MakeULID in
      let! g := wrap "upsert tag" (exec (upsert proposedID name)) in
      let! gs := upsert_all names in
      ret (g :: gs)
  end.

Definition UpsertByNames (names : list string) : M PG (list Tag.t) := upsert_all (unique ∅ names).

(** tags t JOIN post_tags pt ON pt.tag_id = t.id *)
Definition tagged (T : Tables) : list (Tag.t * (string * string)) :=
  JOIN (fun g (pt : string * string) => bool_decide (pt.2 = Tag.ID g)) (rows (tags T)) (elements (post_tags T)).

Definition by_name : relation (Tag.t * (string * string)) := by_text (fun x => Tag.Name x.1).

#[export] Instance by_name_dec : RelDecision by_name.
Proof. unfold by_name. apply _. Defined.

Definition ListByPostID (postID : string) : M PG (list Tag.t) :=
  wrap "list tags by post" (exec (fun _ t T =>
    sql! p := char_arg 26 postID in
    inr (T, fst <$> ORDER_BY by_name (SELECT t (fun x => bool_decide (x.2.1 = p)) (tagged T))))).

(** Sorted by the Go code, on bytes. *)
Definition ListByPostIDs (postIDs : list string) : M PG (gmap string (list Tag.t)) :=
  if bool_decide (postIDs = []) then ret ∅
  else
    let! found := wrap "list tags by posts" (exec (fun _ t T =>
      sql! ps := char_args 26 postIDs in
      inr (T, SELECT t (fun x => bool_decide (x.2.1 ∈ ps)) (tagged T)))) in
    ret (sort_asc Tag.Name <$> PgBadges.append_rows ((fun x => (x.2.1, x.1)) <$> found)).
End ops.
End PgTags.

#[export] Instance pg_TagRepository `{GoRuntime, Postgres} : TagRepository.t PG := {|
  TagRepository.UpsertByNames := PgTags.UpsertByNames;
  TagRepository.ListByPostID := PgTags.ListByPostID;
  TagRepository.ListByPostIDs := PgTags.ListByPostIDs;
|}.
