(* ===== verification/PgOgp.v ===== *)
(** * Previews and their jobs in PostgreSQL, and the whole backend:
    internal/repository/postgres/ogp_cache.go, ogp_job_queue.go, postgres.go *)

From S2P Require Import Prelude Errors Monad GoStrings Domain Repository PgSql PgSchema PgSocial PgPosts.

Local Open Scope go_scope.

(** ** ogp_cache.go *)

Module PgCache.
Section ops.
Context `{Postgres}.

Definition Get (urlHash : string) : M PG (option OGPPreview.t) :=
  wrap "get ogp cache" (exec (fun _ t T =>
    sql! h := char_arg 64 urlHash in
    inr (T, head (SELECT t (fun p => bool_decide (OGPPreview.URLHash p = h)) (rows (ogp_cache T)))))).

(** COALESCE($8, NOW()) *)
Definition inserted (now : Time) (p : OGPPreview.t) : OGPPreview.t :=
  OGPPreview.mk (OGPPreview.URLHash p) (OGPPreview.URL p) (OGPPreview.Title p) (OGPPreview.Description p)
    (OGPPreview.ImageURL p) (OGPPreview.SiteName p) (OGPPreview.CanonicalURL p)
    (if IsZero (OGPPreview.FetchedAt p) then now else OGPPreview.FetchedAt p)
    (OGPPreview.ExpiresAt p) (OGPPreview.Status p) (OGPPreview.ErrorReason p).

(** ON CONFLICT (url_hash) DO UPDATE replaces every other column. *)
Definition Upsert (preview : option OGPPreview.t) : M PG unit :=
  match preview with
  | None => ret tt
  | Some p =>
      if bool_decide (OGPPreview.URLHash p = "") then ret tt
      else wrap "upsert ogp cache" (exec (fun now t T =>
        sql! row := coerce (ogp_cache_row (inserted now p)) in
        inr (set_ogp_cache (<[OGPPreview.URLHash row := row]> (ogp_cache T)) T, tt)))
  end.

(** A row of ogp_cache c JOIN post_ogp po ON po.url_hash = c.url_hash *)
Definition attachment : Type := OGPPreview.t * ((string * string) * Z).

Definition attached (T : Tables) : list attachment :=
  JOIN (fun c (po : (string * string) * Z) => bool_decide (po.1.2 = OGPPreview.URLHash c))
    (rows (ogp_cache T)) (map_to_list (post_ogp T)).

Definition post_id (x : attachment) : string := x.2.1.1.
Definition position (x : attachment) : Z := x.2.2.

Definition by_post_position : relation attachment := THEN (by_text (fun x => rtrim (post_id x))) (by_time position).

#[export] Instance by_post_position_dec : RelDecision by_post_position.
Proof. unfold by_post_position. apply _. Defined.

Definition ListByPostIDs (postIDs : list string) : M PG (gmap string (list OGPPreview.t)) :=
  if bool_decide (postIDs = []) then ret ∅
  else
    let! found := wrap "list ogp by posts" (exec (fun _ t T =>
      sql! ps := char_args 26 postIDs in
      inr (T, ORDER_BY by_post_position (SELECT t (fun x => bool_decide (post_id x ∈ ps)) (attached T))))) in
    ret (PgBadges.append_rows ((fun x => (post_id x, x.1)) <$> found)).
End ops.
End PgCache.

#[export] Instance pg_OGPCacheRepository `{Postgres} : OGPCacheRepository.t PG := {|
  OGPCacheRepository.Get := PgCache.Get;
  OGPCacheRepository.Upsert := PgCache.Upsert;
  OGPCacheRepository.ListByPostIDs := PgCache.ListByPostIDs;
|}.

(** ** ogp_job_queue.go *)

Module PgQueue.
Section ops.
Context `{Postgres}.

Definition of_id (id : string) (j : OGPJob.t) : bool := bool_decide (OGPJob.ID j = id).

(** A job whose id is taken is dropped. *)
Definition Enqueue (id urlHash url postID : string) (position : Z) : M PG unit :=
  wrap "enqueue ogp job" (exec (fun now t T =>
    sql! row := coerce (ogp_jobs_row (OGPJob.mk id urlHash url postID position now None None OGPJobQueued 0 "")) in
    if exists_row (OGPJob.ID row) (ogp_jobs T) then inr (T, tt)
    else
      sql! _ := require (exists_row (OGPJob.PostID row) (posts T)) foreign_key_violation in
      inr (set_ogp_jobs (<[OGPJob.ID row := row]> (ogp_jobs T)) T, tt))).

Definition queued (j : OGPJob.t) : bool := bool_decide (OGPJob.Status j = OGPJobQueued).

Definition oldest_first : relation OGPJob.t := by_time OGPJob.EnqueuedAt.

#[export] Instance oldest_first_dec : RelDecision oldest_first.
Proof. unfold oldest_first. apply _. Defined.

Definition running (now : Time) (j : OGPJob.t) : option OGPJob.t :=
  attempts ← int 32 (OGPJob.Attempts j + 1);
  Some (OGPJob.mk (OGPJob.ID j) (OGPJob.URLHash j) (OGPJob.URL j) (OGPJob.PostID j) (OGPJob.Position j)
    (OGPJob.EnqueuedAt j) (Some now) (OGPJob.FinishedAt j) OGPJobRunning attempts (OGPJob.LastError j)).

(** WITH next AS (SELECT id ... ORDER BY enqueued_at ASC LIMIT 1 FOR UPDATE
    SKIP LOCKED) UPDATE ...: one statement, so that concurrent claims take
    distinct jobs. *)
Definition Claim : M PG (option OGPJob.t) :=
  wrap "claim ogp job" (exec (fun now t T =>
    match ORDER_BY oldest_first (SELECT t queued (rows (ogp_jobs T))) with
    | [] => inr (T, None)
    | next :: _ =>
        sql! (js, changed) := or_fail out_of_range (UPDATE (running now) (of_id (OGPJob.ID next)) (ogp_jobs T)) in
        inr (set_ogp_jobs js T, head changed)
    end)).

Definition update (what id : string) (set : Time -> OGPJob.t -> option OGPJob.t) : M PG unit :=
  wrap what (exec (fun now t T =>
    sql! id := char_arg 26 id in
    sql! (js, _) := coerce (UPDATE (set now) (of_id id) (ogp_jobs T)) in
    inr (set_ogp_jobs js T, tt))).

Definition MarkDone (jobID : string) : M PG unit :=
  update "mark ogp job done" jobID (fun now j =>
    Some (OGPJob.mk (OGPJob.ID j) (OGPJob.URLHash j) (OGPJob.URL j) (OGPJob.PostID j) (OGPJob.Position j)
      (OGPJob.EnqueuedAt j) (OGPJob.StartedAt j) (Some now) OGPJobDone (OGPJob.Attempts j) (OGPJob.LastError j))).

Definition MarkFailed (jobID reason : string) (retriable : bool) : M PG unit :=
  if retriable
  then update "requeue ogp job" jobID (fun now j =>
    err ← varchar 512 reason;
    Some (OGPJob.mk (OGPJob.ID j) (OGPJob.URLHash j) (OGPJob.URL j) (OGPJob.PostID j) (OGPJob.Position j)
      (OGPJob.EnqueuedAt j) None (OGPJob.FinishedAt j) OGPJobQueued (OGPJob.Attempts j) err))
  else update "fail ogp job" jobID (fun now j =>
    err ← varchar 512 reason;
    Some (OGPJob.mk (OGPJob.ID j) (OGPJob.URLHash j) (OGPJob.URL j) (OGPJob.PostID j) (OGPJob.Position j)
      (OGPJob.EnqueuedAt j) (OGPJob.StartedAt j) (Some now) OGPJobFailed (OGPJob.Attempts j) err)).
End ops.
End PgQueue.

#[export] Instance pg_OGPJobQueue `{Postgres} : OGPJobQueue.t PG := {|
  OGPJobQueue.Enqueue := PgQueue.Enqueue;
  OGPJobQueue.Claim _ := PgQueue.Claim;
  OGPJobQueue.MarkDone := PgQueue.MarkDone;
  OGPJobQueue.MarkFailed := PgQueue.MarkFailed;
|}.
