(* ===== verification/PgSim.v ===== *)
(** * PostgreSQL against the specification of the repositories

    [rel T d]: the tables of the database stand for the logical database
    [d]. They agree but for what an answer does not depend on: the column
    updated_at, which every UPDATE of the SQL bumps, the digits of a time
    below a microsecond, the moment a tag was made (one statement each), and
    the shape of the link tables. [simulates] is
    the claim that a call does to the tables what its specification does to
    [d], or fails and leaves them alone. *)

From S2P Require Import Prelude Errors Monad GoStrings Domain.
From S2P Require Import MemUsers MemPosts MemLikes MemTags MemBadges MemFollows MemOGP Cursor Repository.
From S2P Require Import PgSql PgSchema PgSocial PgPosts PgOgp.

(** ** What is forgotten *)

Class Forget (A : Type) := forget : A -> A.

Definition like {A} `{Forget A} (a b : A) : Prop := forget a = forget b.

#[export] Instance forget_user : Forget User.t := fun u =>
  User.mk (User.Sub u) (User.DisplayNameCached u) (User.DisplayIDCached u) (User.IconURLCached u)
    (usec (User.ProfileRefreshedAt u)) (User.Bio u) (User.BannerURL u) (User.IsAdmin u)
    (User.FollowersCount u) (User.FollowingCount u) (usec (User.CreatedAt u)) time_zero (usec <$> User.DeletedAt u).

#[export] Instance forget_post : Forget Post.t := fun p =>
  Post.mk (Post.ID p) (Post.UserID p) (Post.Content p) (Post.ParentPostID p) (Post.RootPostID p) (Post.LikesCount p)
    (Post.RepliesCount p) (Post.Visibility p) (usec (Post.CreatedAt p)) time_zero (usec <$> Post.DeletedAt p).

#[export] Instance forget_image : Forget Image.t := fun i =>
  Image.mk (Image.ID i) (Image.StorageKey i) (Image.FileName i) (Image.MimeType i) (Image.FileSize i) (Image.PublicURL i)
    (Image.UserID i) (usec (Image.CreatedAt i)) time_zero (usec <$> Image.DeletedAt i).

#[export] Instance forget_badge : Forget Badge.t := fun b =>
  Badge.mk (Badge.ID b) (Badge.Key b) (Badge.Label b) (Badge.Description b) (Badge.IconURL b) (Badge.Color b)
    (Badge.Priority b) (usec (Badge.CreatedAt b)) time_zero.

#[export] Instance forget_grant : Forget UserBadge.t := fun g =>
  UserBadge.mk (UserBadge.UserID g) (UserBadge.BadgeID g) (usec (UserBadge.GrantedAt g)) (UserBadge.GrantedBy g)
    (UserBadge.ExpiresAt g) (UserBadge.Reason g).

#[export] Instance forget_tag : Forget Tag.t := fun g => Tag.mk (Tag.ID g) (Tag.Name g) time_zero.

#[export] Instance forget_preview : Forget OGPPreview.t := fun p =>
  OGPPreview.mk (OGPPreview.URLHash p) (OGPPreview.URL p) (OGPPreview.Title p) (OGPPreview.Description p)
    (OGPPreview.ImageURL p) (OGPPreview.SiteName p) (OGPPreview.CanonicalURL p) (usec (OGPPreview.FetchedAt p))
    (usec (OGPPreview.ExpiresAt p)) (OGPPreview.Status p) (OGPPreview.ErrorReason p).

#[export] Instance forget_follow : Forget Follow.t := id.
#[export] Instance forget_job : Forget OGPJob.t := id.
#[export] Instance forget_unit : Forget unit := id.
#[export] Instance forget_bool : Forget bool := id.
#[export] Instance forget_string : Forget string := id.
#[export] Instance forget_option `{Forget A} : Forget (option A) := fmap forget.
#[export] Instance forget_list `{Forget A} : Forget (list A) := fmap forget.
#[export] Instance forget_map `{Forget A} : Forget (gmap string A) := fmap forget.
#[export] Instance forget_page `{Forget A} : Forget (A * string) := fun x => (forget x.1, x.2).

#[export] Instance like_equiv `{Forget A} : Equivalence (like (A := A)).
Proof. unfold like. split; [by intros a|by intros a b|intros a b c; congruence]. Qed.

(** ** The relation *)

Section rel.
Context `{GoRuntime, Postgres}.

(** The specification reads the clock of the database, and takes the
    identifiers in an order of its own: the SQL mints one for every name it
    looks up. *)
Definition reordered (f : nat -> nat) : GoRuntime := {|
  clock := NOW; ulid_Make n := ulid_Make (f n); go_range := @go_range _; go_range_perm := go_range_perm |}.

Definition sql_runtime : GoRuntime := reordered (fun n => n).

Record rel (T : Tables) (d : DB) : Prop := {
  rel_users : forget <$> PgSchema.users T = forget <$> Repository.users d;
  rel_posts : forget <$> PgSchema.posts T = forget <$> Repository.posts d;
  rel_images : forget <$> PgSchema.images T = forget <$> Repository.images d;
  rel_badges : forget <$> PgSchema.badges T = forget <$> Badges.badges (Repository.badges d);
  rel_grants : forget <$> PgSchema.user_badges T = forget <$> Badges.userBadges (Repository.badges d);
  rel_tags : forget <$> PgSchema.tags T = forget <$> Tags.tags (Repository.tags d);
  rel_ogp : forget <$> PgSchema.ogp_cache T = forget <$> Repository.ogp d;
  rel_follows : PgSchema.follows T = Repository.follows d;
  rel_jobs : PgSchema.ogp_jobs T = Repository.jobs d;
  rel_likes : forall u p, PgSchema.likes T !! (u, p) = Repository.likes d !! u ≫= (.!! p);
  rel_post_images : forall p i n, post_images T !! (p, i) = Some n <->
    (0 <= n)%Z /\ Links.imageIDsByPost p (Repository.links d) !! Z.to_nat n = Some i;
  rel_post_tags : forall p g, (p, g) ∈ post_tags T <-> g ∈ default ∅ (Links.postTags (Repository.links d) !! p);
  rel_tag_names : Tags.wf (Repository.tags d);
  rel_index : Badges.wf (Repository.badges d);
  rel_sorted : Links.wf (Repository.links d);
  rel_post_ogp : forall p h n, post_ogp T !! (p, h) = Some n <-> Links.mkLink h n ∈ Links.ogps p (Repository.links d);
}.

(** The keys of the tables and the ranges of their columns. *)
Record sound (T : Tables) : Prop := {
  key_users : keyed User.Sub (PgSchema.users T);
  key_posts : keyed Post.ID (PgSchema.posts T);
  key_images : keyed Image.ID (PgSchema.images T);
  key_badges : keyed Badge.ID (PgSchema.badges T);
  key_grants : keyed (fun g => (UserBadge.UserID g, UserBadge.BadgeID g)) (PgSchema.user_badges T);
  key_tags : keyed Tag.ID (PgSchema.tags T);
  key_ogp : keyed OGPPreview.URLHash (PgSchema.ogp_cache T);
  key_follows : keyed (fun f => (Follow.FollowerSub f, Follow.FolloweeSub f)) (PgSchema.follows T);
  key_jobs : keyed OGPJob.ID (PgSchema.ogp_jobs T);
  counts_users : forall k u, PgSchema.users T !! k = Some u ->
    (0 <= User.FollowersCount u <= int64_max /\ 0 <= User.FollowingCount u <= int64_max)%Z;
  counts_posts : forall k p, PgSchema.posts T !! k = Some p ->
    (0 <= Post.LikesCount p < 2 ^ 31 /\ 0 <= Post.RepliesCount p <= int64_max)%Z;
  ulid_posts : forall k, is_Some (PgSchema.posts T !! k) -> IsULID k = true;
  ulid_follows : forall k, is_Some (PgSchema.follows T !! k) -> IsULID k.1 = true /\ IsULID k.2 = true;
  fk_images : forall p i, is_Some (post_images T !! (p, i)) -> is_Some (PgSchema.posts T !! p);
  fk_tags : forall p g, (p, g) ∈ post_tags T -> is_Some (PgSchema.posts T !! p);
}.
End rel.

(** ** Calls *)

Inductive call : Type -> Type :=
  | CGetUser (sub : string) : call (option User.t)
  | CUpsertUser (u : User.t) : call User.t
  | CUpdateProfile (sub : string) (req : UpdateUserProfileRequest.t) : call (option User.t)
  | CListUsers (limit offset : Z) : call (list User.t * Z)
  | CListBySubs (subs : list string) : call (gmap string User.t)
  | CDeleteUser (sub : string) : call unit
  | CIncFollowers (sub : string) : call unit
  | CDecFollowers (sub : string) : call unit
  | CIncFollowing (sub : string) : call unit
  | CDecFollowing (sub : string) : call unit
  | CFollow (a b : string) : call bool
  | CUnfollow (a b : string) : call bool
  | CIsFollowing (a b : string) : call bool
  | CFollowingSubs (a : string) : call (list string)
  | CFollowers (sub : string) (cursor : option string) (limit : Z) : call (list Follow.t * string)
  | CFollowing (sub : string) (cursor : option string) (limit : Z) : call (list Follow.t * string)
  | CAreFollowing (viewer : string) (targets : list string) : call (gmap string bool)
  | CGetPost (id : string) : call (option Post.t)
  | CCreatePost (p : Post.t) (imageIDs tagIDs : list string) : call Post.t
  | CDeletePost (id : string) : call unit
  | CListPosts (user cursor : option string) (limit : Z) : call (list Post.t * string)
  | CListByAuthors (users : list string) (cursor : option string) (limit : Z) : call (list Post.t * string)
  | CListReplies (id : string) (cursor : option string) (limit : Z) : call (list Post.t * string)
  | CIncReplies (id : string) : call unit
  | CDecReplies (id : string) : call unit
  | CIncLikes (id : string) : call unit
  | CDecLikes (id : string) : call unit
  | CAttachOGP (p h : string) (n : Z) : call unit
  | CLike (u p : string) : call bool
  | CUnlike (u p : string) : call bool
  | CIsLiked (u p : string) : call bool
  | CLikedPosts (u : string) (ps : list string) : call (gmap string bool)
  | CGetImage (id : string) : call (option Image.t)
  | CCreateImage (i : Image.t) : call Image.t
  | CDeleteImage (id : string) : call unit
  | CUserImages (user : string) : call (list Image.t)
  | CImagesOf (post : string) : call (list Image.t)
  | CImagesOfAll (posts : list string) : call (gmap string (list Image.t))
  | CUpsertTags (names : list string) : call (list Tag.t)
  | CTagsOf (post : string) : call (list Tag.t)
  | CTagsOfAll (posts : list string) : call (gmap string (list Tag.t))
  | CListBadges : call (list Badge.t)
  | CBadgeByKey (key : string) : call (option Badge.t)
  | CGetBadge (id : string) : call (option Badge.t)
  | CCreateBadge (b : Badge.t) : call (option Badge.t)
  | CUpdateBadge (b : Badge.t) : call (option Badge.t)
  | CBadgesOf (user : string) : call (list Badge.t)
  | CBadgesOfAll (users : list string) : call (gmap string (list Badge.t))
  | CGrant (u b g : string) (e : option Time) (why : string) : call unit
  | CRevoke (u b : string) : call unit
  | CGetPreview (h : string) : call (option OGPPreview.t)
  | CUpsertPreview (p : option OGPPreview.t) : call unit
  | CPreviewsOfAll (posts : list string) : call (gmap string (list OGPPreview.t))
  | CEnqueue (id h url p : string) (n : Z) : call unit
  | CClaim : call (option OGPJob.t)
  | CMarkDone (id : string) : call unit
  | CMarkFailed (id why : string) (retriable : bool) : call unit.

Definition run `{GoRuntime, Postgres} {A} (c : call A) : M PG A :=
  match c with
  | CGetUser sub => PgUsers.GetBySub sub
  | CUpsertUser u => PgUsers.Upsert u
  | CUpdateProfile sub req => PgUsers.UpdateProfile sub req
  | CListUsers limit offset => PgUsers.List limit offset
  | CListBySubs subs => PgUsers.ListBySubs subs
  | CDeleteUser sub => PgUsers.Delete sub
  | CIncFollowers sub => PgUsers.IncrementFollowersCount sub
  | CDecFollowers sub => PgUsers.DecrementFollowersCount sub
  | CIncFollowing sub => PgUsers.IncrementFollowingCount sub
  | CDecFollowing sub => PgUsers.DecrementFollowingCount sub
  | CFollow a b => PgFollows.Create a b
  | CUnfollow a b => PgFollows.Delete a b
  | CIsFollowing a b => PgFollows.IsFollowing a b
  | CFollowingSubs a => PgFollows.ListFollowingSubs a
  | CFollowers sub cursor limit => PgFollows.ListFollowers sub cursor limit
  | CFollowing sub cursor limit => PgFollows.ListFollowing sub cursor limit
  | CAreFollowing v ts => PgFollows.AreFollowing v ts
  | CGetPost id => PgPosts.GetByID id
  | CCreatePost p ims ts => PgPosts.Create p ims ts
  | CDeletePost id => PgPosts.Delete id
  | CListPosts user cursor limit => PgPosts.List user cursor limit
  | CListByAuthors us cursor limit => PgPosts.ListByUserIDs us cursor limit
  | CListReplies id cursor limit => PgPosts.ListReplies id cursor limit
  | CIncReplies id => PgPosts.IncrementRepliesCount id
  | CDecReplies id => PgPosts.DecrementRepliesCount id
  | CIncLikes id => PgPosts.IncrementLikesCount id
  | CDecLikes id => PgPosts.DecrementLikesCount id
  | CAttachOGP p h n => PgPosts.AttachOGP p h n
  | CLike u p => PgLikes.Create u p
  | CUnlike u p => PgLikes.Delete u p
  | CIsLiked u p => PgLikes.IsLikedBy u p
  | CLikedPosts u ps => PgLikes.ListLikedPostIDsByUser u ps
  | CGetImage id => PgImages.GetByID id
  | CCreateImage i => PgImages.Create i
  | CDeleteImage id => PgImages.Delete id
  | CUserImages u => PgImages.GetByUserID u
  | CImagesOf p => PgImages.ListByPostID p
  | CImagesOfAll ps => PgImages.ListByPostIDs ps
  | CUpsertTags names => PgTags.UpsertByNames names
  | CTagsOf p => PgTags.ListByPostID p
  | CTagsOfAll ps => PgTags.ListByPostIDs ps
  | CListBadges => PgBadges.ListAll
  | CBadgeByKey key => PgBadges.GetByKey key
  | CGetBadge id => PgBadges.GetByID id
  | CCreateBadge b => PgBadges.Create b
  | CUpdateBadge b => PgBadges.Update b
  | CBadgesOf u => PgBadges.ListByUserID u
  | CBadgesOfAll us => PgBadges.ListByUserIDs us
  | CGrant u b g e why => PgBadges.Grant u b g e why
  | CRevoke u b => PgBadges.Revoke u b
  | CGetPreview h => PgCache.Get h
  | CUpsertPreview p => PgCache.Upsert p
  | CPreviewsOfAll ps => PgCache.ListByPostIDs ps
  | CEnqueue id h url p n => PgQueue.Enqueue id h url p n
  | CClaim => PgQueue.Claim
  | CMarkDone id => PgQueue.MarkDone id
  | CMarkFailed id why r => PgQueue.MarkFailed id why r
  end.

(** What the specification says, read with any runtime. *)
Definition expect {R : GoRuntime} {A} (c : call A) : spec A :=
  match c with
  | CGetUser sub => UserRepository.GetBySub_spec sub
  | CUpsertUser u => UserRepository.Upsert_spec u
  | CUpdateProfile sub req => UserRepository.UpdateProfile_spec sub req
  | CListUsers limit offset => UserRepository.List_spec limit offset
  | CListBySubs subs => UserRepository.ListBySubs_spec subs
  | CDeleteUser sub => UserRepository.Delete_spec sub
  | CIncFollowers sub => UserRepository.IncrementFollowersCount_spec sub
  | CDecFollowers sub => UserRepository.DecrementFollowersCount_spec sub
  | CIncFollowing sub => UserRepository.IncrementFollowingCount_spec sub
  | CDecFollowing sub => UserRepository.DecrementFollowingCount_spec sub
  | CFollow a b => FollowRepository.Create_spec a b
  | CUnfollow a b => FollowRepository.Delete_spec a b
  | CIsFollowing a b => FollowRepository.IsFollowing_spec a b
  | CFollowingSubs a => FollowRepository.ListFollowingSubs_spec a
  | CFollowers sub cursor limit => FollowRepository.ListFollowers_spec sub cursor limit
  | CFollowing sub cursor limit => FollowRepository.ListFollowing_spec sub cursor limit
  | CAreFollowing v ts => FollowRepository.AreFollowing_spec v ts
  | CGetPost id => PostRepository.GetByID_spec id
  | CCreatePost p ims ts => PostRepository.Create_spec p ims ts
  | CDeletePost id => PostRepository.Delete_spec id
  | CListPosts user cursor limit => PostRepository.List_spec user cursor limit
  | CListByAuthors us cursor limit => PostRepository.ListByUserIDs_spec us cursor limit
  | CListReplies id cursor limit => PostRepository.ListReplies_spec id cursor limit
  | CIncReplies id => PostRepository.IncrementRepliesCount_spec id
  | CDecReplies id => PostRepository.DecrementRepliesCount_spec id
  | CIncLikes id => PostRepository.IncrementLikesCount_spec id
  | CDecLikes id => PostRepository.DecrementLikesCount_spec id
  | CAttachOGP p h n => PostRepository.AttachOGP_spec p h n
  | CLike u p => LikeRepository.Create_spec u p
  | CUnlike u p => LikeRepository.Delete_spec u p
  | CIsLiked u p => LikeRepository.IsLikedBy_spec u p
  | CLikedPosts u ps => LikeRepository.ListLikedPostIDsByUser_spec u ps
  | CGetImage id => ImageRepository.GetByID_spec id
  | CCreateImage i => ImageRepository.Create_spec i
  | CDeleteImage id => ImageRepository.Delete_spec id
  | CUserImages u => ImageRepository.GetByUserID_spec u
  | CImagesOf p => ImageRepository.ListByPostID_spec p
  | CImagesOfAll ps => ImageRepository.ListByPostIDs_spec ps
  | CUpsertTags names => TagRepository.UpsertByNames_spec names
  | CTagsOf p => TagRepository.ListByPostID_spec p
  | CTagsOfAll ps => TagRepository.ListByPostIDs_spec ps
  | CListBadges => BadgeRepository.ListAll_spec
  | CBadgeByKey key => BadgeRepository.GetByKey_spec key
  | CGetBadge id => BadgeRepository.GetByID_spec id
  | CCreateBadge b => BadgeRepository.Create_spec b
  | CUpdateBadge b => BadgeRepository.Update_spec b
  | CBadgesOf u => BadgeRepository.ListByUserID_spec u
  | CBadgesOfAll us => BadgeRepository.ListByUserIDs_spec us
  | CGrant u b g e why => BadgeRepository.Grant_spec u b g e why
  | CRevoke u b => BadgeRepository.Revoke_spec u b
  | CGetPreview h => OGPCacheRepository.Get_spec h
  | CUpsertPreview p => OGPCacheRepository.Upsert_spec p
  | CPreviewsOfAll ps => OGPCacheRepository.ListByPostIDs_spec ps
  | CEnqueue id h url p n => OGPJobQueue.Enqueue_spec id h url p n
  | CClaim => OGPJobQueue.Claim_spec
  | CMarkDone id => OGPJobQueue.MarkDone_spec id
  | CMarkFailed id why r => OGPJobQueue.MarkFailed_spec id why r
  end.

(** ** The calls the program makes *)

(** The row fits the columns, and they keep what it says. *)
Definition fits {A} `{Forget A} (f : A -> option A) (a : A) : Prop := exists b, f a = Some b /\ like b a.

(** A text the column stores as it is. *)
Definition exact {A} (f : A -> option A) (a : A) : Prop := f a = Some a.

Definition ulid (s : string) : Prop := IsULID s = true.
Definition ulids (l : list string) : Prop := Forall ulid l.
Definition holds {K V} `{Countable K} (m : gmap K V) (k : K) : Prop := is_Some (m !! k).
Definition every {K V} `{Countable K} (m : gmap K V) (k : K) (P : V -> Prop) : Prop := forall v, m !! k = Some v -> P v.

(** A cursor that was handed out. *)
Definition follow_cursor (c : option string) : Prop :=
  forall ct cp, DecodeFollow c = Some (ct, cp) -> usec ct = ct /\ ulid cp.
Definition post_cursor (c : option string) : Prop := forall s, c = Some s -> ulid s.

(** Identifiers are ULIDs, texts fit their columns, references exist,
    counters have room, a row that is created is new, one that is deleted is
    live, and no two queued jobs have the same age. *)
Definition legal {A} (c : call A) (T : Tables) : Prop :=
  match c with
  | CGetUser sub | CDecFollowers sub | CDecFollowing sub | CFollowingSubs sub => ulid sub
  | CDeleteUser sub => ulid sub /\ every (PgSchema.users T) sub (fun u => User.DeletedAt u = None)
  | CIncFollowers sub => ulid sub /\ every (PgSchema.users T) sub (fun u => User.FollowersCount u < int64_max)%Z
  | CIncFollowing sub => ulid sub /\ every (PgSchema.users T) sub (fun u => User.FollowingCount u < int64_max)%Z
  | CUpsertUser u => ulid (User.Sub u) /\ User.CreatedAt u <> time_zero /\ User.DeletedAt u = None /\
      (0 <= User.FollowersCount u)%Z /\ (0 <= User.FollowingCount u)%Z /\ fits users_row u
  | CUpdateProfile sub req => ulid sub /\ (forall b, UpdateUserProfileRequest.Bio req = Some b -> exact text b) /\
      (forall b, UpdateUserProfileRequest.BannerURL req = Some b -> exact (varchar 1024) b)
  | CListUsers limit offset => (0 <= limit <= 100)%Z /\ (0 <= offset)%Z /\
      (Z.of_nat (size (PgSchema.users T)) <= int64_max - 100)%Z
  | CListBySubs subs | CImagesOfAll subs | CTagsOfAll subs | CBadgesOfAll subs | CPreviewsOfAll subs => ulids subs
  | CFollow a b => ulid a /\ ulid b /\ a <> b /\ holds (PgSchema.users T) a /\ holds (PgSchema.users T) b
  | CUnfollow a b | CIsFollowing a b | CUnlike a b | CIsLiked a b | CRevoke a b => ulid a /\ ulid b
  | CFollowers sub cursor limit | CFollowing sub cursor limit => ulid sub /\ follow_cursor cursor /\ (limit <= 2 ^ 45)%Z
  | CAreFollowing v ts => ulid v /\ ulids ts
  | CGetPost id | CDecReplies id | CDecLikes id | CGetImage id | CGetBadge id | CMarkDone id
  | CUserImages id | CImagesOf id | CTagsOf id | CBadgesOf id => ulid id
  | CListBadges => True
  | CBadgeByKey key => exact text key
  | CCreateBadge b => ulid (Badge.ID b) /\ fits badges_row b /\ PgSchema.badges T !! Badge.ID b = None
  | CUpdateBadge b => ulid (Badge.ID b) /\ fits badges_row b
  | CUpsertTags names => Forall (exact (varchar 64)) names
  | CIncReplies id => ulid id /\ every (PgSchema.posts T) id (fun p => Post.RepliesCount p < int64_max)%Z
  | CIncLikes id => ulid id /\ every (PgSchema.posts T) id (fun p => Post.LikesCount p < 2 ^ 31 - 1)%Z
  | CCreatePost p ims ts => ulid (Post.ID p) /\ Post.Visibility p <> "" /\ Post.DeletedAt p = None /\
      (0 <= Post.LikesCount p)%Z /\ (0 <= Post.RepliesCount p)%Z /\ fits posts_row p /\ posts_content_len p = true /\
      PgSchema.posts T !! Post.ID p = None /\ holds (PgSchema.users T) (Post.UserID p) /\
      (forall q, Post.ParentPostID p = Some q -> holds (PgSchema.posts T) q) /\
      (forall q, Post.RootPostID p = Some q -> holds (PgSchema.posts T) q) /\
      (length ims <= 4)%nat /\ NoDup ims /\ ulids ims /\ Forall (holds (PgSchema.images T)) ims /\
      ulids ts /\ Forall (holds (PgSchema.tags T)) ts
  | CDeletePost id => ulid id /\ every (PgSchema.posts T) id (fun p => Post.DeletedAt p = None)
  | CListPosts user cursor limit => (forall u, user = Some u -> ulid u) /\ post_cursor cursor /\ (limit <= 2 ^ 45)%Z
  | CListByAuthors us cursor limit => ulids us /\ post_cursor cursor /\ (limit <= 2 ^ 45)%Z
  | CListReplies id cursor limit => ulid id /\ post_cursor cursor /\ (limit <= 2 ^ 45)%Z
  | CAttachOGP p h n => ulid p /\ exact (char 64) h /\ exact (int 16) n /\
      holds (PgSchema.posts T) p /\ holds (PgSchema.ogp_cache T) h
  | CLike u p => ulid u /\ ulid p /\ holds (PgSchema.users T) u /\ holds (PgSchema.posts T) p
  | CLikedPosts u ps => ulid u /\ ulids ps
  | CCreateImage i => ulid (Image.ID i) /\ Image.CreatedAt i = time_zero /\ Image.DeletedAt i = None /\ fits images_row i /\
      PgSchema.images T !! Image.ID i = None /\ holds (PgSchema.users T) (Image.UserID i) /\
      (forall id j, PgSchema.images T !! id = Some j -> Image.StorageKey j <> Image.StorageKey i)
  | CDeleteImage id => ulid id /\ every (PgSchema.images T) id (fun i => Image.DeletedAt i = None)
  | CGrant u b g e why => ulid u /\ ulid b /\ ulid g /\ usec <$> e = e /\ exact (varchar 255) why /\
      holds (PgSchema.users T) u /\ holds (PgSchema.badges T) b
  | CGetPreview h => exact (char 64) h
  | CUpsertPreview p => forall v, p = Some v -> OGPPreview.FetchedAt v <> time_zero /\ fits ogp_cache_row v
  | CEnqueue id h url p n => ulid id /\ exact (char 64) h /\ exact (varchar 2048) url /\ ulid p /\ exact (int 16) n /\
      holds (PgSchema.posts T) p
  | CClaim =>
      (forall i j x y, PgSchema.ogp_jobs T !! i = Some x -> PgSchema.ogp_jobs T !! j = Some y ->
         PgQueue.queued x = true -> PgQueue.queued y = true -> OGPJob.EnqueuedAt x = OGPJob.EnqueuedAt y -> i = j) /\
      (forall i x, PgSchema.ogp_jobs T !! i = Some x -> - 2 ^ 31 <= OGPJob.Attempts x < 2 ^ 31 - 1)%Z
  | CMarkFailed id why _ => ulid id /\ exact (varchar 512) why
  end.

(** The identifiers a call mints are ULIDs no row has. *)
Definition mints `{GoRuntime} {A} (c : call A) (s : PG) : Prop :=
  match c with
  | CUpsertTags names => forall i j, (minted s <= i < j)%nat -> (j <= minted s + length names)%nat ->
      ulid (ulid_Make i) /\ ulid_Make i <> ulid_Make j /\ PgSchema.tags (tables s) !! ulid_Make i = None
  | _ => True
  end.

(** What the answers have in common: all that is not forgotten, but for the
    order of the listings the specification leaves open and of the texts the
    database compares by its collation. *)
Definition similar {A} (c : call A) : A -> A -> Prop :=
  match c with
  | CListUsers _ _ => fun a b => a.2 = b.2 /\ length a.1 = length b.1
  | CFollowingSubs _ => fun a b => a ≡ₚ b
  | CUserImages _ => fun a b => forget <$> a ≡ₚ forget <$> b
  | CTagsOf _ => fun a b => forget <$> a ≡ₚ forget <$> b
  | CListBadges => fun a b => forget <$> a ≡ₚ forget <$> b
  | CBadgesOf _ => fun a b => forget <$> a ≡ₚ forget <$> b
  | CBadgesOfAll _ => fun a b => forall k, forget <$> default [] (a !! k) ≡ₚ forget <$> default [] (b !! k)
  | CGetUser _ | CUpdateProfile _ _ => like
  | CUpsertUser _ => like
  | CListBySubs _ => like
  | CDeleteUser _ | CIncFollowers _ | CDecFollowers _ | CIncFollowing _ | CDecFollowing _ | CDeletePost _ | CIncReplies _
  | CDecReplies _ | CIncLikes _ | CDecLikes _ | CAttachOGP _ _ _ | CDeleteImage _ | CGrant _ _ _ _ _ | CRevoke _ _
  | CUpsertPreview _ | CEnqueue _ _ _ _ _ | CMarkDone _ | CMarkFailed _ _ _ => eq
  | CFollow _ _ | CUnfollow _ _ | CIsFollowing _ _ | CLike _ _ | CUnlike _ _ | CIsLiked _ _ => eq
  | CFollowers _ _ _ | CFollowing _ _ _ => eq
  | CAreFollowing _ _ | CLikedPosts _ _ => eq
  | CGetPost _ => like
  | CCreatePost _ _ _ => like
  | CListPosts _ _ _ | CListByAuthors _ _ _ | CListReplies _ _ _ => like
  | CGetImage _ => like
  | CCreateImage _ => like
  | CImagesOf _ => like
  | CImagesOfAll _ => like
  | CUpsertTags _ => like
  | CTagsOfAll _ => like
  | CBadgeByKey _ | CGetBadge _ | CCreateBadge _ | CUpdateBadge _ => like
  | CGetPreview _ => like
  | CPreviewsOfAll _ => like
  | CClaim => eq
  end.

Definition related (T : Tables) (d : DB) : Prop := rel T d /\ sound T.

Section simulates.
Context `{R : GoRuntime, Postgres}.

(** A call outside a transaction, on a connection that holds: it ends with
    the answer of the specification, in tables that stand for what the
    specification makes of [d]. *)
Definition connected (s : PG) : Prop := tx s = None /\ forall n, pg_tick s <= n -> link n = Carried.

Definition agrees {A} (G : GoRuntime) (c : call A) (s : PG) (d : DB) : Prop :=
  exists s' a d' b,
    @run R _ _ c s = (s', Ok a) /\ expect (R := G) c (pg_tick s) d = (d', Ok b) /\
    similar c a b /\ related (tables s') d' /\ connected s'.

Definition simulates {A} (c : call A) : Prop := forall s d,
  connected s -> related (tables s) d -> legal c (tables s) -> mints c s ->
  exists f, (forall i j, Repository.ulids d <= i < j -> f i < f j)%nat /\ agrees (reordered f) c s d.

Lemma simulates_id {A} (c : call A) :
  (forall s d, connected s -> related (tables s) d -> legal c (tables s) -> agrees sql_runtime c s d) -> simulates c.
Proof. intros Hc s d Hs Hd Hl _. exists (fun n => n). split; [lia|]. by apply Hc. Qed.

(** The same of one statement. *)
Definition refines {A} (q : statement A) (c : call A) : Prop := forall n T d,
  related T d -> legal c T ->
  exists T' a d' b,
    q (NOW n) n T = inr (T', a) /\ expect (R := sql_runtime) c n d = (d', Ok b) /\
    similar c a b /\ related T' d'.

Lemma exec_ok {A} what (q : statement A) s T a :
  connected s -> q (NOW (pg_tick s)) (pg_tick s) (tables s) = inr (T, a) ->
  wrap what (exec q) s = (set_tables T (advance s), Ok a).
Proof. intros [Htx Hb] Hq. unfold wrap, map_err, exec. rewrite Htx, Hb by done. cbn. by rewrite Hq. Qed.

Lemma make_cap_ok {A} limit (m : M PG A) s : connected s -> (limit <= 2 ^ 45)%Z -> make_cap limit m s = m s.
Proof. intros [_ Hb] Hl. unfold make_cap. rewrite Hb by done. destruct (m s) as [s' r]. by rewrite (proj2 (Z.ltb_ge _ _)). Qed.

Lemma connected_advance T s : connected s -> connected (set_tables T (advance s)).
Proof. intros [Htx Hb]. split; [done|]. cbn. intros n Hn. apply Hb. lia. Qed.

Lemma refines_simulates {A} what (q : statement A) (c : call A) :
  (forall s, legal c (tables s) -> run c s = wrap what (exec q) s) -> refines q c -> simulates c.
Proof.
  intros Hr Hq. apply simulates_id. intros s d Hc Hrel Hl. destruct (Hq (pg_tick s) (tables s) d Hrel Hl) as (T & a & d' & b & E & He & Hs & Hrel').
  unfold agrees. rewrite (Hr s Hl). exists (set_tables T (advance s)), a, d', b. split; [by apply exec_ok|].
  split; [done|]. split; [done|]. split; [done|]. by apply connected_advance.
Qed.
End simulates.

(** ** Facts about what is forgotten *)

Lemma usec_usec t : usec (usec t) = usec t.
Proof. unfold usec. lia_div. Qed.

Lemma usec_fmap_usec (t : option Time) : usec <$> (usec <$> t) = usec <$> t.
Proof. destruct t; cbn; by rewrite ?usec_usec. Qed.

Lemma usec_NOW `{PostgresLaws} n : usec (NOW n) = NOW n.
Proof. unfold usec. rewrite NOW_usec. lia. Qed.

(** Equal normal forms, field by field. *)
Ltac unlike := repeat match goal with
  | H : like _ _ |- _ => unfold like, forget in H; cbv beta delta [forget_user forget_post forget_image forget_badge
      forget_grant forget_tag forget_preview forget_follow forget_job forget_unit forget_bool forget_string] in H;
      progress (injection H as; simplify_eq)
  end.

(** And back. *)
Ltac relike := unfold like, forget; cbv beta delta [forget_user forget_post forget_image forget_badge
    forget_grant forget_tag forget_preview forget_follow forget_job forget_unit forget_bool forget_string];
  cbn; rewrite ?usec_usec; f_equal; first [assumption|symmetry; assumption|congruence].

Section forget.
Context {K A : Type} `{Countable K} `{Forget A}.
Implicit Types (m : gmap K A) (x y : A) (l : list A).

Lemma like_lookup m m' k : forget <$> m = forget <$> m' ->
  (exists x y, m !! k = Some x /\ m' !! k = Some y /\ like x y) \/ (m !! k = None /\ m' !! k = None).
Proof.
  intros E. assert (Ek : forget <$> m !! k = forget <$> m' !! k) by (by rewrite <- !lookup_fmap, E).
  destruct (m !! k) as [x|], (m' !! k) as [y|]; try done; [|by right].
  left. exists x, y. injection Ek as Ek. done.
Qed.

Lemma like_insert m m' k x y : forget <$> m = forget <$> m' -> like x y -> forget <$> <[k := x]> m = forget <$> <[k := y]> m'.
Proof. intros E Hxy. rewrite !fmap_insert, E. by f_equal. Qed.

Lemma like_delete m m' k : forget <$> m = forget <$> m' -> forget <$> delete k m = forget <$> delete k m'.
Proof. intros E. by rewrite !fmap_delete, E. Qed.

Lemma like_option (x y : option A) : forget <$> x = forget <$> y -> like x y.
Proof. done. Qed.

Lemma like_Some x y : like x y -> like (Some x) (Some y).
Proof. intros Hxy. unfold like, forget, forget_option. cbn. by f_equal. Qed.
End forget.

(** ** Replacing one table *)

Lemma set_tables_id s : set_tables (tables s) (advance s) = advance s.
Proof. by destruct s. Qed.

Section replace.
Implicit Types (T : Tables) (d : DB).

#[local] Ltac replace_table :=
  intros [[] []] **; split; split; try done; cbn; try done.

Lemma related_users T d us xs :
  related T d -> forget <$> us = forget <$> xs -> keyed User.Sub us ->
  (forall k u, us !! k = Some u -> (0 <= User.FollowersCount u <= int64_max /\ 0 <= User.FollowingCount u <= int64_max)%Z) ->
  related (set_users us T) (with_users xs d).
Proof. replace_table. Qed.

Lemma related_user T d k u x :
  related T d -> like u x -> User.Sub u = k ->
  (0 <= User.FollowersCount u <= int64_max /\ 0 <= User.FollowingCount u <= int64_max)%Z ->
  related (set_users (<[k := u]> (PgSchema.users T)) T) (with_users (<[k := x]> (Repository.users d)) d).
Proof.
  intros Hrel Hux Hk Hc. apply related_users; [done| | |].
  - apply like_insert; [apply Hrel|done].
  - apply keyed_put_at; [apply Hrel|done].
  - intros k' u'. rewrite lookup_insert_Some. intros [[_ <-]|[_ Hu]]; [done|]. by apply (counts_users T (proj2 Hrel) k').
Qed.

Lemma related_posts T d ps xs :
  related T d -> forget <$> ps = forget <$> xs -> keyed Post.ID ps ->
  (forall k p, ps !! k = Some p -> (0 <= Post.LikesCount p < 2 ^ 31 /\ 0 <= Post.RepliesCount p <= int64_max)%Z) ->
  (forall k, is_Some (ps !! k) -> IsULID k = true) ->
  (forall k, is_Some (PgSchema.posts T !! k) -> is_Some (ps !! k)) ->
  related (set_posts ps T) (with_posts xs d).
Proof. replace_table; eauto. Qed.

Lemma related_post T d k p x :
  related T d -> like p x -> Post.ID p = k -> IsULID k = true ->
  (0 <= Post.LikesCount p < 2 ^ 31 /\ 0 <= Post.RepliesCount p <= int64_max)%Z ->
  related (set_posts (<[k := p]> (PgSchema.posts T)) T) (with_posts (<[k := x]> (Repository.posts d)) d).
Proof.
  intros Hrel Hpx Hk Hu Hc. apply related_posts; [done| | | | |].
  - apply like_insert; [apply Hrel|done].
  - apply keyed_put_at; [apply Hrel|done].
  - intros k' p'. rewrite lookup_insert_Some. intros [[_ <-]|[_ Hp]]; [done|]. by apply (counts_posts T (proj2 Hrel) k').
  - intros k'. destruct (decide (k = k')) as [->|Hne]; [done|]. rewrite lookup_insert_ne by done. apply Hrel.
  - intros k'. destruct (decide (k = k')) as [->|Hne]; [by rewrite lookup_insert_eq|by rewrite lookup_insert_ne].
Qed.

Lemma related_image T d k i x :
  related T d -> like i x -> Image.ID i = k ->
  related (set_images (<[k := i]> (PgSchema.images T)) T) (with_images (<[k := x]> (Repository.images d)) d).
Proof.
  intros Hrel Hix Hk. assert (keyed Image.ID (<[k := i]> (PgSchema.images T))) by (apply keyed_put_at; [apply Hrel|done]).
  assert (forget <$> <[k := i]> (PgSchema.images T) = forget <$> <[k := x]> (Repository.images d))
    by (apply like_insert; [apply Hrel|done]).
  revert Hrel. replace_table.
Qed.

Lemma related_follows T d fs :
  related T d -> keyed (fun f => (Follow.FollowerSub f, Follow.FolloweeSub f)) fs ->
  (forall k, is_Some (fs !! k) -> IsULID k.1 = true /\ IsULID k.2 = true) ->
  related (set_follows fs T) (with_follows fs d).
Proof. replace_table. Qed.

Lemma related_likes T d ls xs :
  related T d -> (forall u p, ls !! (u, p) = xs !! u ≫= (.!! p)) -> related (set_likes ls T) (with_likes xs d).
Proof. replace_table. Qed.

Lemma related_grants T d gs xs :
  related T d -> keyed (fun g => (UserBadge.UserID g, UserBadge.BadgeID g)) gs ->
  forget <$> gs = forget <$> Badges.userBadges xs ->
  Badges.badges xs = Badges.badges (Repository.badges d) -> Badges.byKey xs = Badges.byKey (Repository.badges d) ->
  related (set_user_badges gs T) (with_badges xs d).
Proof.
  intros [[] []] Hk Hf Hb Hi. split; split; try done; cbn; try done; [by rewrite Hb|].
  unfold Badges.wf. by rewrite Hb, Hi.
Qed.

Lemma related_badges T d bs xs :
  related T d -> keyed Badge.ID bs -> forget <$> bs = forget <$> Badges.badges xs ->
  Badges.userBadges xs = Badges.userBadges (Repository.badges d) -> Badges.wf xs ->
  related (set_badges bs T) (with_badges xs d).
Proof. intros [[] []] Hk Hf Hu Hi. split; split; try done; cbn; try done. by rewrite Hu. Qed.

Lemma related_preview T d k p x :
  related T d -> like p x -> OGPPreview.URLHash p = k ->
  related (set_ogp_cache (<[k := p]> (PgSchema.ogp_cache T)) T) (with_ogp (<[k := x]> (Repository.ogp d)) d).
Proof.
  intros Hrel Hpx Hk.
  assert (keyed OGPPreview.URLHash (<[k := p]> (PgSchema.ogp_cache T))) by (apply keyed_put_at; [apply Hrel|done]).
  assert (forget <$> <[k := p]> (PgSchema.ogp_cache T) = forget <$> <[k := x]> (Repository.ogp d))
    by (apply like_insert; [apply Hrel|done]).
  revert Hrel. replace_table.
Qed.

Lemma related_jobs T d js : related T d -> keyed OGPJob.ID js -> related (set_ogp_jobs js T) (with_jobs js d).
Proof. replace_table. Qed.
End replace.

(** ** Arguments and columns *)

Lemma encoded_crockford s : string_forallb crockford s = true -> forall fuel, utf8_fuel fuel s = true.
Proof.
  induction s as [|a s IH]; cbn; [by intros _ []|]. intros [Ha Hs]%andb_true_iff [|fuel]; [done|].
  destruct (crockford_ascii a Ha) as [Hlt Hnz]. cbn [utf8_fuel]. rewrite Hlt, Hnz. cbn [negb andb orb].
  unfold rune_size. rewrite Hlt. by apply IH.
Qed.

Lemma encoded_ulid s : ulid s -> encoded s = true.
Proof. intros [_ Hc]%IsULID_inv. by apply encoded_crockford. Qed.

Lemma char_ulid s : ulid s -> char 26 s = Some s.
Proof.
  intros Hs. unfold char. rewrite encoded_ulid, bpchar_ulid by done. pose proof (IsULID_inv s Hs) as [Hl Hc].
  rewrite rtrim_ulid by done. rewrite RuneCountInString_ascii by (by apply ulid_ascii). by rewrite Hl.
Qed.

Lemma char_arg_ulid s : ulid s -> char_arg 26 s = inr s.
Proof. intros Hs. unfold char_arg. by rewrite encoded_ulid, bpchar_ulid. Qed.

Lemma char_args_ulid l : ulids l -> char_args 26 l = inr l.
Proof.
  intros Hl. unfold char_args. assert (forallb encoded l = true) as ->.
  { rewrite forallb_forall. intros s Hs. apply encoded_ulid. unfold ulids in Hl. rewrite Forall_forall in Hl.
    by apply Hl, list_elem_of_In. }
  f_equal. induction Hl as [|s l Hs Hl IH]; cbn; [done|]. by rewrite IH, bpchar_ulid.
Qed.

Lemma rtrim_of_ulid s : ulid s -> rtrim s = s.
Proof. intros [_ Hc]%IsULID_inv. by apply rtrim_ulid. Qed.

Lemma char_exact n s : exact (char n) s -> char_arg n s = inr s.
Proof. unfold exact, char, char_arg. destruct (encoded s); cbn; [|done]. case_match; [|done]. by intros [= ->]. Qed.

Lemma encoded_text s : exact text s -> encoded s = true.
Proof. unfold exact, text. by case_match. Qed.

Lemma encoded_varchar n s : exact (varchar n) s -> encoded s = true.
Proof. unfold exact, varchar. by destruct (encoded s). Qed.

Lemma int_range_iff w z : int_range w z = true <-> (- 2 ^ (w - 1) <= z < 2 ^ (w - 1))%Z.
Proof. unfold int_range. rewrite andb_true_iff, Z.leb_le, Z.ltb_lt. done. Qed.

Lemma int_Some w z z' : int w z = Some z' -> z' = z /\ (- 2 ^ (w - 1) <= z < 2 ^ (w - 1))%Z.
Proof. unfold int. destruct (int_range w z) eqn:E; [|done]. apply int_range_iff in E. by intros [= <-]. Qed.

Lemma int_ok w z : (- 2 ^ (w - 1) <= z < 2 ^ (w - 1))%Z -> int w z = Some z.
Proof. intros Hz. unfold int. by rewrite (proj2 (int_range_iff w z)). Qed.

Lemma exists_row_holds {K V} `{Countable K} (m : gmap K V) k : holds m k -> exists_row k m = true.
Proof. intros Hk. by apply bool_decide_eq_true. Qed.

Lemma exists_row_eq {K V} `{Countable K} (m : gmap K V) k : exists_row k m = if m !! k is Some _ then true else false.
Proof. unfold exists_row. destruct (m !! k); [by rewrite bool_decide_eq_true_2|]. apply bool_decide_eq_false_2. by intros []. Qed.

(** ** Listings *)

Lemma filter_bool {A} (w : A -> bool) (P : A -> Prop) `{!forall x, Decision (P x)} l :
  (forall x, w x = true <-> P x) -> List.filter w l = filter P l.
Proof.
  intros Hw. induction l as [|x l IH]; [done|]. cbn [List.filter]. rewrite filter_cons, <- IH.
  destruct (w x) eqn:E, (decide (P x)) as [HP|HP]; try done; apply Hw in HP || (exfalso; apply HP, Hw); congruence.
Qed.

Section listings.
Context {K A : Type} `{Countable K} `{F : Forget A}.
Implicit Types (m : gmap K A) (l : list A).

Lemma rows_like m m' : forget <$> m = forget <$> m' -> forget <$> rows m ≡ₚ forget <$> rows m'.
Proof.
  intros E. unfold rows.
  assert (Hr : forall x : gmap K A, forget <$> (map_to_list x).*2 ≡ₚ (map_to_list (forget <$> x)).*2).
  { intros x. rewrite map_to_list_fmap, <- !list_fmap_compose. apply reflexive_eq. by apply list_fmap_ext. }
  by rewrite Hr, E, <- Hr.
Qed.

Lemma filter_like (w : A -> bool) (P : A -> Prop) `{!forall x, Decision (P x)} l l' :
  forget <$> l ≡ₚ forget <$> l' -> (forall x y, x ∈ l -> y ∈ l' -> like x y -> w x = true <-> P y) ->
  forget <$> List.filter w l ≡ₚ forget <$> filter P l'.
Proof.
  intros Hp Hw. apply Permutation_map_inv in Hp as (l'' & E & Hp).
  rewrite (filter_perm P l' l'' Hp). assert (Hw' : forall x y, x ∈ l -> y ∈ l'' -> like x y -> w x = true <-> P y).
  { intros x y Hx Hy. rewrite <- Hp in Hy. by apply Hw. }
  clear Hp Hw l'. apply reflexive_eq. revert l'' E Hw'.
  induction l as [|x l IH]; intros [|y l'] E Hw; try done. injection E as Exy E.
  cbn [List.filter]. rewrite filter_cons. assert (Hxy := Hw x y ltac:(left) ltac:(left) Exy).
  assert (forget <$> List.filter w l = forget <$> filter P l') as IH'.
  { apply IH; [done|]. intros a b Ha Hb. apply Hw; by right. }
  destruct (decide (P y)) as [HP|HP].
  - rewrite (proj2 Hxy HP), !fmap_cons, IH'. by f_equal.
  - destruct (w x); [|exact IH']. exfalso. by apply HP, Hxy.
Qed.

Lemma SELECT_like `{Postgres, GoRuntime} (w : A -> bool) (P : A -> Prop) `{!forall x, Decision (P x)} t n m m' :
  forget <$> m = forget <$> m' -> (forall x y k, m !! k = Some x -> like x y -> w x = true <-> P y) ->
  forget <$> SELECT t w (rows m) ≡ₚ forget <$> filter P (range_map n m').*2.
Proof.
  intros E Hw. rewrite SELECT_perm. apply filter_like.
  - rewrite rows_like by done. unfold rows, range_map. by rewrite go_range_perm.
  - intros x y [k Hk]%elem_of_rows _. by eapply Hw.
Qed.

(** Sorting by what is not forgotten. *)
Lemma sort_like (R1 R2 : relation A) `{!RelDecision R1, !Transitive R1, !Total R1}
    `{!RelDecision R2, !Transitive R2, !Total R2} l1 l2 :
  forget <$> l1 ≡ₚ forget <$> l2 ->
  (forall x y, R2 (forget x) (forget y) <-> R2 x y) ->
  (forall x y, x ∈ l1 -> y ∈ l1 -> R1 x y -> R2 x y) ->
  (forall x y, x ∈ l2 -> y ∈ l2 -> R2 x y -> R2 y x -> like x y) ->
  forget <$> merge_sort R1 l1 = forget <$> merge_sort R2 l2.
Proof.
  intros Hp Hf HR Hanti. apply (StronglySorted_unique_strong R2).
  - intros x y Hx Hy. rewrite merge_sort_Permutation, Hp in Hx. rewrite merge_sort_Permutation in Hy.
    apply list_elem_of_fmap in Hx as (x' & -> & Hx), Hy as (y' & -> & Hy). rewrite !Hf. by apply Hanti.
  - pose proof (StronglySorted_merge_sort R1 l1) as Hs.
    assert (Hel : forall x, x ∈ merge_sort R1 l1 -> x ∈ l1) by (intros x; by rewrite merge_sort_Permutation).
    revert Hel. induction Hs as [|x l Hs IH Hall]; intros Hel; [constructor|]. rewrite fmap_cons. constructor.
    + apply IH. intros y Hy. apply Hel. by right.
    + rewrite Forall_forall in Hall |- *. intros y (y' & -> & Hy)%list_elem_of_fmap. rewrite Hf.
      apply HR; [apply Hel; left|apply Hel; by right|by apply Hall].
  - pose proof (StronglySorted_merge_sort R2 l2) as Hs.
    induction Hs as [|x l Hs IH Hall]; [constructor|]. rewrite fmap_cons. constructor; [done|].
    rewrite Forall_forall in Hall |- *. intros y (y' & -> & Hy)%list_elem_of_fmap. rewrite Hf. by apply Hall.
  - by rewrite !merge_sort_Permutation.
Qed.
End listings.

(** Building a map from the rows of an answer. *)
Lemma collect_rows {A V} (key : A -> string) (v : A -> V) l k x :
  (forall a b, a ∈ l -> b ∈ l -> key a = key b -> v a = v b) ->
  foldl (fun out a => <[key a := v a]> out) (∅ : gmap string V) l !! k = Some x <->
  exists a, a ∈ l /\ key a = k /\ v a = x.
Proof.
  intros Hinj. revert k x. induction l as [|a l IH] using rev_ind; intros k x; cbn.
  { rewrite lookup_empty. split; [done|]. by intros (a & ?%elem_of_nil & _). }
  rewrite foldl_app. cbn. rewrite lookup_insert_Some, IH by (intros; apply Hinj; set_solver). split.
  - intros [[<- <-]|[Hne (b & Hb & <- & <-)]]; [exists a|exists b]; set_solver.
  - intros (b & Hb & <- & <-). destruct (decide (key a = key b)) as [E|E].
    + left. split; [done|]. apply Hinj; set_solver.
    + right. split; [done|]. exists b. set_solver.
Qed.

(** ULIDs are compared as bytes by every collation. *)
Section collation.
Context `{PostgresLaws}.

Lemma text_le_iff a b : ulid a -> ulid b -> text_le (rtrim a) (rtrim b) <-> String.le a b.
Proof. intros Ha Hb. rewrite !rtrim_of_ulid by done. by apply text_le_ulid. Qed.

Lemma text_lt_iff a b : ulid a -> ulid b -> text_lt (rtrim a) (rtrim b) = str_lt a b.
Proof.
  intros Ha Hb. unfold text_lt, str_lt. destruct (String.ltb a b) eqn:E; [|apply str_not_lt_le in E].
  - rewrite bool_decide_eq_false_2; [done|]. rewrite text_le_iff by done. intros Hle%str_not_lt_le. congruence.
  - by rewrite bool_decide_eq_true_2 by (by apply text_le_iff).
Qed.
End collation.

(** ** Answers assembled from a join *)

Lemma omap_like {A B} `{Forget A, Forget B} (f g : A -> option B) l l' :
  forget <$> l ≡ₚ forget <$> l' -> (forall x y, x ∈ l -> y ∈ l' -> like x y -> forget <$> f x = forget <$> g y) ->
  forget <$> omap f l ≡ₚ forget <$> omap g l'.
Proof.
  intros Hp Hf. apply Permutation_map_inv in Hp as (l'' & E & Hp).
  assert (Hf' : forall x y, x ∈ l -> y ∈ l'' -> like x y -> forget <$> f x = forget <$> g y).
  { intros x y Hx Hy. rewrite <- Hp in Hy. by apply Hf. }
  rewrite Hp. clear Hp Hf l'. apply reflexive_eq. revert l'' E Hf'.
  induction l as [|x l IH]; intros [|y l'] E Hf; try done. injection E as Exy E.
  cbn [omap list_omap]. pose proof (Hf x y ltac:(left) ltac:(left) Exy) as Hxy.
  specialize (IH l' E (fun a b Ha Hb => Hf a b ltac:(by right) ltac:(by right))).
  destruct (f x), (g y); try done. rewrite !fmap_cons. injection Hxy as ->. by f_equal.
Qed.

Lemma omap_rows {K A B} `{Countable K} (m : gmap K A) (f : K * A -> option B) (g : A -> option B) :
  (forall k x, m !! k = Some x -> f (k, x) = g x) -> omap f (map_to_list m) = omap g (rows m).
Proof.
  intros Hf. unfold rows.
  assert (Hall : forall kv, kv ∈ map_to_list m -> f kv = g kv.2) by (intros [k x] Hx%elem_of_map_to_list; by apply Hf).
  induction (map_to_list m) as [|kv l IH]; [done|]. cbn [omap list_omap fmap list_fmap].
  rewrite (Hall kv) by left. rewrite IH by (intros; apply Hall; by right). done.
Qed.

Lemma append_rows_lookup {V} (l : list (string * V)) k :
  PgBadges.append_rows l !! k =
    let vs := (filter (fun kv => kv.1 = k) l).*2 in if bool_decide (vs = []) then None else Some vs.
Proof.
  unfold PgBadges.append_rows. induction l as [|[k' v] l IH] using rev_ind; [done|].
  rewrite foldl_app, filter_app, fmap_app. cbn [foldl fst snd]. rewrite filter_cons, filter_nil. cbn [fst].
  destruct (decide (k' = k)) as [->|Hne].
  - rewrite lookup_insert_eq, IH. cbn zeta. cbn [fmap list_fmap].
    rewrite (bool_decide_eq_false_2 (_ ++ _ = [])) by (intros [_ ?]%app_nil; done).
    case_bool_decide as E; cbn [default from_option]; by rewrite ?E.
  - rewrite lookup_insert_ne by done. rewrite IH. by rewrite app_nil_r.
Qed.

Lemma append_rows_default {V} (l : list (string * V)) k :
  default [] (PgBadges.append_rows l !! k) = (filter (fun kv => kv.1 = k) l).*2.
Proof. rewrite append_rows_lookup. cbn zeta. by case_bool_decide as E. Qed.

(** The rows of an answer, grouped by a column. *)
Lemma grouped {X V} (by_ : X -> string) (val : X -> V) (found : list X) k :
  default [] (PgBadges.append_rows ((fun x => (by_ x, val x)) <$> found) !! k) = val <$> filter (fun x => by_ x = k) found.
Proof.
  rewrite append_rows_default. induction found as [|x l IH]; [done|]. rewrite fmap_cons, !filter_cons. cbn [fst].
  destruct (decide (by_ x = k)); [|exact IH]. rewrite !fmap_cons. by rewrite IH.
Qed.

Lemma grouped_lookup {X V} (by_ : X -> string) (val : X -> V) (found : list X) k :
  PgBadges.append_rows ((fun x => (by_ x, val x)) <$> found) !! k =
    let vs := val <$> filter (fun x => by_ x = k) found in if bool_decide (vs = []) then None else Some vs.
Proof.
  cbn zeta. rewrite <- (grouped by_ val). rewrite append_rows_lookup. cbn zeta.
  case_bool_decide as E; cbn [default from_option]; [by rewrite bool_decide_eq_true_2|by rewrite bool_decide_eq_false_2].
Qed.

(** Grouping one key of a selection of many. *)
Lemma SELECT_group `{Postgres} {X} (by_ : X -> string) (w : X -> bool) (keys : list string) k t t' (l : list X) :
  k ∈ keys ->
  filter (fun x => by_ x = k) (SELECT t (fun x => bool_decide (by_ x ∈ keys) && w x) l) ≡ₚ
    SELECT t' (fun x => bool_decide (by_ x = k) && w x) l.
Proof.
  intros Hk. rewrite !SELECT_perm. apply reflexive_eq. induction l as [|x l IH]; [done|]. cbn [List.filter].
  destruct (decide (by_ x = k)) as [E|E].
  - rewrite E, !bool_decide_eq_true_2 by done. cbn [andb]. destruct (w x); [|exact IH]. rewrite filter_cons, decide_True by done.
    by rewrite IH.
  - rewrite (bool_decide_eq_false_2 (by_ x = k)) by done. cbn [andb].
    destruct (bool_decide (by_ x ∈ keys) && w x); [|exact IH]. by rewrite filter_cons, decide_False.
Qed.

Lemma SELECT_no_group `{Postgres} {X} (by_ : X -> string) (w : X -> bool) (keys : list string) k t (l : list X) :
  k ∉ keys -> filter (fun x => by_ x = k) (SELECT t (fun x => bool_decide (by_ x ∈ keys) && w x) l) = [].
Proof.
  intros Hk. apply list_filter_none. intros x [Hw _]%elem_of_SELECT E. apply Hk.
  apply andb_true_iff in Hw as [Hw%bool_decide_eq_true _]. by rewrite <- E.
Qed.

(** The three link tables at once. *)
Lemma related_links T d pi pt po L :
  related T d ->
  (forall p i n, pi !! (p, i) = Some n <-> (0 <= n)%Z /\ Links.imageIDsByPost p L !! Z.to_nat n = Some i) ->
  (forall p g, (p, g) ∈ pt <-> g ∈ default ∅ (Links.postTags L !! p)) ->
  (forall p h n, po !! (p, h) = Some n <-> Links.mkLink h n ∈ Links.ogps p L) ->
  Links.wf L ->
  (forall p i, is_Some (pi !! (p, i)) -> is_Some (PgSchema.posts T !! p)) ->
  (forall p g, (p, g) ∈ pt -> is_Some (PgSchema.posts T !! p)) ->
  related (set_post_ogp po (set_post_tags pt (set_post_images pi T))) (with_links L d).
Proof. intros [[] []] **; split; split; try done; cbn; try done. Qed.

Lemma SELECT_ext `{Postgres} {A} t (w w' : A -> bool) l : (forall x, w x = w' x) -> SELECT t w l = SELECT t w' l.
Proof. intros Hw. unfold SELECT. by apply List.filter_ext. Qed.

Lemma related_tags T d ts xs :
  related T d -> keyed Tag.ID ts -> forget <$> ts = forget <$> Tags.tags xs -> Tags.wf xs ->
  related (set_tags ts T) (with_tags xs d).
Proof. intros [[] []] **; split; split; try done; cbn; try done. Qed.

Lemma related_ulids T d n : related T d -> related T (with_ulids n d).
Proof. intros [[] []]; split; split; done. Qed.
