(* ===== verification/PgSimSocial.v ===== *)
(** * PostgreSQL against the specification: users, follows and badges *)

From S2P Require Import Prelude Errors Monad GoStrings Domain.
From S2P Require Import MemUsers MemPosts MemLikes MemTags MemBadges MemFollows MemOGP Cursor Repository.
From S2P Require Import PgSql PgSchema PgSocial PgPosts PgOgp PgSim.

#[local] Open Scope Z_scope.

(** ** Users *)

(** The pages have the length the bounds leave. *)
Lemma Users_List_length {G : GoRuntime} seed limit offset (us : gmap string User.t) :
  0 <= limit <= 100 -> 0 <= offset -> Z.of_nat (size us) <= int64_max - 100 ->
  exists page, Users.List seed limit offset us =
      Ok (page, Z.of_nat (length (filter (fun u => User.DeletedAt u = None) (range_map seed us).*2))) /\
    length page = Nat.min (Z.to_nat limit)
      (length (filter (fun u => User.DeletedAt u = None) (range_map seed us).*2) - Z.to_nat offset).
Proof.
  intros Hl Ho Hsz. unfold Users.List. set (live := filter _ _).
  assert (Hlive : (length live <= size us)%nat).
  { subst live. etrans; [apply length_filter|]. rewrite length_fmap. unfold range_map. by rewrite go_range_perm, length_map_to_list. }
  clearbody live. unfold int64_max in *. set (o := if _ <? offset then _ else _).
  assert (0 <= o <= Z.of_nat (length live) /\ o = Z.min offset (Z.of_nat (length live))) as [Hob ->]
    by (subst o; case_match; lia).
  rewrite wrap64_small by (unfold int64_min, int64_max; lia). set (e := if (_ <? _) then _ else _).
  assert (e = Z.min (Z.of_nat (length live)) (Z.min offset (Z.of_nat (length live)) + limit)) as -> by (subst e; case_match; lia).
  rewrite (proj2 (andb_true_iff _ _)) by (rewrite !Z.leb_le; lia). eexists. split; [done|].
  rewrite length_drop, length_take. lia.
Qed.

Section users.
Context `{R : GoRuntime, Server : Postgres, !PostgresLaws}.

Lemma of_sub_iff sub u : PgUsers.of_sub sub u = true <-> User.Sub u = sub.
Proof. apply bool_decide_eq_true. Qed.

Lemma sim_GetBySub sub : simulates (CGetUser sub).
Proof.
  eapply refines_simulates; [done|]. intros n T d Hrel Hs. cbn in Hs.
  eexists T, _, d, _. rewrite char_arg_ulid by done. split; [done|]. split; [done|]. split; [|done].
  rewrite (SELECT_pk User.Sub _ _ sub) by (apply Hrel || intros r; apply of_sub_iff).
  cbn. unfold Users.GetBySub. apply like_option.
  destruct (like_lookup (PgSchema.users T) (Repository.users d) sub) as [(x & y & Hx & Hy & Hl)|[Hx Hy]]; [apply Hrel|..].
  - rewrite Hx, Hy. rewrite (proj2 (of_sub_iff sub x)) by (by apply (key_users T (proj2 Hrel))). cbn. by f_equal.
  - by rewrite Hx, Hy.
Qed.

(** Every UPDATE of one user by its key. *)
Lemma UPDATE_user T set sub : sound T ->
  UPDATE set (PgUsers.of_sub sub) (PgSchema.users T) =
    match PgSchema.users T !! sub with
    | Some u => u' ← set u; Some (<[sub := u']> (PgSchema.users T), [u'])
    | None => Some (PgSchema.users T, [])
    end.
Proof.
  intros Hs. rewrite (UPDATE_pk User.Sub _ _ sub) by (apply Hs || intros r; apply of_sub_iff).
  destruct (PgSchema.users T !! sub) as [u|] eqn:E; [|done].
  by rewrite (proj2 (of_sub_iff sub u)) by (by apply (key_users T Hs)).
Qed.

(** A counter: the column changes as the field does. *)
Lemma sim_counter what sub (c : call unit) set f :
  run c = PgUsers.update what sub set ->
  (forall T, legal c T -> ulid sub) ->
  (forall n d, expect (R := sql_runtime) c n d = (with_users (match Repository.users d !! sub with
     | Some x => f (Repository.users d) x | None => Repository.users d end) d, Ok tt)) ->
  similar c = eq ->
  (forall n T d u x, related T d -> legal c T -> PgSchema.users T !! sub = Some u -> Repository.users d !! sub = Some x ->
     like u x -> exists u' x', set (NOW n) u = Some u' /\ f (Repository.users d) x = <[sub := x']> (Repository.users d) /\
       like u' x' /\ User.Sub u' = sub /\
       (0 <= User.FollowersCount u' <= int64_max /\ 0 <= User.FollowingCount u' <= int64_max)) ->
  simulates c.
Proof.
  intros Hrun Hul Hexp Hsim Hstep. eapply refines_simulates; [intros s _; by rewrite Hrun|]. intros n T d Hrel Hl. cbv beta.
  rewrite char_arg_ulid by (by apply (Hul T)). rewrite UPDATE_user by apply Hrel. rewrite Hexp, Hsim.
  destruct (like_lookup (PgSchema.users T) (Repository.users d) sub) as [(u & x & Hu & Hx & Hux)|[Hu Hx]]; [apply Hrel|..].
  - destruct (Hstep n T d u x Hrel Hl Hu Hx Hux) as (u' & x' & Hset & Hf & Hl' & Hk & Hc).
    rewrite Hu, Hx, Hset, Hf. cbn. eexists _, tt, _, tt. split; [done|]. split; [done|]. split; [done|].
    apply related_user; [done| |done|done]. unfold like, forget in *. cbn in *. done.
  - rewrite Hu, Hx. cbn. eexists _, tt, _, tt. split; [done|]. split; [done|]. split; [done|].
    by destruct T, d.
Qed.

(** A counter that stops at zero. *)
Lemma floored_dec z : 0 <= z <= int64_max -> PgUsers.floored 64 z = Some (if 0 <? z then z - 1 else z).
Proof.
  unfold int64_max, PgUsers.floored. intros Hz. rewrite int_ok by lia. cbn. f_equal. destruct (0 <? z) eqn:E; lia.
Qed.

#[local] Ltac counter sub f :=
  eapply (sim_counter _ sub _ _ f); [done|by intros T; cbn; tauto|done|done|];
  intros n T d u x Hrel Hl Hu Hx Hux; cbv beta;
  pose proof (key_users T (proj2 Hrel) sub u Hu) as Hk; pose proof (counts_users T (proj2 Hrel) sub u Hu) as [Hr Hg];
  cbn in Hl; unfold every, int64_max in *; unlike.

Lemma sim_IncFollowers sub : simulates (CIncFollowers sub).
Proof.
  counter sub (fun us x => <[sub := User.set_FollowersCount (wrap64 (User.FollowersCount x + 1)) x]> us : gmap string User.t).
  destruct Hl as [_ Hl]. specialize (Hl u Hu). cbn in Hl. rewrite int_ok by lia.
  eexists _, _. split; [done|]. split; [done|]. split; [|split; [done|cbn; lia]].
  rewrite wrap64_small by (unfold int64_min, int64_max; lia). relike.
Qed.

Lemma sim_IncFollowing sub : simulates (CIncFollowing sub).
Proof.
  counter sub (fun us x => <[sub := User.set_FollowingCount (wrap64 (User.FollowingCount x + 1)) x]> us : gmap string User.t).
  destruct Hl as [_ Hl]. specialize (Hl u Hu). cbn in Hl. rewrite int_ok by lia.
  eexists _, _. split; [done|]. split; [done|]. split; [|split; [done|cbn; lia]].
  rewrite wrap64_small by (unfold int64_min, int64_max; lia). relike.
Qed.

Lemma sim_DecFollowers sub : simulates (CDecFollowers sub).
Proof.
  counter sub (fun us x => if 0 <? User.FollowersCount x
    then <[sub := User.set_FollowersCount (User.FollowersCount x - 1) x]> us : gmap string User.t else us).
  rewrite floored_dec by (unfold int64_max; lia). eexists _, _. split; [done|]. split; [|split; [|split; [done|]]].
  - instantiate (1 := if 0 <? User.FollowersCount x then User.set_FollowersCount (User.FollowersCount x - 1) x else x).
    destruct (0 <? User.FollowersCount x); [done|by rewrite insert_id].
  - replace (User.FollowersCount u) with (User.FollowersCount x) by congruence.
    destruct (0 <? User.FollowersCount x); relike.
  - cbn. destruct (0 <? User.FollowersCount u) eqn:E; lia.
Qed.

Lemma sim_DecFollowing sub : simulates (CDecFollowing sub).
Proof.
  counter sub (fun us x => if 0 <? User.FollowingCount x
    then <[sub := User.set_FollowingCount (User.FollowingCount x - 1) x]> us : gmap string User.t else us).
  rewrite floored_dec by (unfold int64_max; lia). eexists _, _. split; [done|]. split; [|split; [|split; [done|]]].
  - instantiate (1 := if 0 <? User.FollowingCount x then User.set_FollowingCount (User.FollowingCount x - 1) x else x).
    destruct (0 <? User.FollowingCount x); [done|by rewrite insert_id].
  - replace (User.FollowingCount u) with (User.FollowingCount x) by congruence.
    destruct (0 <? User.FollowingCount x); relike.
  - cbn. destruct (0 <? User.FollowingCount u) eqn:E; lia.
Qed.

Lemma encoded_default x : (forall b, x = Some b -> encoded b = true) -> encoded (default "" x) = true.
Proof. destruct x; cbn; [|done]. intros Hx. by apply Hx. Qed.

Lemma sim_UpdateProfile sub req : simulates (CUpdateProfile sub req).
Proof.
  eapply refines_simulates; [done|]. intros n T d Hrel (Hs & Hbio & Hban). cbv beta. rewrite char_arg_ulid by done.
  assert (PgUsers.args_encoded [UpdateUserProfileRequest.Bio req; UpdateUserProfileRequest.BannerURL req] = true) as ->.
  { unfold PgUsers.args_encoded. cbn [forallb]. rewrite !encoded_default; [done|..].
    - intros b Hb. by eapply encoded_varchar, Hban.
    - intros b Hb. by eapply encoded_text, Hbio. }
  cbn [require]. rewrite UPDATE_user by apply Hrel. cbn [expect]. unfold UserRepository.UpdateProfile_spec, Users.UpdateProfile.
  destruct (like_lookup (PgSchema.users T) (Repository.users d) sub) as [(u & x & Hu & Hx & Hux)|[Hu Hx]]; [apply Hrel|..].
  - rewrite Hu, Hx. pose proof (key_users T (proj2 Hrel) sub u Hu) as Hk.
    assert (Hset : PgUsers.set_profile (NOW n) req u = Some (User.set_UpdatedAt (NOW n)
      (User.set_BannerURL (default (User.BannerURL u) (UpdateUserProfileRequest.BannerURL req))
        (User.set_Bio (default (User.Bio u) (UpdateUserProfileRequest.Bio req)) u)))).
    { unfold PgUsers.set_profile. destruct (UpdateUserProfileRequest.Bio req) as [b|], (UpdateUserProfileRequest.BannerURL req) as [b'|];
        cbn; rewrite ?(Hbio _ eq_refl), ?(Hban _ eq_refl); done. }
    rewrite Hset. cbn. eexists _, _, _, _. split; [done|]. split; [done|].
    match goal with |- like (Some ?a) (Some ?b) /\ _ => assert (Hlike : like a b) end.
    { unlike. destruct (UpdateUserProfileRequest.Bio req), (UpdateUserProfileRequest.BannerURL req); relike. }
    split; [by apply like_Some|]. apply related_user; [done|done|done|].
    exact (counts_users T (proj2 Hrel) sub u Hu).
  - rewrite Hu, Hx. cbn. eexists _, _, _, _. split; [done|]. split; [done|]. split; [done|]. by destruct T, d.
Qed.

Lemma users_row_inserted now c u b : users_row u = Some b ->
  users_row (PgUsers.inserted now c u) = Some (User.mk (User.Sub b) (User.DisplayNameCached b) (User.DisplayIDCached b)
    (User.IconURLCached b) (User.ProfileRefreshedAt b) (User.Bio b) (User.BannerURL b) (User.IsAdmin b)
    (User.FollowersCount b) (User.FollowingCount b) (usec c) (usec now) None).
Proof.
  unfold users_row. cbn [PgUsers.inserted User.Sub User.DisplayNameCached User.DisplayIDCached User.IconURLCached
    User.ProfileRefreshedAt User.Bio User.BannerURL User.IsAdmin User.FollowersCount User.FollowingCount User.CreatedAt
    User.UpdatedAt User.DeletedAt].
  repeat match goal with |- context [?x ≫= _] => destruct x; cbn [mbind option_bind]; [|done] end.
  intros [= <-]. done.
Qed.

Lemma users_row_counts u b : users_row u = Some b ->
  User.FollowersCount b = User.FollowersCount u /\ User.FollowingCount b = User.FollowingCount u /\
  User.FollowersCount u <= int64_max /\ User.FollowingCount u <= int64_max.
Proof.
  unfold users_row. repeat match goal with |- context [?x ≫= _] => destruct x eqn:?; cbn [mbind option_bind]; [|done] end.
  intros [= <-]. cbn. repeat match goal with H : int _ _ = Some _ |- _ => apply int_Some in H as [-> ?] end.
  unfold int64_max. lia.
Qed.

Lemma sim_UpsertUser u : simulates (CUpsertUser u).
Proof.
  apply (refines_simulates "upsert user" (PgUsers.upsert (User.CreatedAt u) u)).
  { intros s (_ & Hc & _). cbn. unfold PgUsers.Upsert. unfold IsZero. by rewrite bool_decide_eq_false_2. }
  intros n T d Hrel (Hs & Hc & Hdel & Hr & Hg & b & Hrow & Hlike). unfold PgUsers.upsert.
  pose proof (users_row_counts u b Hrow) as (Hr' & Hg' & Hr'' & Hg'').
  rewrite (users_row_inserted (NOW n) (User.CreatedAt u) u b Hrow). cbn [coerce or_fail User.Sub].
  cbn [expect]. unfold UserRepository.Upsert_spec, Users.Upsert. cbn [fst snd].
  assert (User.Sub b = User.Sub u) as -> by (unlike; congruence).
  destruct (like_lookup (PgSchema.users T) (Repository.users d) (User.Sub u)) as [(x & y & Hx & Hy & Hxy)|[Hx Hy]]; [apply Hrel|..].
  - rewrite Hx, Hy. pose proof (key_users T (proj2 Hrel) _ x Hx) as Hk. cbn [PgUsers.on_conflict User.Sub].
    match goal with |- context [inr (set_users (<[_ := ?row]> _) _, _)] =>
      assert (Hl : like row (Users.merge y u (NOW n))) end.
    { unfold like, forget, forget_user, Users.merge. unlike. cbn. rewrite ?usec_usec.
      assert (User.Bio b = User.Bio u) as -> by congruence. assert (User.BannerURL b = User.BannerURL u) as -> by congruence.
      assert (User.Bio x = User.Bio y) as -> by congruence. assert (User.BannerURL x = User.BannerURL y) as -> by congruence.
      f_equal; congruence. }
    eexists _, _, _, _. split; [done|]. split; [done|]. split; [done|]. rewrite Hk. apply related_user; [done|done|done|].
    exact (counts_users T (proj2 Hrel) _ x Hx).
  - rewrite Hx, Hy. cbn [User.Sub].
    match goal with |- context [inr (set_users (<[_ := ?row]> _) _, _)] =>
      assert (Hl : like row (Users.insert_new u (NOW n))) end.
    { unfold like, forget, forget_user, Users.insert_new, IsZero. rewrite bool_decide_eq_false_2 by done.
      rewrite Hdel. unlike. relike. }
    eexists _, _, _, _. split; [done|]. split; [done|]. split; [done|]. apply related_user; [done|done|done|].
    cbn. lia.
Qed.

Lemma like_live_user (x y : User.t) : like x y -> User.DeletedAt x = None <-> User.DeletedAt y = None.
Proof. intros Hxy. unlike. by destruct (User.DeletedAt x), (User.DeletedAt y). Qed.

Lemma sim_DeleteUser sub : simulates (CDeleteUser sub).
Proof.
  eapply refines_simulates; [done|]. intros n T d Hrel [Hs Hlive]. cbv beta. rewrite char_arg_ulid by done.
  rewrite (UPDATE_pk User.Sub _ _ sub) by (apply Hrel || intros r [Hr _]%andb_true_iff; by apply of_sub_iff).
  cbn [expect]. unfold UserRepository.Delete_spec, Repository.update, Users.Delete.
  destruct (like_lookup (PgSchema.users T) (Repository.users d) sub) as [(u & x & Hu & Hx & Hux)|[Hu Hx]]; [apply Hrel|..].
  - rewrite Hu, Hx. pose proof (key_users T (proj2 Hrel) sub u Hu) as Hk. specialize (Hlive u Hu). cbn in Hlive.
    rewrite (proj2 (of_sub_iff sub u)) by done. unfold PgUsers.live. rewrite bool_decide_eq_true_2 by done.
    cbn. eexists _, _, _, _. split; [done|]. split; [done|]. split; [done|]. apply related_user; [done| |done|].
    + unlike. relike.
    + exact (counts_users T (proj2 Hrel) sub u Hu).
  - rewrite Hu, Hx. cbn. eexists _, _, _, _. split; [done|]. split; [done|]. split; [done|]. by destruct T, d.
Qed.

Lemma sim_ListBySubs subs : simulates (CListBySubs subs).
Proof.
  apply simulates_id. intros s d Hc Hrel Hl. unfold agrees. cbn [run]. unfold PgUsers.ListBySubs. case_bool_decide as Hnil.
  { subst. eexists s, _, d, _. split; [done|]. split; [done|]. split; [done|]. by split. }
  set (q := fun (_ : Time) t T => sql! subs := char_args 26 subs in
    inr (T, SELECT t (fun u => bool_decide (User.Sub u ∈ subs) && PgUsers.live u) (rows (PgSchema.users T))) :
    goerror + (Tables * list User.t)).
  unfold bind. rewrite (exec_ok _ q s (tables s) (SELECT (pg_tick s) (fun u => bool_decide (User.Sub u ∈ subs) && PgUsers.live u)
    (rows (PgSchema.users (tables s))))); [|done|subst q; cbv beta; by rewrite char_args_ulid].
  eexists _, _, d, _. split; [done|]. split; [done|]. split; [|by split; [|apply connected_advance]].
  unfold similar, like, forget, forget_map. apply map_eq. intros k. rewrite !lookup_fmap.
  unfold Users.ListBySubs. rewrite collect_map_lookup.
  pose proof (key_users _ (proj2 Hrel)) as Hkey.
  assert (Hrow : forall u, foldl (fun (out : gmap string User.t) u => <[User.Sub u := u]> out) ∅ (SELECT (pg_tick s)
      (fun u => bool_decide (User.Sub u ∈ subs) && PgUsers.live u) (rows (PgSchema.users (tables s)))) !! k = Some u <->
      k ∈ subs /\ PgSchema.users (tables s) !! k = Some u /\ User.DeletedAt u = None).
  { intros u. rewrite (collect_rows User.Sub (fun u => u)).
    - setoid_rewrite elem_of_SELECT. setoid_rewrite elem_of_rows. setoid_rewrite andb_true_iff.
      unfold PgUsers.live. setoid_rewrite bool_decide_eq_true. split.
      + intros (a & ([Hin Hlv] & k' & Hk') & <- & <-). rewrite (Hkey _ _ Hk') in *. done.
      + intros (Hin & Hk & Hlv). exists u. rewrite (Hkey _ _ Hk). split; [split; [done|by exists k]|done].
    - intros a b [_ [k1 Ha]%elem_of_rows]%elem_of_SELECT [_ [k2 Hb]%elem_of_rows]%elem_of_SELECT E.
      rewrite (Hkey _ _ Ha), (Hkey _ _ Hb) in E. congruence. }
  destruct (foldl _ _ _ !! k) as [u|].
  - destruct (proj1 (Hrow u) eq_refl) as (Hin & Hu & Hlv). rewrite bool_decide_eq_true_2 by done. unfold Users.live_user.
    destruct (like_lookup (PgSchema.users (tables s)) (Repository.users d) k) as [(x & y & Hx & Hy & Hxy)|[Hx Hy]]; [apply Hrel| |congruence].
    rewrite Hy. assert (x = u) as -> by congruence. rewrite bool_decide_eq_true_2 by (by apply (like_live_user _ _ Hxy)).
    by apply like_Some.
  - case_bool_decide as Hin; [|done]. unfold Users.live_user.
    destruct (like_lookup (PgSchema.users (tables s)) (Repository.users d) k) as [(x & y & Hx & Hy & Hxy)|[Hx Hy]];
      [apply Hrel| |by rewrite Hy].
    rewrite Hy. case_bool_decide as Hlv; [|done]. exfalso.
    assert (None = Some x) as [=]. apply Hrow. split; [done|]. split; [done|].
    by apply (like_live_user _ _ Hxy).
Qed.

Lemma sim_ListUsers limit offset : simulates (CListUsers limit offset).
Proof.
  apply simulates_id. intros s d Hc Hrel (Hl & Ho & Hsz). unfold agrees. cbn [run].
  assert (Hn : forall t, length (SELECT t PgUsers.live (rows (PgSchema.users (tables s)))) =
    length (filter (fun u => User.DeletedAt u = None) (range_map (H := sql_runtime) (pg_tick s) (Repository.users d)).*2)).
  { intros t. rewrite <- (length_fmap forget), <- (length_fmap forget (filter _ _)). apply Permutation_length, (SELECT_like (H1 := sql_runtime)).
    - apply Hrel.
    - intros x y k _ Hxy. unfold PgUsers.live. rewrite bool_decide_eq_true. by apply like_live_user. }
  assert (Hsz' : Z.of_nat (size (Repository.users d)) <= int64_max - 100).
  { rewrite <- (map_size_fmap forget), <- (rel_users _ _ (proj1 Hrel)), map_size_fmap. exact Hsz. }
  destruct (Users_List_length (G := sql_runtime) (pg_tick s) limit offset (Repository.users d) Hl Ho Hsz') as (page & Hspec & Hlen).
  unfold PgUsers.List, bind, PgSchema.query. erewrite (exec_ok "count users"); [|done|reflexivity]. cbv beta. rewrite Hn.
  set (N := length (filter _ _)) in *. destruct ((limit <=? 0) || (Z.of_nat N =? 0)) eqn:E.
  - eexists _, _, d, _. split; [done|]. split; [cbn [expect]; unfold UserRepository.List_spec; by rewrite Hspec|].
    split; [|split; [done|by apply connected_advance]]. split; [done|]. cbn [fst length]. rewrite Hlen. lia.
  - set (P := take (Z.to_nat limit) (drop (Z.to_nat offset) (ORDER_BY PgUsers.newest_first
      (SELECT (S (pg_tick s)) PgUsers.live (rows (PgSchema.users (tables s))))))).
    match goal with |- context [wrap "list users" (exec ?q) ?s1] => rewrite (exec_ok "list users" q s1 (tables s) P) end.
    + eexists _, _, d, _. split; [done|]. split; [cbn [expect]; unfold UserRepository.List_spec; by rewrite Hspec|].
      split; [|split; [done|by apply connected_advance, connected_advance]]. split; [done|]. cbn [fst]. rewrite Hlen.
      subst P. rewrite length_take, length_drop. unfold ORDER_BY. rewrite merge_sort_Permutation, Hn. lia.
    + by apply connected_advance.
    + cbv beta. unfold LIMIT. rewrite (proj2 (Z.leb_le 0 offset)), (proj2 (Z.ltb_ge limit 0)) by lia. done.
Qed.
End users.

(** ** Follows *)

Section follows.
Context `{R : GoRuntime, Server : Postgres, !PostgresLaws}.

Definition follow_key (f : Follow.t) : string * string := (Follow.FollowerSub f, Follow.FolloweeSub f).

Lemma pair_is_iff a b f : PgFollows.pair_is a b f = true <-> follow_key f = (a, b).
Proof. unfold PgFollows.pair_is, follow_key. rewrite andb_true_iff, !bool_decide_eq_true. naive_solver. Qed.

Lemma sim_Follow a b : simulates (CFollow a b).
Proof.
  eapply refines_simulates; [done|]. intros n T d Hrel (Ha & Hb & Hab & Hua & Hub). cbv beta.
  assert (follows_row (Follow.mk a b (NOW n)) = Some (Follow.mk a b (NOW n))) as ->.
  { unfold follows_row. cbn [Follow.FollowerSub Follow.FolloweeSub Follow.CreatedAt].
    rewrite (char_ulid a Ha). cbn [mbind option_bind]. rewrite (char_ulid b Hb). cbn. by rewrite usec_NOW. }
  cbn [coerce or_fail Follow.FollowerSub Follow.FolloweeSub fst snd]. rewrite bool_decide_eq_false_2 by done. cbn [negb require].
  cbn [expect]. unfold FollowRepository.Create_spec, Follows.Create. rewrite <- (rel_follows _ _ (proj1 Hrel)).
  rewrite exists_row_eq. destruct (PgSchema.follows T !! (a, b)) as [f|] eqn:E.
  - eexists _, _, _, _. split; [done|]. split; [done|]. split; [done|]. cbn [fst]. rewrite (rel_follows _ _ (proj1 Hrel)). by destruct d.
  - rewrite !exists_row_holds by done. cbn [andb require]. eexists _, _, _, _. split; [done|]. split; [done|]. split; [done|].
    cbn [fst snd]. apply related_follows; [done| |].
    + apply keyed_put_at; [apply Hrel|done].
    + intros k. destruct (decide (k = (a, b))) as [->|Hne]; [done|]. rewrite lookup_insert_ne by done. apply Hrel.
Qed.

Lemma sim_Unfollow a b : simulates (CUnfollow a b).
Proof.
  eapply refines_simulates; [done|]. intros n T d Hrel (Ha & Hb). cbv beta. rewrite !char_arg_ulid by done.
  rewrite (DELETE_pk follow_key _ (a, b)) by (apply Hrel || apply pair_is_iff).
  cbn [expect]. unfold FollowRepository.Delete_spec, Follows.Delete. rewrite <- (rel_follows _ _ (proj1 Hrel)).
  eexists _, _, _, _. split; [done|]. split; [done|]. destruct (PgSchema.follows T !! (a, b)) as [f|] eqn:E; cbn [fst snd].
  - split; [done|]. apply related_follows; [done|apply keyed_drop, Hrel|].
    intros k [x [_ Hx]%lookup_delete_Some]. apply Hrel. by exists x.
  - split; [done|]. rewrite delete_id by done. rewrite (rel_follows _ _ (proj1 Hrel)) at 2.
    by destruct T, d.
Qed.

Lemma sim_IsFollowing a b : simulates (CIsFollowing a b).
Proof.
  eapply refines_simulates; [done|]. intros n T d Hrel (Ha & Hb). cbv beta. rewrite !char_arg_ulid by done.
  rewrite (SELECT_pk follow_key _ _ (a, b)) by (apply Hrel || apply pair_is_iff).
  eexists _, _, _, _. split; [done|]. split; [done|]. split; [|done]. cbn. unfold Follows.IsFollowing.
  rewrite <- (rel_follows _ _ (proj1 Hrel)). destruct (PgSchema.follows T !! (a, b)) as [f|] eqn:E.
  - rewrite (proj2 (pair_is_iff a b f)) by exact (key_follows T (proj2 Hrel) _ _ E). done.
  - done.
Qed.

(** A statement that only reads, after its guard. *)
Lemma sim_FollowingSubs a : simulates (CFollowingSubs a).
Proof.
  eapply refines_simulates; [done|]. intros n T d Hrel Ha. cbn in Ha. cbv beta. rewrite char_arg_ulid by done.
  eexists _, _, d, _. split; [done|]. split; [done|]. split; [|done]. cbn [similar]. unfold Follows.ListFollowingSubs.
  rewrite <- (rel_follows _ _ (proj1 Hrel)). rewrite SELECT_perm. unfold range_map, rows. rewrite go_range_perm.
  pose proof (key_follows _ (proj2 Hrel)) as Hk.
  assert (Hall : forall kv, kv ∈ map_to_list (PgSchema.follows T) -> follow_key kv.2 = kv.1).
  { intros [k f] Hf%elem_of_map_to_list. exact (Hk _ _ Hf). }
  apply reflexive_eq. induction (map_to_list (PgSchema.follows T)) as [|[[x y] f] l IH]; [done|].
  cbn [fmap list_fmap List.filter omap list_omap fst snd]. pose proof (Hall _ ltac:(left)) as Hkf. cbn in Hkf. injection Hkf as E1 E2. rewrite E1.
  specialize (IH (fun kv Hkv => Hall kv ltac:(by right))). case_bool_decide; [|exact IH]. cbn. by rewrite E2, IH.
Qed.

Lemma sim_AreFollowing v ts : simulates (CAreFollowing v ts).
Proof.
  apply simulates_id. intros s d Hc Hrel [Hv Hts]. unfold agrees. cbn [run]. unfold PgFollows.AreFollowing. case_bool_decide as Hnil.
  { subst. eexists s, _, d, _. split; [done|]. split; [done|]. split; [done|]. by split. }
  set (found := Follow.FolloweeSub <$> SELECT (pg_tick s) (fun f => bool_decide (Follow.FollowerSub f = v) &&
    bool_decide (Follow.FolloweeSub f ∈ ts)) (rows (PgSchema.follows (tables s)))).
  unfold bind. match goal with |- context [exec ?q] => rewrite (exec_ok _ q s (tables s) found) end;
    [|done|cbv beta; by rewrite char_arg_ulid, char_args_ulid].
  eexists _, _, d, _. split; [done|]. split; [done|]. split; [|by split; [|apply connected_advance]].
  cbn [similar]. apply map_eq. intros k. apply option_eq. intros b. rewrite Follows.AreFollowing_lookup.
  rewrite (collect_rows (fun x => x) (fun _ => true)) by done. unfold Follows.following. rewrite <- (rel_follows _ _ (proj1 Hrel)).
  subst found. setoid_rewrite list_elem_of_fmap. setoid_rewrite elem_of_SELECT. setoid_rewrite elem_of_rows.
  pose proof (key_follows _ (proj2 Hrel)) as Hk. case_bool_decide as Hf.
  - destruct Hf as [Hin [f Hf]]. split; [by intros (_ & _ & _ & <-)|]. intros [= <-]. exists k. split; [|done]. exists f.
    pose proof (Hk _ _ Hf) as Ef. cbn in Ef. injection Ef as E1 E2. split; [done|]. split; [|by eexists].
    rewrite E1, E2. by rewrite !bool_decide_eq_true_2.
  - split; [|done]. intros (x & (f & -> & Hw & [k' Hf']) & <- & <-). exfalso. apply Hf.
    apply andb_true_iff in Hw as [E1%bool_decide_eq_true E2%bool_decide_eq_true]. split; [done|]. exists f.
    pose proof (Hk _ _ Hf') as Ef. cbn in Ef. by rewrite <- E1, Ef.
Qed.

(** The row after the page tells whether there are more. *)
Lemma page_take side limit (l : list Follow.t) : 0 < limit < int64_max ->
  Ok (PgFollows.page side limit (take (Z.to_nat (limit + 1)) l)) =
    (if Z.of_nat (length l) <=? limit then Ok (l, "")
     else match slice_to limit l !! Z.to_nat (limit - 1) with
          | Some last => Ok (slice_to limit l, EncodeFollow (Follow.CreatedAt last) (Follows.peerSub last side))
          | None => Panic "index out of range"
          end).
Proof.
  intros Hl. unfold PgFollows.page, slice_to. rewrite take_take, length_take, (Nat.min_l (Z.to_nat limit) (Z.to_nat (limit + 1))) by lia.
  destruct (Z.of_nat (length l) <=? limit) eqn:E.
  - rewrite (proj2 (Z.leb_le _ _)) by lia. by rewrite take_ge by lia.
  - rewrite (proj2 (Z.leb_gt _ _)) by lia. rewrite last_lookup, length_take.
    replace (pred (Nat.min (Z.to_nat limit) (length l))) with (Z.to_nat (limit - 1)) by lia.
    destruct (take (Z.to_nat limit) l !! Z.to_nat (limit - 1)) eqn:El; [done|].
    apply lookup_ge_None in El. rewrite length_take in El. lia.
Qed.

Definition side_row (sub : string) (side : bool) (c : option (Time * string)) (f : Follow.t) : bool :=
  bool_decide (Follows.ownerSub f side = sub) && PgFollows.tuple_lt side c f.

Lemma matches_perm t n sub side c T d : related T d -> (forall ct cp, c = Some (ct, cp) -> ulid cp) ->
  SELECT t (side_row sub side c) (rows (PgSchema.follows T)) ≡ₚ
    Follows.matches (H := sql_runtime) n sub c side (Repository.follows d).
Proof.
  intros Hrel Hc. rewrite SELECT_perm. unfold Follows.matches, rows, range_map. rewrite go_range_perm.
  rewrite <- (rel_follows _ _ (proj1 Hrel)).
  assert (Hall : forall kv, kv ∈ map_to_list (PgSchema.follows T) -> follow_key kv.2 = kv.1 /\ ulid kv.1.1 /\ ulid kv.1.2).
  { intros [k f] Hf%elem_of_map_to_list. split; [exact (key_follows _ (proj2 Hrel) _ _ Hf)|].
    apply (ulid_follows _ (proj2 Hrel) k). by exists f. }
  apply reflexive_eq. induction (map_to_list (PgSchema.follows T)) as [|[[x y] f] l IH]; [done|].
  specialize (IH (fun kv Hkv => Hall kv ltac:(by right))).
  destruct (Hall _ ltac:(left)) as (Hk & Hx & Hy). cbn in Hk, Hx, Hy. injection Hk as E1 E2.
  cbn [fmap list_fmap List.filter omap list_omap fst snd]. rewrite IH. clear IH Hall.
  assert (Hlt : forall p, Follows.peerSub f side = p -> ulid p ->
    PgFollows.tuple_lt side c f = match c with Some (ct, cp) => Follows.isBefore (Follow.CreatedAt f) p ct cp | None => true end).
  { intros p Hp Hup. unfold PgFollows.tuple_lt, Follows.isBefore. destruct c as [[ct cp]|]; [|done]. rewrite Hp.
    rewrite text_lt_iff by (done || by eapply Hc). unfold Before. destruct (Z.lt_total (Follow.CreatedAt f) ct) as [Hlt|[Heq|Hgt]].
    - rewrite (proj2 (Z.ltb_lt _ _)) by done. rewrite bool_decide_eq_false_2 by lia. by rewrite bool_decide_eq_true_2 by done.
    - rewrite (proj2 (Z.ltb_ge _ _)), (proj2 (Z.eqb_eq _ _)) by lia. by rewrite bool_decide_eq_true_2 by done.
    - rewrite (proj2 (Z.ltb_ge _ _)), (proj2 (Z.eqb_neq _ _)) by lia. rewrite bool_decide_eq_false_2 by lia.
      by rewrite bool_decide_eq_false_2 by lia. }
  unfold side_row. unfold Follows.ownerSub, Follows.peerSub in *. destruct side; cbn [andb negb].
  - rewrite E2, (Hlt x) by done. destruct (bool_decide (y = sub)); [|done]. cbn. destruct c as [[ct cp]|]; [|done]. by case_match.
  - rewrite E1, (Hlt y) by done. destruct (bool_decide (x = sub)); [|done]. cbn. destruct c as [[ct cp]|]; [|done]. by case_match.
Qed.

(** One row per owner and peer. *)
Lemma side_rows T t sub side c x : sound T -> x ∈ SELECT t (side_row sub side c) (rows (PgSchema.follows T)) ->
  Follows.ownerSub x side = sub /\ ulid (Follows.peerSub x side) /\ PgSchema.follows T !! follow_key x = Some x.
Proof.
  intros Hs [Hw [k Hk]%elem_of_rows]%elem_of_SELECT. apply andb_true_iff in Hw as [Ho%bool_decide_eq_true _].
  assert (follow_key x = k) as Ek by exact (key_follows _ Hs _ _ Hk). split; [done|]. rewrite Ek. split; [|done].
  destruct (ulid_follows _ Hs k (mk_is_Some _ _ Hk)) as [H1 H2]. rewrite <- Ek in H1, H2. by destruct side.
Qed.

Lemma side_rows_inj T t sub side c x y : sound T ->
  x ∈ SELECT t (side_row sub side c) (rows (PgSchema.follows T)) -> y ∈ SELECT t (side_row sub side c) (rows (PgSchema.follows T)) ->
  Follows.peerSub x side = Follows.peerSub y side -> x = y.
Proof.
  intros Hs (Ox & _ & Hx)%side_rows (Oy & _ & Hy)%side_rows E; try done.
  assert (follow_key x = follow_key y) as Ek; [|rewrite Ek in Hx; congruence].
  unfold follow_key, Follows.ownerSub, Follows.peerSub in *. destruct side; congruence.
Qed.

#[local] Existing Instances Follows.list_order_dec Follows.list_order_trans Follows.list_order_total PgFollows.newest_first_dec.

#[local] Instance newest_first_trans side : Transitive (PgFollows.newest_first side).
Proof. unfold PgFollows.newest_first. apply _. Qed.
#[local] Instance newest_first_total side : Total (PgFollows.newest_first side).
Proof. unfold PgFollows.newest_first. apply _. Qed.

Lemma side_sorted t n sub side c T d : related T d -> (forall ct cp, c = Some (ct, cp) -> ulid cp) ->
  ORDER_BY (PgFollows.newest_first side) (SELECT t (side_row sub side c) (rows (PgSchema.follows T))) =
  merge_sort (Follows.list_order side) (Follows.matches (H := sql_runtime) n sub c side (Repository.follows d)).
Proof.
  intros Hrel Hc. pose proof (matches_perm t n sub side c T d Hrel Hc) as Hp.
  pose proof (sort_like (PgFollows.newest_first side) (Follows.list_order side) _ _ (fmap_Permutation forget _ _ Hp)) as Hs.
  rewrite !list_fmap_id in Hs. apply Hs; [done| |].
  - intros x y (_ & Ux & _)%side_rows (_ & Uy & _)%side_rows [Ht Hx]; [|apply Hrel..]. unfold DESC, by_time, by_text in *.
    unfold Follows.list_order. destruct (decide (Follow.CreatedAt y < Follow.CreatedAt x)); [by left|]. right.
    split; [lia|]. apply text_le_iff; [done..|]. apply Hx. lia.
  - intros x y. rewrite <- !Hp. intros Hx Hy [?|[Et Hxy]] [?|[Et' Hyx]]; try lia.
    unfold like, forget, forget_follow. cbn. eapply (side_rows_inj T); [apply Hrel|done..|]. by apply (anti_symm String.le).
Qed.

Lemma sim_listSide (c : call (list Follow.t * string)) sub cursor limit side :
  run c = PgFollows.listSide sub cursor limit side -> similar c = eq ->
  (forall T, legal c T -> ulid sub /\ follow_cursor cursor /\ limit <= 2 ^ 45) ->
  (forall n d, expect (R := sql_runtime) c n d = (d, Follows.listSide (H := sql_runtime) n sub cursor limit side (Repository.follows d))) ->
  simulates c.
Proof.
  intros Hrun Hsim Hleg Hexp. apply simulates_id. intros s d Hc Hrel Hl. unfold agrees. destruct (Hleg _ Hl) as (Hu & Hcur & Hmax). rewrite Hrun, Hsim, Hexp.
  unfold PgFollows.listSide, Follows.listSide. destruct (limit <=? 0) eqn:El.
  { eexists s, _, d, _. split; [done|]. split; [done|]. done. }
  assert (Hc' : forall ct cp, DecodeFollow cursor = Some (ct, cp) -> ulid cp) by (intros ct cp E; by apply (Hcur ct cp)).
  pose proof (side_sorted (pg_tick s) (pg_tick s) sub side (DecodeFollow cursor) _ _ Hrel Hc') as Hs.
  set (ms := merge_sort _ _) in *. rewrite <- (page_take side limit ms) by (unfold int64_max; lia).
  unfold bind. rewrite make_cap_ok by done. match goal with |- context [exec ?q] => rewrite (exec_ok _ q s (tables s) (take (Z.to_nat (limit + 1)) ms)) end; [|done|].
  - eexists _, _, d, _. split; [done|]. split; [done|]. split; [done|]. split; [done|by apply connected_advance].
  - cbv beta. rewrite char_arg_ulid by done.
    assert (PgFollows.cursor_arg (DecodeFollow cursor) = inr (DecodeFollow cursor)) as ->.
    { destruct (DecodeFollow cursor) as [[ct cp]|] eqn:Ec; [|done]. destruct (Hcur _ _ Ec) as [Et Ep]. cbn [PgFollows.cursor_arg].
      by rewrite char_arg_ulid, Et. }
    unfold side_row in Hs. rewrite Hs. fold ms. unfold LIMIT. rewrite wrap64_small by (unfold int64_min, int64_max in *; lia).
    by rewrite (proj2 (Z.ltb_ge _ _)) by lia.
Qed.

Lemma sim_Followers sub cursor limit : simulates (CFollowers sub cursor limit).
Proof. by apply (sim_listSide _ sub cursor limit true). Qed.

Lemma sim_Following sub cursor limit : simulates (CFollowing sub cursor limit).
Proof. by apply (sim_listSide _ sub cursor limit false). Qed.
End follows.
