(* ===== verification/PgSimBadges.v ===== *)
(** * PostgreSQL against the specification: badges and their grants *)

From S2P Require Import Prelude Errors Monad GoStrings Domain.
From S2P Require Import MemUsers MemPosts MemLikes MemTags MemBadges MemFollows MemOGP Cursor Repository.
From S2P Require Import PgSql PgSchema PgSocial PgPosts PgOgp PgSim.

#[local] Open Scope Z_scope.

#[local] Existing Instances PgBadges.by_priority_dec PgBadges.by_badge_dec Badges.by_priority_dec Badges.by_priority_trans
  Badges.by_priority_total.

Section badges.
Context `{R : GoRuntime, Server : Postgres, !PostgresLaws}.

Lemma badge_id_iff id b : PgBadges.of_id id b = true <-> Badge.ID b = id.
Proof. apply bool_decide_eq_true. Qed.

Lemma badge_like T d k : related T d ->
  (exists x y, PgSchema.badges T !! k = Some x /\ Badges.badges (Repository.badges d) !! k = Some y /\ like x y) \/
  (PgSchema.badges T !! k = None /\ Badges.badges (Repository.badges d) !! k = None).
Proof. intros Hrel. apply like_lookup, Hrel. Qed.

Lemma sim_GetBadge id : simulates (CGetBadge id).
Proof.
  eapply refines_simulates; [done|]. intros n T d Hrel Hs. cbn in Hs. cbv beta. rewrite char_arg_ulid by done.
  eexists T, _, d, _. split; [done|]. split; [done|]. split; [|done].
  rewrite (SELECT_pk Badge.ID _ _ id) by (apply Hrel || intros r; apply badge_id_iff). unfold Badges.GetByID.
  destruct (badge_like T d id Hrel) as [(x & y & Hx & Hy & Hl)|[Hx Hy]]; rewrite Hx, Hy; [|done].
  rewrite (proj2 (badge_id_iff id x)) by (by apply (key_badges T (proj2 Hrel))). by apply like_Some.
Qed.

(** The rows with a key: the one the index names. *)
Lemma by_key_rows T d t key : related T d ->
  match SELECT t (PgBadges.of_key key) (rows (PgSchema.badges T)) with
  | x :: _ => exists y, Badges.byKey (Repository.badges d) !! key = Some (Badge.ID y) /\
      Badges.badges (Repository.badges d) !! Badge.ID y = Some y /\ like x y
  | [] => Badges.byKey (Repository.badges d) !! key = None
  end.
Proof.
  intros Hrel. destruct (rel_index _ _ (proj1 Hrel)) as [Hi Hb]. destruct (SELECT _ _ _) as [|x l] eqn:E.
  - destruct (Badges.byKey _ !! key) as [id|] eqn:Ei; [|done]. exfalso. destruct (Hi _ _ Ei) as (y & Hy & Hk).
    destruct (badge_like T d id Hrel) as [(x & y' & Hx & Hy' & Hl)|[_ Hn]]; [|congruence].
    assert (Hin : x ∈ SELECT t (PgBadges.of_key key) (rows (PgSchema.badges T))).
    { apply elem_of_SELECT. split; [|apply elem_of_rows; by eexists]. apply bool_decide_eq_true. unlike. congruence. }
    rewrite E in Hin. by apply elem_of_nil in Hin.
  - assert (Hin : x ∈ SELECT t (PgBadges.of_key key) (rows (PgSchema.badges T))) by (rewrite E; left).
    apply elem_of_SELECT in Hin as [Hk%bool_decide_eq_true [id Hx]%elem_of_rows].
    destruct (badge_like T d id Hrel) as [(x' & y & Hx' & Hy & Hl)|[Hn _]]; [|congruence].
    assert (x' = x) as -> by congruence. destruct (Hb _ _ Hy) as [Hid Hidx]. exists y. rewrite Hid.
    assert (Badge.Key y = key) as Ek by (clear -Hl Hk; unlike; congruence). rewrite Ek in Hidx. done.
Qed.

Lemma sim_BadgeByKey key : simulates (CBadgeByKey key).
Proof.
  eapply refines_simulates; [done|]. intros n T d Hrel Hs. cbn in Hs. cbv beta. rewrite (encoded_text _ Hs). cbn [require].
  pose proof (by_key_rows T d n key Hrel) as Hrows. cbn [expect]. unfold BadgeRepository.GetByKey_spec, Badges.GetByKey.
  destruct (SELECT _ _ _) as [|x l].
  - rewrite Hrows. eexists T, _, d, _. split; [done|]. split; [done|]. by split.
  - destruct Hrows as (y & Hi & Hy & Hl). rewrite Hi, Hy. eexists T, _, d, _. split; [done|]. split; [done|].
    split; [by apply like_Some|done].
Qed.

Lemma sim_ListBadges : simulates CListBadges.
Proof.
  apply (refines_simulates "list badges" (fun _ t T => inr (T, ORDER_BY PgBadges.by_priority
    (SELECT t (fun _ => true) (rows (PgSchema.badges T)))))); [by intros s _|].
  intros n T d Hrel _. eexists T, _, d, _. split; [done|]. split; [done|]. split; [|done]. cbn [similar].
  unfold Badges.ListAll, Badges.sortBadgesByPriority, ORDER_BY. rewrite !merge_sort_Permutation.
  rewrite (SELECT_like (H1 := sql_runtime) (fun _ => true) (fun _ => True) n n _ _ (rel_badges _ _ (proj1 Hrel))) by done.
  by rewrite list_filter_all.
Qed.

Lemma varchar_encoded n s t : varchar n s = Some t -> encoded s = true.
Proof. unfold varchar. by destruct (encoded s). Qed.

Lemma text_encoded s t : text s = Some t -> encoded s = true.
Proof. unfold text. by destruct (encoded s). Qed.

Lemma badges_row_inserted now b b' : badges_row b = Some b' ->
  badges_row (PgBadges.inserted now b) = Some (Badge.mk (Badge.ID b') (Badge.Key b') (Badge.Label b') (Badge.Description b')
    (Badge.IconURL b') (Badge.Color b') (Badge.Priority b')
    (usec (if IsZero (Badge.CreatedAt b) then now else Badge.CreatedAt b)) (usec now)).
Proof.
  unfold badges_row. cbn [PgBadges.inserted Badge.ID Badge.Key Badge.Label Badge.Description Badge.IconURL Badge.Color
    Badge.Priority Badge.CreatedAt Badge.UpdatedAt].
  repeat match goal with |- context [?x ≫= _] => destruct x; cbn [mbind option_bind]; [|done] end. by intros [= <-].
Qed.

Lemma badges_row_edited now b b' old : badges_row b = Some b' ->
  PgBadges.edited now b old = Some (Badge.mk (Badge.ID old) (Badge.Key old) (Badge.Label b') (Badge.Description b')
    (Badge.IconURL b') (Badge.Color b') (Badge.Priority b') (Badge.CreatedAt old) now) /\
  forallb encoded [Badge.Label b; Badge.Description b; Badge.IconURL b; Badge.Color b] = true.
Proof.
  unfold badges_row, PgBadges.edited. cbn [forallb].
  repeat match goal with |- context [?x ≫= _] => destruct x eqn:?; cbn [mbind option_bind]; [|done] end. intros [= <-].
  split; [done|].
  repeat match goal with
  | H : varchar _ ?s = Some _ |- context [encoded ?s] => rewrite (varchar_encoded _ _ _ H)
  | H : text ?s = Some _ |- context [encoded ?s] => rewrite (text_encoded _ _ H)
  end. done.
Qed.

Lemma sim_CreateBadge b : simulates (CCreateBadge b).
Proof.
  eapply refines_simulates; [done|]. intros n T d Hrel (Hs & (b' & Hrow & Hlike) & Hnew). cbv beta.
  rewrite (badges_row_inserted (NOW n) b b' Hrow). cbn [coerce or_fail Badge.ID Badge.Key].
  assert (Badge.ID b' = Badge.ID b) as -> by (unlike; congruence). assert (Badge.Key b' = Badge.Key b) as -> by (unlike; congruence).
  pose proof (by_key_rows T d n (Badge.Key b) Hrel) as Hrows. cbn [expect]. unfold BadgeRepository.Create_spec, Badges.Create.
  destruct (SELECT _ _ _) as [|x l].
  - rewrite Hrows. rewrite bool_decide_eq_true_2 by done. cbn [negb]. rewrite exists_row_eq, Hnew. cbn [negb require fst snd Badge.ID].
    assert (Hdnew : Badges.badges (Repository.badges d) !! Badge.ID b = None)
      by (destruct (badge_like T d (Badge.ID b) Hrel) as [(x & y & Hx & _)|[_ Hn]]; [congruence|done]).
    assert (Hl : like (Badge.mk (Badge.ID b) (Badge.Key b) (Badge.Label b') (Badge.Description b') (Badge.IconURL b')
      (Badge.Color b') (Badge.Priority b') (usec (if IsZero (Badge.CreatedAt b) then NOW n else Badge.CreatedAt b)) (usec (NOW n)))
      (Badge.mk (Badge.ID b) (Badge.Key b) (Badge.Label b) (Badge.Description b) (Badge.IconURL b) (Badge.Color b)
      (Badge.Priority b) (if IsZero (Badge.CreatedAt b) then NOW n else Badge.CreatedAt b) (NOW n))) by (unlike; relike).
    eexists _, _, _, _. split; [done|]. split; [done|]. split; [by apply like_Some|].
    apply related_badges; [done| | |done|].
    + apply keyed_put_at; [apply Hrel|done].
    + cbn [Badges.badges]. apply like_insert; [apply Hrel|done].
    + pose proof (Badges.Create_badge_wf (NOW n) b _ (rel_index _ _ (proj1 Hrel)) Hdnew) as Hwf.
      unfold Badges.Create in Hwf. by rewrite Hrows in Hwf.
  - destruct Hrows as (y & Hi & _). rewrite Hi. rewrite bool_decide_eq_false_2 by done. cbn [negb fst snd].
    eexists _, _, _, _. split; [done|]. split; [done|]. split; [done|]. by destruct d.
Qed.

Lemma sim_UpdateBadge b : simulates (CUpdateBadge b).
Proof.
  eapply refines_simulates; [done|]. intros n T d Hrel (Hs & (b' & Hrow & Hlike)). cbv beta. rewrite char_arg_ulid by done.
  rewrite (proj2 (badges_row_edited (NOW n) b b' b Hrow)). cbn [require].
  rewrite (UPDATE_pk Badge.ID _ _ (Badge.ID b)) by (apply Hrel || intros r; apply badge_id_iff).
  cbn [expect]. unfold BadgeRepository.Update_spec.
  pose proof (Badges.Update_wf (NOW n) b _ (rel_index _ _ (proj1 Hrel))) as Hwf. unfold Badges.Update in *.
  destruct (badge_like T d (Badge.ID b) Hrel) as [(x & y & Hx & Hy & Hxy)|[Hx Hy]]; rewrite Hx, Hy in *; cbn [fst snd].
  - pose proof (key_badges _ (proj2 Hrel) _ _ Hx) as Hk. rewrite (proj2 (badge_id_iff _ x)) by done.
    rewrite (proj1 (badges_row_edited (NOW n) b b' x Hrow)). cbn [mbind option_bind coerce or_fail head].
    match goal with |- context [Some (Badges.updated ?t ?e ?v)] => assert (Hl : like (Badge.mk (Badge.ID x) (Badge.Key x) (Badge.Label b')
      (Badge.Description b') (Badge.IconURL b') (Badge.Color b') (Badge.Priority b') (Badge.CreatedAt x) (NOW n)) (Badges.updated t e v)) end.
    { unfold Badges.updated. unlike. relike. }
    assert (Badge.ID (Badges.updated (NOW n) y b) = Badge.ID b) as Eid by (cbn; clear -Hxy Hk; unlike; congruence).
    eexists _, _, _, _. split; [done|]. split; [done|]. split; [by apply like_Some|].
    apply related_badges; [done| | |done|done].
    + apply keyed_put_at; [apply Hrel|done].
    + cbn [Badges.badges]. change (@clock _ n) with (NOW n). rewrite Eid. apply like_insert; [apply Hrel|done].
  - cbn [coerce or_fail head]. eexists _, _, _, _. split; [done|]. split; [done|]. split; [done|]. by destruct T, d.
Qed.

(** *** Grants *)

Lemma sim_Grant u b g e why : simulates (CGrant u b g e why).
Proof.
  eapply refines_simulates; [done|]. intros n T d Hrel (Hu & Hb & Hg & He & Hwhy & Hhu & Hhb). cbv beta.
  assert (user_badges_row (UserBadge.mk u b (NOW n) g e why) = Some (UserBadge.mk u b (NOW n) g e why)) as ->.
  { unfold user_badges_row. cbn [UserBadge.UserID UserBadge.BadgeID UserBadge.GrantedAt UserBadge.GrantedBy
      UserBadge.ExpiresAt UserBadge.Reason].
    rewrite (char_ulid u Hu). cbn [mbind option_bind]. rewrite (char_ulid b Hb). cbn [mbind option_bind].
    rewrite (char_ulid g Hg). cbn [mbind option_bind]. rewrite Hwhy. cbn [mbind option_bind]. by rewrite usec_NOW, He. }
  cbn [coerce or_fail UserBadge.UserID UserBadge.BadgeID]. rewrite !exists_row_holds by done. cbn [andb require].
  eexists _, _, _, _. split; [done|]. split; [done|]. split; [done|].
  apply related_grants; [done| | |done|done].
  - apply keyed_put_at; [apply Hrel|done].
  - cbn [Badges.userBadges Badges.Grant]. change (@clock _ n) with (NOW n). apply like_insert; [apply Hrel|done].
Qed.

Lemma grant_is_iff u b g :
  bool_decide (UserBadge.UserID g = u) && bool_decide (UserBadge.BadgeID g = b) = true <->
  (UserBadge.UserID g, UserBadge.BadgeID g) = (u, b).
Proof. rewrite andb_true_iff, !bool_decide_eq_true. naive_solver. Qed.

Lemma sim_Revoke u b : simulates (CRevoke u b).
Proof.
  eapply refines_simulates; [done|]. intros n T d Hrel (Hu & Hb). cbv beta. rewrite !char_arg_ulid by done.
  rewrite (DELETE_pk (fun g => (UserBadge.UserID g, UserBadge.BadgeID g)) _ (u, b)) by (apply Hrel || apply grant_is_iff).
  eexists _, _, _, _. split; [done|]. split; [done|]. split; [done|].
  apply related_grants; [done|apply keyed_drop, Hrel| |done|done]. cbn [Badges.userBadges Badges.Revoke]. apply like_delete, Hrel.
Qed.

(** The badge of a grant that counts, in the tables. *)
Definition granted_badge (w : UserBadge.t -> bool) (T : Tables) (g : UserBadge.t) : option Badge.t :=
  if w g then PgSchema.badges T !! UserBadge.BadgeID g else None.

Lemma granted_perm t w T : sound T ->
  SELECT t (fun x => w x.2) (PgBadges.granted T) ≡ₚ
    omap (fun g => b ← granted_badge w T g; Some (b, g)) (rows (PgSchema.user_badges T)).
Proof.
  intros Hs. rewrite SELECT_perm. unfold PgBadges.granted.
  assert (Hj : JOIN (fun b g => bool_decide (UserBadge.BadgeID g = Badge.ID b)) (rows (PgSchema.badges T))
      (rows (PgSchema.user_badges T)) ≡ₚ
    omap (fun g => b ← PgSchema.badges T !! UserBadge.BadgeID g; Some (b, g)) (rows (PgSchema.user_badges T))).
  { apply (JOIN_pk Badge.ID UserBadge.BadgeID); [apply Hs| |].
    - intros b g. rewrite bool_decide_eq_true. naive_solver.
    - eapply NoDup_table_rows, (key_grants _ Hs). }
  rewrite (filter_bool _ (fun x : Badge.t * UserBadge.t => w x.2 = true)) by done. rewrite Hj. clear Hj.
  unfold granted_badge. apply reflexive_eq. induction (rows (PgSchema.user_badges T)) as [|g l IH]; [done|].
  cbn [omap list_omap]. destruct (PgSchema.badges T !! UserBadge.BadgeID g) as [b|]; cbn [mbind option_bind].
  - rewrite filter_cons. cbn [snd]. destruct (w g); cbn [mbind option_bind].
    + rewrite decide_True by done. by rewrite IH.
    + rewrite decide_False by done. by rewrite IH.
  - destruct (w g); cbn [mbind option_bind]; by rewrite IH.
Qed.

(** One user's badges, in the tables and in the specification. *)
Lemma badges_of_like t n now u T d : related T d ->
  forget <$> (SELECT t (fun x => bool_decide (UserBadge.UserID x.2 = u) && PgBadges.active now x.2) (PgBadges.granted T)).*1
  ≡ₚ forget <$> Badges.ListByUserID (H := sql_runtime) now n u (Repository.badges d).
Proof.
  intros Hrel.
  pose proof (granted_perm t (fun g => bool_decide (UserBadge.UserID g = u) && PgBadges.active now g) T (proj2 Hrel)) as Hp.
  cbv beta in Hp. rewrite Hp. clear Hp.
  unfold Badges.ListByUserID, Badges.sortBadgesByPriority. rewrite merge_sort_Permutation. unfold range_map. rewrite go_range_perm.
  set (w := fun g => bool_decide (UserBadge.UserID g = u) && PgBadges.active now g).
  assert (E : (omap (fun g => b ← granted_badge w T g; Some (b, g)) (rows (PgSchema.user_badges T))).*1 =
    omap (granted_badge w T) (rows (PgSchema.user_badges T))).
  { induction (rows (PgSchema.user_badges T)) as [|g l IH]; [done|]. cbn [omap list_omap].
    destruct (granted_badge w T g); cbn [mbind option_bind fmap list_fmap fst]; by rewrite IH. }
  rewrite E. clear E.
  rewrite (omap_rows (Badges.userBadges (Repository.badges d)) _ (fun g => if bool_decide (UserBadge.UserID g = u)
    then Badges.grant_badge now (Repository.badges d) ((UserBadge.UserID g, UserBadge.BadgeID g), g) else None)).
  - apply omap_like; [apply rows_like, Hrel|]. intros x y _ _ Hxy. unfold granted_badge, w, Badges.grant_badge. cbn [fst snd].
    assert (UserBadge.UserID x = UserBadge.UserID y /\ UserBadge.BadgeID x = UserBadge.BadgeID y /\
      UserBadge.ExpiresAt x = UserBadge.ExpiresAt y) as (-> & -> & Ee) by (unlike; done).
    destruct (bool_decide (UserBadge.UserID y = u)); [|done]. cbn [andb].
    assert (PgBadges.active now x = Badges.active now y) as ->.
    { unfold PgBadges.active, Badges.active. rewrite Ee. destruct (UserBadge.ExpiresAt y) as [z|]; [|done]. unfold After.
      destruct (now <? z) eqn:El; symmetry; [apply bool_decide_eq_true_2|apply bool_decide_eq_false_2]; lia. }
    destruct (Badges.active now y); [|done].
    destruct (badge_like T d (UserBadge.BadgeID y) Hrel) as [(b & b' & Hb & Hb' & Hl)|[Hb Hb']]; rewrite Hb, Hb'; [|done].
    by apply like_Some.
  - intros k g Hg. cbn [fst snd].
    assert (Hk : (UserBadge.UserID g, UserBadge.BadgeID g) = k).
    { destruct (like_lookup (PgSchema.user_badges T) (Badges.userBadges (Repository.badges d)) k)
        as [(x & y & Hx & Hy & Hl)|[_ Hn]]; [apply Hrel| |congruence].
      pose proof (key_grants _ (proj2 Hrel) _ _ Hx) as Hkx. cbn in Hkx. assert (y = g) as -> by congruence.
      clear -Hl Hkx. unlike. congruence. }
    by rewrite <- Hk.
Qed.

Lemma sim_BadgesOf u : simulates (CBadgesOf u).
Proof.
  eapply refines_simulates; [done|]. intros n T d Hrel Hu. cbn in Hu. cbv beta. rewrite char_arg_ulid by done.
  eexists T, _, d, _. split; [done|]. split; [done|]. split; [|done]. cbn [similar]. unfold ORDER_BY.
  rewrite merge_sort_Permutation. by apply badges_of_like.
Qed.

Lemma sim_BadgesOfAll us : simulates (CBadgesOfAll us).
Proof.
  apply simulates_id. intros s d Hc Hrel Hus. cbn in Hus. unfold agrees. cbn [run]. unfold PgBadges.ListByUserIDs.
  case_bool_decide as Hnil.
  { subst. eexists s, _, d, _. split; [done|]. split; [done|]. split; [|done]. cbn [similar]. intros k.
    rewrite Badges.ListByUserIDs_lookup. rewrite bool_decide_eq_false_2; [done|]. by intros [?%elem_of_nil _]. }
  set (found := ORDER_BY PgBadges.by_badge (SELECT (pg_tick s) (fun x => bool_decide (UserBadge.UserID x.2 ∈ us) &&
    PgBadges.active (NOW (pg_tick s)) x.2) (PgBadges.granted (tables s)))).
  unfold bind. match goal with |- context [exec ?q] => rewrite (exec_ok _ q s (tables s) found) end;
    [|done|cbv beta; by rewrite char_args_ulid].
  eexists _, _, d, _. split; [done|]. split; [done|]. split; [|by split; [|apply connected_advance]].
  cbn [similar]. intros k. rewrite grouped, Badges.ListByUserIDs_lookup. subst found. unfold ORDER_BY.
  rewrite (filter_perm _ _ _ (merge_sort_Permutation PgBadges.by_badge _)).
  destruct (decide (k ∈ us)) as [Hk|Hk].
  - rewrite (SELECT_group (fun x : Badge.t * UserBadge.t => UserBadge.UserID x.2) _ us k _ (pg_tick s)) by done.
    rewrite (badges_of_like _ (pg_tick s)) by done. change (@clock _ (pg_tick s)) with (NOW (pg_tick s)).
    set (L := Badges.ListByUserID _ _ _ _). destruct (decide (L = [])) as [E|E].
    + rewrite bool_decide_eq_false_2 by tauto. by rewrite E.
    + by rewrite bool_decide_eq_true_2.
  - rewrite (SELECT_no_group (fun x : Badge.t * UserBadge.t => UserBadge.UserID x.2)) by done.
    rewrite bool_decide_eq_false_2 by tauto. done.
Qed.
End badges.
