(* ===== verification/PgSimPosts.v ===== *)
(** * PostgreSQL against the specification: posts and likes *)

From S2P Require Import Prelude Errors Monad GoStrings Domain.
From S2P Require Import MemUsers MemPosts MemLikes MemTags MemBadges MemFollows MemOGP Cursor Repository.
From S2P Require Import PgSql PgSchema PgSocial PgPosts PgOgp PgSim.

#[local] Open Scope Z_scope.

#[local] Existing Instance PgPosts.id_desc_dec.

Section posts.
Context `{R : GoRuntime, Server : Postgres, !PostgresLaws}.

Lemma like_live_post (x y : Post.t) : like x y -> Post.DeletedAt x = None <-> Post.DeletedAt y = None.
Proof. intros Hxy. unlike. by destruct (Post.DeletedAt x), (Post.DeletedAt y). Qed.

Lemma live_like (x y : Post.t) : like x y -> PgPosts.live x = Posts.live y.
Proof. intros Hxy. apply bool_decide_ext, like_live_post, Hxy. Qed.

Lemma post_id_iff id p : PgPosts.of_id id p = true <-> Post.ID p = id.
Proof. apply bool_decide_eq_true. Qed.

Lemma post_like T d k : related T d ->
  (exists x y, PgSchema.posts T !! k = Some x /\ Repository.posts d !! k = Some y /\ like x y /\ Post.ID x = k) \/
  (PgSchema.posts T !! k = None /\ Repository.posts d !! k = None).
Proof.
  intros Hrel. destruct (like_lookup _ _ k (rel_posts _ _ (proj1 Hrel))) as [(x & y & Hx & Hy & Hl)|?]; [left|by right].
  exists x, y. split; [done|]. split; [done|]. split; [done|]. exact (key_posts _ (proj2 Hrel) _ _ Hx).
Qed.

Lemma sim_GetPost id : simulates (CGetPost id).
Proof.
  eapply refines_simulates; [done|]. intros n T d Hrel Hs. cbn in Hs. cbv beta. rewrite char_arg_ulid by done.
  eexists T, _, d, _. split; [done|]. split; [done|]. split; [|done].
  rewrite (SELECT_pk Post.ID _ _ id) by (apply Hrel || intros r [Hr _]%andb_true_iff; by apply post_id_iff). unfold Posts.GetByID.
  destruct (post_like T d id Hrel) as [(x & y & Hx & Hy & Hl & Hk)|[Hx Hy]]; rewrite Hx, Hy; [|done].
  rewrite (proj2 (post_id_iff id x)) by done. rewrite (live_like _ _ Hl). destruct (Posts.live y); [by apply like_Some|done].
Qed.

(** Every UPDATE of one live post by its key. *)
Lemma sim_post_update what id (c : call unit) set f :
  run c = PgPosts.update what id set ->
  (forall T, legal c T -> ulid id) ->
  (forall n d, expect (R := sql_runtime) c n d = (with_posts (f n (Repository.posts d)) d, Ok tt)) ->
  similar c = eq ->
  (forall n T d, PgSchema.posts T !! id = None -> Repository.posts d !! id = None -> f n (Repository.posts d) = Repository.posts d) ->
  (forall n T d p x, related T d -> legal c T -> PgSchema.posts T !! id = Some p -> Repository.posts d !! id = Some x ->
     like p x -> if Posts.live x
       then exists p' x', set (NOW n) p = Some p' /\ f n (Repository.posts d) = <[id := x']> (Repository.posts d) /\
         like p' x' /\ Post.ID p' = id /\
         (0 <= Post.LikesCount p' < 2 ^ 31 /\ 0 <= Post.RepliesCount p' <= int64_max)
       else f n (Repository.posts d) = Repository.posts d) ->
  simulates c.
Proof.
  intros Hrun Hul Hexp Hsim Hnone Hstep. eapply refines_simulates; [intros s _; by rewrite Hrun|]. intros n T d Hrel Hl. cbv beta.
  rewrite char_arg_ulid by (by apply (Hul T)).
  rewrite (UPDATE_pk Post.ID _ _ id) by (apply Hrel || intros r [Hr _]%andb_true_iff; by apply post_id_iff).
  rewrite Hexp, Hsim.
  destruct (post_like T d id Hrel) as [(p & x & Hp & Hx & Hpx & Hk)|[Hp Hx]]; rewrite Hp.
  - rewrite (proj2 (post_id_iff id p)) by done. rewrite (live_like _ _ Hpx).
    specialize (Hstep n T d p x Hrel Hl Hp Hx Hpx). destruct (Posts.live x); cbn [andb].
    + destruct Hstep as (p' & x' & Hset & Hf & Hl' & Hk' & Hc). rewrite Hset, Hf. cbn.
      eexists _, tt, _, tt. split; [done|]. split; [done|]. split; [done|].
      assert (ulid id) as Hu by (by apply (Hul T)).
      apply related_post; [done| |done|done|done]. unfold like, forget in *. cbn in *. done.
    + rewrite Hstep. cbn. eexists _, tt, _, tt. split; [done|]. split; [done|]. split; [done|]. by destruct T, d.
  - rewrite (Hnone n T d Hp Hx). cbn. eexists _, tt, _, tt. split; [done|]. split; [done|]. split; [done|]. by destruct T, d.
Qed.

Lemma floored_at w z : 1 < w -> 0 <= z < 2 ^ (w - 1) -> PgUsers.floored w z = Some (if 0 <? z then z - 1 else z).
Proof.
  unfold PgUsers.floored. intros Hw Hz. assert (0 < 2 ^ (w - 1)) by lia. rewrite int_ok by lia.
  cbn. f_equal. destruct (0 <? z) eqn:E; lia.
Qed.

#[local] Ltac post_update id f :=
  eapply (sim_post_update _ id _ _ (fun _ => f id)); [done|by intros T; cbn; tauto|done|done| |];
  [intros n T d _ Hx; unfold f, Posts.update_live; by rewrite Hx|];
  intros n T d p x Hrel Hl Hp Hx Hpx;
  pose proof (key_posts T (proj2 Hrel) id p Hp) as Hk; pose proof (counts_posts T (proj2 Hrel) id p Hp) as [Hlk Hrp];
  cbn in Hl; unfold every, int64_max in *; unfold f, Posts.update_live; rewrite Hx;
  destruct (Posts.live x); [|done].

Lemma sim_IncReplies id : simulates (CIncReplies id).
Proof.
  post_update id Posts.IncrementRepliesCount. destruct Hl as [_ Hl]. specialize (Hl p Hp). cbn in Hl.
  rewrite int_ok by lia. eexists _, _. split; [done|]. split; [done|]. split; [|split; [done|cbn; lia]].
  unfold Posts.inc_replies. rewrite wrap64_small by (unlike; unfold int64_min, int64_max; lia). unlike. relike.
Qed.

Lemma sim_IncLikes id : simulates (CIncLikes id).
Proof.
  post_update id Posts.IncrementLikesCount. destruct Hl as [_ Hl]. specialize (Hl p Hp). cbn in Hl.
  rewrite int_ok by lia. eexists _, _. split; [done|]. split; [done|]. split; [|split; [done|cbn; lia]].
  unfold Posts.inc_likes. rewrite wrap64_small by (unlike; unfold int64_min, int64_max; lia). unlike. relike.
Qed.

Lemma sim_DecReplies id : simulates (CDecReplies id).
Proof.
  post_update id Posts.DecrementRepliesCount. rewrite floored_at by lia.
  eexists _, _. split; [done|]. split; [done|]. split; [|split; [done|]].
  - unfold Posts.dec_replies. assert (Post.RepliesCount x = Post.RepliesCount p) as -> by (unlike; congruence).
    unlike. destruct (0 <? Post.RepliesCount p) eqn:E; cbn [mbind option_bind]; relike.
  - cbn. destruct (0 <? Post.RepliesCount p) eqn:E; lia.
Qed.

Lemma sim_DecLikes id : simulates (CDecLikes id).
Proof.
  post_update id Posts.DecrementLikesCount. rewrite floored_at by lia.
  eexists _, _. split; [done|]. split; [done|]. split; [|split; [done|]].
  - unfold Posts.dec_likes. assert (Post.LikesCount x = Post.LikesCount p) as -> by (unlike; congruence).
    unlike. destruct (0 <? Post.LikesCount p) eqn:E; cbn [mbind option_bind]; relike.
  - cbn. destruct (0 <? Post.LikesCount p) eqn:E; lia.
Qed.

Lemma sim_DeletePost id : simulates (CDeletePost id).
Proof.
  eapply (sim_post_update _ id _ _ (fun n => Posts.Delete (NOW n) id)); [done|by intros T []|done|done| |].
  - intros n T d _ Hx. unfold Posts.Delete. by rewrite Hx.
  - intros n T d p x Hrel [_ Hl] Hp Hx Hpx. specialize (Hl p Hp). cbn in Hl.
    unfold Posts.live, Posts.Delete. rewrite bool_decide_eq_true_2 by (by apply (like_live_post _ _ Hpx)). rewrite Hx.
    eexists _, _. split; [done|]. split; [done|]. split; [|split].
    + unlike. relike.
    + exact (key_posts T (proj2 Hrel) id p Hp).
    + exact (counts_posts T (proj2 Hrel) id p Hp).
Qed.

(** *** Listings *)

#[local] Instance id_desc_trans : Transitive PgPosts.id_desc.
Proof. unfold PgPosts.id_desc. apply _. Qed.
#[local] Instance id_desc_total : Total PgPosts.id_desc.
Proof. unfold PgPosts.id_desc. apply _. Qed.

Lemma spec_post_key T d k x : related T d -> Repository.posts d !! k = Some x -> Post.ID x = k.
Proof.
  intros Hrel Hx. destruct (post_like T d k Hrel) as [(p & y & _ & Hy & Hl & Hk)|[_ Hn]]; [|congruence].
  assert (y = x) as -> by congruence. clear -Hl Hk. unlike. congruence.
Qed.

Lemma listing_like t n (wh flt : Post.t -> bool) cursor T d :
  related T d -> post_cursor cursor ->
  (forall p x, like p x -> PgPosts.live p && wh p = flt x) ->
  forget <$> ORDER_BY PgPosts.id_desc (SELECT t (fun p => PgPosts.live p && wh p && PgPosts.below cursor p) (rows (PgSchema.posts T)))
  = forget <$> Posts.collectDescending (H := sql_runtime) n flt cursor (Repository.posts d).
Proof.
  intros Hrel Hc Hw.
  assert (Hul : forall p t w, p ∈ SELECT t w (rows (PgSchema.posts T)) -> ulid (Post.ID p)).
  { intros p t' w [_ [k Hk]%elem_of_rows]%elem_of_SELECT. pose proof (key_posts _ (proj2 Hrel) _ _ Hk) as ->.
    apply (ulid_posts _ (proj2 Hrel)). by eexists. }
  unfold ORDER_BY, Posts.collectDescending, sort_desc. apply (sort_like PgPosts.id_desc (desc_by Post.ID)).
  - apply (SELECT_like (H1 := sql_runtime)); [apply Hrel|]. intros p x k Hk Hpx. rewrite andb_true_iff, (Hw p x Hpx).
    assert (PgPosts.below cursor p = Posts.below cursor x) as ->; [|tauto]. unfold PgPosts.below, Posts.below.
    destruct cursor as [c|]; [|done]. rewrite text_lt_iff; [| |by apply Hc].
    + assert (Post.ID p = Post.ID x) as -> by (unlike; done). done.
    + pose proof (key_posts _ (proj2 Hrel) _ _ Hk) as ->. apply (ulid_posts _ (proj2 Hrel)). by eexists.
  - done.
  - intros x y Hx%Hul Hy%Hul Hxy. unfold PgPosts.id_desc, DESC, by_text in Hxy. unfold desc_by. by apply text_le_iff in Hxy.
  - intros x y [_ ([k1 x'] & -> & Hx)%list_elem_of_fmap]%list_elem_of_filter
      [_ ([k2 y'] & -> & Hy)%list_elem_of_fmap]%list_elem_of_filter Hxy Hyx. cbn [snd] in *.
    assert (Post.ID x' = Post.ID y') as E by (by apply (anti_symm String.le)).
    apply elem_of_range_map in Hx, Hy. rewrite (spec_post_key T d _ _ Hrel Hx), (spec_post_key T d _ _ Hrel Hy) in E.
    assert (x' = y') as -> by congruence. done.
Qed.

Lemma page_like limit (l1 l2 : list Post.t) : 0 < limit < int64_max -> forget <$> l1 = forget <$> l2 ->
  exists b, Posts.paginate l2 limit = Ok b /\ like (PgPosts.scanPostPage limit (take (Z.to_nat (limit + 1)) l1)) b.
Proof.
  intros Hl E. assert (Hlen : length l1 = length l2) by (by rewrite <- (length_fmap forget l1), E, length_fmap).
  assert (Et : forall k, forget <$> take k l1 = forget <$> take k l2) by (intros k; by rewrite !fmap_take, E).
  unfold Posts.paginate, PgPosts.scanPostPage, slice_to. rewrite (proj2 (Z.leb_gt limit 0)) by lia.
  rewrite length_take, take_take, (Nat.min_l (Z.to_nat limit) (Z.to_nat (limit + 1))) by lia.
  destruct (Z.of_nat (length l2) <=? limit) eqn:El.
  - rewrite (proj2 (Z.ltb_ge _ _)) by lia. rewrite take_ge by lia. eexists. split; [done|]. unfold like, forget, forget_page.
    cbn [fst snd]. by f_equal.
  - rewrite (proj2 (Z.ltb_lt _ _)) by lia. rewrite last_lookup, length_take.
    replace (pred (Nat.min (Z.to_nat limit) (length l1))) with (Z.to_nat (limit - 1)) by lia.
    destruct (take (Z.to_nat limit) l2 !! Z.to_nat (limit - 1)) as [y|] eqn:Ey; last first.
    { apply lookup_ge_None in Ey. rewrite length_take in Ey. lia. }
    assert (Exy : forget <$> take (Z.to_nat limit) l1 !! Z.to_nat (limit - 1) = Some (forget y)).
    { rewrite <- list_lookup_fmap, Et, list_lookup_fmap, Ey. done. }
    destruct (take (Z.to_nat limit) l1 !! Z.to_nat (limit - 1)) as [x|]; [|done].
    assert (Hxy : like x y) by exact (Some_inj _ _ Exy). clear Exy. eexists. split; [done|]. unfold like, forget, forget_page. cbn [fst snd]. f_equal; [apply Et|].
    clear -Hxy. unlike. done.
Qed.

Lemma cursor_arg_ok cursor : post_cursor cursor -> PgPosts.cursor_arg cursor = inr cursor.
Proof.
  intros Hc. unfold PgPosts.cursor_arg. destruct cursor as [c|]; [|done]. specialize (Hc c eq_refl).
  rewrite bool_decide_eq_false_2; [by rewrite char_arg_ulid|]. intros ->. by destruct (IsULID_inv _ Hc).
Qed.

(** The three listings are one query. *)
Lemma sim_listing (c : call (list Post.t * string)) what q wh flt cursor limit :
  0 < limit ->
  run c = (bind (make_cap limit (wrap what (exec q))) (fun found => ret (PgPosts.scanPostPage limit found))) ->
  similar c = like ->
  (forall n T, legal c T -> q (NOW n) n T = (sql! found := PgPosts.list_query wh (wrap64 (limit + 1)) cursor n T in inr (T, found))) ->
  (forall T, legal c T -> post_cursor cursor /\ limit <= 2 ^ 45) ->
  (forall n d, expect (R := sql_runtime) c n d =
     (d, Posts.paginate (Posts.collectDescending (H := sql_runtime) n flt cursor (Repository.posts d)) limit)) ->
  (forall p x, like p x -> PgPosts.live p && wh p = flt x) ->
  simulates c.
Proof.
  intros Hpos Hrun Hsim Hq Hleg Hexp Hw. apply simulates_id. intros s d Hc Hrel Hl. unfold agrees. rewrite Hrun, Hsim, Hexp.
  destruct (Hleg _ Hl) as [Hcur Hmax].
  pose proof (listing_like (pg_tick s) (pg_tick s) wh flt cursor _ _ Hrel Hcur Hw) as Hlist.
  assert (Hlim : 0 < limit < int64_max) by (unfold int64_max; lia).
  destruct (page_like limit _ _ Hlim Hlist) as (b & Hb & Hlike). rewrite Hb.
  unfold bind. rewrite make_cap_ok by done. erewrite (exec_ok what q s (tables s)); [|done|].
  - eexists _, _, d, b. split; [done|]. split; [done|]. split; [exact Hlike|]. split; [done|by apply connected_advance].
  - rewrite (Hq _ _ Hl). unfold PgPosts.list_query. rewrite cursor_arg_ok by done. unfold LIMIT.
    rewrite wrap64_small by (unfold int64_min, int64_max in *; lia). by rewrite (proj2 (Z.ltb_ge _ _)) by lia.
Qed.

(** A page of nothing. *)
Lemma sim_no_page (c : call (list Post.t * string)) :
  run c = ret ([], "") -> similar c = like -> (forall n d, expect (R := sql_runtime) c n d = (d, Ok ([], ""))) -> simulates c.
Proof.
  intros Hrun Hsim Hexp. apply simulates_id. intros s d Hc Hrel _. unfold agrees. rewrite Hrun, Hsim, Hexp.
  eexists s, _, d, _. split; [done|]. split; [done|]. done.
Qed.

Lemma post_fields (p x : Post.t) : like p x ->
  PgPosts.live p = Posts.live x /\ Post.UserID p = Post.UserID x /\ Post.ParentPostID p = Post.ParentPostID x.
Proof. intros Hpx. split; [by apply live_like|]. by unlike. Qed.

Definition by_author (user : option string) (p : Post.t) : bool :=
  match user with Some u => bool_decide (Post.UserID p = u) | None => true end.

Lemma sim_ListPosts user cursor limit : simulates (CListPosts user cursor limit).
Proof.
  destruct (limit <=? 0) eqn:El.
  { apply sim_no_page; [|done|].
    - cbn [run]. unfold PgPosts.List. by rewrite El.
    - intros n d. cbn [expect]. unfold PostRepository.List_spec, Posts.List, Posts.paginate. by rewrite El. }
  eapply (sim_listing _ "list posts" _ (fun p => PgPosts.top_level p && by_author user p) (Posts.feed_filter user) cursor limit);
    [lia| |done| | |done|].
  - cbn [run]. unfold PgPosts.List. rewrite El. done.
  - intros n T (Hu & _). destruct user as [u|]; [|done]. by rewrite (char_arg_ulid u) by (by apply Hu).
  - by intros T (_ & ?).
  - intros p x Hpx. destruct (post_fields p x Hpx) as (Hl & Hu & Hp). unfold Posts.feed_filter, PgPosts.top_level, by_author.
    rewrite Hl, Hu, Hp. by rewrite <- andb_assoc, (andb_comm (bool_decide (Post.ParentPostID x = None))).
Qed.

Lemma sim_ListByAuthors us cursor limit : simulates (CListByAuthors us cursor limit).
Proof.
  destruct ((limit <=? 0) || bool_decide (us = [])) eqn:El.
  { apply sim_no_page; [|done|].
    - cbn [run]. unfold PgPosts.ListByUserIDs. by rewrite El.
    - intros n d. cbn [expect]. unfold PostRepository.ListByUserIDs_spec, Posts.ListByUserIDs, Posts.paginate.
      destruct (limit <=? 0) eqn:El'; [done|]. apply bool_decide_eq_true in El as ->.
      assert (Posts.collectDescending (H := sql_runtime) n (Posts.authors_filter []) cursor (Repository.posts d) = []) as ->.
      { unfold Posts.collectDescending. rewrite list_filter_none; [done|]. intros x _ [Hx _]. unfold Posts.authors_filter in Hx.
        rewrite (bool_decide_eq_false_2 (Post.UserID x ∈ set_of [])) in Hx by (rewrite elem_of_set_of; by intros ?%elem_of_nil).
        by rewrite andb_false_r in Hx. }
      cbn [length]. by rewrite (proj2 (Z.leb_le _ _)) by lia. }
  eapply (sim_listing _ "list posts by user ids" _ (fun p => PgPosts.top_level p && bool_decide (Post.UserID p ∈ us))
    (Posts.authors_filter us) cursor limit); [lia| |done| | |done|].
  - cbn [run]. unfold PgPosts.ListByUserIDs. rewrite El. done.
  - intros n T (Hu & _). by rewrite char_args_ulid by done.
  - by intros T (_ & ?).
  - intros p x Hpx. destruct (post_fields p x Hpx) as (Hl & Hu & Hp). unfold Posts.authors_filter, PgPosts.top_level.
    rewrite Hl, Hu, Hp. rewrite (bool_decide_ext (Post.UserID x ∈ set_of us) (Post.UserID x ∈ us)) by apply elem_of_set_of.
    by rewrite <- andb_assoc, (andb_comm (bool_decide (Post.ParentPostID x = None))).
Qed.

Lemma sim_ListReplies id cursor limit : simulates (CListReplies id cursor limit).
Proof.
  destruct (limit <=? 0) eqn:El.
  { apply sim_no_page; [|done|].
    - cbn [run]. unfold PgPosts.ListReplies. by rewrite El.
    - intros n d. cbn [expect]. unfold PostRepository.ListReplies_spec, Posts.ListReplies, Posts.paginate. by rewrite El. }
  eapply (sim_listing _ "list replies" _ (fun p => bool_decide (Post.ParentPostID p = Some id)) (Posts.replies_filter id) cursor limit);
    [lia| |done| | |done|].
  - cbn [run]. unfold PgPosts.ListReplies. rewrite El. done.
  - intros n T (Hu & _). by rewrite char_arg_ulid by done.
  - by intros T (_ & ?).
  - intros p x Hpx. destruct (post_fields p x Hpx) as (Hl & Hu & Hp). unfold Posts.replies_filter. by rewrite Hl, Hp.
Qed.
End posts.

(** ** Likes *)

Section likes.
Context `{R : GoRuntime, Server : Postgres, !PostgresLaws}.

Lemma default_row (ls : Likes.state) u p : default ∅ (ls !! u) !! p = ls !! u ≫= (.!! p).
Proof. destruct (ls !! u); [done|]. cbn. apply lookup_empty. Qed.

Lemma sim_Like u p : simulates (CLike u p).
Proof.
  eapply refines_simulates; [done|]. intros n T d Hrel (Hu & Hp & Hhu & Hhp). cbv beta.
  rewrite !char_ulid by done. cbn [coerce or_fail]. rewrite exists_row_eq, (rel_likes _ _ (proj1 Hrel)).
  cbn [expect]. unfold LikeRepository.Create_spec, Likes.Create. rewrite default_row.
  destruct (Repository.likes d !! u ≫= (.!! p)) as [t|] eqn:E; cbn [fst snd].
  - eexists _, _, _, _. split; [done|]. split; [done|]. split; [done|].
    assert (<[u := default ∅ (Repository.likes d !! u)]> (Repository.likes d) = Repository.likes d) as ->.
    { apply insert_id. destruct (Repository.likes d !! u) as [m|]; [done|]. done. }
    by destruct d.
  - rewrite !exists_row_holds by done. cbn [andb require]. eexists _, _, _, _. split; [done|]. split; [done|]. split; [done|].
    apply related_likes; [done|]. intros u' p'. rewrite insert_insert_eq. change (@clock _ n) with (NOW n).
    destruct (decide (u' = u)) as [->|Hne].
    + rewrite (lookup_insert_eq (Repository.likes d)). cbn [mbind option_bind]. destruct (decide (p' = p)) as [->|Hp'].
      * by rewrite !lookup_insert_eq.
      * rewrite lookup_insert_ne by congruence. rewrite (lookup_insert_ne (default ∅ _)) by done. rewrite default_row. apply Hrel.
    + rewrite (lookup_insert_ne (Repository.likes d)) by done. rewrite lookup_insert_ne by congruence. apply Hrel.
Qed.

Lemma sim_Unlike u p : simulates (CUnlike u p).
Proof.
  eapply refines_simulates; [done|]. intros n T d Hrel (Hu & Hp). cbv beta. rewrite !char_arg_ulid by done.
  rewrite exists_row_eq, (rel_likes _ _ (proj1 Hrel)). cbn [expect]. unfold LikeRepository.Delete_spec, Likes.Delete.
  eexists _, _, _, _. split; [done|]. split; [done|].
  assert (Hother : forall xs : Likes.state, (forall u' p', xs !! u' ≫= (.!! p') =
      if bool_decide (u' = u /\ p' = p) then None else Repository.likes d !! u' ≫= (.!! p')) ->
    related (set_likes (delete (u, p) (PgSchema.likes T)) T) (with_likes xs d)).
  { intros xs Hxs. apply related_likes; [done|]. intros u' p'. rewrite Hxs. case_bool_decide as E.
    - destruct E as [-> ->]. apply lookup_delete_eq.
    - rewrite lookup_delete_ne by (intros [= <- <-]; by apply E). apply Hrel. }
  destruct (Repository.likes d !! u) as [m|] eqn:Eu; cbn [mbind option_bind].
  - destruct (m !! p) as [t|] eqn:Ep; cbn [fst snd]; (split; [done|]); apply Hother; intros u' p'.
    + destruct (decide (u' = u)) as [->|Hne]; [|by rewrite lookup_insert_ne, bool_decide_eq_false_2 by naive_solver].
      rewrite lookup_insert_eq. cbn [mbind option_bind]. destruct (decide (p' = p)) as [->|Hp'].
      * by rewrite lookup_delete_eq, bool_decide_eq_true_2.
      * rewrite lookup_delete_ne, bool_decide_eq_false_2 by naive_solver. by rewrite Eu.
    + case_bool_decide as E; [|done]. destruct E as [-> ->]. by rewrite Eu.
  - split; [done|]. cbn [fst snd]. apply Hother. intros u' p'. case_bool_decide as E; [|done]. destruct E as [-> ->]. by rewrite Eu.
Qed.

Lemma liked_row T d u p : related T d -> Likes.liked (Repository.likes d) u p <-> is_Some (PgSchema.likes T !! (u, p)).
Proof.
  intros Hrel. rewrite (rel_likes _ _ (proj1 Hrel)), Likes.liked_lookup. destruct (Repository.likes d !! u); naive_solver.
Qed.

Lemma sim_IsLiked u p : simulates (CIsLiked u p).
Proof.
  eapply refines_simulates; [done|]. intros n T d Hrel (Hu & Hp). cbv beta. rewrite !char_arg_ulid by done.
  eexists T, _, d, _. split; [done|]. split; [done|]. split; [|done]. cbn [similar].
  pose proof (liked_row T d u p Hrel) as Hl. unfold Likes.liked in Hl.
  set (found := SELECT _ _ _). assert (Hf : found <> [] <-> is_Some (PgSchema.likes T !! (u, p))).
  { subst found. split.
    - destruct (SELECT _ _ _) as [|[k t] l] eqn:E; [done|]. intros _.
      assert (Hin : (k, t) ∈ SELECT n (fun l : PgLikes.like => bool_decide (l.1 = (u, p))) (PgLikes.all T)) by (rewrite E; left).
      apply elem_of_SELECT in Hin as [Hk%bool_decide_eq_true Hin%elem_of_map_to_list]. cbn in Hk. subst. by eexists.
    - intros [t Ht] E.
      assert (Hin : ((u, p), t) ∈ SELECT n (fun l : PgLikes.like => bool_decide (l.1 = (u, p))) (PgLikes.all T)).
      { apply elem_of_SELECT. split; [by apply bool_decide_eq_true|]. by apply elem_of_map_to_list. }
      rewrite E in Hin. by apply elem_of_nil in Hin. }
  destruct (Likes.IsLikedBy u p (Repository.likes d)).
  - rewrite bool_decide_eq_false_2; [done|]. apply Hf, Hl. done.
  - rewrite bool_decide_eq_true_2; [done|]. destruct found as [|x l]; [done|]. exfalso.
    assert (false = true) as [=]. by apply Hl, Hf.
Qed.

Lemma sim_LikedPosts u ps : simulates (CLikedPosts u ps).
Proof.
  apply simulates_id. intros s d Hc Hrel [Hu Hps]. unfold agrees. cbn [run]. unfold PgLikes.ListLikedPostIDsByUser.
  case_bool_decide as Hnil.
  { subst. eexists s, _, d, _. split; [done|]. split; [done|]. split; [|by split]. cbn [similar]. apply map_eq. intros k.
    rewrite lookup_empty, Likes.ListLiked_lookup. rewrite bool_decide_eq_false_2; [done|]. by intros [?%elem_of_nil _]. }
  set (found := (fun l : PgLikes.like => l.1.2) <$> SELECT (pg_tick s) (fun l : PgLikes.like => bool_decide (l.1.1 = u) &&
    bool_decide (l.1.2 ∈ ps)) (PgLikes.all (tables s))).
  unfold bind. match goal with |- context [exec ?q] => rewrite (exec_ok _ q s (tables s) found) end;
    [|done|cbv beta; by rewrite char_arg_ulid, char_args_ulid].
  eexists _, _, d, _. split; [done|]. split; [done|]. split; [|by split; [|apply connected_advance]].
  cbn [similar]. apply map_eq. intros k. apply option_eq. intros b. rewrite Likes.ListLiked_lookup.
  rewrite (collect_rows (fun x => x) (fun _ => true)) by done.
  subst found. setoid_rewrite list_elem_of_fmap. setoid_rewrite elem_of_SELECT.
  case_bool_decide as Hf.
  - destruct Hf as [Hin [t Ht]%(liked_row _ _ _ _ Hrel)]. split; [by intros (_ & _ & _ & <-)|]. intros [= <-].
    exists k. split; [|done]. exists ((u, k), t). split; [done|]. cbn [fst snd]. rewrite !bool_decide_eq_true_2 by done.
    split; [done|]. by apply elem_of_map_to_list.
  - split; [|done]. intros (x & ([[u' k'] t] & -> & Hw & Hin%elem_of_map_to_list) & <- & <-). exfalso. apply Hf. cbn [fst snd] in *.
    apply andb_true_iff in Hw as [E1%bool_decide_eq_true E2%bool_decide_eq_true]. subst. split; [done|].
    apply (liked_row _ _ _ _ Hrel). by eexists.
Qed.
End likes.
