(* ===== verification/PgSimLinks.v ===== *)
(** * PostgreSQL against the specification: creating a post and its links *)

From S2P Require Import Prelude Errors Monad GoStrings Domain.
From S2P Require Import MemUsers MemPosts MemLikes MemTags MemBadges MemFollows MemOGP Cursor Repository.
From S2P Require Import PgSql PgSchema PgSocial PgPosts PgOgp PgSim.

#[local] Open Scope Z_scope.

(** ** Previews of a post *)

Section attach.
Context `{R : GoRuntime, Server : Postgres, !PostgresLaws}.

Lemma attach_taken T d p h n : related T d ->
  exists_row (p, h) (post_ogp T) ||
    existsb (fun kv : (string * string) * Z => bool_decide (kv.1.1 = p) && bool_decide (kv.2 = n)) (map_to_list (post_ogp T)) =
  existsb (fun l => bool_decide (Links.URLHash l = h) || bool_decide (Links.Position l = n)) (Links.ogps p (Repository.links d)).
Proof.
  intros Hrel. pose proof (rel_post_ogp _ _ (proj1 Hrel)) as Ho. apply eq_true_iff_eq.
  rewrite orb_true_iff, !existsb_exists. unfold exists_row. rewrite bool_decide_eq_true. split.
  - intros [[m Hm]|([[q h'] m] & Hin & Hw)].
    + exists (Links.mkLink h m). rewrite <- list_elem_of_In. split; [by apply Ho|]. by rewrite bool_decide_eq_true_2.
    + apply list_elem_of_In, elem_of_map_to_list in Hin. cbn in Hw.
      apply andb_true_iff in Hw as [->%bool_decide_eq_true ->%bool_decide_eq_true].
      exists (Links.mkLink h' n). rewrite <- list_elem_of_In. split; [by apply Ho|]. cbn. by rewrite (bool_decide_eq_true_2 (n = n)), orb_true_r.
  - intros ([h' m] & Hin%list_elem_of_In & Hw). apply Ho in Hin. cbn in Hw.
    apply orb_true_iff in Hw as [->%bool_decide_eq_true| ->%bool_decide_eq_true]; [left; by eexists|right].
    exists ((p, h'), n). rewrite <- list_elem_of_In. split; [by apply elem_of_map_to_list|]. cbn. by rewrite !bool_decide_eq_true_2.
Qed.

Lemma sim_AttachOGP p h n : simulates (CAttachOGP p h n).
Proof.
  eapply refines_simulates; [done|]. intros t T d Hrel (Hp & Hh & Hn & Hhp & Hhh). cbv beta.
  rewrite (char_ulid p Hp), Hh, Hn. cbn [coerce or_fail]. rewrite (attach_taken T d p h n Hrel). cbn [expect].
  unfold PostRepository.AttachOGP_spec, Repository.update, Posts.AttachOGP.
  pose proof (Links.attachOGP_wf p h n _ (rel_sorted _ _ (proj1 Hrel))) as Hwf.
  pose proof (fun q => Links.attachOGP_ogps p h n (Repository.links d) q) as Hq.
  destruct (existsb _ (Links.ogps p _)) eqn:E.
  - eexists _, _, _, _. split; [done|]. split; [done|]. split; [done|]. unfold Links.attachOGP. rewrite E. by destruct d.
  - rewrite !exists_row_holds by done. cbn [andb require]. eexists _, _, _, _. split; [done|]. split; [done|]. split; [done|].
    destruct T as [u ps pi pt po i l tg b ub f oc oj].
    apply (related_links (mkTables u ps pi pt po i l tg b ub f oc oj) d pi pt); [done| | | |done|apply Hrel|apply Hrel].
    + unfold Links.attachOGP. rewrite E. apply (rel_post_images _ _ (proj1 Hrel)).
    + unfold Links.attachOGP. rewrite E. apply (rel_post_tags _ _ (proj1 Hrel)).
    + intros q h' m. rewrite Hq. apply Links.attachOGP_existsb_false in E as [Eh En].
      pose proof (rel_post_ogp _ _ (proj1 Hrel) q h' m) as Ho. cbn in Ho.
      destruct (decide (q = p)) as [->|Hne].
      * rewrite bool_decide_eq_true_2 by done. rewrite merge_sort_Permutation, elem_of_app, list_elem_of_singleton.
        destruct (decide (h' = h)) as [->|Hh'].
        -- rewrite lookup_insert_eq. split; [intros [= ->]; by right|]. intros [Hin|[= ->]]; [|done].
           exfalso. apply Eh, list_elem_of_fmap. by exists (Links.mkLink h m).
        -- rewrite lookup_insert_ne by congruence. rewrite Ho. split; [by left|]. intros [?|[= ? ?]]; done.
      * rewrite bool_decide_eq_false_2 by tauto. by rewrite lookup_insert_ne by congruence.
Qed.
End attach.

(** ** Creating a post *)

Section create.
Context `{R : GoRuntime, Server : Postgres, !PostgresLaws}.

(** The rows that the loops of [Create] insert. *)
Definition with_images_of (p : string) (l : list (nat * string)) (m : gmap (string * string) Z) : gmap (string * string) Z :=
  foldl (fun m x => <[(p, x.2) := Z.of_nat x.1]> m) m l.

Definition with_tags_of (p : string) (l : list string) (m : gset (string * string)) : gset (string * string) :=
  foldl (fun m g => {[(p, g)]} ∪ m) m l.

Lemma elem_of_with_tags p l m q g : (q, g) ∈ with_tags_of p l m <-> (q = p /\ g ∈ l) \/ (q, g) ∈ m.
Proof.
  unfold with_tags_of. revert m. induction l as [|x l IH]; intros m; cbn [foldl]; [set_solver|].
  rewrite IH, elem_of_cons, elem_of_union, elem_of_singleton. naive_solver.
Qed.

Lemma lookup_with_images p l m q i n : NoDup l.*2 ->
  with_images_of p l m !! (q, i) = Some n <->
  (q = p /\ exists k, (k, i) ∈ l /\ n = Z.of_nat k) \/ (m !! (q, i) = Some n /\ (q <> p \/ i ∉ l.*2)).
Proof.
  unfold with_images_of. revert m. induction l as [|[k x] l IH]; intros m; cbn [foldl fst snd].
  { intros _. split; [intros Hm; right; split; [done|right; apply not_elem_of_nil]|].
    intros [(_ & k & Hk%elem_of_nil & _)|[? _]]; done. }
  rewrite fmap_cons, NoDup_cons. cbn [snd]. intros [Hx Hnd]. rewrite IH by done. rewrite not_elem_of_cons. split.
  - intros [(-> & j & Hj & ->)|[Hm Hn]]; [left; split; [done|]; exists j; split; [by right|done]|].
    apply lookup_insert_Some in Hm as [[[= -> ->] <-]|[Hne Hm]].
    + left. split; [done|]. exists k. split; [left|done].
    + right. split; [done|]. destruct Hn as [?|?]; [by left|]. destruct (decide (q = p)) as [->|]; [|by left].
      right. split; [congruence|done].
  - intros [(-> & j & [[= -> ->]|Hj]%elem_of_cons & ->)|[Hm Hn]].
    + right. rewrite lookup_insert_eq. split; [done|by right].
    + left. split; [done|]. by exists j.
    + right. rewrite lookup_insert_ne; [split; [done|naive_solver]|]. intros [= -> ->]. naive_solver.
Qed.

(** A statement of an open transaction. *)
Definition in_tx (t : nat) (s : PG) : Prop := tx s = Some t /\ forall n, (pg_tick s <= n)%nat -> link n = Carried.

Lemma exec_tx {A} what (q : statement A) t s T a :
  in_tx t s -> q (NOW t) (pg_tick s) (tables s) = inr (T, a) ->
  wrap what (exec q) s = (set_tables T (advance s), Ok a) /\ in_tx t (set_tables T (advance s)).
Proof.
  intros [Htx Hb] Hq. unfold wrap, map_err, exec. rewrite Htx, Hb by done. cbn. rewrite Hq. split; [done|].
  split; [done|]. cbn. intros n Hn. apply Hb. lia.
Qed.

Lemma insert_image_ok p i k now t T :
  ulid p -> ulid i -> (k < 4)%nat -> holds (PgSchema.posts T) p -> holds (PgSchema.images T) i ->
  post_images T !! (p, i) = None -> (forall j, post_images T !! (p, j) <> Some (Z.of_nat k)) ->
  PgPosts.insert_post_image p i (Z.of_nat k) now t T = inr (set_post_images (<[(p, i) := Z.of_nat k]> (post_images T)) T, tt).
Proof.
  intros Hp Hi Hk Hhp Hhi Hnew Hpos. unfold PgPosts.insert_post_image. rewrite !char_ulid by done. rewrite int_ok by lia.
  cbn [coerce or_fail]. rewrite (proj2 (andb_true_iff _ _)) by (rewrite Z.leb_le, Z.ltb_lt; lia). cbn [require].
  rewrite exists_row_eq, Hnew. cbn [negb andb].
  assert (forallb (fun kv : (string * string) * Z => negb (bool_decide (kv.1.1 = p) && bool_decide (kv.2 = Z.of_nat k)))
    (map_to_list (post_images T)) = true) as ->.
  { rewrite forallb_forall. intros [[q j] m] Hin%list_elem_of_In%elem_of_map_to_list. cbn.
    destruct (decide (q = p)) as [->|]; [|by rewrite bool_decide_eq_false_2 by done].
    rewrite (bool_decide_eq_false_2 (m = Z.of_nat k)), andb_false_r; [done|]. intros ->. by apply (Hpos j). }
  cbn [require]. by rewrite !exists_row_holds.
Qed.

Lemma attach_images p l : forall t s,
  in_tx t s -> ulid p -> holds (PgSchema.posts (tables s)) p -> NoDup l.*2 -> NoDup l.*1 ->
  (forall k i, (k, i) ∈ l -> ulid i /\ (k < 4)%nat /\ holds (PgSchema.images (tables s)) i /\
     post_images (tables s) !! (p, i) = None /\ (forall j, post_images (tables s) !! (p, j) <> Some (Z.of_nat k))) ->
  exists s', for_each (fun x => wrap "attach image" (exec (PgPosts.insert_post_image p x.2 (Z.of_nat x.1)))) l s = (s', Ok tt) /\
    tables s' = set_post_images (with_images_of p l (post_images (tables s))) (tables s) /\ in_tx t s' /\
    (pg_tick s <= pg_tick s')%nat.
Proof.
  induction l as [|[k i] l IH]; intros t s Ht Hp Hhp Hnd Hnd1 Hall.
  { exists s. split; [done|]. split; [by destruct (tables s)|]. done. }
  cbn [for_each]. rewrite fmap_cons in Hnd; rewrite fmap_cons in Hnd1. apply NoDup_cons in Hnd as [Hi Hnd]. apply NoDup_cons in Hnd1 as [Hk Hnd1].
  cbn [fst snd] in *. destruct (Hall k i ltac:(left)) as (Hu & Hk4 & Hhi & Hnew & Hpos).
  destruct (exec_tx "attach image" _ t s _ tt Ht (insert_image_ok p i k (NOW t) (pg_tick s) (tables s) Hp Hu Hk4 Hhp Hhi Hnew Hpos))
    as [E Ht']. unfold bind. rewrite E.
  destruct (IH t _ Ht' Hp Hhp Hnd Hnd1) as (s' & -> & Htab & Hts & Htick).
  - intros k' i' Hin. destruct (Hall k' i' ltac:(by right)) as (Hu' & Hk' & Hh' & Hn' & Hp').
    assert (i' <> i) by (intros ->; apply Hi; apply list_elem_of_fmap; by exists (k', i)).
    assert (k' <> k) by (intros ->; apply Hk; apply list_elem_of_fmap; by exists (k, i')).
    split; [done|]. split; [done|]. split; [done|]. cbn. split.
    + by rewrite lookup_insert_ne by congruence.
    + intros j. destruct (decide (j = i)) as [->|].
      * rewrite lookup_insert_eq. intros [= Hz]. lia.
      * rewrite lookup_insert_ne by congruence. apply Hp'.
  - exists s'. split; [done|]. split; [by rewrite Htab|]. split; [done|]. cbn in Htick. lia.
Qed.

Lemma attach_tags p l : forall t s,
  in_tx t s -> ulid p -> holds (PgSchema.posts (tables s)) p -> ulids l -> Forall (holds (PgSchema.tags (tables s))) l ->
  exists s', for_each (fun g => wrap "attach tag" (exec (PgPosts.insert_post_tag p g))) l s = (s', Ok tt) /\
    tables s' = set_post_tags (with_tags_of p l (post_tags (tables s))) (tables s) /\ in_tx t s' /\
    (pg_tick s <= pg_tick s')%nat.
Proof.
  induction l as [|g l IH]; intros t s Ht Hp Hhp Hu Hh.
  { exists s. split; [done|]. split; [by destruct (tables s)|]. done. }
  apply Forall_cons in Hu as [Hg Hu], Hh as [Hhg Hh]. cbn [for_each].
  assert (Hq : PgPosts.insert_post_tag p g (NOW t) (pg_tick s) (tables s) =
    inr (set_post_tags ({[(p, g)]} ∪ post_tags (tables s)) (tables s), tt)).
  { unfold PgPosts.insert_post_tag. rewrite !char_ulid by done. cbn [coerce or_fail]. case_bool_decide as Hin.
    - assert ({[(p, g)]} ∪ post_tags (tables s) = post_tags (tables s)) as -> by set_solver. by destruct (tables s).
    - by rewrite !exists_row_holds. }
  destruct (exec_tx "attach tag" _ t s _ tt Ht Hq) as [E Ht']. unfold bind. rewrite E.
  destruct (IH t _ Ht' Hp Hhp Hu Hh) as (s' & -> & Htab & Hts & Htick).
  exists s'. split; [done|]. split; [by rewrite Htab|]. split; [done|]. cbn in Htick. lia.
Qed.

(** [WithTx] around a body that succeeds. *)
Definition begun (s : PG) : PG := mkPG (S (pg_tick s)) (Some (pg_tick s)) (tables s) (minted s).
Definition committed (s : PG) : PG := mkPG (S (pg_tick s)) None (tables s) (minted s).

Lemma begun_tx s : connected s -> in_tx (pg_tick s) (begun s).
Proof. intros [_ Hb]. split; [done|]. cbn. intros n Hn. apply Hb. lia. Qed.

Lemma WithTx_ok {A} (fn : M PG A) t s s' a :
  connected s -> fn (begun s) = (s', Ok a) -> in_tx t s' -> WithTx fn s = (committed s', Ok a) /\ connected (committed s').
Proof.
  intros [Htx Hb] Hfn [Ht' Hb']. unfold WithTx. rewrite Hb by done. fold (begun s). rewrite Hfn, Hb' by done. split; [done|].
  split; [done|]. cbn. intros n Hn. apply Hb'. lia.
Qed.

Lemma posts_row_inserted now p b : posts_row p = Some b -> Post.Visibility p <> "" ->
  posts_row (PgPosts.inserted now p) = Some (Post.mk (Post.ID b) (Post.UserID b) (Post.Content b) (Post.ParentPostID b)
    (Post.RootPostID b) (Post.LikesCount b) (Post.RepliesCount b) (Post.Visibility b) (usec now) (usec now) None) /\
  Post.LikesCount b = Post.LikesCount p /\ Post.RepliesCount b = Post.RepliesCount p /\
  Post.LikesCount p < 2 ^ 31 /\ Post.RepliesCount p <= int64_max.
Proof.
  intros Hb Hv. revert Hb. unfold posts_row. cbn [PgPosts.inserted Post.ID Post.UserID Post.Content Post.ParentPostID Post.RootPostID
    Post.LikesCount Post.RepliesCount Post.Visibility Post.CreatedAt Post.UpdatedAt Post.DeletedAt].
  rewrite bool_decide_eq_false_2 by done.
  repeat match goal with |- context [?x ≫= _] => destruct x eqn:?; cbn [mbind option_bind]; [|done] end. intros [= <-].
  split; [done|]. cbn. repeat match goal with H : int _ _ = Some _ |- _ => apply int_Some in H as [-> ?] end.
  unfold int64_max. lia.
Qed.

Lemma imap_pair_elem (l : list string) k i : (k, i) ∈ imap pair l <-> l !! k = Some i.
Proof. rewrite elem_of_lookup_imap. naive_solver. Qed.

Lemma imap_pair_snd (l : list string) : (imap pair l).*2 = l.
Proof. rewrite fmap_imap. apply list_eq. intros i. rewrite list_lookup_imap. by destruct (l !! i). Qed.

Lemma imap_pair_fst (l : list string) : NoDup (imap pair l).*1.
Proof.
  rewrite fmap_imap. apply NoDup_alt. intros i j x. rewrite !list_lookup_imap.
  destruct (l !! i), (l !! j); cbn; naive_solver.
Qed.

(** The specification's links after the post, when it had none before. *)
Definition links_created (p : Post.t) (ims ts : list string) (L : Links.t) : Links.t :=
  let L := if bool_decide (ims = []) then L else Links.attachImages (Post.ID p) ims L in
  if bool_decide (ts = []) then L else Links.attachTags (Post.ID p) ts L.

Lemma links_created_images p ims ts L q : Links.imageIDsByPost (Post.ID p) L = [] ->
  Links.imageIDsByPost q (links_created p ims ts L) = if bool_decide (q = Post.ID p) then ims else Links.imageIDsByPost q L.
Proof.
  intros Hnil. unfold links_created. cbn zeta.
  assert (Ht : forall L', Links.imageIDsByPost q (if bool_decide (ts = []) then L' else Links.attachTags (Post.ID p) ts L') =
    Links.imageIDsByPost q L').
  { intros L'. unfold Links.attachTags. by case_bool_decide. }
  rewrite Ht. clear Ht. case_bool_decide as Ei.
  - case_bool_decide; [by subst|done].
  - unfold Links.imageIDsByPost, Links.attachImages. cbn. case_bool_decide; subst; [by rewrite lookup_insert_eq|by rewrite lookup_insert_ne].
Qed.

Lemma links_created_tags p ims ts L q g :
  g ∈ default ∅ (Links.postTags (links_created p ims ts L) !! q) <->
  (q = Post.ID p /\ g ∈ ts) \/ g ∈ default ∅ (Links.postTags L !! q).
Proof.
  unfold links_created. cbn zeta.
  set (L' := if bool_decide (ims = []) then L else Links.attachImages (Post.ID p) ims L).
  assert (Hi : Links.postTags L' = Links.postTags L) by (subst L'; by case_bool_decide). clearbody L'.
  unfold Links.attachTags. destruct (decide (ts = [])) as [->|Et].
  - rewrite bool_decide_eq_true_2, Hi, elem_of_nil by done. tauto.
  - rewrite !bool_decide_eq_false_2 by done. cbn. rewrite Hi.
    destruct (decide (q = Post.ID p)) as [->|Hne].
    + rewrite lookup_insert_eq. cbn. rewrite elem_of_union, elem_of_set_of. tauto.
    + rewrite lookup_insert_ne by done. tauto.
Qed.

Lemma links_created_ogps p ims ts L q : Links.ogps q (links_created p ims ts L) = Links.ogps q L.
Proof. unfold links_created, Links.attachTags. cbn zeta. by repeat case_bool_decide. Qed.

(** The row of the post. *)
Lemma insert_post_ok now t T p ims ts : legal (CCreatePost p ims ts) T ->
  exists row, PgPosts.insert_post p now t T = inr (set_posts (<[Post.ID p := row]> (PgSchema.posts T)) T, row) /\
    Post.ID row = Post.ID p /\ like row (Post.set_times now p) /\
    0 <= Post.LikesCount row < 2 ^ 31 /\ 0 <= Post.RepliesCount row <= int64_max.
Proof.
  intros (Hid & Hvis & Hdel & Hlk & Hrp & (b & Hrow & Hlike) & Hlen & Hnew & Huser & Hpar & Hroot & _).
  destruct (posts_row_inserted now p b Hrow Hvis) as (Hins & Elk & Erp & Hlk' & Hrp').
  set (row := Post.mk (Post.ID b) (Post.UserID b) (Post.Content b) (Post.ParentPostID b) (Post.RootPostID b)
    (Post.LikesCount b) (Post.RepliesCount b) (Post.Visibility b) (usec now) (usec now) None) in *.
  assert (Hlikerow : like row (Post.set_times now p)) by (unfold Post.set_times; rewrite Hdel; unlike; relike).
  assert (Post.ID row = Post.ID p /\ Post.UserID row = Post.UserID p /\ Post.ParentPostID row = Post.ParentPostID p /\
    Post.RootPostID row = Post.RootPostID p /\ Post.Content row = Post.Content p) as (Rid & Rus & Rpar & Rroot & Rc)
    by (clear -Hlikerow; unlike; done).
  assert (Rlk : 0 <= Post.LikesCount row < 2 ^ 31 /\ 0 <= Post.RepliesCount row <= int64_max) by (cbn; lia).
  assert (Rlen : posts_content_len row = true) by (unfold posts_content_len; by rewrite Rc).
  clearbody row. exists row. split; [|done].
  unfold PgPosts.insert_post. rewrite Hins. cbn [coerce or_fail].
  rewrite Rlen, Rid, Rus, Rpar, Rroot, exists_row_eq, Hnew. cbn [negb require].
  assert (Href : forall x, (forall q, x = Some q -> holds (PgSchema.posts T) q) ->
    PgPosts.refers x (<[Post.ID p := row]> (PgSchema.posts T)) = true).
  { intros [q|] Hx; [|done]. apply exists_row_holds. unfold holds. destruct (decide (q = Post.ID p)) as [->|Hne].
    - by rewrite lookup_insert_eq.
    - rewrite lookup_insert_ne by done. by apply Hx. }
  by rewrite exists_row_holds, !Href.
Qed.

(** A post that is not there has no links. *)
Lemma unlinked T d p : related T d -> PgSchema.posts T !! p = None ->
  (forall i, post_images T !! (p, i) = None) /\ (forall g, (p, g) ∉ post_tags T) /\
  Links.imageIDsByPost p (Repository.links d) = [].
Proof.
  intros Hrel Hnew.
  assert (Hfi : forall i, post_images T !! (p, i) = None).
  { intros i. destruct (post_images T !! (p, i)) as [m|] eqn:E; [|done]. exfalso.
    destruct (fk_images _ (proj2 Hrel) p i) as [x Hx]; [by eexists|]. congruence. }
  split; [done|]. split.
  - intros g E. destruct (fk_tags _ (proj2 Hrel) p g E) as [x Hx]. congruence.
  - destruct (Links.imageIDsByPost p _) as [|i l] eqn:E; [done|]. exfalso.
    assert (post_images T !! (p, i) = Some 0) as Hx; [|by rewrite Hfi in Hx].
    apply (rel_post_images _ _ (proj1 Hrel)). split; [done|]. by rewrite E.
Qed.

(** The tables after the transaction stand for the specification's state. *)
Lemma related_created T d p row x ims ts : related T d -> PgSchema.posts T !! Post.ID p = None -> ulid (Post.ID p) ->
  NoDup ims -> Post.ID row = Post.ID p -> like row x ->
  0 <= Post.LikesCount row < 2 ^ 31 /\ 0 <= Post.RepliesCount row <= int64_max ->
  let T1 := set_posts (<[Post.ID p := row]> (PgSchema.posts T)) T in
  related (set_post_tags (with_tags_of (Post.ID p) ts (post_tags T)) (set_post_images (with_images_of (Post.ID p) (imap pair ims) (post_images T)) T1))
    (with_links (links_created p ims ts (Repository.links d)) (with_posts (<[Post.ID p := x]> (Repository.posts d)) d)).
Proof.
  intros Hrel Hnew Hid Hnd Rid Hlike Rc. destruct (unlinked T d _ Hrel Hnew) as (Hfi & Hft & Hnil). cbn zeta.
  assert (Hrel1 : related (set_posts (<[Post.ID p := row]> (PgSchema.posts T)) T)
    (with_posts (<[Post.ID p := x]> (Repository.posts d)) d)) by (by apply related_post).
  set (T1 := set_posts _ T) in *.
  assert (HT : forall pi pt, set_post_tags pt (set_post_images pi T1) = set_post_ogp (post_ogp T1) (set_post_tags pt (set_post_images pi T1)))
    by (intros; by destruct T1). rewrite HT.
  assert (Hnewp : is_Some (PgSchema.posts T1 !! Post.ID p)) by (cbn; by rewrite lookup_insert_eq).
  assert (Hmono : forall q, is_Some (PgSchema.posts T !! q) -> is_Some (PgSchema.posts T1 !! q)).
  { intros q Hq'. destruct (decide (q = Post.ID p)) as [->|Hne]; [done|]. cbn. by rewrite lookup_insert_ne. }
  apply related_links; [done| | | |intros q; rewrite links_created_ogps; apply (rel_sorted _ _ (proj1 Hrel))| |].
  - intros q i n. rewrite links_created_images by done. rewrite lookup_with_images by (by rewrite imap_pair_snd).
    rewrite imap_pair_snd. destruct (decide (q = Post.ID p)) as [->|Hne].
    + rewrite bool_decide_eq_true_2 by done. rewrite Hfi. split.
      * intros [(_ & k & Hk%imap_pair_elem & ->)|[? _]]; [|done]. rewrite Nat2Z.id. split; [lia|done].
      * intros [Hn0 Hi]. left. split; [done|]. exists (Z.to_nat n). split; [by apply imap_pair_elem|lia].
    + rewrite bool_decide_eq_false_2 by done. rewrite (rel_post_images _ _ (proj1 Hrel) q i n). naive_solver.
  - intros q g. rewrite links_created_tags, elem_of_with_tags. by rewrite (rel_post_tags _ _ (proj1 Hrel) q g).
  - intros q h n. rewrite links_created_ogps. apply (rel_post_ogp _ _ (proj1 Hrel)).
  - intros q i [n Hn']. apply lookup_with_images in Hn'; [|by rewrite imap_pair_snd].
    destruct Hn' as [(-> & _)|[Hn' _]]; [done|]. apply Hmono. eapply (fk_images _ (proj2 Hrel)). by eexists.
  - intros q g [[-> _]|Hg]%elem_of_with_tags; [done|]. apply Hmono. by apply (fk_tags _ (proj2 Hrel) q g).
Qed.

Lemma sim_CreatePost p ims ts : simulates (CCreatePost p ims ts).
Proof.
  apply simulates_id. intros s d Hc Hrel Hl. unfold agrees. cbn [run]. unfold PgPosts.Create.
  set (T := tables s) in *. set (now := NOW (pg_tick s)).
  destruct (insert_post_ok now (pg_tick (begun s)) T p ims ts Hl) as (row & Hq & Rid & Hlikerow & Rc).
  destruct Hl as (Hid & _ & _ & _ & _ & _ & _ & Hnew & _ & _ & _ & Hn & Hnd & Hui & Hhi & Hut & Hht).
  destruct (unlinked T d _ Hrel Hnew) as (Hfi & Hft & _).
  destruct (exec_tx "insert post" _ (pg_tick s) (begun s) _ row (begun_tx s Hc) Hq) as [E1 Hs1].
  set (s1 := set_tables _ _) in *.
  assert (Hp1 : holds (PgSchema.posts (tables s1)) (Post.ID p)) by (unfold holds; cbn; by rewrite lookup_insert_eq).
  destruct (attach_images (Post.ID p) (imap pair ims) (pg_tick s) s1 Hs1 Hid Hp1) as (s2 & E2 & Ht2 & Hs2 & _).
  { by rewrite imap_pair_snd. }
  { apply imap_pair_fst. }
  { intros k i Hki%imap_pair_elem. pose proof (list_elem_of_lookup_2 _ _ _ Hki) as Hin.
    unfold ulids in Hui. rewrite Forall_forall in Hui, Hhi. split; [by apply Hui|].
    split; [apply lookup_lt_Some in Hki; lia|]. split; [by apply Hhi|]. split; [by apply Hfi|]. intros j. cbn. by rewrite Hfi. }
  destruct (attach_tags (Post.ID p) ts (pg_tick s) s2 Hs2 Hid) as (s3 & E3 & Ht3 & Hs3 & _); [by rewrite Ht2|done|by rewrite Ht2|].
  assert (Hbody : bind (wrap "insert post" (exec (PgPosts.insert_post p))) (fun p =>
      bind (for_each (fun x => wrap "attach image" (exec (PgPosts.insert_post_image (Post.ID p) x.2 (Z.of_nat x.1)))) (imap pair ims)) (fun _ =>
      bind (for_each (fun tagID => wrap "attach tag" (exec (PgPosts.insert_post_tag (Post.ID p) tagID))) ts) (fun _ => ret p)))
    (begun s) = (s3, Ok row)).
  { unfold bind at 1. rewrite E1. unfold bind at 1. rewrite Rid, E2. unfold bind at 1. by rewrite E3. }
  destruct (WithTx_ok _ _ s s3 row Hc Hbody Hs3) as [-> Hconn].
  exists (committed s3), row, (with_links (links_created p ims ts (Repository.links d))
    (with_posts (<[Post.ID p := Post.set_times now p]> (Repository.posts d)) d)), (Post.set_times now p).
  split; [done|]. split; [done|]. split; [exact Hlikerow|]. split; [|exact Hconn].
  cbn [tables committed]. rewrite Ht3, Ht2. exact (related_created T d p row _ ims ts Hrel Hnew Hid Hnd Rid Hlikerow Rc).
Qed.
End create.
