(* ===== verification/PgSimMedia.v ===== *)
(** * PostgreSQL against the specification: images, previews and what is
    attached to posts *)

From S2P Require Import Prelude Errors Monad GoStrings Domain.
From S2P Require Import MemUsers MemPosts MemLikes MemTags MemBadges MemFollows MemOGP Cursor Repository.
From S2P Require Import PgSql PgSchema PgSocial PgPosts PgOgp PgSim.

#[local] Open Scope Z_scope.

(** ** Rows attached to a post, in the order of their positions

    [m] holds the rows, [l] the link table, and [ids] the attachments of
    post [p] in order. *)

Section attached.
Context `{Server : Postgres, !PostgresLaws} {A : Type} (key : A -> string) (on : A -> (string * string) * Z -> bool).
Context (m : gmap string A) (l : gmap (string * string) Z) (w : A -> bool) (p : string) (ids : list (string * Z)).

Hypothesis m_keyed : keyed key m.
Hypothesis on_iff : forall a x, on a x = true <-> key a = x.1.2.
Hypothesis ids_iff : forall i n, (i, n) ∈ ids <-> l !! (p, i) = Some n.
Hypothesis ids_sorted : StronglySorted Z.lt ids.*2.

Definition att_post (x : A * ((string * string) * Z)) : string := x.2.1.1.
Definition att_position (x : A * ((string * string) * Z)) : Z := x.2.2.

Definition attachment_of (x : string * Z) : option (A * ((string * string) * Z)) :=
  a ← m !! x.1; if w a then Some (a, ((p, x.1), x.2)) else None.

Lemma elem_of_attachments x :
  x ∈ omap attachment_of ids <-> att_post x = p /\ l !! x.2.1 = Some x.2.2 /\ m !! x.2.1.2 = Some x.1 /\ w x.1 = true.
Proof using ids_iff.
  rewrite list_elem_of_omap. unfold attachment_of, att_post. split.
  - intros ([i n] & Hin%ids_iff & Hx). cbn [fst snd] in *. destruct (m !! i) as [a|] eqn:E; [|done]. cbn in Hx.
    destruct (w a) eqn:Ew; [|done]. injection Hx as <-. done.
  - destruct x as [a [[q i] n]]. cbn [fst snd]. intros (-> & Hl & Hm & Hw). exists (i, n).
    split; [by apply ids_iff|]. cbn [fst snd]. rewrite Hm. cbn. by rewrite Hw.
Qed.

Lemma ids_position i j n : (i, n) ∈ ids -> (j, n) ∈ ids -> i = j.
Proof using ids_sorted.
  clear ids_iff. induction ids as [|[k v] rest IH]; [by intros ?%elem_of_nil|]. rewrite fmap_cons in ids_sorted.
  apply StronglySorted_cons in ids_sorted as [Hv Hs]. rewrite Forall_forall in Hv. cbn [snd] in Hv.
  rewrite !elem_of_cons. intros [E1|Hi] [E2|Hj]; simplify_eq; [done| | |by apply IH].
  - specialize (Hv v). assert (v < v) as Hlt; [|lia]. apply Hv, list_elem_of_fmap. by exists (j, v).
  - specialize (Hv v). assert (v < v) as Hlt; [|lia]. apply Hv, list_elem_of_fmap. by exists (i, v).
Qed.

Lemma attachments_NoDup : NoDup (omap attachment_of ids).
Proof using ids_sorted.
  clear ids_iff. induction ids as [|[k v] rest IH]; [constructor|]. rewrite fmap_cons in ids_sorted.
  apply StronglySorted_cons in ids_sorted as [Hv Hs]. specialize (IH Hs). cbn [omap list_omap].
  destruct (attachment_of (k, v)) as [x|] eqn:E; [|done]. constructor; [|done].
  intros ([k' v'] & Hin & E')%list_elem_of_omap. rewrite Forall_forall in Hv. cbn [snd] in Hv.
  assert (v < v'). { apply Hv, list_elem_of_fmap. by exists (k', v'). }
  unfold attachment_of in E, E'. cbn [fst snd] in *. destruct (m !! k) as [a|]; [|done]. destruct (m !! k') as [a'|]; [|done].
  cbn in E, E'. destruct (w a), (w a'); try done. simplify_eq. lia.
Qed.

Lemma attachments_sorted : StronglySorted (by_time att_position) (omap attachment_of ids).
Proof using ids_sorted.
  clear ids_iff. induction ids as [|[k v] rest IH]; [constructor|]. rewrite fmap_cons in ids_sorted.
  apply StronglySorted_cons in ids_sorted as [Hv Hs]. specialize (IH Hs). cbn [omap list_omap].
  destruct (attachment_of (k, v)) as [x|] eqn:E; [|done]. constructor; [done|].
  rewrite Forall_forall in Hv. rewrite Forall_forall. intros y ([k' v'] & Hin & E')%list_elem_of_omap. cbn [snd] in Hv.
  assert (v < v'). { apply Hv, list_elem_of_fmap. by exists (k', v'). }
  unfold attachment_of in E, E'. cbn [fst snd] in *. destruct (m !! k) as [a|]; [|done]. destruct (m !! k') as [a'|]; [|done].
  cbn in E, E'. destruct (w a), (w a'); try done. simplify_eq. unfold by_time, att_position. cbn. lia.
Qed.

Lemma attachments_perm t :
  SELECT t (fun x => bool_decide (att_post x = p) && w x.1) (JOIN on (rows m) (map_to_list l)) ≡ₚ omap attachment_of ids.
Proof using All.
  apply NoDup_Permutation; [|apply attachments_NoDup|].
  - apply NoDup_SELECT, NoDup_JOIN; [by eapply NoDup_table_rows|apply NoDup_map_to_list].
  - intros x. rewrite elem_of_attachments, elem_of_SELECT, elem_of_JOIN, elem_of_rows, andb_true_iff, bool_decide_eq_true, on_iff.
    destruct x as [a [[q i] n]]. cbn [fst snd]. rewrite elem_of_map_to_list. split.
    + intros ((Hq & Hw) & [k Hk] & Hl & Hi). split; [done|]. split; [done|]. split; [|done].
      rewrite <- Hi. rewrite (m_keyed _ _ Hk). done.
    + intros (Hq & Hl & Hm & Hw). split; [done|]. split; [by eexists|]. split; [done|]. by apply m_keyed.
Qed.

(** Whatever sorts them by position lists them in order. *)
Lemma attachments_unique t L :
  L ≡ₚ SELECT t (fun x => bool_decide (att_post x = p) && w x.1) (JOIN on (rows m) (map_to_list l)) ->
  StronglySorted (by_time att_position) L -> L = omap attachment_of ids.
Proof using All.
  intros Hp Hs. rewrite attachments_perm in Hp. apply (StronglySorted_unique_strong (by_time att_position)); [|done|apply attachments_sorted|done].
  intros x y Hx Hy Hxy Hyx. rewrite Hp in Hx. apply elem_of_attachments in Hx as (Px & Lx & Mx & _), Hy as (Py & Ly & My & _).
  destruct x as [a [[q i] n]], y as [a' [[q' i'] n']]. unfold by_time, att_post, att_position in *. cbn [fst snd] in *. subst.
  assert (n = n') as <- by lia. apply ids_iff in Lx, Ly. assert (i = i') as <- by (by eapply ids_position). congruence.
Qed.

Definition by_post_position : relation (A * ((string * string) * Z)) := THEN (by_text (fun x => rtrim (att_post x))) (by_time att_position).

#[local] Instance by_post_position_decision : RelDecision by_post_position.
Proof. unfold by_post_position. apply _. Defined.

(** One post, and one of several. *)
Lemma attachments_one t :
  merge_sort (by_time att_position)
    (SELECT t (fun x => bool_decide (att_post x = p) && w x.1) (JOIN on (rows m) (map_to_list l))) = omap attachment_of ids.
Proof using All.
  apply (attachments_unique t); [apply merge_sort_Permutation|apply StronglySorted_merge_sort; apply _].
Qed.

Lemma attachments_many t (ps : list string) : p ∈ ps ->
  filter (fun x => att_post x = p) (merge_sort by_post_position
    (SELECT t (fun x => bool_decide (att_post x ∈ ps) && w x.1) (JOIN on (rows m) (map_to_list l)))) = omap attachment_of ids.
Proof using All.
  intros Hin. apply (attachments_unique t).
  - rewrite (filter_perm _ _ _ (merge_sort_Permutation by_post_position _)).
    by apply (SELECT_group att_post (fun x => w x.1)).
  - set (sorted := merge_sort _ _).
    assert (Hs : StronglySorted by_post_position sorted) by (apply StronglySorted_merge_sort; unfold by_post_position; apply _).
    clearbody sorted. induction Hs as [|x s Hs IH Hall]; [constructor|]. rewrite filter_cons.
    destruct (decide (att_post x = p)) as [Ex|]; [|done]. constructor; [done|].
    rewrite Forall_forall in Hall |- *. intros y [Ey Hy]%list_elem_of_filter. destruct (Hall y Hy) as [_ Ht]. apply Ht.
    unfold by_text. rewrite Ex, Ey. by destruct (total text_le (rtrim p) (rtrim p)).
Qed.

Lemma attachments_fst : (omap attachment_of ids).*1 = omap (fun x => a ← m !! x.1; if w a then Some a else None) ids.
Proof.
  clear. induction ids as [|x rest IH]; [done|]. cbn [omap list_omap]. unfold attachment_of at 1.
  destruct (m !! x.1) as [a|]; cbn [mbind option_bind]; [|done]. destruct (w a); [|done]. cbn [fmap list_fmap fst]. by rewrite <- IH.
Qed.
End attached.

(** ** Images *)

Section images.
Context `{R : GoRuntime, Server : Postgres, !PostgresLaws}.

#[local] Existing Instances PgImages.newest_first_dec PgImages.by_position_dec PgImages.by_post_position_dec.

Lemma like_live_image (x y : Image.t) : like x y -> PgImages.live x = Images.live y.
Proof. intros Hxy. apply bool_decide_ext. unlike. by destruct (Image.DeletedAt x), (Image.DeletedAt y). Qed.

Lemma of_id_image id i : PgImages.of_id id i = true <-> Image.ID i = id.
Proof. apply bool_decide_eq_true. Qed.

Lemma image_like T d k : related T d ->
  (exists x y, PgSchema.images T !! k = Some x /\ Repository.images d !! k = Some y /\ like x y /\ Image.ID x = k) \/
  (PgSchema.images T !! k = None /\ Repository.images d !! k = None).
Proof.
  intros Hrel. destruct (like_lookup _ _ k (rel_images _ _ (proj1 Hrel))) as [(x & y & Hx & Hy & Hl)|?]; [left|by right].
  exists x, y. split; [done|]. split; [done|]. split; [done|]. exact (key_images _ (proj2 Hrel) _ _ Hx).
Qed.

Lemma sim_GetImage id : simulates (CGetImage id).
Proof.
  eapply refines_simulates; [done|]. intros n T d Hrel Hs. cbn in Hs. cbv beta. rewrite char_arg_ulid by done.
  eexists T, _, d, _. split; [done|]. split; [done|]. split; [|done].
  rewrite (SELECT_pk Image.ID _ _ id) by (apply Hrel || intros r [Hr _]%andb_true_iff; by apply of_id_image). unfold Images.GetByID.
  destruct (image_like T d id Hrel) as [(x & y & Hx & Hy & Hl & Hk)|[Hx Hy]]; rewrite Hx, Hy; [|done].
  rewrite (proj2 (of_id_image id x)) by done. rewrite (like_live_image _ _ Hl). destruct (Images.live y); [by apply like_Some|done].
Qed.

Lemma sim_DeleteImage id : simulates (CDeleteImage id).
Proof.
  eapply refines_simulates; [done|]. intros n T d Hrel [Hs Hlive]. cbv beta. rewrite char_arg_ulid by done.
  rewrite (UPDATE_pk Image.ID _ _ id) by (apply Hrel || intros r [Hr _]%andb_true_iff; by apply of_id_image).
  cbn [expect]. unfold ImageRepository.Delete_spec, Repository.update, Images.Delete.
  destruct (image_like T d id Hrel) as [(x & y & Hx & Hy & Hl & Hk)|[Hx Hy]]; rewrite Hx, Hy.
  - rewrite (proj2 (of_id_image id x)) by done. unfold PgImages.live. rewrite bool_decide_eq_true_2 by (by apply Hlive).
    cbn. eexists _, _, _, _. split; [done|]. split; [done|]. split; [done|]. apply related_image; [done| |done].
    unlike. relike.
  - cbn. eexists _, _, _, _. split; [done|]. split; [done|]. split; [done|]. by destruct T, d.
Qed.

Lemma images_row_inserted now i b : images_row i = Some b ->
  images_row (PgImages.inserted now i) = Some (Image.mk (Image.ID b) (Image.StorageKey b) (Image.FileName b) (Image.MimeType b)
    (Image.FileSize b) (Image.PublicURL b) (Image.UserID b)
    (usec (if IsZero (Image.CreatedAt i) then now else Image.CreatedAt i)) (usec now) None).
Proof.
  unfold images_row. cbn [PgImages.inserted Image.ID Image.StorageKey Image.FileName Image.MimeType Image.FileSize Image.PublicURL
    Image.UserID Image.CreatedAt Image.UpdatedAt Image.DeletedAt].
  repeat match goal with |- context [?x ≫= _] => destruct x; cbn [mbind option_bind]; [|done] end. by intros [= <-].
Qed.

Lemma sim_CreateImage i : simulates (CCreateImage i).
Proof.
  eapply refines_simulates; [done|]. intros n T d Hrel (Hid & Hc & Hdel & (b & Hrow & Hlike) & Hnew & Huser & Hkey). cbv beta.
  rewrite (images_row_inserted (NOW n) i b Hrow). cbn [coerce or_fail Image.ID Image.StorageKey Image.UserID].
  assert (Image.ID b = Image.ID i /\ Image.StorageKey b = Image.StorageKey i /\ Image.UserID b = Image.UserID i) as (-> & -> & ->)
    by (clear -Hlike; unlike; done).
  rewrite exists_row_eq, Hnew. cbn [negb andb].
  assert (existsb (PgImages.same_key (Image.StorageKey i)) (rows (PgSchema.images T)) = false) as ->.
  { apply not_true_is_false. intros (x & [k Hk]%list_elem_of_In%elem_of_rows & E%bool_decide_eq_true)%existsb_exists. by eapply Hkey. }
  cbn [negb require]. rewrite exists_row_holds by done. cbn [require].
  cbn [expect]. unfold ImageRepository.Create_spec, Images.Create. cbn [fst snd].
  match goal with |- context [inr (set_images (<[_ := ?row]> _) _, _)] =>
    assert (Hl : like row (Image.set_times (NOW n) i)) end.
  { unfold Image.set_times, IsZero. rewrite bool_decide_eq_true_2, Hdel by done. unlike. relike. }
  eexists _, _, _, _. split; [done|]. split; [done|]. split; [exact Hl|]. by apply related_image.
Qed.

Lemma sim_UserImages u : simulates (CUserImages u).
Proof.
  eapply refines_simulates; [done|]. intros n T d Hrel Hu. cbn in Hu. cbv beta. rewrite char_arg_ulid by done.
  eexists T, _, d, _. split; [done|]. split; [done|]. split; [|done]. cbn [similar]. unfold ORDER_BY. rewrite merge_sort_Permutation.
  apply (SELECT_like (H1 := sql_runtime)); [apply Hrel|]. intros x y _ _ Hxy. unfold PgImages.live.
  rewrite andb_true_iff, !bool_decide_eq_true. unlike. destruct (Image.DeletedAt x), (Image.DeletedAt y); naive_solver.
Qed.

(** The images of a post with their positions. *)
Definition image_ids (p : string) (L : Links.t) : list (string * Z) := imap (fun k i => (i, Z.of_nat k)) (Links.imageIDsByPost p L).

Lemma image_ids_iff T d p i n : related T d -> (i, n) ∈ image_ids p (Repository.links d) <-> post_images T !! (p, i) = Some n.
Proof.
  intros Hrel. unfold image_ids. rewrite elem_of_lookup_imap, (rel_post_images _ _ (proj1 Hrel)). split.
  - intros (k & x & [= -> ->] & Hx). rewrite Nat2Z.id. split; [lia|done].
  - intros [Hn Hi]. exists (Z.to_nat n), i. split; [|done]. f_equal. lia.
Qed.

Lemma image_ids_sorted p L : StronglySorted Z.lt (image_ids p L).*2.
Proof.
  unfold image_ids. rewrite fmap_imap. generalize (Links.imageIDsByPost p L). intros l.
  assert (Hg : forall k, StronglySorted Z.lt (imap (fun j (_ : string) => Z.of_nat (k + j)) l)); [|exact (Hg 0%nat)].
  induction l as [|x l IH]; intros k; [constructor|]. rewrite imap_cons. constructor.
  - rewrite (imap_ext _ (fun j (_ : string) => Z.of_nat (S k + j))); [apply IH|]. intros j y _. cbn. lia.
  - apply Forall_forall. intros z (j & y & -> & _)%elem_of_lookup_imap. cbn. lia.
Qed.

(** What the specification lists. *)
Lemma image_list_like T d p : related T d ->
  forget <$> omap (fun x => a ← PgSchema.images T !! x.1; if PgImages.live a then Some a else None) (image_ids p (Repository.links d))
  = forget <$> Images.attached (Repository.links d) (Repository.images d) p.
Proof.
  intros Hrel. unfold Images.attached, image_ids. generalize (Links.imageIDsByPost p (Repository.links d)). intros l.
  assert (Hg : forall f : nat -> Z, forget <$> omap (fun x : string * Z => a ← PgSchema.images T !! x.1; if PgImages.live a then Some a else None)
      (imap (fun k i => (i, f k)) l) = forget <$> omap (fun id => Images.GetByID id (Repository.images d)) l); [|exact (Hg Z.of_nat)].
  induction l as [|i l IH]; intros f; [done|]. rewrite imap_cons. cbn [omap list_omap fst].
  specialize (IH (fun k => f (S k))). unfold compose. unfold Images.GetByID at 1.
  destruct (image_like T d i Hrel) as [(x & y & Hx & Hy & Hl & _)|[Hx Hy]]; rewrite Hx, Hy; cbn [mbind option_bind]; [|exact IH].
  rewrite (like_live_image _ _ Hl). destruct (Images.live y); [|exact IH]. rewrite !fmap_cons. rewrite IH. by f_equal.
Qed.

Lemma attached_on (x : Image.t) (pi : (string * string) * Z) : bool_decide (pi.1.2 = Image.ID x) = true <-> Image.ID x = pi.1.2.
Proof. rewrite bool_decide_eq_true. naive_solver. Qed.

Lemma sim_ImagesOf p : simulates (CImagesOf p).
Proof.
  eapply refines_simulates; [done|]. intros n T d Hrel Hp. cbn in Hp. cbv beta. rewrite char_arg_ulid by done.
  eexists T, _, d, _. split; [done|]. split; [done|]. split; [|done]. cbn [similar]. unfold like, forget, forget_list.
  unfold Images.ListByPostID. rewrite <- (image_list_like T d p Hrel), <- (attachments_fst _ _ p). do 2 f_equal.
  apply (attachments_one Image.ID _ _ _ PgImages.live p); [apply Hrel|apply attached_on| |apply image_ids_sorted].
  intros i m. by apply image_ids_iff.
Qed.

Lemma sim_ImagesOfAll ps : simulates (CImagesOfAll ps).
Proof.
  apply simulates_id. intros s d Hc Hrel Hps. cbn in Hps. unfold agrees. cbn [run]. unfold PgImages.ListByPostIDs.
  case_bool_decide as Hnil.
  { subst. eexists s, _, d, _. split; [done|]. split; [done|]. done. }
  set (found := ORDER_BY PgImages.by_post_position (SELECT (pg_tick s) (fun x => bool_decide (PgImages.post_id x ∈ ps) &&
    PgImages.live x.1) (PgImages.attached (tables s)))).
  unfold bind. match goal with |- context [exec ?q] => rewrite (exec_ok _ q s (tables s) found) end;
    [|done|cbv beta; by rewrite char_args_ulid].
  eexists _, _, d, _. split; [done|]. split; [done|]. split; [|by split; [|apply connected_advance]].
  cbn [similar]. unfold like, forget, forget_map. apply map_eq. intros k. rewrite !lookup_fmap, grouped_lookup.
  unfold Images.ListByPostIDs. rewrite collect_map_lookup. pose proof (image_list_like _ _ k Hrel) as Hlist.
  destruct (decide (k ∈ ps)) as [Hk|Hk].
  - rewrite (bool_decide_eq_true_2 (k ∈ ps)) by done.
    cbn zeta. match goal with |- context [if bool_decide (?V = []) then None else Some ?V] => assert (Hf : V =
      omap (fun x => a ← PgSchema.images (tables s) !! x.1; if PgImages.live a then Some a else None) (image_ids k (Repository.links d))) end.
    { rewrite <- (attachments_fst _ _ k). f_equal.
      apply (attachments_many Image.ID _ _ _ PgImages.live k); [apply Hrel|apply attached_on| |apply image_ids_sorted|done].
      intros i m. by apply image_ids_iff. }
    rewrite Hf. clear Hf. cbn zeta. set (la := omap _ _) in *. set (lb := Images.attached _ _ _) in *.
    assert (Hnil' : la = [] <-> lb = []).
    { rewrite <- !length_zero_iff_nil, <- (length_fmap forget la), Hlist, length_fmap. done. }
    destruct (decide (lb = [])) as [E|E].
    + rewrite bool_decide_eq_true_2 by tauto. rewrite (bool_decide_eq_true_2 (lb = [])) by done. by destruct (bool_decide _).
    + rewrite bool_decide_eq_false_2 by tauto. rewrite (bool_decide_eq_false_2 (lb = [])) by done.
      rewrite bool_decide_eq_false_2; [cbn; by f_equal|]. intros E'. apply E. subst lb. unfold Images.attached. by rewrite E'.
  - rewrite (bool_decide_eq_false_2 (k ∈ ps)) by done. cbn zeta. rewrite bool_decide_eq_true_2; [done|].
    match goal with |- _ <$> ?l = [] => assert (l = []) as ->; [|done] end.
    apply Permutation_nil_r. subst found. unfold ORDER_BY.
    rewrite (filter_perm _ _ _ (merge_sort_Permutation PgImages.by_post_position _)).
    by rewrite (SELECT_no_group PgImages.post_id (fun x => PgImages.live x.1)).
Qed.
End images.

(** ** Previews *)

Section previews.
Context `{R : GoRuntime, Server : Postgres, !PostgresLaws}.

#[local] Existing Instance PgCache.by_post_position_dec.

Lemma of_hash h p : bool_decide (OGPPreview.URLHash p = h) = true <-> OGPPreview.URLHash p = h.
Proof. apply bool_decide_eq_true. Qed.

Lemma sim_GetPreview h : simulates (CGetPreview h).
Proof.
  eapply refines_simulates; [done|]. intros n T d Hrel Hs. cbn in Hs. cbv beta. rewrite char_exact by done.
  eexists T, _, d, _. split; [done|]. split; [done|]. split; [|done].
  rewrite (SELECT_pk OGPPreview.URLHash _ _ h) by (apply Hrel || intros r; apply of_hash). unfold OGPCache.Get.
  destruct (like_lookup _ _ h (rel_ogp _ _ (proj1 Hrel))) as [(x & y & Hx & Hy & Hl)|[Hx Hy]]; rewrite Hx, Hy; [|done].
  rewrite bool_decide_eq_true_2 by (by apply (key_ogp _ (proj2 Hrel))). by apply like_Some.
Qed.

Lemma ogp_cache_row_inserted now p b : ogp_cache_row p = Some b -> OGPPreview.FetchedAt p <> time_zero ->
  ogp_cache_row (PgCache.inserted now p) = Some b.
Proof.
  intros Hb Hf. revert Hb. unfold ogp_cache_row, PgCache.inserted. unfold IsZero. rewrite bool_decide_eq_false_2 by done.
  cbn [OGPPreview.URLHash OGPPreview.URL OGPPreview.Title OGPPreview.Description OGPPreview.ImageURL OGPPreview.SiteName
    OGPPreview.CanonicalURL OGPPreview.FetchedAt OGPPreview.ExpiresAt OGPPreview.Status OGPPreview.ErrorReason]. done.
Qed.

Lemma sim_UpsertPreview p : simulates (CUpsertPreview p).
Proof.
  destruct p as [p|]; [destruct (decide (OGPPreview.URLHash p = "")) as [E|E]|].
  2: { apply (refines_simulates "upsert ogp cache" (fun now t T => sql! row := coerce (ogp_cache_row (PgCache.inserted now p)) in
        inr (set_ogp_cache (<[OGPPreview.URLHash row := row]> (PgSchema.ogp_cache T)) T, tt))).
    { intros s _. cbn [run]. unfold PgCache.Upsert. by rewrite bool_decide_eq_false_2. }
    intros n T d Hrel Hl. destruct (Hl p eq_refl) as (Hf & b & Hrow & Hlike).
    rewrite (ogp_cache_row_inserted (NOW n) p b Hrow Hf). cbn [coerce or_fail expect].
    unfold OGPCacheRepository.Upsert_spec, Repository.update, OGPCache.Upsert. rewrite bool_decide_eq_false_2 by done.
    assert (OGPPreview.URLHash b = OGPPreview.URLHash p) as Eh by (clear -Hlike; unlike; done).
    eexists _, _, _, _. split; [done|]. split; [done|]. split; [done|]. rewrite Eh. by apply related_preview. }
  all: apply simulates_id; intros s d Hc Hrel _; unfold agrees; cbn [run expect]; unfold PgCache.Upsert,
    OGPCacheRepository.Upsert_spec, Repository.update, OGPCache.Upsert; rewrite ?bool_decide_eq_true_2 by done;
    (eexists s, _, _, _; split; [done|]; split; [done|]; split; [done|]; split; [|done]; by destruct d).
Qed.

Definition preview_ids (p : string) (L : Links.t) : list (string * Z) :=
  (fun x => (Links.URLHash x, Links.Position x)) <$> Links.ogps p L.

Lemma preview_ids_iff T d p h n : related T d -> (h, n) ∈ preview_ids p (Repository.links d) <-> post_ogp T !! (p, h) = Some n.
Proof.
  intros Hrel. rewrite (rel_post_ogp _ _ (proj1 Hrel)). unfold preview_ids. rewrite list_elem_of_fmap. split.
  - intros ([h' n'] & [= -> ->] & Hx). done.
  - intros Hx. by exists (Links.mkLink h n).
Qed.

Lemma preview_ids_sorted p L : Links.wf L -> StronglySorted Z.lt (preview_ids p L).*2.
Proof.
  intros Hwf. destruct (Hwf p) as [Hs _]. unfold preview_ids.
  induction Hs as [|x l Hs IH Hall]; [constructor|]. rewrite !fmap_cons. constructor; [done|].
  rewrite Forall_forall in Hall. apply Forall_forall. intros z (y & -> & (y' & -> & Hy)%list_elem_of_fmap)%list_elem_of_fmap.
  by apply Hall.
Qed.

Lemma preview_list_like T d p : related T d ->
  forget <$> omap (fun x => a ← PgSchema.ogp_cache T !! x.1; if true then Some a else None) (preview_ids p (Repository.links d))
  = forget <$> OGPCache.previews (Repository.links d) (Repository.ogp d) p.
Proof.
  intros Hrel. unfold OGPCache.previews, Links.ogpLinksByPost, preview_ids.
  induction (Links.ogps p (Repository.links d)) as [|x l IH]; [done|]. rewrite fmap_cons. cbn [omap list_omap fst].
  destruct (like_lookup _ _ (Links.URLHash x) (rel_ogp _ _ (proj1 Hrel))) as [(a & b & Ha & Hb & Hl)|[Ha Hb]]; rewrite Ha, Hb;
    cbn [mbind option_bind]; [|exact IH]. rewrite !fmap_cons, IH. by f_equal.
Qed.

Lemma attached_ogp_on (x : OGPPreview.t) (po : (string * string) * Z) :
  bool_decide (po.1.2 = OGPPreview.URLHash x) = true <-> OGPPreview.URLHash x = po.1.2.
Proof. rewrite bool_decide_eq_true. naive_solver. Qed.

Lemma sim_PreviewsOfAll ps : simulates (CPreviewsOfAll ps).
Proof.
  apply simulates_id. intros s d Hc Hrel Hps. cbn in Hps. unfold agrees. cbn [run]. unfold PgCache.ListByPostIDs.
  case_bool_decide as Hnil.
  { subst. eexists s, _, d, _. split; [done|]. split; [done|]. done. }
  set (found := ORDER_BY PgCache.by_post_position (SELECT (pg_tick s) (fun x => bool_decide (PgCache.post_id x ∈ ps) && true)
    (PgCache.attached (tables s)))).
  unfold bind. match goal with |- context [exec ?q] => rewrite (exec_ok _ q s (tables s) found) end;
    [|done|cbv beta; rewrite char_args_ulid by done; subst found; do 3 f_equal; apply SELECT_ext; intros x; by rewrite andb_true_r].
  eexists _, _, d, _. split; [done|]. split; [done|]. split; [|by split; [|apply connected_advance]].
  cbn [similar]. unfold like, forget, forget_map. apply map_eq. intros k. rewrite !lookup_fmap, grouped_lookup.
  rewrite OGPCache.ListByPostIDs_lookup. pose proof (preview_list_like _ _ k Hrel) as Hlist. cbn zeta.
  destruct (decide (k ∈ ps)) as [Hk|Hk].
  - match goal with |- context [if bool_decide (?V = []) then None else Some ?V] => assert (Hf : V =
      omap (fun x => a ← PgSchema.ogp_cache (tables s) !! x.1; if true then Some a else None) (preview_ids k (Repository.links d))) end.
    { rewrite <- (attachments_fst _ (fun _ => true) k). f_equal.
      apply (attachments_many OGPPreview.URLHash _ _ _ (fun _ => true) k); [apply Hrel|apply attached_ogp_on| | |done].
      - intros i m. by apply preview_ids_iff.
      - apply preview_ids_sorted, Hrel. }
    rewrite Hf. clear Hf. set (la := omap _ _) in *. set (lb := OGPCache.previews _ _ _) in *.
    assert (Hnil' : la = [] <-> lb = []).
    { rewrite <- !length_zero_iff_nil, <- (length_fmap forget la), Hlist, length_fmap. done. }
    destruct (decide (lb = [])) as [E|E].
    + rewrite bool_decide_eq_true_2 by tauto. by rewrite bool_decide_eq_false_2 by tauto.
    + rewrite bool_decide_eq_false_2 by tauto. rewrite bool_decide_eq_true_2 by done. cbn. by f_equal.
  - rewrite (bool_decide_eq_false_2 (k ∈ ps /\ _)) by tauto. rewrite bool_decide_eq_true_2; [done|].
    match goal with |- _ <$> ?l = [] => assert (l = []) as ->; [|done] end.
    apply Permutation_nil_r. subst found. unfold ORDER_BY.
    rewrite (filter_perm _ _ _ (merge_sort_Permutation PgCache.by_post_position _)).
    by rewrite (SELECT_no_group PgCache.post_id (fun _ => true)).
Qed.
End previews.
