(* ===== verification/PgSimJobs.v ===== *)
(** * PostgreSQL against the specification: the job queue *)

From S2P Require Import Prelude Errors Monad GoStrings Domain.
From S2P Require Import MemUsers MemPosts MemLikes MemTags MemBadges MemFollows MemOGP Cursor Repository.
From S2P Require Import PgSql PgSchema PgSocial PgPosts PgOgp PgSim.

#[local] Open Scope Z_scope.

#[local] Existing Instance PgQueue.oldest_first_dec.

Section jobs.
Context `{R : GoRuntime, Server : Postgres, !PostgresLaws}.

#[local] Instance oldest_first_trans : Transitive PgQueue.oldest_first.
Proof. unfold PgQueue.oldest_first. apply _. Qed.
#[local] Instance oldest_first_total : Total PgQueue.oldest_first.
Proof. unfold PgQueue.oldest_first. apply _. Qed.

Lemma of_id_job id j : PgQueue.of_id id j = true <-> OGPJob.ID j = id.
Proof. apply bool_decide_eq_true. Qed.

Lemma sim_Enqueue id h url p n : simulates (CEnqueue id h url p n).
Proof.
  eapply refines_simulates; [done|]. intros t T d Hrel (Hid & Hh & Hurl & Hp & Hn & Hhp). cbv beta.
  set (job := OGPJob.mk id h url p n (NOW t) None None OGPJobQueued 0 "").
  assert (ogp_jobs_row job = Some job) as ->.
  { unfold ogp_jobs_row, job. cbn [OGPJob.ID OGPJob.URLHash OGPJob.URL OGPJob.PostID OGPJob.Position OGPJob.EnqueuedAt OGPJob.StartedAt
      OGPJob.FinishedAt OGPJob.Status OGPJob.Attempts OGPJob.LastError].
    rewrite (char_ulid id Hid). cbn [mbind option_bind]. rewrite Hh. cbn [mbind option_bind]. rewrite Hurl. cbn [mbind option_bind].
    rewrite (char_ulid p Hp). cbn [mbind option_bind]. rewrite Hn. cbn [mbind option_bind].
    change (varchar 16 OGPJobQueued) with (Some OGPJobQueued). change (int 32 0) with (Some 0). change (varchar 512 "") with (Some "").
    cbn. by rewrite usec_NOW. }
  cbn [coerce or_fail]. change (OGPJob.ID job) with id. change (OGPJob.PostID job) with p. rewrite exists_row_eq.
  cbn [expect]. unfold OGPJobQueue.Enqueue_spec, Repository.update, OGPQueue.Enqueue. rewrite <- (rel_jobs _ _ (proj1 Hrel)).
  destruct (PgSchema.ogp_jobs T !! id) as [old|].
  - eexists _, _, _, _. split; [done|]. split; [done|]. split; [done|]. rewrite (rel_jobs _ _ (proj1 Hrel)). by destruct d.
  - rewrite exists_row_holds by done. cbn [require]. eexists _, _, _, _. split; [done|]. split; [done|]. split; [done|].
    apply related_jobs; [done|]. apply keyed_put_at; [apply Hrel|done].
Qed.

(** Every UPDATE of one job by its key. *)
Lemma UPDATE_job T set id : sound T ->
  UPDATE set (PgQueue.of_id id) (PgSchema.ogp_jobs T) =
    match PgSchema.ogp_jobs T !! id with
    | Some j => j' ← set j; Some (<[id := j']> (PgSchema.ogp_jobs T), [j'])
    | None => Some (PgSchema.ogp_jobs T, [])
    end.
Proof.
  intros Hs. rewrite (UPDATE_pk OGPJob.ID _ _ id) by (apply Hs || intros r; apply of_id_job).
  destruct (PgSchema.ogp_jobs T !! id) as [j|] eqn:E; [|done].
  by rewrite (proj2 (of_id_job id j)) by (by apply (key_jobs T Hs)).
Qed.

Lemma sim_job_update what id (c : call unit) set f :
  run c = PgQueue.update what id set -> (forall T, legal c T -> ulid id) ->
  (forall n d, expect (R := sql_runtime) c n d = (with_jobs (match Repository.jobs d !! id with
     | Some j => <[id := f n j]> (Repository.jobs d) | None => Repository.jobs d end) d, Ok tt)) ->
  similar c = eq ->
  (forall T n j, legal c T -> set (NOW n) j = Some (f n j)) -> (forall n j, OGPJob.ID (f n j) = OGPJob.ID j) ->
  simulates c.
Proof.
  intros Hrun Hul Hexp Hsim Hset Hid. eapply refines_simulates; [intros s _; by rewrite Hrun|]. intros n T d Hrel Hl. cbv beta.
  rewrite char_arg_ulid by (by apply (Hul T)). rewrite UPDATE_job by apply Hrel. rewrite Hexp, Hsim.
  rewrite <- (rel_jobs _ _ (proj1 Hrel)). destruct (PgSchema.ogp_jobs T !! id) as [j|] eqn:E.
  - rewrite (Hset T) by done. cbn. eexists _, tt, _, tt. split; [done|]. split; [done|]. split; [done|].
    apply related_jobs; [done|]. apply keyed_put_at; [apply Hrel|]. rewrite Hid. by apply (key_jobs T (proj2 Hrel)).
  - cbn. eexists _, tt, _, tt. split; [done|]. split; [done|]. split; [done|]. rewrite (rel_jobs _ _ (proj1 Hrel)) at 2.
    by destruct T, d.
Qed.

Lemma sim_MarkDone id : simulates (CMarkDone id).
Proof. by eapply (sim_job_update "mark ogp job done" id _ _ (fun n => OGPQueue.set_done (NOW n))). Qed.

Lemma sim_MarkFailed id why retriable : simulates (CMarkFailed id why retriable).
Proof.
  destruct retriable.
  - eapply (sim_job_update "requeue ogp job" id _ _ (fun n => OGPQueue.set_failed (NOW n) why true)); [done|by intros T []|done|done| |done].
    intros T n j [_ Hw]. by rewrite Hw.
  - eapply (sim_job_update "fail ogp job" id _ _ (fun n => OGPQueue.set_failed (NOW n) why false)); [done|by intros T []|done|done| |done].
    intros T n j [_ Hw]. by rewrite Hw.
Qed.

(** The first of the rows sorted by age is the one the scan keeps. *)
Lemma oldest_row T d n t : related T d -> legal CClaim T ->
  match ORDER_BY PgQueue.oldest_first (SELECT t PgQueue.queued (rows (PgSchema.ogp_jobs T))) with
  | [] => OGPQueue.oldest_queued (H := sql_runtime) n (Repository.jobs d) = None
  | j :: _ => OGPQueue.oldest_queued (H := sql_runtime) n (Repository.jobs d) = Some (OGPJob.ID j, j) /\
      PgSchema.ogp_jobs T !! OGPJob.ID j = Some j
  end.
Proof.
  intros Hrel [Huniq _]. pose proof (OGPQueue.oldest_queued_spec (H := sql_runtime) n (Repository.jobs d)) as Hspec.
  rewrite <- (rel_jobs _ _ (proj1 Hrel)) in *. unfold ORDER_BY.
  assert (Hel : forall j, j ∈ merge_sort PgQueue.oldest_first (SELECT t PgQueue.queued (rows (PgSchema.ogp_jobs T))) <->
    PgQueue.queued j = true /\ PgSchema.ogp_jobs T !! OGPJob.ID j = Some j).
  { intros j. rewrite merge_sort_Permutation, elem_of_SELECT, elem_of_rows. split; intros [Hq Hj]; (split; [done|]).
    - destruct Hj as [k Hk]. by rewrite (key_jobs _ (proj2 Hrel) _ _ Hk).
    - by eexists. }
  pose proof (StronglySorted_merge_sort PgQueue.oldest_first (SELECT t PgQueue.queued (rows (PgSchema.ogp_jobs T)))) as Hsort.
  destruct (merge_sort _ _) as [|j l].
  - destruct (OGPQueue.oldest_queued _ _) as [[id j]|]; [|done]. destruct Hspec as (Hj & Hq & _). exfalso.
    apply (not_elem_of_nil j), Hel. split; [by apply bool_decide_eq_true|]. by rewrite (key_jobs _ (proj2 Hrel) _ _ Hj).
  - destruct (proj1 (Hel j) ltac:(left)) as [Hqj Hj]. apply StronglySorted_cons in Hsort as [Hmin _]. rewrite Forall_forall in Hmin.
    split; [|done]. destruct (OGPQueue.oldest_queued _ _) as [[id x]|].
    + destruct Hspec as (Hx & Hqx & Hminx). pose proof (key_jobs _ (proj2 Hrel) _ _ Hx) as Hid.
      assert (Hqx' : PgQueue.queued x = true) by (by apply bool_decide_eq_true).
      assert (OGPJob.EnqueuedAt j = OGPJob.EnqueuedAt x) as Ea.
      { apply Z.le_antisymm.
        - assert (x ∈ j :: l) as [->|Hin]%elem_of_cons; [apply Hel; by rewrite Hid|lia|]. exact (Hmin x Hin).
        - apply (Hminx (OGPJob.ID j)); [done|]. by apply bool_decide_eq_true in Hqj. }
      assert (OGPJob.ID j = id) as Ei by (by apply (Huniq _ _ j x)). rewrite Ei in *. congruence.
    + exfalso. apply (Hspec _ _ Hj). by apply bool_decide_eq_true in Hqj.
Qed.

Lemma sim_Claim : simulates CClaim.
Proof.
  eapply refines_simulates; [done|]. intros n T d Hrel Hl. cbv beta. pose proof (oldest_row T d n n Hrel Hl) as Hold.
  cbn [expect]. unfold OGPJobQueue.Claim_spec, OGPQueue.Claim. destruct (ORDER_BY _ _) as [|j l].
  - rewrite Hold. eexists _, _, _, _. split; [done|]. split; [done|]. split; [done|]. by destruct d.
  - destruct Hold as [Ho Hj]. rewrite Ho, UPDATE_job by apply Hrel. rewrite Hj. destruct Hl as [_ Hb]. pose proof (Hb _ _ Hj) as Ha.
    unfold PgQueue.running. rewrite int_ok by lia. cbn [mbind option_bind or_fail head].
    assert (OGPQueue.set_running (NOW n) j = OGPJob.mk (OGPJob.ID j) (OGPJob.URLHash j) (OGPJob.URL j) (OGPJob.PostID j)
      (OGPJob.Position j) (OGPJob.EnqueuedAt j) (Some (NOW n)) (OGPJob.FinishedAt j) OGPJobRunning (OGPJob.Attempts j + 1)
      (OGPJob.LastError j)) as Er.
    { unfold OGPQueue.set_running. rewrite wrap64_small by (unfold int64_min, int64_max; lia). done. }
    eexists _, _, _, _. split; [done|]. split; [done|]. cbn [fst snd]. change (@clock _ n) with (NOW n). rewrite Er. split; [done|].
    rewrite <- (rel_jobs _ _ (proj1 Hrel)). apply related_jobs; [done|]. apply keyed_put_at; [apply Hrel|done].
Qed.
End jobs.
