(* ===== verification/PgSimTags.v ===== *)
(** * PostgreSQL against the specification: tags *)

From S2P Require Import Prelude Errors Monad GoStrings Domain.
From S2P Require Import MemUsers MemPosts MemLikes MemTags MemBadges MemFollows MemOGP Cursor Repository.
From S2P Require Import PgSql PgSchema PgSocial PgPosts PgOgp PgSim.

#[local] Existing Instance PgTags.by_name_dec.

Section lists.
Context `{R : GoRuntime, Server : Postgres, !PostgresLaws}.

Lemma tag_like T d k : related T d ->
  (exists x y, PgSchema.tags T !! k = Some x /\ Tags.tags (Repository.tags d) !! k = Some y /\ like x y /\ Tag.ID x = k) \/
  (PgSchema.tags T !! k = None /\ Tags.tags (Repository.tags d) !! k = None).
Proof.
  intros Hrel. destruct (like_lookup _ _ k (rel_tags _ _ (proj1 Hrel))) as [(x & y & Hx & Hy & Hl)|?]; [left|by right].
  exists x, y. split; [done|]. split; [done|]. split; [done|]. exact (key_tags _ (proj2 Hrel) _ _ Hx).
Qed.

(** The identifiers of a post's tags. *)
Definition tag_ids (p : string) (L : Links.t) : gset string := default ∅ (Links.postTags L !! p).

Lemma tagged_perm t T d p : related T d ->
  (SELECT t (fun x => bool_decide (x.2.1 = p)) (PgTags.tagged T)).*1 ≡ₚ
    omap (fun g => PgSchema.tags T !! g) (elements (tag_ids p (Repository.links d))).
Proof.
  intros Hrel. pose proof (key_tags _ (proj2 Hrel)) as Hk.
  assert (Hp : SELECT t (fun x => bool_decide (x.2.1 = p)) (PgTags.tagged T) ≡ₚ
    omap (fun g => x ← PgSchema.tags T !! g; Some (x, (p, g))) (elements (tag_ids p (Repository.links d)))).
  { apply NoDup_Permutation.
    - apply NoDup_SELECT, NoDup_JOIN; [by eapply NoDup_table_rows|apply NoDup_elements].
    - pose proof (NoDup_elements (tag_ids p (Repository.links d))) as Hnd. induction Hnd as [|g l Hg Hnd IH]; [constructor|].
      cbn [omap list_omap]. destruct (PgSchema.tags T !! g) as [x|]; cbn [mbind option_bind]; [|done]. constructor; [|done].
      intros (g' & Hg' & E)%list_elem_of_omap. destruct (PgSchema.tags T !! g'); cbn in E; [|done]. congruence.
    - intros [x [q g]]. rewrite elem_of_SELECT. unfold PgTags.tagged. rewrite elem_of_JOIN, elem_of_rows, list_elem_of_omap.
      cbn [fst snd]. rewrite !bool_decide_eq_true, elem_of_elements, (rel_post_tags _ _ (proj1 Hrel)). split.
      + intros (-> & [k Hx] & Hin & ->). exists (Tag.ID x). rewrite elem_of_elements. split; [done|].
        by rewrite (Hk _ _ Hx), Hx.
      + intros (g' & Hin & E). rewrite elem_of_elements in Hin. destruct (PgSchema.tags T !! g') as [x'|] eqn:Ex; cbn in E; [|done].
        injection E as -> -> ->. split; [done|]. split; [by eexists|]. split; [done|]. symmetry. by apply Hk. }
  rewrite Hp. clear. induction (elements _) as [|g l IH]; [done|]. cbn [omap list_omap].
  destruct (PgSchema.tags T !! g); cbn [mbind option_bind]; [|done]. cbn [fmap list_fmap fst]. by rewrite IH.
Qed.

Lemma tag_rows_like n T d p : related T d ->
  forget <$> omap (fun g => PgSchema.tags T !! g) (elements (tag_ids p (Repository.links d))) ≡ₚ
  forget <$> omap (fun id => Tags.tags (Repository.tags d) !! id) (Links.tagIDsByPost (H := sql_runtime) n p (Repository.links d)).
Proof.
  intros Hrel. unfold Links.tagIDsByPost. rewrite (go_range_perm n). fold (tag_ids p (Repository.links d)).
  apply reflexive_eq. induction (elements _) as [|g l IH]; [done|]. cbn [omap list_omap].
  destruct (tag_like T d g Hrel) as [(x & y & Hx & Hy & Hl & _)|[Hx Hy]]; rewrite Hx, Hy; [|done]. rewrite !fmap_cons, IH. by f_equal.
Qed.

Lemma sim_TagsOf p : simulates (CTagsOf p).
Proof.
  eapply refines_simulates; [done|]. intros n T d Hrel Hp. cbn in Hp. cbv beta. rewrite char_arg_ulid by done.
  eexists T, _, d, _. split; [done|]. split; [done|]. split; [|done]. cbn [similar]. unfold ORDER_BY.
  rewrite merge_sort_Permutation, (tagged_perm n T d p Hrel), (tag_rows_like n T d p Hrel).
  unfold Tags.ListByPostID, Tags.attached. by rewrite sort_asc_perm.
Qed.

(** Sorted by name, the same rows are the same list. *)
Lemma sorted_tags n T d p l : related T d ->
  forget <$> l ≡ₚ forget <$> omap (fun id => Tags.tags (Repository.tags d) !! id)
    (Links.tagIDsByPost (H := sql_runtime) n p (Repository.links d)) ->
  forget <$> sort_asc Tag.Name l = forget <$> Tags.attached (H := sql_runtime) n (Repository.links d) (Repository.tags d) p.
Proof.
  intros Hrel Hp. unfold Tags.attached, sort_asc. apply (sort_like (asc_by Tag.Name) (asc_by Tag.Name)); [done|done|done|].
  destruct (rel_tag_names _ _ (proj1 Hrel)) as [_ Ht].
  intros x y (i & _ & Hx)%list_elem_of_omap (j & _ & Hy)%list_elem_of_omap Hxy Hyx.
  assert (Tag.Name x = Tag.Name y) as E by (by apply (anti_symm String.le)).
  destruct (Ht _ _ Hx) as (_ & Hbx & _), (Ht _ _ Hy) as (_ & Hby & _). assert (x = y) as -> by congruence. done.
Qed.

Lemma sim_TagsOfAll ps : simulates (CTagsOfAll ps).
Proof.
  apply simulates_id. intros s d Hc Hrel Hps. cbn in Hps. unfold agrees. cbn [run]. unfold PgTags.ListByPostIDs.
  case_bool_decide as Hnil.
  { subst. eexists s, _, d, _. split; [done|]. split; [done|]. done. }
  set (found := SELECT (pg_tick s) (fun x => bool_decide (x.2.1 ∈ ps) && true) (PgTags.tagged (tables s))).
  unfold bind. match goal with |- context [exec ?q] => rewrite (exec_ok _ q s (tables s) found) end;
    [|done|cbv beta; rewrite char_args_ulid by done; subst found; do 2 f_equal; apply SELECT_ext; intros x; by rewrite andb_true_r].
  eexists _, _, d, _. split; [done|]. split; [done|]. split; [|by split; [|apply connected_advance]].
  cbn [similar]. unfold like, forget, forget_map. apply map_eq. intros k. rewrite !lookup_fmap, grouped_lookup.
  unfold Tags.ListByPostIDs. rewrite collect_map_lookup. cbn zeta. set (n := pg_tick s) in *.
  match goal with |- context [if bool_decide (?V = []) then None else Some ?V] => set (rows_ := V) end.
  destruct (decide (k ∈ ps)) as [Hk|Hk].
  - rewrite (bool_decide_eq_true_2 (k ∈ ps)) by done.
    assert (Hrows : forget <$> rows_ ≡ₚ forget <$> omap (fun id => Tags.tags (Repository.tags d) !! id)
      (Links.tagIDsByPost (H := sql_runtime) n k (Repository.links d))).
    { rewrite <- (tag_rows_like n (tables s) d k Hrel), <- (tagged_perm n (tables s) d k Hrel). subst rows_ found.
      apply fmap_Permutation, fmap_Permutation.
      rewrite (SELECT_group (fun x : Tag.t * (string * string) => x.2.1) (fun _ => true) ps k n n) by done.
      apply reflexive_eq, SELECT_ext. intros x. by rewrite andb_true_r. }
    pose proof (sorted_tags n (tables s) d k rows_ Hrel Hrows) as Hsorted.
    set (lb := Tags.attached _ _ _ _) in *.
    assert (Hnil' : rows_ = [] <-> lb = []).
    { rewrite <- !length_zero_iff_nil, <- (length_fmap forget lb), <- Hsorted, length_fmap. unfold sort_asc. by rewrite merge_sort_Permutation. }
    destruct (decide (lb = [])) as [E|E].
    + rewrite (bool_decide_eq_true_2 (rows_ = [])) by tauto. rewrite (bool_decide_eq_true_2 (lb = [])) by done. by destruct (bool_decide _).
    + rewrite (bool_decide_eq_false_2 (rows_ = [])) by tauto. rewrite (bool_decide_eq_false_2 (lb = [])) by done.
      rewrite bool_decide_eq_false_2; [cbn; by f_equal|]. intros E'. apply E. subst lb. unfold Tags.attached. by rewrite E'.
  - rewrite (bool_decide_eq_false_2 (k ∈ ps)) by done. rewrite bool_decide_eq_true_2; [done|].
    subst rows_. match goal with |- _ <$> ?l = [] => assert (l = []) as ->; [|done] end.
    by apply (SELECT_no_group (fun x : Tag.t * (string * string) => x.2.1) (fun _ => true)).
Qed.
End lists.

(** ** Upserting the tags of a post *)

Section upsert.
Context `{R : GoRuntime, Server : Postgres, !PostgresLaws}.

Lemma Tags_wf_new st id name now : Tags.wf st -> Tags.byName st !! name = None -> Tags.tags st !! id = None -> name <> "" ->
  Tags.wf (Tags.mk (<[id := Tag.mk id name now]> (Tags.tags st)) (<[name := id]> (Tags.byName st))).
Proof.
  intros [Hn Ht] Hname Hid Hne. split; cbn [Tags.tags Tags.byName].
  - intros nm i [[<- <-]|[Hnm Hi]]%lookup_insert_Some; [eexists; split; [apply lookup_insert_eq|done]|].
    destruct (Hn _ _ Hi) as (g & Hg & <-). exists g. split; [|done]. rewrite lookup_insert_ne; [done|]. congruence.
  - intros i g [[<- <-]|[Hne' Hg]]%lookup_insert_Some; [cbn; by rewrite lookup_insert_eq|].
    destruct (Ht _ _ Hg) as (? & Hb & ?). split; [done|]. split; [|done]. rewrite lookup_insert_ne; [done|]. congruence.
Qed.

(** The rows with a name: the one the index names. *)
Lemma by_name_rows T d t name : related T d ->
  match SELECT t (PgTags.named name) (rows (PgSchema.tags T)) with
  | x :: _ => exists y, Tags.byName (Repository.tags d) !! name = Some (Tag.ID y) /\
      Tags.tags (Repository.tags d) !! Tag.ID y = Some y /\ like x y
  | [] => Tags.byName (Repository.tags d) !! name = None
  end.
Proof.
  intros Hrel. destruct (rel_tag_names _ _ (proj1 Hrel)) as [Hi Hb]. destruct (SELECT _ _ _) as [|x l] eqn:E.
  - destruct (Tags.byName _ !! name) as [id|] eqn:Ei; [|done]. exfalso. destruct (Hi _ _ Ei) as (y & Hy & Hk).
    destruct (tag_like T d id Hrel) as [(x & y' & Hx & Hy' & Hl & _)|[_ Hn]]; [|congruence].
    assert (Hin : x ∈ SELECT t (PgTags.named name) (rows (PgSchema.tags T))).
    { apply elem_of_SELECT. split; [|apply elem_of_rows; by eexists]. apply bool_decide_eq_true. unlike. congruence. }
    rewrite E in Hin. by apply elem_of_nil in Hin.
  - assert (Hin : x ∈ SELECT t (PgTags.named name) (rows (PgSchema.tags T))) by (rewrite E; left).
    apply elem_of_SELECT in Hin as [Hk%bool_decide_eq_true [id Hx]%elem_of_rows].
    destruct (tag_like T d id Hrel) as [(x' & y & Hx' & Hy & Hl & _)|[Hn _]]; [|congruence].
    assert (x' = x) as -> by congruence. destruct (Hb _ _ Hy) as (Hid & Hidx & _). exists y. rewrite Hid.
    assert (Tag.Name y = name) as Ek by (clear -Hl Hk; unlike; congruence). rewrite Ek in Hidx. done.
Qed.

(** The loop of the specification reads the identifiers from its counter on. *)
Lemma upsert_loop_reordered f g now names : forall seen n st, (forall i, n <= i -> f i = g i) ->
  Tags.upsert_loop (H := reordered f) now seen names n st = Tags.upsert_loop (H := reordered g) now seen names n st.
Proof.
  induction names as [|name names IH]; intros seen n st Hfg; [done|]. cbn [Tags.upsert_loop].
  destruct (bool_decide (name = "")); [by apply IH|]. destruct (bool_decide (name ∈ seen)); [by apply IH|].
  unfold Tags.upsert_one. destruct (Tags.byName st !! name) as [id|].
  - destruct (Tags.tags st !! id); [|done]. by rewrite IH.
  - cbn [ulid_Make reordered]. rewrite (Hfg n) by lia. rewrite IH; [done|]. intros i Hi. apply Hfg. lia.
Qed.

Definition fresh_ids (m k : nat) (T : Tables) : Prop := forall i j, m <= i < j -> j <= m + k ->
  ulid (ulid_Make i) /\ ulid_Make i <> ulid_Make j /\ PgSchema.tags T !! ulid_Make i = None.

Definition minting (s : PG) : PG := mkPG (pg_tick s) (tx s) (tables s) (S (minted s)).

(** One name: the answer, and the tables, of one turn of the loop. *)
Lemma upsert_one_sim f now name s d :
  connected s -> related (tables s) d -> exact (varchar 64) name -> name <> "" -> fresh_ids (minted s) 1 (tables s) ->
  f (Repository.ulids d) = minted s ->
  exists T x n' st' y,
    wrap "upsert tag" (exec (PgTags.upsert (ulid_Make (minted s)) name)) (minting s) =
      (set_tables T (advance (minting s)), Ok x) /\
    Tags.upsert_one (H := reordered f) now (Repository.ulids d) name (Repository.tags d) = (n', st', Ok y) /\
    like x y /\ related T (with_ulids n' (with_tags st' d)) /\
    (n' = Repository.ulids d /\ T = tables s \/
     n' = S (Repository.ulids d) /\ forall k, k <> ulid_Make (minted s) -> PgSchema.tags T !! k = PgSchema.tags (tables s) !! k).
Proof.
  intros Hc Hrel Hname Hne Hfresh Hf. destruct (Hfresh (minted s) (S (minted s)) ltac:(lia) ltac:(lia)) as (Hu & _ & Hnew).
  assert (Hcm : connected (minting s)) by exact Hc.
  assert (Hrow : tags_row (Tag.mk (ulid_Make (minted s)) name (NOW (pg_tick s))) =
    Some (Tag.mk (ulid_Make (minted s)) name (usec (NOW (pg_tick s))))).
  { unfold tags_row. cbn [Tag.ID Tag.Name Tag.CreatedAt]. rewrite (char_ulid _ Hu). cbn [mbind option_bind]. by rewrite Hname. }
  pose proof (by_name_rows (tables s) d (pg_tick s) name Hrel) as Hrows. unfold Tags.upsert_one.
  assert (Hq : forall T x, match SELECT (pg_tick s) (PgTags.named name) (rows (PgSchema.tags (tables s))) with
      | old :: _ => inr (tables s, old)
      | [] => sql! _ := require (negb (exists_row (ulid_Make (minted s)) (PgSchema.tags (tables s)))) unique_violation in
          inr (set_tags (<[ulid_Make (minted s) := Tag.mk (ulid_Make (minted s)) name (usec (NOW (pg_tick s)))]> (PgSchema.tags (tables s)))
            (tables s), Tag.mk (ulid_Make (minted s)) name (usec (NOW (pg_tick s))))
      end = inr (T, x) ->
    wrap "upsert tag" (exec (PgTags.upsert (ulid_Make (minted s)) name)) (minting s) = (set_tables T (advance (minting s)), Ok x)).
  { intros T x E. apply exec_ok; [done|]. unfold PgTags.upsert. cbn [minting pg_tick tables]. by rewrite Hrow. }
  destruct (SELECT _ _ _) as [|old l].
  - rewrite exists_row_eq, Hnew in Hq. cbn [negb require] in Hq. rewrite Hrows. cbn [Tag.ID].
    assert (Hdnew : Tags.tags (Repository.tags d) !! ulid_Make (minted s) = None)
      by (destruct (tag_like _ d (ulid_Make (minted s)) Hrel) as [(x & y & Hx & _)|[_ ?]]; [congruence|done]).
    eexists _, _, _, _, _. split; [by apply Hq|]. split; [done|].
    cbn [ulid_Make reordered]. rewrite Hf. split; [done|]. split.
    + apply related_ulids, related_tags; [done| | |].
      * apply keyed_put_at; [apply Hrel|done].
      * cbn [Tags.tags]. apply like_insert; [apply Hrel|done].
      * apply Tags_wf_new; [apply Hrel|done..].
    + right. split; [done|]. intros k Hk. cbn. by rewrite lookup_insert_ne.
  - destruct Hrows as (y & Hi & Hy & Hl). rewrite Hi, Hy. eexists _, _, _, _, _. split; [by apply Hq|]. split; [done|].
    split; [done|]. split; [|by left]. apply related_ulids. by destruct d.
Qed.

Lemma upsert_all_sim now names : forall seen s d,
  connected s -> related (tables s) d -> Forall (exact (varchar 64)) names -> fresh_ids (minted s) (length names) (tables s) ->
  exists f s' out n' st' out',
    (forall i, Repository.ulids d <= i -> minted s <= f i) /\ (forall i j, Repository.ulids d <= i < j -> f i < f j) /\
    PgTags.upsert_all (PgTags.unique seen names) s = (s', Ok out) /\
    Tags.upsert_loop (H := reordered f) now seen names (Repository.ulids d) (Repository.tags d) = (n', st', Ok out') /\
    forget <$> out = forget <$> out' /\ related (tables s') (with_ulids n' (with_tags st' d)) /\ connected s'.
Proof.
  induction names as [|name names IH]; intros seen s d Hc Hrel Hfit Hfresh.
  { exists (fun i => minted s + i), s, [], (Repository.ulids d), (Repository.tags d), []. split; [lia|]. split; [lia|]. split; [done|].
    split; [done|]. split; [done|]. split; [|done]. apply related_ulids. by destruct d. }
  apply Forall_cons in Hfit as [Hname Hfit]. cbn [length] in Hfresh. cbn [PgTags.unique Tags.upsert_loop].
  assert (Hskip : fresh_ids (minted s) (length names) (tables s)) by (intros i j Hij Hj; apply Hfresh; lia).
  destruct (decide (name = "")) as [E|Hne].
  { rewrite !bool_decide_eq_true_2 by done. cbn [orb]. by apply IH. }
  rewrite !(bool_decide_eq_false_2 (name = "")) by done. cbn [orb]. destruct (decide (name ∈ seen)) as [E|Hseen].
  { rewrite !bool_decide_eq_true_2 by done. by apply IH. }
  rewrite !(bool_decide_eq_false_2 (name ∈ seen)) by done. cbn [PgTags.upsert_all].
  assert (Hone : fresh_ids (minted s) 1 (tables s)) by (intros i j Hij Hj; apply Hfresh; lia).
  set (f0 := fun i : nat => minted s).
  destruct (upsert_one_sim f0 now name s d Hc Hrel Hname Hne Hone eq_refl) as (T & x & n1 & st1 & y & Ex & Ey & Hxy & Hrel1 & Hcase).
  assert (Hc1 : connected (set_tables T (advance (minting s)))) by (by apply connected_advance).
  destruct (IH ({[name]} ∪ seen) (set_tables T (advance (minting s))) (with_ulids n1 (with_tags st1 d)) Hc1 Hrel1 Hfit)
    as (f & s' & out & n' & st' & out' & Hge & Hmono & Es & Et & Hout & Hrel' & Hc').
  { intros i j Hij Hj. cbn [minted set_tables advance minting tables] in *.
    destruct (Hfresh i j ltac:(lia) ltac:(lia)) as (Hu & Hd & Hn). split; [done|]. split; [done|].
    destruct Hcase as [[_ ->]|[_ Hk]]; [done|]. rewrite Hk; [done|]. intros Eq.
    destruct (Hfresh (minted s) i ltac:(lia) ltac:(lia)) as (_ & Hd' & _). congruence. }
  cbn [Repository.ulids Repository.tags with_ulids with_tags minted set_tables advance minting] in *.
  exists (fun i => if bool_decide (i < n1) then minted s else f i), s', (x :: out), n', st', (y :: out').
  assert (Hn1 : n1 <= S (Repository.ulids d)) by (destruct Hcase as [[-> _]|[-> _]]; lia).
  split. { intros i Hi. case_bool_decide; [lia|]. specialize (Hge i ltac:(lia)). lia. }
  split. { intros i j Hij. do 2 case_bool_decide; try lia; [specialize (Hge j ltac:(lia)); lia|]. apply Hmono. lia. }
  split. { unfold bind at 1. cbn [Runtime.MakeULID pg_Runtime]. fold (minting s). unfold bind at 1. rewrite Ex.
    unfold bind at 1. by rewrite Es. }
  split; [|split; [|by split]].
  - assert (Ey' : Tags.upsert_one (H := reordered (fun i => if bool_decide (i < n1) then minted s else f i)) now (Repository.ulids d) name
      (Repository.tags d) = (n1, st1, Ok y)).
    { rewrite <- Ey. unfold Tags.upsert_one in *. destruct (Tags.byName _ !! name); [done|]. cbn [ulid_Make reordered] in *.
      injection Ey as <- _ _. by rewrite bool_decide_eq_true_2 by lia. }
    rewrite Ey'. rewrite (upsert_loop_reordered _ f), Et; [done|]. intros i Hi. by rewrite bool_decide_eq_false_2 by lia.
  - rewrite !fmap_cons, Hout. by f_equal.
Qed.

Lemma sim_UpsertTags names : simulates (CUpsertTags names).
Proof.
  intros s d Hc Hrel Hl Hm.
  destruct (upsert_all_sim (NOW (pg_tick s)) names ∅ s d Hc Hrel Hl Hm)
    as (f & s' & out & n' & st' & out' & _ & Hmono & Es & Et & Hout & Hrel' & Hc').
  exists f. split; [done|]. exists s', out, (with_ulids n' (with_tags st' d)), out'. split; [exact Es|].
  split; [|by split]. cbn [expect]. unfold TagRepository.UpsertByNames_spec, Tags.UpsertByNames.
  change (@clock (reordered f) (pg_tick s)) with (NOW (pg_tick s)). by rewrite Et.
Qed.
End upsert.
