(* ===== verification/PgThms.v ===== *)
(** * The PostgreSQL repositories as a whole

    Every method simulates its specification, so any sequence of calls does;
    and a call that fails leaves the tables as they were, or was done in full
    and not answered. *)

From S2P Require Import Prelude Errors Monad GoStrings Domain.
From S2P Require Import MemUsers MemPosts MemLikes MemTags MemBadges MemFollows MemOGP Cursor Repository.
From S2P Require Import PgSql PgSchema PgSocial PgPosts PgOgp PgSim.
From S2P Require Import PgSimSocial PgSimBadges PgSimPosts PgSimLinks PgSimMedia PgSimJobs PgSimTags.

(** ** Every call *)

Section calls.
Context `{R : GoRuntime, Server : Postgres, !PostgresLaws}.

Lemma every_call {A} (c : call A) : simulates c.
Proof.
  destruct c;
    [apply sim_GetBySub|apply sim_UpsertUser|apply sim_UpdateProfile|apply sim_ListUsers|apply sim_ListBySubs
      |apply sim_DeleteUser|apply sim_IncFollowers|apply sim_DecFollowers|apply sim_IncFollowing|apply sim_DecFollowing
      |apply sim_Follow|apply sim_Unfollow|apply sim_IsFollowing|apply sim_FollowingSubs|apply sim_Followers|apply sim_Following
      |apply sim_AreFollowing|apply sim_GetPost|apply sim_CreatePost|apply sim_DeletePost|apply sim_ListPosts
      |apply sim_ListByAuthors|apply sim_ListReplies|apply sim_IncReplies|apply sim_DecReplies|apply sim_IncLikes
      |apply sim_DecLikes|apply sim_AttachOGP|apply sim_Like|apply sim_Unlike|apply sim_IsLiked|apply sim_LikedPosts
      |apply sim_GetImage|apply sim_CreateImage|apply sim_DeleteImage|apply sim_UserImages|apply sim_ImagesOf
      |apply sim_ImagesOfAll|apply sim_UpsertTags|apply sim_TagsOf|apply sim_TagsOfAll|apply sim_ListBadges
      |apply sim_BadgeByKey|apply sim_GetBadge|apply sim_CreateBadge|apply sim_UpdateBadge|apply sim_BadgesOf
      |apply sim_BadgesOfAll|apply sim_Grant|apply sim_Revoke|apply sim_GetPreview|apply sim_UpsertPreview
      |apply sim_PreviewsOfAll|apply sim_Enqueue|apply sim_Claim|apply sim_MarkDone|apply sim_MarkFailed].
Qed.
End calls.

(** ** A session: calls one after the other *)

Definition event : Type := { A : Type & call A }.
Definition ev {A} (c : call A) : event := existT A c.

Section session.
Context `{R : GoRuntime, Server : Postgres}.

(** Each call is legal where it is made. *)
Fixpoint legal_session (cs : list event) (s : PG) : Prop :=
  match cs with
  | [] => True
  | existT _ c :: cs => legal c (tables s) /\ mints c s /\ legal_session cs (run c s).1
  end.

(** Every answer is the specification's, on the database the calls before it
    have made. *)
Fixpoint conforms (cs : list event) (s : PG) (d : DB) : Prop :=
  match cs with
  | [] => related (tables s) d
  | existT _ c :: cs => exists f s' a d' b,
      (forall i j, Repository.ulids d <= i < j -> f i < f j)%nat /\
      run c s = (s', Ok a) /\ expect (R := reordered f) c (pg_tick s) d = (d', Ok b) /\ similar c a b /\ conforms cs s' d'
  end.

Lemma session_conforms `{!PostgresLaws} cs : forall s d,
  connected s -> related (tables s) d -> legal_session cs s -> conforms cs s d.
Proof.
  induction cs as [|[A c] cs IH]; intros s d Hc Hrel; [done|]. intros (Hl & Hm & Hcs). cbn [conforms].
  destruct (every_call c s d Hc Hrel Hl Hm) as (f & Hf & s' & a & d' & b & Hrun & Hexp & Hsim & Hrel' & Hc').
  exists f, s', a, d', b. split; [done|]. split; [done|]. split; [done|]. split; [done|]. apply IH; [done|done|].
  unfold event in *. by rewrite Hrun in Hcs.
Qed.

Lemma related_empty : related empty_Tables empty_DB.
Proof.
  split; split; try done; try (intros ?; set_solver); try apply Badges.wf_empty;
    try (by intros ? ? ?; rewrite lookup_empty); try (by intros ? ?; rewrite lookup_empty);
    try (by intros ? [? ?]%lookup_empty_is_Some).
  - intros p. split; constructor.
  - intros k [x Hx]. cbn in Hx. by rewrite lookup_empty in Hx.
  - intros k [x Hx]. cbn in Hx. by rewrite lookup_empty in Hx.
  - intros p i [x Hx]. cbn in Hx. by rewrite lookup_empty in Hx.
Qed.
End session.

(** ** Atomicity

    No precondition: whatever the arguments, the tables and the fate of the
    messages, a call ends outside a transaction. What it has done is told by
    a second run, on the server that answers whatever it carries out: an
    error has changed nothing, or hides that the call was done in full. The
    exception is [CUpsertTags], which makes one statement per name. *)

Definition heard (f : fate) : fate := match f with Unanswered => Carried | f => f end.

Definition answering (P : Postgres) : Postgres := {|
  NOW := @NOW P;
  plan := @plan P;
  text_le := @text_le P;
  link n := heard (@link P n);
  text_le_dec := @text_le_dec P;
  plan_perm := @plan_perm P;
|}.

Section atomic.
Context `{R : GoRuntime, Server : Postgres}.

Definition one_write {A} (c : call A) : Prop := match c with CUpsertTags _ => False | _ => True end.

(** A page of more rows than a slice can have. *)
Definition oversized {A} (c : call A) : Prop :=
  match c with
  | CFollowers _ _ limit | CFollowing _ _ limit => (2 ^ 45 < limit)%Z
  | CListPosts _ _ limit | CListByAuthors _ _ limit | CListReplies _ _ limit => (2 ^ 45 < limit)%Z
  | _ => False
  end.

(** [m] here, [m'] on the answering server: statements of one transaction. *)
Definition settles {A} (m m' : M PG A) : Prop := forall s,
  tx (m s).1 = tx s /\ (pg_tick s <= pg_tick (m s).1)%nat /\
  match (m s).2 with Ok _ => m' s = m s | Err _ => True | Panic _ => False end.

(** The answer to a message of the run from [s] to [s'] was lost. *)
Definition unheard (s s' : PG) : Prop := exists n, (pg_tick s <= n < pg_tick s')%nat /\ link n = Unanswered.

Definition atomic_call {A} (big : Prop) (m m' : M PG A) : Prop := forall s,
  tx s = None -> tx (m s).1 = None /\
  match (m s).2 with
  | Ok _ => m' s = m s
  | Err _ => tables (m s).1 = tables s \/ unheard s (m s).1 /\ exists a, m' s = ((m s).1, Ok a)
  | Panic _ => big /\ tables (m s).1 = tables s
  end.

(** A statement is refused, or done; then the answer comes, or not. *)
Lemma exec_cases {A} (q : statement A) s :
  let sent := exec (H := answering Server) q s in
  tx (exec q s).1 = tx s /\ pg_tick (exec q s).1 = S (pg_tick s) /\
  match (exec q s).2 with
  | Ok _ => sent = exec q s
  | Err _ => tables (exec q s).1 = tables s \/ link (pg_tick s) = Unanswered /\ exists a, sent = ((exec q s).1, Ok a)
  | Panic _ => False
  end.
Proof.
  cbn zeta. unfold exec. cbn [link answering NOW]. destruct (q _ _ _) as [e|[T a]], (link (pg_tick s)) eqn:E; cbn; eauto.
  do 2 (split; [done|]). right. split; [done|]. by exists a.
Qed.

Lemma settles_exec {A} what (q : statement A) : settles (wrap what (exec q)) (wrap what (exec (H := answering Server) q)).
Proof.
  intros s. destruct (exec_cases q s) as (Ht & Hn & Hr). unfold wrap, map_err. cbn zeta in Hr.
  destruct (exec q s) as [s' [a|e|w]]; cbn in *; [rewrite Hr| |done]; (split; [done|]); (split; [lia|done]).
Qed.

Lemma settles_ret {A} (a : A) : settles (ret a) (ret a).
Proof. done. Qed.

Lemma settles_bind {A B} (m m' : M PG A) (f f' : A -> M PG B) :
  settles m m' -> (forall a, settles (f a) (f' a)) -> settles (bind m f) (bind m' f').
Proof.
  intros Hm Hf s. unfold bind. destruct (Hm s) as (Ht & Hn & Hr). destruct (m s) as [s' [a|e|w]]; cbn in *; [|done|done].
  rewrite Hr. destruct (Hf a s') as (Ht' & Hn' & Hr'). split; [by rewrite Ht'|]. split; [lia|]. by destruct (f a s') as [s'' [b|e|w]].
Qed.

Lemma settles_for_each {X} (f f' : X -> M PG unit) l :
  (forall x, settles (f x) (f' x)) -> settles (for_each f l) (for_each f' l).
Proof. intros Hf. induction l as [|x l IH]; [apply settles_ret|]. by apply settles_bind. Qed.

Lemma atomic_exec {A} big what (q : statement A) :
  atomic_call big (wrap what (exec q)) (wrap what (exec (H := answering Server) q)).
Proof.
  intros s Hs. destruct (exec_cases q s) as (Ht & Hn & Hr). unfold wrap, map_err. cbn zeta in Hr.
  destruct (exec q s) as [s' [a|e|w]]; cbn in *; [| |done].
  - rewrite Hr. split; [congruence|done].
  - split; [congruence|]. destruct Hr as [Hr|[Hl [a Ha]]]; [by left|right]. split; [exists (pg_tick s); split; [lia|done]|].
    exists a. by rewrite Ha.
Qed.

Lemma atomic_ret {A} big (a : A) : atomic_call big (ret a) (ret a).
Proof. done. Qed.

(** The transaction takes back what its statements did, unless they are
    committed. *)
Lemma atomic_WithTx {A} big (fn fn' : M PG A) :
  settles fn fn' -> atomic_call big (WithTx fn) (WithTx (H := answering Server) fn').
Proof.
  intros Hfn s Hs. unfold WithTx. cbn [link answering]. destruct (link (pg_tick s)); cbn [heard]; [|by (split; [|left])..].
  match goal with |- context [fn ?s0] => destruct (Hfn s0) as (Ht & Hn & Hr); destruct (fn s0) as [s' [a|e|w]] end; cbn in *.
  - rewrite Hr. destruct (link (pg_tick s')) eqn:E; cbn; [done|by auto|]. split; [done|]. right. split; [|by eexists].
    exists (pg_tick s'). cbn. split; [lia|done].
  - by auto.
  - done.
Qed.

(** Reading, then computing the answer. *)
Lemma atomic_then {A B} big (m m' : M PG A) (f : A -> B) :
  atomic_call big m m' -> atomic_call big (bind m (fun a => ret (f a))) (bind m' (fun a => ret (f a))).
Proof.
  intros Hm s Hs. destruct (Hm s Hs) as [Ht Hr]. unfold bind. destruct (m s) as [s' [a|e|w]]; cbn in *.
  - by rewrite Hr.
  - split; [done|]. destruct Hr as [Hr|[Hl [a Ha]]]; [by left|right]. split; [done|]. rewrite Ha. by eexists.
  - done.
Qed.

Lemma atomic_if {A} big (b : bool) (m m' n n' : M PG A) :
  atomic_call big m n -> atomic_call big m' n' -> atomic_call big (if b then m else m') (if b then n else n').
Proof. by destruct b. Qed.

(** Calls that only read. *)
Definition reads {A} (m m' : M PG A) : Prop := forall s,
  tables (m s).1 = tables s /\ tx (m s).1 = tx s /\ (pg_tick s <= pg_tick (m s).1)%nat /\
  match (m s).2 with Ok _ => m' s = m s | Err _ => True | Panic _ => False end.

Lemma atomic_after {A B} big (m m' : M PG A) (f f' : A -> M PG B) :
  reads m m' -> (forall a, atomic_call big (f a) (f' a)) -> atomic_call big (bind m f) (bind m' f').
Proof.
  intros Hm Hf s Hs. destruct (Hm s) as (Hq & Ht & Hn & Hr). unfold bind. destruct (m s) as [s' [a|e|w]]; cbn in *.
  - rewrite Hr. destruct (Hf a s' ltac:(congruence)) as [Ht' Hr']. split; [done|].
    destruct (f a s') as [s'' [b|e|w]]; cbn in *; [done| |by rewrite <- Hq].
    rewrite <- Hq. destruct Hr' as [?|[(n & Hn' & Hl) ?]]; [by left|right]. split; [|done]. exists n. split; [lia|done].
  - split; [congruence|by left].
  - done.
Qed.

Lemma reads_query {A} what (q : Time -> nat -> Tables -> A) :
  reads (wrap what (PgSchema.query q)) (wrap what (PgSchema.query (H := answering Server) q)).
Proof.
  intros s. unfold wrap, map_err, PgSchema.query, exec. cbn [link answering]. destruct (link (pg_tick s)); cbn; auto.
Qed.

Lemma reads_now (t : Time) : let m := if IsZero t then Runtime.Now else ret t in reads m m.
Proof. intros m s. subst m. destruct (IsZero t); cbn; auto. Qed.

(** A listing reads, and may ask for too large a slice. *)
Definition read_only {A} (q : statement A) : Prop := forall now t T T' a, q now t T = inr (T', a) -> T' = T.

Lemma atomic_page {A} limit what (q : statement A) : read_only q ->
  atomic_call (2 ^ 45 < limit)%Z (make_cap limit (wrap what (exec q)))
    (make_cap (H := answering Server) limit (wrap what (exec (H := answering Server) q))).
Proof.
  intros Hq s Hs. unfold make_cap, wrap, map_err, exec. cbn [link answering NOW].
  destruct (q _ _ _) as [e|[T a]] eqn:E; [|apply Hq in E as ->];
    destruct (Z.ltb_spec (2 ^ 45) limit), (link (pg_tick s)); cbn; auto.
Qed.

#[local] Ltac only_reads :=
  intros now t T T' a; repeat (case_match; try done); by intros [= <- _].

Lemma call_atomic {A} (c : call A) : one_write c -> atomic_call (oversized c) (run c) (run (H0 := answering Server) c).
Proof.
  intros Hc. destruct c; try done; cbn [run];
    try (apply atomic_exec);
    try (apply atomic_if; [apply atomic_ret|apply atomic_then; first [apply atomic_exec|apply atomic_page; only_reads]]).
  - apply atomic_after; [apply reads_now|]. intros t. apply atomic_exec.
  - apply atomic_after; [apply reads_query|]. intros t. apply atomic_if; [apply atomic_ret|apply atomic_then, atomic_exec].
  - apply atomic_WithTx. apply settles_bind; [apply settles_exec|]. intros q.
    apply settles_bind; [apply settles_for_each; intros x; apply settles_exec|]. intros _.
    apply settles_bind; [apply settles_for_each; intros x; apply settles_exec|]. intros _. apply settles_ret.
  - destruct p as [p|]; [|apply atomic_ret]. cbn [PgCache.Upsert]. apply atomic_if; [apply atomic_ret|apply atomic_exec].
  - destruct retriable; apply atomic_exec.
Qed.
End atomic.
