(* ===== verification/PgWorker.v ===== *)
(** * The preview worker on PostgreSQL

    What a page the cache refuses does to the queue: the job is claimed,
    the row does not fit its columns, the job goes back to where it was. *)

From S2P Require Import Prelude Errors Monad GoStrings Domain Repository PgSql PgSchema PgSocial PgPosts PgOgp PgSim.
From S2P Require Import OgpUrl OgpHtml OgpUC.

Local Open Scope string_scope.

Section refused.
Context `{GoRuntime, HostTables, HtmlLib, Server : Postgres, !Fetcher.HttpClient PG}.
Context (opts : option Fetcher.options).

(** The page at [url] can be fetched, whenever that is tried, and its title
    does not fit the column. *)
Definition too_long (url : string) : Prop := forall s, exists s' p,
  Fetcher.Fetch opts url s = (s', Ok p) /\
  tables s' = tables s /\ tx s' = tx s /\ (pg_tick s <= pg_tick s')%nat /\
  OGPPreview.URLHash p <> "" /\ varchar 512 (OGPPreview.Title p) = None.

(** A fetch that goes well, step by step. *)
Lemma Fetch_served url n resp m s s1 :
  Normalizer.Normalize url = inr n -> Fetcher.new_request n = inr tt ->
  Fetcher.Do (Fetcher.mkRequest n (Fetcher.headers opts)) s = (s1, Ok resp) ->
  Fetcher.StatusCode resp = 200%Z -> Fetcher.isHTMLContentType (Fetcher.ContentType resp) = true ->
  Fetcher.final_url resp = None ->
  Parser.Parse (Fetcher.MaxBytesReader Fetcher.MaxBodyBytes (Fetcher.Body resp)) n = inr m ->
  Fetcher.Fetch opts url s = (advance s1, Ok (OGPPreview.mk (Normalizer.Hash n) n (Parser.Metadata.Title m)
    (Parser.Metadata.Description m) (Parser.Metadata.ImageURL m) (Parser.Metadata.SiteName m)
    (Parser.Metadata.CanonicalURL m) (clock (pg_tick s1)) time_zero "" "")).
Proof.
  intros Hn Hr Hd Hs Hct Hf Hp. unfold Fetcher.Fetch, bind. rewrite Hn. cbn [Fetcher.of_sum ret]. rewrite Hr.
  cbn [Fetcher.of_sum ret]. rewrite Hd, Hs, Hct, Hf. unfold guard. cbn [negb Z.eqb Pos.eqb ret]. by rewrite Hp.
Qed.

(** The one that the next claim takes. *)
Definition next_job (id : string) (j : OGPJob.t) (T : Tables) : Prop :=
  ogp_jobs T !! id = Some j /\ PgQueue.queued j = true /\
  forall k x, ogp_jobs T !! k = Some x -> PgQueue.queued x = true -> k <> id ->
    (OGPJob.EnqueuedAt j < OGPJob.EnqueuedAt x)%Z.

(** What the worker notes: SQLSTATE 22001. *)
Definition refusal : string := Error (Wrapped ("postgres: upsert ogp cache: ") bad_value "").

Definition retried (n : Z) (j : OGPJob.t) : OGPJob.t :=
  OGPJob.mk (OGPJob.ID j) (OGPJob.URLHash j) (OGPJob.URL j) (OGPJob.PostID j) (OGPJob.Position j)
    (OGPJob.EnqueuedAt j) None (OGPJob.FinishedAt j) OGPJobQueued (OGPJob.Attempts j + n) refusal.

Lemma refusal_fits : varchar 512 refusal = Some refusal.
Proof. vm_compute. reflexivity. Qed.

Lemma exec_connected {A} (q : statement A) s : connected s -> exec q s =
  match q (NOW (pg_tick s)) (pg_tick s) (tables s) with
  | inl e => (advance s, Err e)
  | inr (T, a) => (set_tables T (advance s), Ok a)
  end.
Proof. intros [Htx Hup]. unfold exec. rewrite Hup by done. rewrite Htx. cbn [default]. by destruct (q _ _ _) as [e|[T a]]. Qed.

Lemma connected_later s s' : connected s -> tx s' = tx s -> (pg_tick s <= pg_tick s')%nat -> connected s'.
Proof. intros [Htx Hup] Ht Hn. split; [congruence|]. intros n Hle. apply Hup. lia. Qed.

Lemma UPDATE_job_row T set id j : keyed OGPJob.ID (ogp_jobs T) -> ogp_jobs T !! id = Some j ->
  UPDATE set (PgQueue.of_id id) (ogp_jobs T) = j' ← set j; Some (<[id := j']> (ogp_jobs T), [j']).
Proof.
  intros Hk Hj. rewrite (UPDATE_pk OGPJob.ID _ _ id) by (done || intros r Hr; by apply bool_decide_eq_true in Hr).
  rewrite Hj. unfold PgQueue.of_id. by rewrite (Hk _ _ Hj), bool_decide_eq_true_2.
Qed.

(** The scan's order does not matter: the next job sorts first. *)
Lemma claims_next t T id j : keyed OGPJob.ID (ogp_jobs T) -> next_job id j T ->
  head (ORDER_BY PgQueue.oldest_first (SELECT t PgQueue.queued (rows (ogp_jobs T)))) = Some j.
Proof.
  intros Hk (Hj & Hq & Hold). unfold ORDER_BY.
  pose proof (StronglySorted_merge_sort PgQueue.oldest_first (SELECT t PgQueue.queued (rows (ogp_jobs T)))) as Hsort.
  assert (Hel : forall x, x ∈ merge_sort PgQueue.oldest_first (SELECT t PgQueue.queued (rows (ogp_jobs T))) <->
    PgQueue.queued x = true /\ exists k, ogp_jobs T !! k = Some x)
    by (intros x; by rewrite merge_sort_Permutation, elem_of_SELECT, elem_of_rows).
  destruct (merge_sort _ _) as [|x l]; [exfalso; apply (not_elem_of_nil j), Hel; eauto|].
  destruct (proj1 (Hel x) ltac:(left)) as [Hqx [k Hx]]. cbn.
  apply StronglySorted_cons in Hsort as [Hmin _]. rewrite Forall_forall in Hmin.
  destruct (decide (k = id)) as [->|Hne]; [congruence|]. specialize (Hold _ _ Hx Hqx Hne).
  assert (j ∈ x :: l) as [->|Hin]%elem_of_cons by (apply Hel; eauto); [lia|].
  specialize (Hmin j Hin). unfold PgQueue.oldest_first, by_time in Hmin. lia.
Qed.

(** ** One turn of the loop *)

Context (id : string) (Hid : ulid id).

Definition stuck (j : OGPJob.t) (s : PG) : Prop :=
  connected s /\ keyed OGPJob.ID (ogp_jobs (tables s)) /\ next_job id j (tables s).

Lemma claim_step s j : stuck j s -> (0 <= OGPJob.Attempts j < 2 ^ 31 - 1)%Z -> exists j',
  PgQueue.Claim s = (set_tables (set_ogp_jobs (<[id := j']> (ogp_jobs (tables s))) (tables s)) (advance s), Ok (Some j')) /\
  PgQueue.running (NOW (pg_tick s)) j = Some j'.
Proof.
  intros (Hc & Hk & Hn) Ha. pose proof (claims_next (pg_tick s) (tables s) id j Hk Hn) as Hhd. destruct Hn as (Hj & _ & _).
  unfold PgQueue.Claim, wrap, map_err. rewrite exec_connected by done. destruct (ORDER_BY _ _) as [|x l]; [done|]. injection Hhd as ->.
  rewrite (Hk _ _ Hj), (UPDATE_job_row _ _ id j) by done. unfold PgQueue.running. rewrite int_ok by lia.
  cbn. eexists. split; [|done]. done.
Qed.
(** The cache's columns refuse the page. *)
Lemma refuses_step s p : connected s -> OGPPreview.URLHash p <> "" -> varchar 512 (OGPPreview.Title p) = None ->
  PgCache.Upsert (Some p) s = (advance s, Err (Wrapped "postgres: upsert ogp cache: " bad_value "")).
Proof.
  intros Hc Hh Ht. cbn [PgCache.Upsert]. rewrite bool_decide_eq_false_2 by done. unfold wrap, map_err. rewrite exec_connected by done.
  assert (ogp_cache_row (PgCache.inserted (NOW (pg_tick s)) p) = None) as ->; [|done].
  unfold ogp_cache_row. cbn. destruct (char 64 _); [|done]. destruct (varchar 2048 (OGPPreview.URL p)); [|done]. cbn. by rewrite Ht.
Qed.

(** The job goes back to the queue. *)
Lemma requeue_step s j : connected s -> keyed OGPJob.ID (ogp_jobs (tables s)) -> ogp_jobs (tables s) !! id = Some j ->
  PgQueue.MarkFailed id refusal true s =
    (set_tables (set_ogp_jobs (<[id := retried 0 j]> (ogp_jobs (tables s))) (tables s)) (advance s), Ok tt).
Proof.
  intros Hc Hk Hj. unfold PgQueue.MarkFailed, PgQueue.update, wrap, map_err. rewrite exec_connected by done.
  rewrite char_arg_ulid, (UPDATE_job_row _ _ id j) by done. rewrite refusal_fits. cbn.
  unfold retried. by rewrite Z.add_0_r.
Qed.

Lemma stuck_retried j j' s T' s' :
  stuck j s -> connected s' -> OGPJob.ID j' = id -> OGPJob.EnqueuedAt j' = OGPJob.EnqueuedAt j -> PgQueue.queued j' = true ->
  T' = set_ogp_jobs (<[id := j']> (ogp_jobs (tables s))) (tables s) -> tables s' = T' -> stuck j' s'.
Proof.
  intros (Hc & Hk & (Hj & Hq & Hold)) Hc' Hi He Hq' -> HT'. unfold stuck, next_job. rewrite HT'.
  split; [done|]. split; [|split; [|split; [done|]]]; cbn.
  - by apply keyed_put_at.
  - apply lookup_insert_eq.
  - intros k x Hx Hqx Hne. rewrite lookup_insert_ne in Hx by done. rewrite He. by apply (Hold k x).
Qed.

Lemma process_refused s job :
  too_long (OGPJob.URL job) -> connected s -> keyed OGPJob.ID (ogp_jobs (tables s)) -> ogp_jobs (tables s) !! id = Some job ->
  exists s', Worker.process opts job s = (s', Ok tt) /\ connected s' /\
    tables s' = set_ogp_jobs (<[id := retried 0 job]> (ogp_jobs (tables s))) (tables s).
Proof.
  intros Hlong Hc Hk Hj. destruct (Hlong s) as (s2 & p & Hfetch & HT & Htx & Hle & Hh & Ht).
  assert (connected (advance s2)) as Hc2 by (apply (connected_later s); cbn; [done|done|lia]).
  unfold Worker.process, bind, try. rewrite Hfetch. cbn [Runtime.Now pg_Runtime OGPCacheRepository.Upsert pg_OGPCacheRepository].
  rewrite refuses_step by done. rewrite (Hk _ _ Hj). change (Error _) with refusal.
  unfold Worker.markFailed, ignore, bind, try. cbn [OGPJobQueue.MarkFailed pg_OGPJobQueue].
  assert (connected (advance (advance s2))) as Hc3 by (apply (connected_later (advance s2)); cbn; [done|done|lia]).
  rewrite (requeue_step _ job); [|done|cbn; by rewrite HT|cbn; by rewrite HT].
  eexists. split; [done|]. cbn. rewrite HT. split; [|done].
  apply (connected_later (advance s2)); cbn; [done|done|lia].
Qed.

Lemma runOnce_refused s j : too_long (OGPJob.URL j) -> stuck j s -> (0 <= OGPJob.Attempts j < 2 ^ 31 - 1)%Z ->
  exists s', Worker.runOnce opts s = (s', Ok tt) /\ stuck (retried 1 j) s' /\
    tables s' = set_ogp_jobs (<[id := retried 1 j]> (ogp_jobs (tables s))) (tables s).
Proof.
  intros Hlong Hs Ha. pose proof Hs as (Hc & Hk & (Hj & _ & _)). destruct (claim_step s j Hs Ha) as (j' & Hclaim & Hrun).
  unfold PgQueue.running in Hrun. rewrite int_ok in Hrun by lia. injection Hrun as Hj'.
  destruct (process_refused (set_tables (set_ogp_jobs (<[id := j']> (ogp_jobs (tables s))) (tables s)) (advance s)) j')
    as (s' & Hp & Hc' & HT').
  - by subst j'.
  - apply (connected_later s); cbn; [done|done|lia].
  - apply keyed_put_at; [done|]. subst j'. exact (Hk _ _ Hj).
  - apply lookup_insert_eq.
  - cbn in HT'. rewrite insert_insert_eq in HT'. assert (retried 0 j' = retried 1 j) as Er by
      (subst j'; unfold retried; cbn; by rewrite Z.add_0_r).
    rewrite Er in HT'. exists s'. split; [|split; [|done]].
    + unfold Worker.runOnce, bind, try. cbn [OGPJobQueue.Claim pg_OGPJobQueue]. by rewrite Hclaim.
    + eapply (stuck_retried j); [done|done|exact (Hk _ _ Hj)|done..|done].
Qed.

(** ** Any number of turns *)

Lemma retried_retried n m j : retried n (retried m j) = retried (m + n) j.
Proof. unfold retried. cbn. by rewrite Z.add_assoc. Qed.

Lemma run_refused n : forall s j, too_long (OGPJob.URL j) -> stuck j s ->
  (0 <= OGPJob.Attempts j)%Z -> (OGPJob.Attempts j + Z.of_nat (S n) < 2 ^ 31)%Z ->
  exists s', Worker.run opts (S n) s = (s', Ok tt) /\ stuck (retried (Z.of_nat (S n)) j) s' /\
    tables s' = set_ogp_jobs (<[id := retried (Z.of_nat (S n)) j]> (ogp_jobs (tables s))) (tables s).
Proof.
  induction n as [|n IH]; intros s j Hlong Hs Hpos Hn.
  all: destruct (runOnce_refused s j) as (s1 & Hone & Hs1 & HT1); [done|done|lia|].
  - exists s1. cbn. unfold bind. rewrite Hone. split; [done|by split].
  - destruct (IH s1 (retried 1 j)) as (s' & Hrun & Hs' & HT'); [done|done|cbn; lia..|].
    rewrite retried_retried in Hs', HT'. replace (1 + Z.of_nat (S n))%Z with (Z.of_nat (S (S n))) in * by lia.
    exists s'. split; [|split; [done|]].
    + change (Worker.run opts (S (S n))) with (bind (Worker.runOnce opts) (fun _ => Worker.run opts (S n))).
      unfold bind at 1. by rewrite Hone.
    + rewrite HT', HT1. cbn [ogp_jobs set_ogp_jobs]. by rewrite insert_insert_eq.
Qed.
End refused.
