(* ===== verification/HydrateThms.v ===== *)
(** * What a reader is shown

    The batch-loading hydrator against one card per post, and the pages of
    the home timeline against the feed they are cut from. *)

From S2P Require Import Prelude Errors Monad Domain Feeds Paging.
From S2P Require Import MemUsers MemPosts MemLikes MemTags MemFollows MemOGP Repository Backend PostUC PostInv PostThms Frames.

(** ** One card *)

Definition viewer_flag (viewer : option string) (f : string -> bool) : bool :=
  match viewer with Some v => if bool_decide (v = "") then false else f v | None => false end.

Definition card `{GoRuntime} (d : DB) (viewer : option string) (p : Post.t) : PostUC.Detail.t :=
  PostUC.Detail.mk p
    (Images.ListByPostID (links d) (Post.ID p) (images d))
    (Tags.ListByPostID 0 (links d) (Post.ID p) (tags d))
    (viewer_flag viewer (fun v => Likes.IsLikedBy v (Post.ID p) (likes d)))
    (Users.live_user (users d) (Post.UserID p))
    (viewer_flag viewer (fun v => Follows.IsFollowing v (Post.UserID p) (follows d)))
    (PostUC.filterOKPreviews (OGPCache.previews (links d) (ogp d) (Post.ID p))).

Section lookups.
Context `{GoRuntime}.

Lemma images_lookup ls ims pids pid : pid ∈ pids ->
  default [] (Images.ListByPostIDs ls pids ims !! pid) = Images.ListByPostID ls pid ims.
Proof.
  intros Hp. unfold Images.ListByPostIDs. rewrite collect_map_lookup, bool_decide_eq_true_2 by done.
  unfold Images.ListByPostID. case_bool_decide as E; cbn.
  - unfold Images.attached. by rewrite E.
  - by case_bool_decide as E'; [rewrite E'|].
Qed.

Lemma tags_lookup seed ls ts pids pid : Tags.wf ts -> pid ∈ pids ->
  default [] (Tags.ListByPostIDs seed ls pids ts !! pid) = Tags.ListByPostID 0 ls pid ts.
Proof.
  intros Hwf Hp. unfold Tags.ListByPostIDs. rewrite collect_map_lookup, bool_decide_eq_true_2 by done.
  unfold Tags.ListByPostID. rewrite (Tags.attached_seed 0 seed) by done. case_bool_decide as E; cbn.
  - unfold Tags.attached. by rewrite E.
  - by case_bool_decide as E'; [rewrite E'|].
Qed.

Lemma authors_lookup us subs sub : sub ∈ subs -> Users.ListBySubs subs us !! sub = Users.live_user us sub.
Proof. intros Hs. unfold Users.ListBySubs. by rewrite collect_map_lookup, bool_decide_eq_true_2. Qed.

Lemma previews_lookup ls rows pids pid : pid ∈ pids ->
  default [] (OGPCache.ListByPostIDs ls pids rows !! pid) = OGPCache.previews ls rows pid.
Proof.
  intros Hp. rewrite OGPCache.ListByPostIDs_lookup. case_bool_decide as E; cbn; [done|].
  destruct (decide (OGPCache.previews ls rows pid = [])) as [->|Hne]; [done|]. naive_solver.
Qed.

Lemma liked_flag u pids ls pid : pid ∈ pids ->
  default false (Likes.ListLikedPostIDsByUser u pids ls !! pid) = Likes.IsLikedBy u pid ls.
Proof.
  intros Hp. rewrite Likes.ListLiked_lookup. case_bool_decide as E; cbn.
  - by destruct E as [_ ->].
  - destruct (Likes.IsLikedBy u pid ls) eqn:El; [|done]. by destruct E.
Qed.

Lemma following_flag v ts fs t : t ∈ ts ->
  default false (Follows.AreFollowing v ts fs !! t) = Follows.IsFollowing v t fs.
Proof.
  intros Ht. rewrite Follows.AreFollowing_lookup. unfold Follows.IsFollowing, Follows.following.
  repeat case_bool_decide; naive_solver.
Qed.

Lemma elem_of_authorSubs seed ps p : p ∈ ps -> Post.UserID p ∈ PostUC.authorSubs seed ps.
Proof.
  intros Hp. unfold PostUC.authorSubs. rewrite go_range_perm, elem_of_elements, elem_of_set_of.
  by apply list_elem_of_fmap_2.
Qed.
End lookups.

Section hydrate.
Context `{GoRuntime} {S : Type} `{!Backend S}.

(** Batch loading shows what loading post by post would. *)
Lemma Hydrate_spec seed ps viewer d :
  Tags.wf (tags d) ->
  vwp (S:=S) (PostUC.Hydrate seed ps viewer) d (fun r d' => d' = d /\ no_panic r /\
    forall ds, r = Ok ds -> ds = card d viewer <$> ps).
Proof.
  intros Hwf. unfold PostUC.Hydrate. case_bool_decide as He.
  { apply vwp_ret. subst. split; [done|]. split; [done|]. by intros ds [= <-]. }
  do 8 (ustep; try (split; [done|by split])).
  assert (Hcards : forall liked following tt,
    (forall p, p ∈ ps -> default false (liked !! Post.ID p) =
      viewer_flag viewer (fun v => Likes.IsLikedBy v (Post.ID p) (likes d))) ->
    (forall p, p ∈ ps -> default false (following !! Post.UserID p) =
      viewer_flag viewer (fun v => Follows.IsFollowing v (Post.UserID p) (follows d))) ->
    PostUC.detail (Images.ListByPostIDs (links d) (Post.ID <$> ps) (images d))
      (Tags.ListByPostIDs tt (links d) (Post.ID <$> ps) (tags d))
      (Users.ListBySubs (PostUC.authorSubs seed ps) (users d))
      (OGPCache.ListByPostIDs (links d) (Post.ID <$> ps) (ogp d)) liked following <$> ps = card d viewer <$> ps).
  { intros liked following tt Hl Hf. apply list_fmap_ext. intros i p Hp%list_elem_of_lookup_2.
    assert (Hid : Post.ID p ∈ Post.ID <$> ps) by by apply list_elem_of_fmap_2.
    unfold PostUC.detail, card.
    rewrite images_lookup, tags_lookup, previews_lookup, authors_lookup, Hl, Hf; try done. by apply elem_of_authorSubs. }
  unfold PostUC.viewer_state, viewer_flag in *. destruct viewer as [v|].
  - destruct (decide (v = "")) as [->|Hv].
    + rewrite bool_decide_eq_true_2 by done. ustep. ustep. ustep. split; [done|]. split; [done|].
      intros ds [= <-]. by apply Hcards.
    + rewrite !bool_decide_eq_false_2 in * by done.
      do 6 (ustep; try (split; [done|by split])). split; [done|]. split; [done|].
      intros ds [= <-]. apply Hcards; intros p Hp.
      * apply liked_flag. by apply list_elem_of_fmap_2.
      * by apply following_flag, elem_of_authorSubs.
  - ustep. ustep. ustep. split; [done|]. split; [done|]. intros ds [= <-]. by apply Hcards.
Qed.
End hydrate.

(** ** The home timeline *)

Section home.
Context `{GoRuntime} {S : Type} `{!Backend S}.

(** Live top-level posts of the viewer and of those they follow. *)
Definition home_filter (d : DB) (me : string) (p : Post.t) : bool :=
  Posts.live p && (bool_decide (Post.UserID p = me) || Follows.IsFollowing me (Post.UserID p) (follows d))
  && bool_decide (Post.ParentPostID p = None).

Lemma elem_of_following seed me fs x :
  x ∈ Follows.ListFollowingSubs seed me fs <-> Follows.IsFollowing me x fs = true.
Proof.
  unfold Follows.ListFollowingSubs, Follows.IsFollowing. rewrite bool_decide_eq_true, list_elem_of_omap. split.
  - intros ([[a b] f] & Hin & E). apply elem_of_range_map in Hin. cbn in E. case_bool_decide; simplify_eq. by eexists.
  - intros [f Hf]. exists ((me, x), f). split; [by apply elem_of_range_map|]. cbn. by rewrite bool_decide_eq_true_2.
Qed.

Lemma home_authors d seed me p :
  Posts.authors_filter (Follows.ListFollowingSubs seed me (follows d) ++ [me]) p = home_filter d me p.
Proof.
  unfold Posts.authors_filter, home_filter. cbn zeta. f_equal. f_equal.
  apply eq_bool_prop_intro. rewrite bool_decide_spec, orb_True, bool_decide_spec.
  rewrite elem_of_set_of, elem_of_app, list_elem_of_singleton, elem_of_following. rewrite Is_true_true. tauto.
Qed.

Lemma collect_ext flt flt' seed cursor ps :
  (forall p, flt p = flt' p) -> Posts.collectDescending seed flt cursor ps = Posts.collectDescending seed flt' cursor ps.
Proof.
  intros E. unfold Posts.collectDescending. f_equal. apply list_filter_iff. intros p. by rewrite E.
Qed.

(** A page of the home timeline: a request on the viewer's feed, and the
    cards of its posts. *)
Lemma Home_spec seed me cursor limit d :
  Tags.wf (tags d) ->
  vwp (S:=S) (TimelineUC.Home seed me cursor limit) d (fun r d' => d' = d /\ no_panic r /\
    forall ds nxt, r = Ok (ds, nxt) -> exists seed' page,
      request (home_filter d me) (posts d) (PostUC.NormalizeLimit limit) seed' cursor = Ok (page, nxt) /\
      ds = card d (Some me) <$> page).
Proof.
  intros Hwf. unfold TimelineUC.Home. repeat (ustep; try done).
  assert (Hne : forall l n e, Posts.paginate l n <> Err e).
  { intros l n e. unfold Posts.paginate. by repeat case_match. }
  split; [by intros e ?%Hne|].
  destruct (Posts.ListByUserIDs t0 _ _ _ _) as [[ps nxt0]|e|why] eqn:E;
    [|by apply Hne in E|by apply paginate_no_panic in E].
  assert (Hreq : request (home_filter d me) (posts d) (PostUC.NormalizeLimit limit) t0 cursor = Ok (ps, nxt0)).
  { rewrite <-E. unfold request, Posts.ListByUserIDs. f_equal. apply collect_ext. intros p. symmetry. apply home_authors. }
  ustep.
  eapply vwp_mono; [by apply Hydrate_spec|]. intros [ds|e|why] d' (-> & Hnp & Hds); [|done|by destruct (Hnp why)].
  ustep. split; [done|]. split; [done|]. intros ds' nxt [= <- <-]. eexists _, _. split; [exact Hreq|]. by apply Hds.
Qed.

Lemma paginate_answers l n : (exists page nxt, Posts.paginate l n = Ok (page, nxt)).
Proof.
  destruct (Posts.paginate l n) as [[page nxt]|e|why] eqn:E; [by eexists _, _|exfalso|by apply paginate_no_panic in E].
  revert E. unfold Posts.paginate. by repeat case_match.
Qed.

Lemma Hydrate_answers seed ps viewer d :
  faults S = false ->
  vwp (S:=S) (PostUC.Hydrate seed ps viewer) d (fun r d' => exists ds, r = Ok ds).
Proof.
  intros Hf. unfold PostUC.Hydrate, PostUC.viewer_state. repeat ustep; try congruence; by eexists.
Qed.

Lemma Home_answers seed me cursor limit d :
  faults S = false -> me <> "" ->
  vwp (S:=S) (TimelineUC.Home seed me cursor limit) d (fun r d' => exists ds nxt, r = Ok (ds, nxt)).
Proof.
  intros Hf Hme. unfold TimelineUC.Home. repeat (ustep; try congruence); [by to_prop|].
  unfold Posts.ListByUserIDs.
  match goal with |- context [Posts.paginate ?l ?n] => destruct (paginate_answers l n) as (page & nxt & ->) end.
  split; [done|]. ustep.
  eapply vwp_mono; [by apply Hydrate_answers|]. intros r d' [ds ->]. ustep. by eexists _, _.
Qed.

(** A client that follows [next_cursor] from page to page. *)
Fixpoint home_pages (fuel seed : nat) (me : string) (cursor : option string) (limit : Z)
    : M S (option (list PostUC.Detail.t)) :=
  match fuel with
  | O => ret None
  | Datatypes.S fuel =>
      bind (TimelineUC.Home seed me cursor limit) (fun '(ds, nxt) =>
        match cursor_of nxt with
        | None => ret (Some ds)
        | Some c => bind (home_pages fuel (Datatypes.S seed) me (Some c) limit) (fun rest => ret ((ds ++.) <$> rest))
        end)
  end.

Lemma home_pages_read fuel me limit d :
  faults S = false -> me <> "" -> Tags.wf (tags d) -> keyed (posts d) ->
  forall seed cursor, vwp (S:=S) (home_pages fuel seed me cursor limit) d (fun r d' => d' = d /\
    r = Ok (match read_feed (home_filter d me) (posts d) (PostUC.NormalizeLimit limit) fuel seed cursor with
            | Some ps => Some (card d (Some me) <$> ps)
            | None => None
            end)).
Proof.
  intros Hf Hme Hwf Hk. induction fuel as [|fuel IH]; intros seed cursor; cbn [home_pages read_feed]; [by apply vwp_ret|].
  apply vwp_bind.
  eapply vwp_mono; [exact (vwp_and _ _ _ _ (Home_answers seed me cursor limit d Hf Hme) (Home_spec seed me cursor limit d Hwf))|].
  intros r d' [(ds & nxt & ->) (-> & _ & Hpage)]. destruct (Hpage _ _ eq_refl) as (seed' & page & Hreq & ->).
  assert (Hreq' : request (home_filter d me) (posts d) (PostUC.NormalizeLimit limit) seed cursor = Ok (page, nxt)).
  { rewrite <-Hreq. unfold request. f_equal. by apply collect_seed. }
  rewrite Hreq'. destruct (cursor_of nxt) as [c|]; [|by apply vwp_ret].
  apply vwp_bind. eapply vwp_mono; [apply IH|]. intros r d' [-> ->]. apply vwp_ret. split; [done|]. f_equal.
  destruct (read_feed _ _ _ _ _ _) as [rest|]; cbn; [by rewrite fmap_app|done].
Qed.
End home.
