(* ===== verification/Contracts.v ===== *)
(** * The answer of every use case

    On a backend that does not fail, whether a write is accepted, and the
    error it is refused with, is a function of the request and of the
    database: the first check of the code that fails. A refused request
    changes nothing. *)

From S2P Require Import Prelude Errors Monad Domain Feeds.
From S2P Require Import MemUsers MemPosts MemLikes MemTags MemBadges MemFollows Repository Backend.
From S2P Require Import PostUC PostInv PostThms NetUrl BadgeUC FollowUC UserUC ImageUC.

Local Open Scope string_scope.

Definition verdict {A} (r : res A) : option goerror :=
  match r with Err e => Some e | _ => None end.

(** The first check that fails. *)
Fixpoint first_failure (checks : list (bool * goerror)) : option goerror :=
  match checks with
  | [] => None
  | (failed, e) :: checks => if (failed : bool) then Some e else first_failure checks
  end.

Definition missing {A} (x : option A) : bool := match x with Some _ => false | None => true end.

Section answers.
Context {S : Type} `{Store S}.

(** [m] is refused with [v], or accepted when [v] is [None]. *)
Definition answers {A} (m : M S A) (d : DB) (v : option goerror) : Prop :=
  vwp m d (fun r d' => no_panic r /\ verdict r = v /\ (is_Some v -> d' = d)).

Lemma answers_and {A} (m : M S A) d v (Q : res A -> DB -> Prop) :
  answers m d v -> vwp m d Q ->
  vwp m d (fun r d' => verdict r = v /\ (is_Some v -> d' = d) /\ (v = None -> exists a, r = Ok a) /\ Q r d').
Proof.
  intros Ha HQ. eapply vwp_mono; [exact (vwp_and _ _ _ _ Ha HQ)|]. intros r d' ((Hnp & Hv & Hd) & Hr).
  repeat split; try done. intros ->. destruct r as [a|e|why]; [by exists a|done|by destruct (Hnp why)].
Qed.
End answers.

(** ** The checks of each use case *)

Definition like_verdict (userSub postID : string) (d : DB) : option goerror := first_failure [
  (bool_decide (userSub = ""), Unauthorized "authentication required");
  (bool_decide (postID = ""), InvalidRequest "post id is required" None);
  (missing (Posts.GetByID postID (posts d)), NotFound "post not found")].

Definition unlike_verdict (userSub postID : string) : option goerror := first_failure [
  (bool_decide (userSub = ""), Unauthorized "authentication required");
  (bool_decide (postID = ""), InvalidRequest "post id is required" None)].

Definition delete_verdict (postID userSub : string) (d : DB) : option goerror :=
  if bool_decide (userSub = "") then Some (Unauthorized "authentication required")
  else
    match Posts.GetByID postID (posts d) with
    | None => Some (NotFound "post not found")
    | Some p => if bool_decide (Post.UserID p = userSub) then None
                else Some (Forbidden "you can only delete your own posts")
    end.

Definition image_check (userSub : string) (d : DB) (i : string) : option goerror :=
  match Images.GetByID i (images d) with
  | None => Some (NotFound "image not found")
  | Some im => if bool_decide (Image.UserID im = userSub) then None
               else Some (Forbidden "cannot attach another user's image")
  end.

Definition create_verdict (userSub : string) (req : option CreatePostRequest.t) (d : DB) : option goerror :=
  if bool_decide (userSub = "") then Some (Unauthorized "authentication required")
  else
    match req with
    | None => Some (InvalidRequest "request body is required" None)
    | Some rq =>
        match CreatePostRequest.Validate rq with
        | Some e => Some (ValidationFailed (Error e))
        | None =>
            if match CreatePostRequest.ParentPostID rq with
               | Some pid => missing (Posts.GetByID pid (posts d))
               | None => false
               end
            then Some (NotFound "parent post not found")
            else head (omap (image_check userSub d) (CreatePostRequest.ImageIDs rq))
        end
    end.

Definition follow_verdict (a b : string) (d : DB) : option goerror :=
  if bool_decide (a = "") then Some (Unauthorized "authentication required")
  else
    match Follow.Validate (Follow.mk a b time_zero) with
    | Some e => Some (ValidationFailed (Error e))
    | None => if missing (Users.live_user (users d) b) then Some (NotFound "user not found") else None
    end.

Definition unfollow_verdict (a b : string) : option goerror := first_failure [
  (bool_decide (a = ""), Unauthorized "authentication required");
  (bool_decide (a = b), ValidationFailed "cannot unfollow yourself");
  (bool_decide (b = ""), InvalidRequest "target sub is required" None)].

Definition upload_verdict (req : option UploadImageRequest.t) : option goerror :=
  match req with
  | None => Some (InvalidRequest "upload request is required" None)
  | Some rq => first_failure [
      (bool_decide (UploadImageRequest.FileData rq = ""), InvalidRequest "file data is empty" None);
      ((MaxImageBytes <? Z.of_nat (String.length (UploadImageRequest.FileData rq)))%Z,
       InvalidRequest "file size exceeds 5MB limit" None)]
  end.

Definition delete_image_verdict (imageID userSub : string) (d : DB) : option goerror :=
  if bool_decide (imageID = "") then Some (InvalidRequest "image ID is required" None)
  else
    match Images.GetByID imageID (images d) with
    | None => Some (NotFound "image not found")
    | Some im => if bool_decide (Image.UserID im = userSub) then None
                 else Some (Forbidden "not authorized to delete this image")
    end.

Definition admin_check (sub : string) (d : DB) : option goerror :=
  if bool_decide (sub = "") then Some (Unauthorized "authentication required")
  else
    match users d !! sub with
    | Some u => if User.IsAdmin u then None else Some (Forbidden "admin privilege required")
    | None => Some (Forbidden "admin privilege required")
    end.

Definition named_badge (key : string) (d : DB) : option Badge.t :=
  id ← Badges.byKey (badges d) !! key; Badges.badges (badges d) !! id.

Definition grant_verdict (adminSub targetSub : string) (req : option GrantBadgeRequest.t) (d : DB) : option goerror :=
  match admin_check adminSub d with
  | Some e => Some e
  | None =>
      match req with
      | None => Some (InvalidRequest "request body is required" None)
      | Some rq =>
          if bool_decide (targetSub = "") then Some (InvalidRequest "target sub is required" None)
          else
            match GrantBadgeRequest.Validate rq with
            | Some e => Some (ValidationFailed (Error e))
            | None => first_failure [
                (missing (named_badge (GrantBadgeRequest.BadgeKey rq) d), NotFound "badge not found");
                (missing (users d !! targetSub), NotFound "user not found")]
            end
      end
  end.

Definition revoke_verdict (adminSub targetSub badgeID : string) (d : DB) : option goerror :=
  match admin_check adminSub d with
  | Some e => Some e
  | None => first_failure [
      (bool_decide (targetSub = "") || bool_decide (badgeID = ""),
       InvalidRequest "target sub and badge id are required" None)]
  end.

Definition create_badge_verdict (adminSub : string) (badge : option Badge.t) (d : DB) : option goerror :=
  match admin_check adminSub d with
  | Some e => Some e
  | None =>
      match badge with
      | None => Some (InvalidRequest "request body is required" None)
      | Some b =>
          match BadgeValidate.Validate b with
          | Some e => Some (ValidationFailed (Error e))
          | None => if missing (named_badge (Badge.Key b) d) then None else Some (Conflict "badge key already exists")
          end
      end
  end.

Definition update_badge_verdict (adminSub badgeID : string) (patch : option Badge.t) (d : DB) : option goerror :=
  match admin_check adminSub d with
  | Some e => Some e
  | None =>
      match patch with
      | None => Some (InvalidRequest "request body is required" None)
      | Some b =>
          match Badges.badges (badges d) !! badgeID with
          | None => Some (NotFound "badge not found")
          | Some old =>
              match BadgeValidate.Validate (BadgeUC.patched old b) with
              | Some e => Some (ValidationFailed (Error e))
              | None => None
              end
          end
      end
  end.

Definition long (n : Z) (o : option string) : bool :=
  match o with Some s => (n <? Z.of_nat (String.length s))%Z | None => false end.

Definition profile_verdict (target current : string) (req : option UpdateUserProfileRequest.t) (d : DB) : option goerror :=
  if bool_decide (target = current) then
    match req with
    | None => Some (InvalidRequest "request body is required" None)
    | Some rq =>
        first_failure [
          (long 500%Z (UpdateUserProfileRequest.Bio rq),
           ValidationFailed (Error (InvalidUserError "bio must be 500 characters or fewer")));
          (long 1024%Z (UpdateUserProfileRequest.BannerURL rq),
           ValidationFailed (Error (InvalidUserError "banner url must be 1024 characters or fewer")));
          (missing (users d !! target), NotFound "user not found")]
    end
  else Some (Forbidden "you can only update your own profile").

(** ** The use cases answer so *)

(** One leaf of a symbolic run: the checks passed so far decide the verdict. *)
Ltac leaf :=
  unfold Users.GetBySub, Badges.GetByID in *; to_prop; cbn [first_failure missing verdict UploadImageRequest.FileSize UploadImageRequest.set_FileSize] in *; simplify_eq;
  repeat match goal with
    | H : ?x = _ |- context [match ?x with _ => _ end] => rewrite H
    | H : ?x = _ |- context [missing ?x] => rewrite H; cbn [missing]
    | |- context [bool_decide ?P] => case_bool_decide; try (exfalso; congruence)
    end; cbn [first_failure missing verdict];
  first [by repeat split | (split; [done|]; split; [done|]); by intros [? ?]].

Section verdicts.
Context `{GoRuntime} {S : Type} `{!Backend S, !StorageService.t S, !TagExtractor.t S} (Hfault : faults S = false).

Ltac run := repeat ustep; try (congruence || done); try leaf.

Lemma Like_answers hook u p d :
  like_hook_ok hook -> answers (S:=S) (PostUC.Like hook u p) d (like_verdict u p d).
Proof using Hfault.
  intros Hk. unfold answers, PostUC.Like, like_verdict. run. by apply hook_fmap.
Qed.

Lemma Unlike_answers u p d : answers (S:=S) (PostUC.Unlike u p) d (unlike_verdict u p).
Proof using Hfault. unfold answers, PostUC.Unlike, unlike_verdict. run. Qed.

Lemma Delete_answers p u d : answers (S:=S) (PostUC.Delete p u) d (delete_verdict p u d).
Proof using Hfault. unfold answers, PostUC.Delete, PostUC.uncount_reply, delete_verdict. run. Qed.

Lemma Unfollow_answers a b d : answers (S:=S) (FollowUC.Unfollow a b) d (unfollow_verdict a b).
Proof using Hfault. unfold answers, FollowUC.Unfollow, FollowUC.unbump, unfollow_verdict. run. Qed.

Lemma Follow_answers hook a b d :
  follow_hook_ok hook -> answers (S:=S) (FollowUC.Follow hook a b) d (follow_verdict a b d).
Proof using Hfault.
  intros Hk. unfold answers, FollowUC.Follow, FollowUC.bump, follow_verdict, Users.live_user. run.
  by apply follow_hook_fmap.
Qed.

Lemma probe_verdict rq :
  User.Validate
    (match UpdateUserProfileRequest.BannerURL rq with
     | Some b => User.set_BannerURL b
         (match UpdateUserProfileRequest.Bio rq with Some b => User.set_Bio b User.zero | None => User.zero end)
     | None => match UpdateUserProfileRequest.Bio rq with Some b => User.set_Bio b User.zero | None => User.zero end
     end) =
  first_failure [
    (long 500%Z (UpdateUserProfileRequest.Bio rq), InvalidUserError "bio must be 500 characters or fewer");
    (long 1024%Z (UpdateUserProfileRequest.BannerURL rq), InvalidUserError "banner url must be 1024 characters or fewer")].
Proof. by destruct rq as [[?|] [?|]]. Qed.

Lemma UpdateProfile_flag now sub rq us :
  match (Users.UpdateProfile now sub rq us).2 with
  | None => us !! sub = None /\ (Users.UpdateProfile now sub rq us).1 = us
  | Some _ => is_Some (us !! sub)
  end.
Proof. unfold Users.UpdateProfile. destruct (us !! sub) as [?|] eqn:E; cbn; rewrite ?E; [by eexists|done]. Qed.

Lemma UpdateProfile_answers target current req d :
  answers (S:=S) (UserUC.UpdateUserProfile target current req) d (profile_verdict target current req d).
Proof using Hfault.
  unfold answers, UserUC.UpdateUserProfile, profile_verdict.
  run; to_prop; subst; rewrite bool_decide_eq_true_2 by done;
    match goal with H : User.Validate _ = _ |- _ => rewrite probe_verdict in H; cbn [first_failure] in * end.
  - destruct (long 500 (UpdateUserProfileRequest.Bio a)), (long 1024 (UpdateUserProfileRequest.BannerURL a)); by simplify_eq.
  - pose proof (UpdateProfile_flag (clock t) current a (users d)) as Hf. rewrite H5 in Hf. destruct Hf as [Hn ->].
    destruct (long 500 (UpdateUserProfileRequest.Bio a)), (long 1024 (UpdateUserProfileRequest.BannerURL a)); simplify_eq. rewrite Hn. by destruct d.
  - pose proof (UpdateProfile_flag (clock t) current a (users d)) as Hf. rewrite H5 in Hf. destruct Hf as [? Hf].
    destruct (long 500 (UpdateUserProfileRequest.Bio a)), (long 1024 (UpdateUserProfileRequest.BannerURL a)); simplify_eq. rewrite Hf. split; [done|]. split; [done|]. by intros [].
Qed.

Lemma ensureAdmin_answers sub d : answers (S:=S) (BadgeUC.ensureAdmin sub) d (admin_check sub d).
Proof using Hfault. unfold answers, BadgeUC.ensureAdmin, AdminUC.IsAdmin, admin_check. run. Qed.

(** A call that only an administrator may make. *)
Lemma admin_answers {A} (k : M S A) sub d v :
  (admin_check sub d = None -> answers k d v) ->
  answers (bind (BadgeUC.ensureAdmin sub) (fun _ => k)) d
    (match admin_check sub d with Some e => Some e | None => v end).
Proof using Hfault.
  intros Hk. unfold answers. apply vwp_bind.
  eapply vwp_mono; [apply vwp_and; [apply ensureAdmin_answers|apply ensureAdmin_spec]|].
  intros [[]|e|why] d' ((Hnp & Hv & _) & -> & _); [|by rewrite <-Hv|by destruct (Hnp why)].
  rewrite <-Hv. by apply Hk.
Qed.

Lemma named_badge_ok key d :
  badge_inv d -> Badges.GetByKey key (badges d) = Ok (named_badge key d).
Proof.
  intros [[Hk _] _ _]. unfold Badges.GetByKey, named_badge.
  destruct (Badges.byKey (badges d) !! key) as [id|] eqn:E; [|done].
  destruct (Hk _ _ E) as (b & Hb & _). cbn. by rewrite Hb.
Qed.

Lemma GrantBadge_answers adminSub targetSub req d :
  badge_inv d -> answers (S:=S) (BadgeUC.GrantBadge adminSub targetSub req) d (grant_verdict adminSub targetSub req d).
Proof using Hfault.
  intros Hinv. unfold BadgeUC.GrantBadge, grant_verdict. apply admin_answers. intros _. unfold answers.
  run. rewrite (named_badge_ok _ d Hinv). split; [by intros|]. run.
Qed.

Lemma RevokeBadge_answers adminSub targetSub badgeID d :
  answers (S:=S) (BadgeUC.RevokeBadge adminSub targetSub badgeID) d (revoke_verdict adminSub targetSub badgeID d).
Proof using Hfault.
  unfold BadgeUC.RevokeBadge, revoke_verdict. apply admin_answers. intros _. unfold answers. run.
  cbn [first_failure]. by rewrite H2.
Qed.

Lemma CreateBadge_answers adminSub badge d :
  badge_inv d -> answers (S:=S) (BadgeUC.CreateBadge adminSub badge) d (create_badge_verdict adminSub badge d).
Proof using Hfault.
  intros Hinv. unfold BadgeUC.CreateBadge, create_badge_verdict. apply admin_answers. intros _. unfold answers.
  run. rewrite (named_badge_ok _ d Hinv). split; [by intros|]. run.
  - subst. rewrite H3. to_prop. by destruct (named_badge (Badge.Key a) d); [|destruct H4].
  - exfalso. revert H5. unfold Badges.Create. to_prop. destruct (named_badge (Badge.Key a) d) eqn:E; [by destruct H4|].
    unfold named_badge in E. change (Badge.Key (Badge.set_ID _ a)) with (Badge.Key a).
    destruct (Badges.byKey (badges d) !! Badge.Key a) eqn:Ek; [|done].
    destruct (proj1 (badges_wf _ Hinv) _ _ Ek) as (b & Hb & _). cbn in E. congruence.
  - subst. rewrite H3. to_prop. destruct (named_badge (Badge.Key a) d); [by destruct H4|].
    split; [done|]. split; [done|]. by intros [? ?].
Qed.

Lemma UpdateBadge_answers adminSub badgeID patch d :
  badge_inv d -> answers (S:=S) (BadgeUC.UpdateBadge adminSub badgeID patch) d (update_badge_verdict adminSub badgeID patch d).
Proof using Hfault.
  intros Hinv. unfold BadgeUC.UpdateBadge, update_badge_verdict. apply admin_answers. intros _. unfold answers.
  run. exfalso. unfold Badges.GetByID in *. destruct (proj2 (badges_wf _ Hinv) _ _ H3) as [Hid _].
  revert H5. unfold Badges.Update. cbn [Badge.ID BadgeUC.patched]. by rewrite Hid, H3.
Qed.

(** The object store accepts and gives back nothing of the database. *)
Definition storage_up : Prop := forall rq d,
  vwp (S:=S) (StorageService.Upload rq) d (fun r d' => exists kv, r = Ok kv).

Lemma Upload_answers req d :
  remote_storage (S:=S) -> storage_up -> answers (S:=S) (ImageUC.Upload req) d (upload_verdict req).
Proof using Hfault.
  intros [Hr _] Hup. unfold answers, ImageUC.Upload, upload_verdict. run.
  eapply vwp_mono; [apply vwp_and; [apply Hr|apply Hup]|].
  intros r d' [(n & _ & -> & _) [[key url] ->]]. run.
Qed.

Lemma DeleteImage_answers i u d :
  remote_storage (S:=S) -> answers (S:=S) (ImageUC.Delete i u) d (delete_image_verdict i u d).
Proof using Hfault.
  intros [_ Hr]. unfold answers, ImageUC.Delete, delete_image_verdict. run.
  eapply vwp_mono; [apply Hr|]. intros [[]|e|why] d' [-> Hnp]; [..|by destruct (Hnp why)]; run.
Qed.

(** ** Creating a post *)

(** The tag extractor reads any text. *)
Definition extractor_up : Prop := forall c d,
  vwp (S:=S) (TagExtractor.Extract c) d (fun r d' => d' = d /\ exists names, r = Ok names).

Lemma resolve_root_answers parent d :
  answers (S:=S) (PostUC.resolve_root parent) d
    (if match parent with Some pid => missing (Posts.GetByID pid (posts d)) | None => false end
     then Some (NotFound "parent post not found") else None).
Proof using Hfault. unfold answers, PostUC.resolve_root. run. Qed.

Lemma check_image_answers userSub i d :
  answers (S:=S) (PostUC.check_image userSub i) d (image_check userSub d i).
Proof using Hfault. unfold answers, PostUC.check_image, image_check. run. Qed.

Lemma check_image_reads userSub i d : vwp (S:=S) (PostUC.check_image userSub i) d (fun r d' => d' = d).
Proof using Type. unfold PostUC.check_image. by repeat ustep. Qed.

Lemma check_images_answers userSub ids d :
  answers (S:=S) (for_each (PostUC.check_image userSub) ids) d (head (omap (image_check userSub d) ids)).
Proof using Hfault.
  induction ids as [|i ids IH]; cbn [for_each]; [by apply vwp_ret|]. apply vwp_bind.
  eapply vwp_mono; [exact (vwp_and _ _ _ _ (check_image_answers userSub i d) (check_image_reads userSub i d))|].
  cbn [omap list_omap]. intros [[]|e|why] d' ((Hnp & Hv & _) & ->); cbn in Hv; rewrite <-Hv; [done|done|by destruct (Hnp why)].
Qed.

(** A valid request makes a valid row. *)
Lemma new_post_valid id userSub rq root :
  userSub <> "" -> CreatePostRequest.Validate rq = None ->
  Post.Validate (PostUC.new_post id userSub rq root) = None.
Proof using Type.
  intros Hu. unfold CreatePostRequest.Validate, Post.Validate, CreatePostRequest.check_parent.
  cbn [Post.Content Post.UserID Post.ParentPostID PostUC.new_post].
  rewrite (bool_decide_eq_false_2 (userSub = "")) by done.
  destruct (_ || _); [done|]. destruct (_ <? _)%Z; [done|]. destruct (CreatePostRequest.check_image_ids _ _); [done|].
  destruct (CreatePostRequest.ParentPostID rq) as [pid|]; [|done]. by destruct (bool_decide (pid = "")).
Qed.

Context `{!UniqueULIDs}.

Lemma Create_answers hook userSub req d :
  post_hook_ok hook -> extractor_up -> post_inv d ->
  answers (S:=S) (PostUC.Create hook userSub req) d (create_verdict userSub req d).
Proof.
  intros Hh Hx Hinv. unfold answers, PostUC.Create, create_verdict. run. subst req.
  match goal with HV : CreatePostRequest.Validate a = None, HU : bool_decide (userSub = _) = false |- _ =>
    rewrite HV, HU; rename HV into Hvalid; apply bool_decide_eq_false_1 in HU; rename HU into Huser end.
  eapply vwp_mono; [exact (vwp_and _ _ _ _ (resolve_root_answers _ _) (resolve_root_spec _ d (inv_keyed _ Hinv)))|].
  intros [root|e|why] d' ((Hnp & Hv & _) & -> & _); [..|by destruct (Hnp why)]; cbn [verdict] in Hv;
    destruct (match CreatePostRequest.ParentPostID a with Some _ => _ | None => _ end); simplify_eq; [|done].
  ustep. eapply vwp_mono; [exact (vwp_and _ _ _ _ (check_images_answers _ _ _) (check_images_spec userSub _ d))|].
  intros [[]|e|why] d' ((Hnp' & Hv' & _) & -> & _); [|by rewrite <-Hv'|by destruct (Hnp' why)]. rewrite <-Hv'.
  do 2 ustep. eapply vwp_mono; [apply Hx|]. intros r d' [-> [names ->]]. do 2 ustep; [|congruence].
  unfold Tags.UpsertByNames.
  destruct (Tags.upsert_loop_spec (clock t) names ∅ (ulids d) (tags d) (inv_tags _ Hinv) (proj2 (inv_fresh _ Hinv)))
    as (n & ts & out & -> & _). split; [by intros|]. cbn [fst snd].
  assert (Hnone : forall det (d' : DB), no_panic (Ok det) /\ verdict (Ok (A:=PostUC.Detail.t) det) = verdict (Ok tt) /\
    (is_Some (verdict (Ok tt)) -> d' = d)) by (intros det d'; split; [done|]; split; [done|]; by intros [? ?]).
  unfold PostUC.count_reply.
  repeat ((rewrite new_post_valid by done) || ustep); try (congruence || apply Hnone); by apply post_hook_fmap.
Qed.
End verdicts.
