(* ===== verification/TagExtract.v ===== *)
(** * [internal/tagextractor]: hashtags and dictionary words of a post

    [RegexTagExtractor.Extract] over the bytes of the content: the hashtag
    pattern scanned rune by rune, the dictionary patterns as word searches
    over the decoded runes, and the [add] closure with its caps. The Unicode
    tables are a class; everything else computes. *)

From S2P Require Import Prelude Monad GoStrings Cursor NetUrl Domain OgpUrl OgpUrlThms Repository Backend PostUC PostThms Contracts.
From Stdlib Require Import Ascii.

Local Open Scope Z_scope.

(** The tables behind [\p{L}], [\p{N}] and the folding of [(?i)]; two runes
    match each other when they have the same [fold]. *)
Class UnicodeTables := {
  IsLetter : Z -> bool;
  IsNumber : Z -> bool;
  fold : Z -> Z;
}.

(** The first rune of a non-empty text: an invalid byte is U+FFFD. *)
Definition rune_at (s : string) : Z :=
  let b n := match byte_at n s with Some c => Z.of_N c | None => 0 end in
  match rune_size s with
  | 1%nat => if b 0%nat <? 128 then b 0%nat else 65533
  | 2%nat => (b 0%nat - 192) * 64 + (b 1%nat - 128)
  | 3%nat => ((b 0%nat - 224) * 64 + (b 1%nat - 128)) * 64 + (b 2%nat - 128)
  | _ => (((b 0%nat - 240) * 64 + (b 1%nat - 128)) * 64 + (b 2%nat - 128)) * 64 + (b 3%nat - 128)
  end.

(** [[]rune(s)]; a step consumes at least a byte. *)
Fixpoint runes (fuel : nat) (s : string) : list Z :=
  match fuel, s with
  | S fuel, String _ _ => rune_at s :: runes fuel (string_drop (rune_size s) s)
  | _, _ => []
  end.

Module RegexTagExtractor.
Section extractor.
Context `{HostTables, UnicodeTables}.

(** [[\p{L}\p{N}_]] *)
Definition is_word (r : Z) : bool := IsLetter r || IsNumber r || (r =? 95).

(** The bytes of at most [k] leading word runes. *)
Fixpoint word_len (k : nat) (s : string) : nat :=
  match k, s with
  | S k, String _ _ =>
      if is_word (rune_at s) then (rune_size s + word_len k (string_drop (rune_size s) s))%nat else O
  | _, _ => O
  end.

(** The group of a match of [hashtagPattern] that starts here. *)
Definition hashtag_at (s : string) : option string :=
  match s with
  | String a s =>
      if (code a =? 35) && negb (bool_decide (s = EmptyString)) && IsLetter (rune_at s)
      then Some (string_take (rune_size s + word_len 63 (string_drop (rune_size s) s)) s)
      else None
  | EmptyString => None
  end.

(** [FindAllStringSubmatch(content, -1)]: leftmost matches that do not overlap. *)
Fixpoint hashtags (fuel : nat) (s : string) : list string :=
  match fuel, s with
  | S fuel, String _ _ =>
      match hashtag_at s with
      | Some name => name :: hashtags fuel (string_drop (S (String.length name)) s)
      | None => hashtags fuel (string_drop (rune_size s) s)
      end
  | _, _ => []
  end.

(** [strings.ToLower(strings.TrimSpace(name))] *)
Definition normalized (name : string) : string := Normalizer.to_lower (GoText.TrimSpace name).

(** The dictionary of [NewRegexTagExtractor]: normalised, without
    repetitions, sorted. *)
Fixpoint dictionary (keywords : list string) (entries : list string) : list string :=
  match keywords with
  | [] => entries
  | kw :: keywords =>
      let norm := normalized kw in
      if bool_decide (norm = EmptyString) || bool_decide (norm ∈ entries)
      then dictionary keywords entries else dictionary keywords (entries ++ [norm])
  end.

Definition NewRegexTagExtractor (keywords : list string) : list string :=
  sort_asc (fun k => k) (dictionary keywords []).

(** A keyword's pattern: the word, between a start or end of the text or a
    rune that is no word rune. *)
Fixpoint folded_prefix (kw rs : list Z) : option (list Z) :=
  match kw, rs with
  | [], rs => Some rs
  | k :: kw, r :: rs => if fold k =? fold r then folded_prefix kw rs else None
  | _ :: _, [] => None
  end.

Definition word_here (kw rs : list Z) : bool :=
  match folded_prefix kw rs with
  | Some [] => true
  | Some (r :: _) => negb (is_word r)
  | None => false
  end.

Fixpoint word_after_gap (kw rs : list Z) : bool :=
  match rs with
  | [] => false
  | r :: rs => (negb (is_word r) && word_here kw rs) || word_after_gap kw rs
  end.

Definition MatchString (kw content : string) : bool :=
  let k := runes (String.length kw) kw in
  let rs := runes (String.length content) content in
  word_here k rs || word_after_gap k rs.

(** The closure [add]; [seen] holds exactly the names in [out]. *)
Definition add (name : string) (out : list string) : list string :=
  let norm := normalized name in
  if bool_decide (norm = EmptyString) || (MaxTagNameLen <? Z.of_nat (String.length norm))
     || bool_decide (norm ∈ out)
  then out else out ++ [norm].

(** A loop over candidates that stops at [MaxTagsPerPost]; the flag is the
    [return] inside the loop. *)
Fixpoint add_all (names : list string) (out : list string) : list string * bool :=
  match names with
  | [] => (out, false)
  | n :: names =>
      if MaxTagsPerPost <=? Z.of_nat (length out) then (out, true) else add_all names (add n out)
  end.

Definition extract (entries : list string) (content : string) : list string :=
  let '(out, returned) := add_all (hashtags (String.length content) content) [] in
  if (returned : bool) then out
  else (add_all (List.filter (fun kw => MatchString kw content) entries) out).1.

Definition Extract {S} (entries : list string) : TagExtractor.t S :=
  {| TagExtractor.Extract content := ret (extract entries content) |}.
End extractor.
End RegexTagExtractor.

(** ** What the extractor promises *)

Section theorems.
Context `{HostTables, UnicodeTables}.
Import RegexTagExtractor.

(** More fuel than bytes changes nothing: the scan is the one of the code. *)
Lemma hashtags_fuel f s : (String.length s <= f)%nat -> hashtags f s = hashtags (String.length s) s.
Proof.
  revert s. induction f as [f IH] using lt_wf_ind. intros s Hf.
  destruct s as [|a s]; [by destruct f|]. destruct f as [|f]; [simpl in Hf; lia|].
  cbn [hashtags String.length].
  pose proof (rune_size_pos a s) as Hr.
  assert (Hstep : forall n, (1 <= n)%nat ->
            hashtags f (string_drop n (String a s)) = hashtags (String.length s) (string_drop n (String a s))).
  { intros n Hn. simpl in Hf.
    assert (Hl : (String.length (string_drop n (String a s)) <= String.length s)%nat).
    { rewrite length_string_drop. simpl. lia. }
    rewrite (IH f) by lia. destruct (decide (String.length s < S f)%nat); [|lia].
    by rewrite (IH (String.length s)) by lia. }
  destruct (hashtag_at (String a s)); [f_equal|]; apply Hstep; lia.
Qed.

(** A hashtag of the scan follows a [#] of the content. *)
Lemma hashtag_at_spec s name :
  hashtag_at s = Some name -> exists post, s = "#" +:+ name +:+ post.
Proof.
  destruct s as [|a s]; [done|]. cbn [hashtag_at].
  destruct (_ && _ && _) eqn:Hb; [|done]. intros Hname. apply (inj Some) in Hname as <-.
  apply andb_true_iff in Hb as [[Ha _]%andb_true_iff _]. apply Z.eqb_eq in Ha.
  assert (a = "#"%char) as -> by (apply code_inj; rewrite Ha; vm_compute; reflexivity).
  eexists. rewrite app_String. f_equal. apply take_drop_string.
Qed.

Lemma hashtags_spec f : forall s name, name ∈ hashtags f s ->
  exists pre post, s = pre +:+ "#" +:+ name +:+ post.
Proof.
  induction f as [|f IH]; intros s name; [intros []%not_elem_of_nil|].
  destruct s as [|a s]; [intros []%not_elem_of_nil|]. cbn [hashtags].
  assert (Hdrop : forall n, name ∈ hashtags f (string_drop n (String a s)) ->
            exists pre post, String a s = pre +:+ "#" +:+ name +:+ post).
  { intros n (pre & post & Heq)%IH. exists (string_take n (String a s) +:+ pre), post.
    rewrite <-string_app_assoc, <-Heq. apply take_drop_string. }
  destruct (hashtag_at (String a s)) as [h|] eqn:Hh; [|apply Hdrop].
  intros [->|Hin]%elem_of_cons; [|by eapply Hdrop].
  apply hashtag_at_spec in Hh as [post Hh]. by exists EmptyString, post.
Qed.

(** A list of tags as [out] is at any point of [Extract]. *)
Definition tag_list (out : list string) : Prop :=
  NoDup out /\ Z.of_nat (length out) <= MaxTagsPerPost /\
  forall t, t ∈ out -> t <> EmptyString /\ Z.of_nat (String.length t) <= MaxTagNameLen.

(** A candidate that [add] takes when there is room. *)
Definition storable (name : string) : Prop :=
  normalized name <> EmptyString /\ Z.of_nat (String.length (normalized name)) <= MaxTagNameLen.

Lemma add_spec name out :
  tag_list out -> Z.of_nat (length out) < MaxTagsPerPost ->
  tag_list (add name out) /\ (exists new, add name out = out ++ new /\ new ⊆ [normalized name]) /\
  (storable name -> normalized name ∈ add name out).
Proof.
  intros (Hnd & Hlen & Hok) Hroom. unfold add, storable.
  destruct (bool_decide_reflect (normalized name = EmptyString)) as [|Hne]; cbn [orb];
    [split; [done|split; [exists []; split; [by rewrite app_nil_r|set_solver]|tauto]]|].
  destruct (Z.ltb_spec MaxTagNameLen (Z.of_nat (String.length (normalized name)))); cbn [orb];
    [split; [done|split; [exists []; split; [by rewrite app_nil_r|set_solver]|lia]]|].
  destruct (bool_decide_reflect (normalized name ∈ out)) as [Hin|Hin];
    [split; [done|split; [exists []; split; [by rewrite app_nil_r|set_solver]|done]]|].
  split; [|split; [by exists [normalized name]|set_solver]].
  split; [|split].
  - apply NoDup_app. split; [done|]. split; [set_solver|]. apply NoDup_singleton.
  - rewrite length_app. cbn. lia.
  - intros t [Ht| ->%list_elem_of_singleton]%elem_of_app; [by apply Hok|]. split; [done|lia].
Qed.

Lemma add_all_spec names : forall out, tag_list out ->
  let r := add_all names out in
  tag_list r.1 /\ (exists new, r.1 = out ++ new /\ new ⊆ (normalized <$> names)) /\
  (forall n, n ∈ names -> storable n -> normalized n ∈ r.1 \/ Z.of_nat (length r.1) = MaxTagsPerPost) /\
  (r.2 = true -> Z.of_nat (length r.1) = MaxTagsPerPost).
Proof.
  induction names as [|n names IH]; intros out Hout; cbn [add_all fmap list_fmap].
  { split; [done|]. split; [exists []; split; [by rewrite app_nil_r|done]|]. split; [intros ? []%not_elem_of_nil|done]. }
  destruct (Z.leb_spec MaxTagsPerPost (Z.of_nat (length out))) as [Hfull|Hroom].
  { pose proof (proj1 (proj2 Hout)). split; [done|]. split; [exists []; split; [by rewrite app_nil_r|set_solver]|].
    split; [intros; right; cbn; lia|intros _; cbn; lia]. }
  destruct (add_spec n out Hout Hroom) as (Hadd & (new & Hnew & Hsub) & Htaken).
  destruct (IH _ Hadd) as (Hr & (new' & Hnew' & Hsub') & Hall & Hret).
  split; [done|]. split; [|split; [|done]].
  - exists (new ++ new'). rewrite Hnew', Hnew, (assoc_L (++)). split; [done|]. set_solver.
  - intros m [->|Hm]%elem_of_cons Hs; [|by apply Hall].
    left. rewrite Hnew'. apply elem_of_app. left. auto.
Qed.

Lemma extract_spec entries content :
  let out := extract entries content in
  let scanned := hashtags (String.length content) content in
  let mentioned := List.filter (fun kw => MatchString kw content) entries in
  tag_list out /\
  (exists hs ks, out = hs ++ ks /\ hs ⊆ (normalized <$> scanned) /\ ks ⊆ (normalized <$> mentioned)) /\
  (forall n, n ∈ scanned ++ mentioned -> storable n ->
     normalized n ∈ out \/ Z.of_nat (length out) = MaxTagsPerPost).
Proof.
  cbn zeta. unfold extract. set (scanned := hashtags _ _). set (mentioned := List.filter _ _).
  assert (Hnil : tag_list []) by (split; [apply NoDup_nil_2|split; [done|intros ? []%not_elem_of_nil]]).
  pose proof (add_all_spec scanned [] Hnil) as (Hr & (hs & Hhs & Hsub) & Hall & Hret). cbn zeta in *.
  destruct (add_all scanned []) as [out returned]. cbn [fst snd] in *. cbn in Hhs. subst hs.
  destruct returned.
  { split; [done|]. split; [exists out, []; rewrite app_nil_r; split_and!; [done|done|set_solver]|].
    intros n _ _. right. auto. }
  pose proof (add_all_spec mentioned out Hr) as (Hr' & (ks & Hks & Hsub') & Hall' & _). cbn zeta in *.
  split; [done|]. split; [by exists out, ks|].
  intros n [Hn|Hn]%elem_of_app Hs; [|by apply Hall'].
  destruct (Hall n Hn Hs) as [Hin|Hfull].
  - left. rewrite Hks. apply elem_of_app. by left.
  - right. pose proof (proj1 (proj2 Hr')) as Hle. rewrite Hks, length_app in *. lia.
Qed.

(** What the post use cases ask of an extractor. *)
Context {S : Type} `{!GoRuntime, !Backend S} (entries : list string).

Lemma regex_extractor_pure : @pure_extractor S _ (Extract entries).
Proof. intros c d. by apply vwp_ret. Qed.

Lemma regex_extractor_up : @extractor_up _ S _ (Extract entries).
Proof. intros c d. apply vwp_ret. split; [done|]. by eexists. Qed.
End theorems.

(** A concrete table: the letters and digits of ASCII. *)
Definition ascii_unicode : UnicodeTables := {|
  IsLetter r := is_alpha r;
  IsNumber r := is_num r;
  fold r := if between 65 90 r then r + 32 else r;
|}.

Example extract_tags_ex :
  let e := @RegexTagExtractor.NewRegexTagExtractor ascii_tables [" Fuji "; "go"; "fuji"]%string in
  @RegexTagExtractor.extract ascii_tables ascii_unicode e
    "#Go_lang #1no ##X9! we climb FUJI, not fujitsu. go"%string = ["go_lang"; "x9"; "fuji"; "go"]%string.
Proof. vm_compute. reflexivity. Qed.
