(* ===== verification/Http.v ===== *)
(** * The HTTP layer: pkg/auth, pkg/cookie, internal/middleware and the helpers
    of internal/handler

    A handler maps the values of the request context and a request to a
    response, over the state of the repositories. The bodies as text are in
    Handlers; headers that carry no decision and the framing of messages are
    left to net/http. *)

From S2P Require Import Prelude Errors Monad GoStrings Domain NetUrl OgpUrl Json UserUC.
From Stdlib Require Import Ascii.

Local Open Scope Z_scope.

(** ** [pkg/auth]: what the middlewares leave on the context *)

Module Auth.
Record context := mkContext {
  subKey : option string;
  accessTokenKey : option string;
  expiresAtKey : option Time;
  currentUserKey : option User.t;
}.

Definition background : context := mkContext None None None None.

Definition SetSubInContext (s : string) (c : context) : context :=
  mkContext (Some s) (accessTokenKey c) (expiresAtKey c) (currentUserKey c).
Definition SetAccessTokenInContext (t : string) (c : context) : context :=
  mkContext (subKey c) (Some t) (expiresAtKey c) (currentUserKey c).
Definition SetExpiresAtInContext (t : Time) (c : context) : context :=
  mkContext (subKey c) (accessTokenKey c) (Some t) (currentUserKey c).
Definition SetCurrentUserInContext (u : User.t) (c : context) : context :=
  mkContext (subKey c) (accessTokenKey c) (expiresAtKey c) (Some u).

(** [ctx.Value(key).(string)], with the empty string as nothing. *)
Definition GetSubFromContext (c : context) : option string :=
  match subKey c with Some s => if bool_decide (s = "") then None else Some s | None => None end.
Definition GetAccessTokenFromContext (c : context) : option string :=
  match accessTokenKey c with Some s => if bool_decide (s = "") then None else Some s | None => None end.
Definition GetExpiresAtFromContext (c : context) : option Time :=
  match expiresAtKey c with Some t => if IsZero t then None else Some t | None => None end.
Definition GetCurrentUserFromContext (c : context) : option User.t := currentUserKey c.
End Auth.

(** ** [pkg/cookie] *)

Module Cookie.
Inductive SameSite := SameSiteDefaultMode | SameSiteLaxMode | SameSiteStrictMode | SameSiteNoneMode.

Record Attrs := mkAttrs {
  Name : string; Value : string; MaxAge : Duration; Secure : bool;
  Mode : SameSite; Domain : string; Path : string;
}.

(** [*http.Cookie]; [HttpOnly] is always set. [MaxAge = 0] is a cookie
    without a Max-Age attribute. *)
Record t := mk {
  CName : string; CValue : string; CPath : string; CDomain : string; CMaxAge : Z;
  CSecure : bool; CHttpOnly : bool; CSameSite : SameSite;
}.

(** A non-negative dyadic number of seconds, scaled by 2^120 and rounded to
    53 significant bits, ties to even: a float64. *)
Definition scale : Z := 2 ^ 120.

Definition round53 (n : Z) : Z :=
  let e := Z.log2 n - 52 in
  if e <=? 0 then n
  else
    let q := Z.shiftr n e in
    let r := n - Z.shiftl q e in
    let half := Z.shiftl 1 (e - 1) in
    Z.shiftl (if (half <? r) || ((r =? half) && Z.odd q) then q + 1 else q) e.

(** [float64(nsec) / 1e9]: the quotient with one sticky bit, rounded. *)
Definition nano_fraction (nsec : Z) : Z :=
  let q := nsec * scale / 1000000000 in
  round53 (if q * 1000000000 =? nsec * scale then q else Z.lor q 1).

(** [int(d.Seconds())] for [d >= 0]:
    [float64(d / Second) + float64(d % Second) / 1e9], truncated. *)
Definition seconds (d : Duration) : Z :=
  Z.shiftr (round53 (Z.quot d Second * scale + nano_fraction (Z.rem d Second))) 120.

Definition Build (a : Attrs) : t :=
  mk (Name a) (Value a) (if bool_decide (Path a = "") then "/" else Path a) (Domain a)
    (if MaxAge a <? 0 then -1 else seconds (MaxAge a)) (Secure a) true (Mode a).

Definition ParseSameSite (s : string) : SameSite * option goerror :=
  if bool_decide (s = "Lax") then (SameSiteLaxMode, None)
  else if bool_decide (s = "Strict") then (SameSiteStrictMode, None)
  else if bool_decide (s = "None") then (SameSiteNoneMode, None)
  else (SameSiteLaxMode, Some (ErrorString "cookie: unknown SameSite value")).
End Cookie.

(** ** Requests and responses *)

(** A request after net/http has parsed it: the path as decoded, non-empty
    segments, the cookies by name, and the path values the mux filled in. *)
Record http_request := mkRequest {
  Method : string;
  Segments : list string;
  RawQuery : string;
  Authorization : string;
  Origin : string;
  Cookies : list (string * string);
  Body : string;
  PathValues : list (string * string);
}.

Definition set_PathValues (vs : list (string * string)) (r : http_request) : http_request :=
  mkRequest (Method r) (Segments r) (RawQuery r) (Authorization r) (Origin r) (Cookies r) (Body r) vs.

Definition PathValue (r : http_request) (name : string) : string :=
  match List.find (fun v => bool_decide (v.1 = name)) (PathValues r) with Some v => v.2 | None => "" end.

(** [r.URL.Query().Get(key)]: pairs that do not parse are skipped. *)
Definition QueryGet (r : http_request) (key : string) : string :=
  default "" (v ← (UrlText.parse_query (S (String.length (RawQuery r))) ∅ false (RawQuery r)).1 !! key; head v).

(** [r.Cookie(name)] *)
Definition request_cookie (r : http_request) (name : string) : option string :=
  if bool_decide (name = "") then None
  else snd <$> List.find (fun c => bool_decide (c.1 = name)) (Cookies r).

(** What a handler writes; [V] are the views of [internal/handler]. *)
Inductive payload (V : Type) :=
  | NoBody
  | ErrorBody (code message : string)
  | PlainText                    (* the 404 and 405 of the mux *)
  | Data (v : V).
Arguments NoBody {V}.
Arguments ErrorBody {V} code message.
Arguments PlainText {V}.
Arguments Data {V} v.

Record response (V : Type) := mkResponse {
  status : Z;
  content : payload V;
  set_cookie : option Cookie.t;
}.
Arguments mkResponse {V} status content set_cookie.
Arguments status {V} r.
Arguments content {V} r.
Arguments set_cookie {V} r.

Section writing.
Context {V : Type}.

Definition no_content : response V := mkResponse 204 NoBody None.
Definition write_data (code : Z) (v : V) : response V := mkResponse code (Data v) None.

(** [buildErrorResponse]: the code and message of an [*AppError], the text of
    any other error under the code of an internal one. *)
Definition buildErrorResponse (e : goerror) : payload V :=
  match IsAppError e with
  | Some (code, message, _) => ErrorBody code message
  | None => ErrorBody ErrInternal (Error e)
  end.

Definition WriteErrorResponse (e : goerror) : response V :=
  mkResponse (ToHTTPStatus e) (buildErrorResponse e) None.

Definition writeAuthError (statusCode : Z) (code message : string) : response V :=
  mkResponse statusCode (ErrorBody code message) None.
End writing.

(** ** Parsing *)

(** [strconv.Atoi] on 64-bit integers. *)
Fixpoint digits_value (acc : Z) (s : string) : option Z :=
  match s with
  | EmptyString => Some acc
  | String a s => let c := Cursor.code a in if is_num c then digits_value (acc * 10 + (c - 48)) s else None
  end.

Definition Atoi (s : string) : option Z :=
  let '(neg, ds) := match s with
                    | String a r => if Cursor.code a =? 45 then (true, r)
                                    else if Cursor.code a =? 43 then (false, r) else (false, s)
                    | EmptyString => (false, s)
                    end in
  if bool_decide (ds = EmptyString) then None
  else n ← digits_value 0 ds;
       let n := if neg : bool then - n else n in
       if (int64_min <=? n) && (n <=? int64_max) then Some n else None.

Definition parsePaginationParams (r : http_request) : Z * Z :=
  let l := QueryGet r "limit" in
  let o := QueryGet r "offset" in
  let limit := if bool_decide (l = "") then 20
               else match Atoi l with Some n => if 0 <? n then n else 20 | None => 20 end in
  let offset := if bool_decide (o = "") then 0
                else match Atoi o with Some n => if 0 <=? n then n else 0 | None => 0 end in
  (limit, offset).

Definition parseLimitQuery (r : http_request) : Z :=
  let raw := QueryGet r "limit" in
  if bool_decide (raw = "") then 0 else default 0 (Atoi raw).

(** Cursors of post lists are ULIDs; anything else is ignored. *)
Definition parseCursorQuery (r : http_request) : option string :=
  let raw := QueryGet r "cursor" in
  if bool_decide (raw = "") || negb (IsULID raw) then None else Some raw.

Definition parseOpaqueCursorQuery (r : http_request) : option string :=
  let raw := QueryGet r "cursor" in
  if bool_decide (raw = "") then None else Some raw.

(** [None] with an error is a request refused. *)
Definition parseOptionalUserIDQuery (r : http_request) : goerror + option string :=
  let raw := QueryGet r "user_id" in
  if bool_decide (raw = "") then inr None
  else if IsULID raw then inr (Some raw)
  else inl (InvalidRequest "invalid user_id (expected ULID)" None).

Definition parseULIDFromPath (r : http_request) (name errLabel : string) : goerror + string :=
  let value := PathValue r name in
  if IsULID value then inr value else inl (InvalidRequest errLabel None).

Definition parseSubFromPath (r : http_request) (name : string) : goerror + string :=
  parseULIDFromPath r name "invalid sub (expected ULID)".

Definition parsePostIDFromPath (r : http_request) : goerror + string :=
  parseULIDFromPath r "id" "invalid post ID".

(** The error of the decoder itself is only wrapped. *)
Definition json_error : goerror := ErrorString "json".

Definition decodeJSONBody {T} (fs : Json.struct T) (zero : T) (maxBytes : Z) (r : http_request) : goerror + T :=
  match Json.Decode (Some maxBytes) true fs zero (Body r) with
  | Json.Good v => inr v
  | Json.EOF => inl (InvalidRequest "request body is required" None)
  | Json.Bad => inl (InvalidRequest "invalid request body" (Some json_error))
  end.

(** ** Running a handler *)

Section running.
Context {S V : Type}.
Local Open Scope go_scope.

Definition handler : Type := Auth.context -> http_request -> M S (response V).

(** [x, err := uc.Execute(...); if err != nil { WriteErrorResponse(w, err); return }] *)
Definition or_error {A} (m : M S A) (k : A -> M S (response V)) : M S (response V) :=
  let! r := try m in
  match r with
  | inl e => ret (WriteErrorResponse e)
  | inr a => k a
  end.

(** [x, ok := parse(w, r); if !ok { return }] *)
Definition or_reply {A} (x : goerror + A) (k : A -> M S (response V)) : M S (response V) :=
  match x with
  | inl e => ret (WriteErrorResponse e)
  | inr a => k a
  end.

Definition need_sub (c : Auth.context) (k : string -> M S (response V)) : M S (response V) :=
  match Auth.GetSubFromContext c with
  | Some sub => k sub
  | None => ret (WriteErrorResponse (Unauthorized "authentication required"))
  end.

(** ** [internal/middleware] *)

(** [strings.SplitN(header, " ", 2)] and [strings.EqualFold(parts[0], "Bearer")]. *)
Definition extractBearerToken (header : string) : option string :=
  if bool_decide (header = "") then None
  else
    let '(scheme, token, found) := Cut " "%char header in
    if negb found || negb (bool_decide (Json.foldName scheme = "BEARER")) || bool_decide (token = "")
    then None else Some token.

Definition extractAuthToken (r : http_request) (cookieName : string) : option string :=
  match extractBearerToken (Authorization r) with
  | Some token => Some token
  | None =>
      if bool_decide (cookieName = "") then None
      else match request_cookie r cookieName with
           | Some v => if bool_decide (v = "") then None else Some v
           | None => None
           end
  end.

(** [errors.Is(err, authcore.ErrInvalidSession)] *)
Definition is_invalid_session (e : goerror) : bool := is_sentinel "authcore: invalid session" e.

Context `{AuthCore.Client S}.

Definition AuthMiddleware (cookieName : string) (next : handler) : handler := fun c r =>
  match extractAuthToken r cookieName with
  | None => ret (writeAuthError 401 ErrUnauthorized "authentication required")
  | Some token =>
      let! session := try (AuthCore.Introspect token) in
      match session with
      | inl err =>
          if is_invalid_session err
          then ret (writeAuthError 401 ErrUnauthorized "invalid session")
          else ret (writeAuthError 503 ErrExternalService "authentication backend unavailable")
      | inr session =>
          let c := Auth.SetSubInContext (AuthCore.Session.Sub session) c in
          let c := Auth.SetAccessTokenInContext token c in
          let c := Auth.SetExpiresAtInContext (AuthCore.Session.ExpiresAt session) c in
          next c r
      end
  end.

Definition writeHydrateError (e : goerror) : response V :=
  match IsAppError e with
  | Some (code, message, statusCode) => writeAuthError statusCode code message
  | None => writeAuthError 500 ErrInternal "failed to load user"
  end.

(** [hydrate token sub] is [GetOrHydrateUserUseCase.Execute]. *)
Definition HydrateUserMiddleware (hydrate : string -> string -> M S User.t) (next : handler) : handler := fun c r =>
  match Auth.GetSubFromContext c with
  | None => ret (writeAuthError 401 ErrUnauthorized "authentication required")
  | Some sub =>
      let! user := try (hydrate (default "" (Auth.GetAccessTokenFromContext c)) sub) in
      match user with
      | inl err => ret (writeHydrateError err)
      | inr user => next (Auth.SetCurrentUserInContext user c) r
      end
  end.

Definition AdminMiddleware (next : handler) : handler := fun c r =>
  match Auth.GetCurrentUserFromContext c with
  | None => ret (writeAuthError 401 ErrUnauthorized "authentication required")
  | Some user =>
      if User.IsAdmin user then next c r
      else ret (writeAuthError 403 ErrForbidden "admin privilege required")
  end.

(** A panic below is answered, not passed on. *)
Definition RecoveryMiddleware (m : M S (response V)) : M S (response V) := fun s =>
  match m s with
  | (s', Panic _) => (s', Ok (writeAuthError 500 ErrInternal "Internal server error"))
  | r => r
  end.
End running.

(** [strings.Split(allowedOrigins, ",")] *)
Fixpoint split_commas (fuel : nat) (s : string) : list string :=
  match fuel with
  | O => [s]
  | S fuel => let '(before, after, found) := Cut ","%char s in
              if found : bool then before :: split_commas fuel after else [s]
  end.

Definition isOriginAllowed (origin allowedOrigins : string) : bool :=
  if bool_decide (origin = "") then false
  else existsb (fun allowed => bool_decide (GoText.TrimSpace allowed = origin))
         (split_commas (String.length allowedOrigins) allowedOrigins).

(** The CORS headers that depend on the request: Access-Control-Allow-Origin
    and whether Access-Control-Allow-Credentials is sent. *)
Definition cors_headers (allowedOrigins origin : string) : option string * bool :=
  if bool_decide (allowedOrigins = "*") then (Some "*"%string, false)
  else if isOriginAllowed origin allowedOrigins then (Some origin, true)
  else (None, false).
