(* ===== verification/AuthClient.v ===== *)
(** * [pkg/authcore/client.go] and the token call of service_token.go

    The client of the account service: the requests it builds and what it
    makes of the answers. Sending a request is [http.Client]'s; an answer is
    its status, the bytes of its body that arrive, and whether the body then
    breaks off. Time-outs show as failures of [Do]. *)

From S2P Require Import Prelude Errors Monad GoStrings Cursor NetUrl OgpUrl OgpUrlThms Json UserUC Backend Repository PostUC.
From S2P Require Import PostThms Http.
From Stdlib Require Import Ascii.

Import AuthCore.

Local Open Scope string_scope.
Local Open Scope Z_scope.

Module AuthHTTP.

Record request := mkRequest {
  rMethod : string; rURL : string; rHeaders : list (string * string); rBody : string;
}.

Record answer := mkAnswer { StatusCode : Z; Body : string; BodyBroken : bool }.

Class Transport (S : Type) := { Do : request -> M S answer }.

(** [http.NewRequestWithContext]: the URL has to parse. *)
Definition NewRequest (method url : string) (headers : list (string * string)) (body : string) : goerror + request :=
  match URL.Parse url with
  | Some _ => inr (mkRequest method url headers body)
  | None => inl (ErrorString "parse url")
  end.

(** [json.NewDecoder(resp.Body).Decode(&out)] *)
Definition decode {T} (fs : Json.struct T) (zero : T) (a : answer) : option T :=
  match Json.Decode (if BodyBroken a then Some (Z.of_nat (String.length (Body a))) else None) false fs zero
          (if BodyBroken a then Body a +:+ "?" else Body a) with
  | Json.Good v => Some v
  | _ => None
  end.

(** [url.Values.Encode] *)
Definition form_Encode (values : gmap string (list string)) : string :=
  String.concat "&" (Normalizer.encode_values values).

(** [base64.StdEncoding]: the URL alphabet with two characters replaced,
    padded to a multiple of four. *)
Fixpoint std_alphabet (s : string) : string :=
  match s with
  | EmptyString => EmptyString
  | String a s =>
      String (if code a =? 45 then "+"%char else if code a =? 95 then "/"%char else a) (std_alphabet s)
  end.

Definition StdEncode (s : string) : string :=
  let e := std_alphabet (Base64.EncodeToString s) in
  e +:+ match (String.length s mod 3)%nat with 1%nat => "==" | 2%nat => "=" | _ => "" end.

Definition basicAuth (id secret : string) : string := "Basic " +:+ StdEncode (id +:+ ":" +:+ secret).

(** [Options], with the defaults [New] fills in; the time-outs have no
    effect on the answers modelled here. *)
Record Options := mkOptions {
  BaseURL : string; ClientID : string; ClientSecret : string; IntrospectPath : string; ProfilePath : string;
}.

Record HTTPClient := mkClient {
  baseURL : string; clientID : string; clientSecret : string; introspectPath : string; profilePath : string;
}.

Definition New (o : Options) : HTTPClient :=
  mkClient (GoText.TrimRight "/" (BaseURL o)) (ClientID o) (ClientSecret o)
    (if bool_decide (IntrospectPath o = "") then "/v1/auth/introspect" else IntrospectPath o)
    (if bool_decide (ProfilePath o = "") then "/v1/user/profile" else ProfilePath o).

(** [fmt.Errorf("%w: ...", ErrUpstream)] *)
Definition upstream (text : string) : goerror := Wrapped "" ErrUpstream (": " +:+ text).

Section client.
Context {S : Type} `{Transport S} (c : HTTPClient).
Local Open Scope go_scope.

Definition form_headers : list (string * string) := [
  ("Authorization", basicAuth (clientID c) (clientSecret c));
  ("Content-Type", "application/x-www-form-urlencoded");
  ("Accept", "application/json")].

(** Building and sending a request. *)
Definition send (what : string) (rq : goerror + request) : M S answer :=
  match rq with
  | inl e => fail (Wrapped ("authcore: build " +:+ what +:+ " request: ") e "")
  | inr rq => map_err (fun e => upstream (Error e)) (Do rq)
  end.

(** The switch on the status of a call made with the client's credentials. *)
Definition check_status (status : Z) : M S unit :=
  guard (500 <=? status) (upstream ("status=" +:+ pretty status)) ;;;
  guard ((status =? 401) || (status =? 403))
    (upstream ("client credentials rejected (status=" +:+ pretty status +:+ ")")) ;;;
  guard (negb (status =? 200)) (upstream ("unexpected status=" +:+ pretty status)).

Definition or_undecodable {A} (x : option A) : M S A :=
  match x with Some a => ret a | None => fail (upstream "decode body") end.

(** *** Introspect *)

Record introspectResponse := mkIntrospect { Active : bool; iSub : string; EXP : Z; Username : string }.

Definition introspect_fields : Json.struct introspectResponse := [
  ("active", fun v t => b ← Json.to_bool (Active t) v; Some (mkIntrospect b (iSub t) (EXP t) (Username t)));
  ("sub", fun v t => s ← Json.to_string (iSub t) v; Some (mkIntrospect (Active t) s (EXP t) (Username t)));
  ("exp", fun v t => n ← Json.to_int64 (EXP t) v; Some (mkIntrospect (Active t) (iSub t) n (Username t)));
  ("username", fun v t => s ← Json.to_string (Username t) v; Some (mkIntrospect (Active t) (iSub t) (EXP t) s))].

(** Seconds from the zero time to 1970. *)
Definition unix_epoch : Z := 62135596800.

(** [time.Unix(sec, 0)] *)
Definition time_Unix (sec : Z) : Time := wrap64 (sec + unix_epoch) * Second.

Definition introspect_request (accessToken : string) : goerror + request :=
  NewRequest "POST" (baseURL c +:+ introspectPath c) form_headers (form_Encode {[ "token" := [accessToken] ]}).

Definition session_of (out : introspectResponse) : Session.t :=
  Session.mk (iSub out) (if 0 <? EXP out then time_Unix (EXP out) else time_zero) (Username out).

Definition Introspect (accessToken : string) : M S Session.t :=
  guard (bool_decide (accessToken = "")) ErrInvalidSession ;;;
  let! resp := send "introspect" (introspect_request accessToken) in
  check_status (StatusCode resp) ;;;
  let! out := or_undecodable (decode introspect_fields (mkIntrospect false "" 0 "") resp) in
  guard (negb (Active out)) ErrInvalidSession ;;;
  guard (bool_decide (iSub out = "")) (upstream "active response missing sub") ;;;
  ret (session_of out).

(** *** GetProfile *)

Record profileResponse := mkProfile { pID : string; pEmail : string; pPublicID : string; pIconURL : option string }.

Definition profile_fields : Json.struct profileResponse := [
  ("id", fun v t => s ← Json.to_string (pID t) v; Some (mkProfile s (pEmail t) (pPublicID t) (pIconURL t)));
  ("email", fun v t => s ← Json.to_string (pEmail t) v; Some (mkProfile (pID t) s (pPublicID t) (pIconURL t)));
  ("public_id", fun v t => s ← Json.to_string (pPublicID t) v; Some (mkProfile (pID t) (pEmail t) s (pIconURL t)));
  ("icon_url", fun v t => s ← Json.to_string_ptr v; Some (mkProfile (pID t) (pEmail t) (pPublicID t) s))].

Definition profile_request (accessToken : string) : goerror + request :=
  NewRequest "GET" (baseURL c +:+ profilePath c)
    [("Authorization", "Bearer " +:+ accessToken); ("Accept", "application/json")] "".

Definition GetProfile (accessToken : string) : M S Profile.t :=
  guard (bool_decide (accessToken = "")) ErrInvalidSession ;;;
  let! resp := send "profile" (profile_request accessToken) in
  let status := StatusCode resp in
  guard (status =? 404) ErrNotFound ;;;
  guard ((status =? 401) || (status =? 403)) ErrInvalidSession ;;;
  guard (500 <=? status) (upstream ("status=" +:+ pretty status)) ;;;
  guard (negb (status =? 200)) (upstream ("unexpected status=" +:+ pretty status)) ;;;
  let! out := or_undecodable (decode profile_fields (mkProfile "" "" "" None) resp) in
  ret (Profile.mk (pID out) (pPublicID out) (default "" (pIconURL out)) (pEmail out)).

(** *** IssueServiceToken *)

Record tokenResponse := mkToken { AccessToken : string; ExpiresIn : Z; TokenType : string }.

Definition token_fields : Json.struct tokenResponse := [
  ("access_token", fun v t => s ← Json.to_string (AccessToken t) v; Some (mkToken s (ExpiresIn t) (TokenType t)));
  ("expires_in", fun v t => n ← Json.to_int64 (ExpiresIn t) v; Some (mkToken (AccessToken t) n (TokenType t)));
  ("token_type", fun v t => s ← Json.to_string (TokenType t) v; Some (mkToken (AccessToken t) (ExpiresIn t) s))].

Definition token_form (scope : string) : gmap string (list string) :=
  (if bool_decide (scope = "") then id else <["scope" := [scope]]>) {[ "grant_type" := ["client_credentials"] ]}.

Definition token_request (scope : string) : goerror + request :=
  NewRequest "POST" (baseURL c +:+ "/oauth/token") form_headers (form_Encode (token_form scope)).

Definition token_ttl (expiresIn : Z) : Duration :=
  let ttl := wrap64 (expiresIn * Second) in if ttl <=? 0 then Hour else ttl.

Definition IssueServiceToken (scope : string) : M S (string * Duration) :=
  let! resp := send "token" (token_request scope) in
  check_status (StatusCode resp) ;;;
  let! out := or_undecodable (decode token_fields (mkToken "" 0 "") resp) in
  guard (bool_decide (AccessToken out = "")) (upstream "missing access_token") ;;;
  ret (AccessToken out, token_ttl (ExpiresIn out)).

(** [authcore.Client] *)
Definition client : AuthCore.Client S := {|
  AuthCore.Introspect := Introspect;
  AuthCore.GetProfile := GetProfile;
|}.
End client.
End AuthHTTP.
