(* ===== verification/FujuClient.v ===== *)
(** * [pkg/fujumodel/client.go]: the client of the recommendation service

    Contents and events go out as JSON under the tenant's path with a service
    token. Times are written in UTC, the zone the server runs in. Sending a
    request is [http.Client]'s ([AuthHTTP.Transport]), the token a
    [ServiceTokenSource]'s. Whoever receives a body and decodes it finds the
    batch that was handed to the client, item by item; the error of a call
    tells what the service answered; a call sends at most one request, which
    may be refused, or arrive without an answer ([network]). *)

From S2P Require Import Prelude Errors Monad GoStrings Domain Cursor Repository Backend PostUC PostThms NetUrl UserUC.
From S2P Require Import Json JsonOut OgpUrl OgpUrlThms Dispatcher AuthClient.
From Stdlib Require Import Ascii.

Import AuthHTTP.

Local Open Scope string_scope.
Local Open Scope Z_scope.

Module FujuModel.

Definition ErrUpstream : goerror := ErrorString "fujumodel: upstream error".
Definition ErrInvalidPayload : goerror := ErrorString "fujumodel: invalid payload".
Definition ErrUnauthorized : goerror := ErrorString "fujumodel: unauthorized".

Class ServiceTokenSource (S : Type) := { GetServiceToken : string -> M S string }.

(** [Options]; [Tokens] tells whether a source was given, the HTTP client is
    [Transport]'s. *)
Record Options := mkOptions { BaseURL : string; TenantID : string; Tokens : bool; Scope : string }.

Record Client := mkClient { baseURL : string; tenantID : string; scope : string }.

Definition New (o : Options) : goerror + Client :=
  if bool_decide (BaseURL o = "") then inl (ErrorString "fujumodel: BaseURL is required")
  else if bool_decide (TenantID o = "") then inl (ErrorString "fujumodel: TenantID is required")
  else if negb (Tokens o) then inl (ErrorString "fujumodel: Tokens (ServiceTokenSource) is required")
  else inr (mkClient (GoText.TrimRight "/" (BaseURL o)) (TenantID o) (Scope o)).

(** ** Payloads *)

Definition content_value (c : Fuju.Content) : string + JsonOut.value :=
  let members created := JsonOut.VObj (
    [("content_id", JsonOut.VStr (Fuju.ContentID c)); ("author_id", JsonOut.VStr (Fuju.AuthorID c))] ++
    JsonOut.omitempty "text" JsonOut.VStr (Fuju.CText c) ++ created) in
  match Fuju.CreatedAt c with
  | None => inr (members [])
  | Some t => match JsonOut.time_value "*time.Time" t with
              | inl err => inl err
              | inr v => inr (members [("created_at", v)])
              end
  end.

Definition event_value (e : Fuju.Event) : string + JsonOut.value :=
  match JsonOut.time_value "time.Time" (Fuju.Timestamp e) with
  | inl err => inl err
  | inr t => inr (JsonOut.VObj (
      [("user_id", JsonOut.VStr (Fuju.UserID e)); ("item_id", JsonOut.VStr (Fuju.ItemID e));
       ("event_type", JsonOut.VStr (Fuju.EventType e)); ("timestamp", t)] ++
      JsonOut.omitempty "text" JsonOut.VStr (Fuju.EText e)))
  end.

(** [struct { Items []T `json:"key"` }] *)
Definition body_value (key : string) (l : list (string + JsonOut.value)) : string + JsonOut.value :=
  match JsonOut.collect l with
  | inl err => inl err
  | inr vs => inr (JsonOut.VObj [(key, JsonOut.VArr vs)])
  end.

(** ** Calls *)

Section client.
Context {S : Type} `{Transport S} `{ServiceTokenSource S} (Quote : string -> string) (c : Client).
(* [Quote] is [strconv.Quote], the verb [%q] *)
Local Open Scope go_scope.

(** [fmt.Errorf("%w" + text, sentinel)] *)
Definition failed (sentinel : goerror) (text : string) : goerror := Wrapped "" sentinel text.

Definition headers (tok : string) : list (string * string) := [
  ("Authorization", "Bearer " +:+ tok); ("Content-Type", "application/json"); ("Accept", "application/json")].

(** The switch on the status. *)
Definition verdict (resp : answer) : M S unit :=
  let status := StatusCode resp in
  if (200 <=? status) && (status <? 300) then ret tt
  else if status =? 401 then fail (failed ErrUnauthorized (": status=" +:+ pretty status))
  else if (400 <=? status) && (status <? 500)
  then fail (failed ErrInvalidPayload (": status=" +:+ pretty status +:+ " body=" +:+ Quote (string_take 256 (Body resp))))
  else fail (failed ErrUpstream (": status=" +:+ pretty status)).

Definition postJSON (path : string) (body : string + JsonOut.value) : M S unit :=
  let! tok := map_err (fun e => failed ErrUpstream (": get service token: " +:+ Error e)) (GetServiceToken (scope c)) in
  match body with
  | inl err => fail (failed ErrInvalidPayload (": marshal body: " +:+ err))
  | inr v =>
      match NewRequest "POST" (baseURL c +:+ path) (headers tok) (JsonOut.Marshal v) with
      | inl err => fail (failed ErrUpstream (": build request: " +:+ Error err))
      | inr rq =>
          let! resp := map_err (fun e => failed ErrUpstream (": " +:+ Error e)) (Do rq) in
          verdict resp
      end
  end.

Definition RegisterContents (items : list Fuju.Content) : M S unit :=
  match items with
  | [] => ret tt
  | _ => postJSON ("/v1/" +:+ tenantID c +:+ "/contents") (body_value "items" (content_value <$> items))
  end.

Definition SendEvents (events : list Fuju.Event) : M S unit :=
  match events with
  | [] => ret tt
  | _ => postJSON ("/v1/" +:+ tenantID c +:+ "/events") (body_value "events" (event_value <$> events))
  end.
End client.
End FujuModel.

(** [flushContents] and [flushEvents] of the dispatcher: an error is logged
    and the batch is given up. *)
Module Flush.
Section flush.
Context {S : Type} `{Transport S} `{FujuModel.ServiceTokenSource S} (Quote : string -> string) (c : FujuModel.Client).
Local Open Scope go_scope.

Definition flushContents (batch : list Fuju.Content) : M S unit :=
  match batch with
  | [] => ret tt
  | _ => let! _ := try (FujuModel.RegisterContents Quote c batch) in ret tt
  end.

Definition flushEvents (batch : list Fuju.Event) : M S unit :=
  match batch with
  | [] => ret tt
  | _ => let! _ := try (FujuModel.SendEvents Quote c batch) in ret tt
  end.
End flush.
End Flush.

Import AuthHTTP FujuModel.

(** ** The receiver *)

Definition content_of (j : Json.json) : option Fuju.Content :=
  match j with
  | Json.JObj l =>
      id ← JsonOut.text_at "content_id" l; author ← JsonOut.text_at "author_id" l;
      Some (Fuju.mkContent id author (JsonOut.text_at "text" l) (JsonOut.text_at "created_at" l ≫= Rfc3339.Parse))
  | _ => None
  end.

Definition event_of (j : Json.json) : option Fuju.Event :=
  match j with
  | Json.JObj l =>
      user ← JsonOut.text_at "user_id" l; item ← JsonOut.text_at "item_id" l; type ← JsonOut.text_at "event_type" l;
      t ← JsonOut.text_at "timestamp" l ≫= Rfc3339.Parse;
      Some (Fuju.mkEvent user item type t (JsonOut.text_at "text" l))
  | _ => None
  end.

Definition batch_of {A} (key : string) (item : Json.json -> option A) (body : string) : option (list A) :=
  j ← JsonOut.read body;
  match j with
  | Json.JObj l => items ← JsonOut.member key l; match items with Json.JArr js => mapM item js | _ => None end
  | _ => None
  end.

(** Bytes that are not UTF-8 arrive replaced. *)
Definition scrub_content (c : Fuju.Content) : Fuju.Content :=
  Fuju.mkContent (JsonOut.to_valid (Fuju.ContentID c)) (JsonOut.to_valid (Fuju.AuthorID c))
    (JsonOut.to_valid <$> Fuju.CText c) (Fuju.CreatedAt c).

Definition scrub_event (e : Fuju.Event) : Fuju.Event :=
  Fuju.mkEvent (JsonOut.to_valid (Fuju.UserID e)) (JsonOut.to_valid (Fuju.ItemID e)) (JsonOut.to_valid (Fuju.EventType e))
    (Fuju.Timestamp e) (JsonOut.to_valid <$> Fuju.EText e).

(** ** Items *)

(** An encoded item is shallow and decodes to the item. *)
Definition carries {A} (encode : A -> string + JsonOut.value) (item : Json.json -> option A) (a a' : A) : Prop :=
  exists v, encode a = inr v /\ item (JsonOut.shown v) = Some a' /\ (JsonOut.nest v <= 1)%nat.

Ltac read_item Hr :=
  cbn -[JsonOut.to_valid Rfc3339.Parse]; read_members; cbn -[JsonOut.to_valid Rfc3339.Parse]; rewrite ?Hr; reflexivity.

Lemma content_carries c : from_option dated True (Fuju.CreatedAt c) -> carries content_value content_of c (scrub_content c).
Proof.
  destruct c as [id author text [t|]]; intros Ht; unfold carries, content_value; cbn [Fuju.CreatedAt].
  - rewrite time_value_ok by done. eexists. split; [reflexivity|]. pose proof (time_read t Ht) as Hr.
    revert Hr. generalize (Rfc3339.Format t). intros at_ Hr. split; [|by destruct text; cbn; lia]. destruct text; read_item Hr.
  - eexists. split; [reflexivity|]. split; [|by destruct text; cbn; lia]. destruct text; read_item Ht.
Qed.

Lemma event_carries e : dated (Fuju.Timestamp e) -> carries event_value event_of e (scrub_event e).
Proof.
  destruct e as [user item type t text]; intros Ht; unfold carries, event_value; cbn [Fuju.Timestamp] in *.
  rewrite time_value_ok by done. eexists. split; [reflexivity|]. pose proof (time_read t Ht) as Hr.
  revert Hr. generalize (Rfc3339.Format t). intros at_ Hr. split; [|by destruct text; cbn; lia]. destruct text; read_item Hr.
Qed.

(** ** Bodies *)

Lemma collect_carries {A} (encode : A -> string + JsonOut.value) item (f : A -> A) l :
  Forall (fun a => carries encode item a (f a)) l ->
  exists vs, JsonOut.collect (encode <$> l) = inr vs /\ mapM item (JsonOut.shown <$> vs) = Some (f <$> l) /\
    (max_list (JsonOut.nest <$> vs) <= 1)%nat.
Proof.
  induction 1 as [|a l (v & Hv & Hi & Hn) _ (vs & Hvs & Hm & Hd)]; [exists []; cbn; auto with lia|].
  exists (v :: vs). cbn [fmap list_fmap JsonOut.collect]. rewrite Hv, Hvs. split; [done|].
  split; [|change (Nat.max (JsonOut.nest v) (max_list (JsonOut.nest <$> vs)) <= 1)%nat; lia].
  apply mapM_Some. apply mapM_Some in Hm. by constructor.
Qed.

Lemma body_carries {A} key (encode : A -> string + JsonOut.value) item (f : A -> A) l :
  all_bytes (fun c => c <? 128) key = true -> Forall (fun a => carries encode item a (f a)) l ->
  exists v, body_value key (encode <$> l) = inr v /\ batch_of key item (JsonOut.Marshal v) = Some (f <$> l).
Proof.
  intros Hk (vs & Hvs & Hm & Hd)%collect_carries. unfold body_value. rewrite Hvs. eexists. split; [done|].
  unfold batch_of. rewrite read_Marshal.
  - cbn [JsonOut.shown fmap list_fmap mbind option_bind]. rewrite to_valid_ascii by done. unfold JsonOut.member. cbn [List.find fst snd].
    rewrite bool_decide_eq_true_2 by done. cbn. exact Hm.
  - change (S (Nat.max (S (max_list (JsonOut.nest <$> vs))) 0) <= Json.maxNestingDepth)%nat.
    apply (Nat.le_trans _ 3); [lia|]. by apply Nat.leb_le.
Qed.

(** ** Calls *)

(** What an answer of the service means to the caller. *)
Inductive reply := Accepted | Unauthorized | Invalid | Unavailable.

Definition reply_of (status : Z) : reply :=
  if between 200 299 status then Accepted
  else if status =? 401 then Unauthorized
  else if between 400 499 status then Invalid
  else Unavailable.

Definition means (r : reply) (out : res unit) : Prop :=
  match r, out with
  | Accepted, Ok _ => True
  | Unauthorized, Err e => is_sentinel "fujumodel: unauthorized" e = true
  | Invalid, Err e => is_sentinel "fujumodel: invalid payload" e = true
  | Unavailable, Err e => is_sentinel "fujumodel: upstream error" e = true
  | _, _ => False
  end.

(** The answer of a transport, if one came. *)
Definition replied (x : res answer) : reply :=
  match x with Ok a => reply_of (StatusCode a) | _ => Unavailable end.

Section client.
Context {S : Type} `{!Transport S} `{!ServiceTokenSource S} (Quote : string -> string) (c : Client).

Lemma verdict_means resp (s : S) : (verdict Quote resp s).1 = s /\ means (reply_of (StatusCode resp)) (verdict Quote resp s).2.
Proof.
  unfold verdict, reply_of, between. replace (StatusCode resp <=? 299) with (StatusCode resp <? 300) by lia.
  replace (StatusCode resp <=? 499) with (StatusCode resp <? 500) by lia. by repeat case_match.
Qed.

(** One call: without a token, or without a body, nothing is sent; else one
    request is, and the result is what was answered. *)
Lemma postJSON_spec path body s :
  no_panic (GetServiceToken (scope c) s).2 ->
  match (GetServiceToken (scope c) s).2, body with
  | Ok tok, inr v =>
      forall rq, NewRequest "POST" (baseURL c +:+ path) (headers tok) (JsonOut.Marshal v) = inr rq ->
      let s1 := (GetServiceToken (scope c) s).1 in no_panic (Do rq s1).2 ->
      (postJSON Quote c path body s).1 = (Do rq s1).1 /\ means (replied (Do rq s1).2) (postJSON Quote c path body s).2
  | Ok tok, inl _ => (postJSON Quote c path body s).1 = (GetServiceToken (scope c) s).1 /\ means Invalid (postJSON Quote c path body s).2
  | _, _ => (postJSON Quote c path body s).1 = (GetServiceToken (scope c) s).1 /\ means Unavailable (postJSON Quote c path body s).2
  end.
Proof.
  unfold postJSON, bind, map_err. destruct (GetServiceToken (scope c) s) as [s1 [tok|e|p]] eqn:Et; cbn [fst snd]; [|done|].
  2: { intros Hp. by destruct (Hp p). }
  intros _. destruct body as [err|v]; [done|]. intros rq Hrq Hnp. rewrite Hrq. destruct (Do rq s1) as [s2 [a|e|p]]; [|done|].
  - cbn [replied fst snd]. apply verdict_means.
  - by destruct (Hnp p).
Qed.

(** A call with a batch that can be encoded sends one request, which carries
    the batch. *)
Lemma call_delivers {A} path key (encode : A -> string + JsonOut.value) item (f : A -> A) l s tok :
  all_bytes (fun a => a <? 128) key = true -> Forall (fun a => carries encode item a (f a)) l ->
  (GetServiceToken (scope c) s).2 = Ok tok -> is_Some (URL.Parse (baseURL c +:+ path)) ->
  exists rq, rMethod rq = "POST" /\ rURL rq = baseURL c +:+ path /\ rHeaders rq = headers tok /\
    batch_of key item (rBody rq) = Some (f <$> l) /\
    let s1 := (GetServiceToken (scope c) s).1 in
    let out := postJSON Quote c path (body_value key (encode <$> l)) s in
    (no_panic (Do rq s1).2 -> out.1 = (Do rq s1).1 /\ means (replied (Do rq s1).2) out.2).
Proof.
  intros Hk Hl Ht [u Hu]. destruct (body_carries key encode item f l Hk Hl) as (v & Hv & Hb).
  exists (mkRequest "POST" (baseURL c +:+ path) (headers tok) (JsonOut.Marshal v)). do 4 (split; [done|]).
  cbv zeta. pose proof (postJSON_spec path (body_value key (encode <$> l)) s) as Hs.
  rewrite Ht in Hs. rewrite Hv in Hs |- *. intros Hnp. apply Hs; [by intros why| |done]. unfold NewRequest. by rewrite Hu.
Qed.
End client.

(** ** A network that loses requests and tokens *)

(** What becomes of a request: it is answered, it arrives but its answer is
    lost, or it never arrives. *)
Inductive outcome := Answered (a : answer) | Unanswered (e : goerror) | Refused (e : goerror).

Definition arrives (o : outcome) : bool := match o with Refused _ => false | _ => true end.

(** What the service has received, what the next calls of the token source
    give, and what becomes of the next requests; then all is down. *)
Record network := mkNetwork {
  received : list request; tokens : list (goerror + string); outcomes : list outcome;
}.

Definition down : goerror := ErrorString "down".

#[export] Instance network_transport : Transport network := {|
  Do rq w :=
    match outcomes w with
    | Answered a :: os => (mkNetwork (received w ++ [rq]) (tokens w) os, Ok a)
    | Unanswered e :: os => (mkNetwork (received w ++ [rq]) (tokens w) os, Err e)
    | Refused e :: os => (mkNetwork (received w) (tokens w) os, Err e)
    | [] => (w, Err down)
    end%list
|}.

#[export] Instance network_tokens : ServiceTokenSource network := {|
  GetServiceToken _ w :=
    match tokens w with
    | inr tok :: ts => (mkNetwork (received w) ts (outcomes w), Ok tok)
    | inl e :: ts => (mkNetwork (received w) ts (outcomes w), Err e)
    | [] => (w, Err down)
    end
|}.

(** Which of the next [n] batches arrive: each takes a token, and only with
    one the next request goes out. *)
Fixpoint fates (n : nat) (ts : list (goerror + string)) (os : list outcome) : list bool :=
  match n with
  | O => []
  | S n =>
      match ts, os with
      | inr _ :: ts, o :: os => arrives o :: fates n ts os
      | inr _ :: ts, [] => false :: fates n ts []
      | inl _ :: ts, _ => false :: fates n ts os
      | [], _ => false :: fates n [] os
      end
  end.

(** The batches that arrive. *)
Definition kept {A} (fs : list bool) (bs : list A) : list A :=
  (fun fb => fb.2) <$> filter (fun fb => fb.1 = true) (zip fs bs).

Lemma kept_all {A} (bs : list A) : forall fs, length fs = length bs -> Forall (fun b => b = true) fs -> kept fs bs = bs.
Proof.
  unfold kept. induction bs as [|b bs IH]; intros [|f fs] Hl Hf; try done. apply Forall_cons in Hf as [-> Hf].
  change (zip (true :: fs) (b :: bs)) with ((true, b) :: zip fs bs). rewrite filter_cons_True by done.
  cbn [fmap list_fmap snd]. by rewrite IH by (done || by injection Hl).
Qed.

Lemma fates_length n : forall ts os, length (fates n ts os) = n.
Proof.
  induction n as [|n IH]; intros ts os; [done|]. cbn [fates]. destruct ts as [|[e|tok] ts], os as [|o os]; cbn [length]; by rewrite IH.
Qed.

(** *** One call *)

Section delivery.
Context (Quote : string -> string) (c : Client).

(** A call with a batch that can be encoded: without a token nothing goes
    out; with one the request does, and carries the batch if it arrives. *)
Lemma call_on_network {A} path key (encode : A -> string + JsonOut.value) item (f : A -> A) l w :
  all_bytes (fun a => a <? 128) key = true -> Forall (fun a => carries encode item a (f a)) l ->
  is_Some (URL.Parse (baseURL c +:+ path)) ->
  let out := postJSON Quote c path (body_value key (encode <$> l)) w in
  match tokens w with
  | inr tok :: ts =>
      exists rq, rMethod rq = "POST" /\ rURL rq = baseURL c +:+ path /\ rHeaders rq = headers tok /\
        batch_of key item (rBody rq) = Some (f <$> l) /\
        match outcomes w with
        | Answered a :: os => out.1 = mkNetwork (received w ++ [rq]) ts os /\ means (reply_of (StatusCode a)) out.2
        | Unanswered _ :: os => out.1 = mkNetwork (received w ++ [rq]) ts os /\ means Unavailable out.2
        | Refused _ :: os => out.1 = mkNetwork (received w) ts os /\ means Unavailable out.2
        | [] => out.1 = mkNetwork (received w) ts [] /\ means Unavailable out.2
        end
  | _ => out.1 = mkNetwork (received w) (tail (tokens w)) (outcomes w) /\ means Unavailable out.2
  end%list.
Proof.
  intros Hk Hl Hu out. destruct w as [rs ts os]. cbn [tokens outcomes received]. destruct ts as [|[e|tok] ts].
  - pose proof (postJSON_spec Quote c path (body_value key (encode <$> l)) (mkNetwork rs [] os)) as Hs.
    apply Hs. by intros why.
  - pose proof (postJSON_spec Quote c path (body_value key (encode <$> l)) (mkNetwork rs (inl e :: ts) os)) as Hs.
    apply Hs. by intros why.
  - assert (Htok : (GetServiceToken (scope c) (mkNetwork rs (inr tok :: ts) os)).2 = Ok tok) by reflexivity.
    destruct (call_delivers Quote c path key encode item f l (mkNetwork rs (inr tok :: ts) os) tok Hk Hl Htok Hu)
      as (rq & Hm & Hurl & Hh & Hb & Hout).
    exists rq. do 4 (split; [done|]). fold out in Hout. destruct os as [|[a|e|e] os]; apply Hout; by intros why.
Qed.

(** All batches are tried, in order, whatever becomes of each; those that
    arrive are whole. *)
Lemma flush_all {A} path key (encode : A -> string + JsonOut.value) item (f : A -> A) (flush : list A -> M network unit) bs :
  all_bytes (fun a => a <? 128) key = true -> is_Some (URL.Parse (baseURL c +:+ path)) ->
  (forall (b : list A) w, b <> [] -> flush b w = bind (try (postJSON Quote c path (body_value key (encode <$> b)))) (fun _ => ret tt) w) ->
  Forall (fun b => b <> [] /\ Forall (fun a => carries encode item a (f a)) b) bs -> forall w,
  exists rqs, received (for_each flush bs w).1 = (received w ++ rqs)%list /\ (for_each flush bs w).2 = Ok tt /\
    mapM (fun rq => batch_of key item (rBody rq)) rqs =
      Some ((fun b : list A => f <$> b) <$> kept (fates (length bs) (tokens w) (outcomes w)) bs).
Proof.
  intros Hk Hu Hflush. induction bs as [|b bs IH]; intros Hbs w; [exists []; by rewrite app_nil_r|].
  apply Forall_cons in Hbs as [[Hne Hb] Hbs]. specialize (IH Hbs).
  pose proof (call_on_network path key encode item f b w Hk Hb Hu) as Hone. cbv zeta in Hone.
  assert (Hrun : exists w1, flush b w = (w1, Ok tt) /\ (postJSON Quote c path (body_value key (encode <$> b)) w).1 = w1).
  { exists (postJSON Quote c path (body_value key (encode <$> b)) w).1. split; [|done].
    rewrite Hflush by done. unfold bind, try.
    assert (Hnp : no_panic (postJSON Quote c path (body_value key (encode <$> b)) w).2).
    { intros why E. rewrite E in Hone. destruct (tokens w) as [|[e|tok] ts]; [by destruct Hone..|].
      destruct Hone as (rq & _ & _ & _ & _ & Hone). destruct (outcomes w) as [|[a|e|e] os]; destruct Hone as [_ Hone]; try done.
      by destruct (reply_of _). }
    destruct (postJSON _ _ _ _ w) as [w' [u|e|p]]; [done..|]. by destruct (Hnp p). }
  destruct Hrun as (w1 & Hrun & Hw1). rewrite Hw1 in Hone. cbn [for_each length]. unfold bind. rewrite Hrun.
  destruct (IH w1) as (rqs & Hr & Ho & Hm).
  assert (Hlost : received w1 = received w -> fates (S (length bs)) (tokens w) (outcomes w) = false :: fates (length bs) (tokens w1) (outcomes w1) ->
    exists rqs, received (for_each flush bs w1).1 = (received w ++ rqs)%list /\ (for_each flush bs w1).2 = Ok tt /\
      mapM (fun rq => batch_of key item (rBody rq)) rqs =
        Some ((fun b : list A => f <$> b) <$> kept (fates (S (length bs)) (tokens w) (outcomes w)) (b :: bs))).
  { intros Hrec Hf. exists rqs. rewrite <- Hrec. by rewrite Hf. }
  assert (Harrived : forall rq, batch_of key item (rBody rq) = Some (f <$> b) -> received w1 = (received w ++ [rq])%list ->
    fates (S (length bs)) (tokens w) (outcomes w) = true :: fates (length bs) (tokens w1) (outcomes w1) ->
    exists rqs, received (for_each flush bs w1).1 = (received w ++ rqs)%list /\ (for_each flush bs w1).2 = Ok tt /\
      mapM (fun rq => batch_of key item (rBody rq)) rqs =
        Some ((fun b : list A => f <$> b) <$> kept (fates (S (length bs)) (tokens w) (outcomes w)) (b :: bs))).
  { intros rq Hbody Hrec Hf. exists (rq :: rqs). rewrite Hr, Hrec, Hf. split; [by rewrite <- (assoc_L (++)%list)|]. split; [done|].
    apply mapM_Some. apply mapM_Some in Hm. by constructor. }
  destruct w as [rs ts os]. cbn [tokens outcomes received tail] in *.
  destruct ts as [|[e|tok] ts]; [destruct Hone as [-> _]; apply Hlost; [done|by destruct os]..|].
  destruct Hone as (rq & _ & _ & _ & Hbody & Hone).
  destruct os as [|[a|e|e] os]; destruct Hone as [-> _]; [by apply Hlost|by eapply Harrived|by eapply Harrived|by apply Hlost].
Qed.

(** What the service decodes of a stream of the dispatcher that has stopped. *)
Lemma stream_arrives {A} cap size m calls (st : Dispatcher.stream A) path key encode item (f : A -> A) flush :
  all_bytes (fun a => a <? 128) key = true -> is_Some (URL.Parse (baseURL c +:+ path)) ->
  (forall (b : list A) w, b <> [] -> flush b w = bind (try (postJSON Quote c path (body_value key (encode <$> b)))) (fun _ => ret tt) w) ->
  Dispatcher.stream_inv cap size m calls st -> Dispatcher.batch st = [] -> Dispatcher.ch st = [] -> Dispatcher.dropped st = [] ->
  Forall (fun a => carries encode item a (f a)) (Dispatcher.accepted st) -> forall w,
  concat (Dispatcher.sent st) = Dispatcher.accepted st /\
  exists rqs, received (for_each flush (Dispatcher.sent st) w).1 = (received w ++ rqs)%list /\
    mapM (fun rq => batch_of key item (rBody rq)) rqs =
      Some ((fun b : list A => f <$> b) <$> kept (fates (length (Dispatcher.sent st)) (tokens w) (outcomes w)) (Dispatcher.sent st)).
Proof.
  intros Hk Hu Hf Hinv Hb Hc Hd Hacc w. pose proof (Dispatcher.all_sent _ _ _ _ _ Hinv Hb Hc Hd) as Hs. split; [done|].
  destruct (flush_all path key encode item f flush (Dispatcher.sent st) Hk Hu Hf) with (w := w) as (rqs & Hr & _ & Hm); [|by exists rqs].
  rewrite <- Hs in Hacc. apply Forall_forall. intros b Hin. split.
  - pose proof (Dispatcher.sent_bound _ _ _ _ _ Hinv) as Hne. rewrite Forall_forall in Hne. by apply Hne.
  - rewrite Forall_forall in Hacc. apply Forall_forall. intros a Ha. apply Hacc.
    apply list_elem_of_In, in_concat. exists b. by split; apply list_elem_of_In.
Qed.
End delivery.
