(* ===== verification/Config.v ===== *)
(** * [config]: the settings, read from the environment

    [Load] over an environment, with the parts of strconv and time it reads
    the values by, and [Validate]. Error texts are kept without the quoted
    values. *)

From S2P Require Import Prelude Errors GoStrings Cursor Domain NetUrl OgpUrl Http.
From Stdlib Require Import Ascii.

Local Open Scope string_scope.
Local Open Scope Z_scope.

(** ** [time.ParseDuration] *)

Module ParseDuration.

(** A positive float64 is [m * 2^e] with at most 53 significant bits in [m]. *)
Definition float : Type := Z * Z.

Definition of_Z (n : Z) : float := (Cookie.round53 n, 0).
Definition mul (x y : float) : float := (Cookie.round53 (x.1 * y.1), x.2 + y.2).

(** The quotient to 128 bits and more, with a sticky bit, rounded. *)
Definition div (x y : float) : float :=
  let s := 128 + Z.log2 y.1 in
  let n := Z.shiftl x.1 s in
  let q := n / y.1 in
  (Cookie.round53 (if q * y.1 =? n then q else Z.lor q 1), x.2 - y.2 - s).

(** Conversion to an integer. *)
Definition trunc (x : float) : Z := Z.shiftl x.1 x.2.

Definition max : Z := 2 ^ 63.

(** [leadingInt]: the value of the digits and the rest. *)
Fixpoint leadingInt (x : Z) (s : string) : option (Z * string) :=
  match s with
  | String a r =>
      let c := code a in
      if negb (is_num c) then Some (x, s)
      else if max / 10 <? x then None
      else let x := x * 10 + (c - 48) in
           if max <? x then None else leadingInt x r
  | EmptyString => Some (x, s)
  end.

(** [leadingFraction]: digits past what an int64 holds are dropped. *)
Fixpoint leadingFraction (overflow : bool) (x : Z) (scale : float) (s : string) : Z * float * string :=
  match s with
  | String a r =>
      let c := code a in
      if negb (is_num c) then (x, scale, s)
      else if overflow || ((max - 1) / 10 <? x) then leadingFraction true x scale r
      else let y := x * 10 + (c - 48) in
           if max <? y then leadingFraction true x scale r
           else leadingFraction false y (mul scale (of_Z 10)) r
  | EmptyString => (x, scale, s)
  end.

(** The unit is everything up to the next digit or point. *)
Fixpoint span_unit (s : string) : string * string :=
  match s with
  | String a r =>
      if (code a =? 46) || is_num (code a) then (EmptyString, s)
      else let '(u, rest) := span_unit r in (String a u, rest)
  | EmptyString => (EmptyString, EmptyString)
  end.

Definition unitMap (u : string) : option Z :=
  if bool_decide (u = "ns") then Some Nanosecond
  else if bool_decide (u ∈ ["us"; GoText.utf8 [194; 181; 115]%nat; GoText.utf8 [206; 188; 115]%nat]) then Some 1000
  else if bool_decide (u = "ms") then Some 1000000
  else if bool_decide (u = "s") then Some Second
  else if bool_decide (u = "m") then Some Minute
  else if bool_decide (u = "h") then Some Hour
  else None.

(** One number with its unit: its value in nanoseconds, and the rest. *)
Definition component (s : string) : option (Z * string) :=
  match s with
  | String a _ =>
      if negb ((code a =? 46) || is_num (code a)) then None
      else
        '(v, s1) ← leadingInt 0 s;
        let pre := negb (Nat.eqb (String.length s) (String.length s1)) in
        let '(f, scale, s2, post) :=
          match s1 with
          | String p r =>
              if code p =? 46
              then let '(f, scale, s2) := leadingFraction false 0 (of_Z 1) r in
                   (f, scale, s2, negb (Nat.eqb (String.length r) (String.length s2)))
              else (0, of_Z 1, s1, false)
          | EmptyString => (0, of_Z 1, s1, false)
          end in
        if negb pre && negb post then None
        else
          let '(u, s3) := span_unit s2 in
          unit ← unitMap u;
          if max / unit <? v then None
          else
            let v := v * unit in
            let v := if 0 <? f then v + trunc (mul (of_Z f) (div (of_Z unit) scale)) else v in
            if max <? v then None else Some (v, s3)
  | EmptyString => None
  end.

(** The loop takes at least one byte a round. *)
Fixpoint components (fuel : nat) (d : Z) (s : string) : option Z :=
  match fuel with
  | O => None
  | S fuel =>
      if bool_decide (s = "") then Some d
      else
        '(v, rest) ← component s;
        let d := (d + v) mod 2 ^ 64 in
        if max <? d then None else components fuel d rest
  end.

Definition parse (s : string) : option Duration :=
  let '(neg, s) := match s with
                   | String a r => if code a =? 45 then (true, r) else if code a =? 43 then (false, r) else (false, s)
                   | EmptyString => (false, s)
                   end in
  if bool_decide (s = "0") then Some 0
  else if bool_decide (s = "") then None
  else
    d ← components (S (String.length s)) 0 s;
    if neg : bool then Some (wrap64 (- d)) else if max - 1 <? d then None else Some d.
End ParseDuration.

Example parse_duration_ex :
  ParseDuration.parse <$> ["1h30m"; "500ms"; "-1.5s"; "0"; ".5m"; "1.1h"; "3"; "1e3s"; "9223372036854775807ns"; "2562048h"]
  = [Some (90 * Minute); Some 500000000; Some (-1500000000); Some 0; Some (30 * Second); Some 3960000000000; None; None;
     Some int64_max; None].
Proof. vm_compute. reflexivity. Qed.

(** ** [Config] *)

Definition RepoBackendInMemory : string := "inmemory".
Definition RepoBackendPostgres : string := "postgres".

(** The fields [Load] reads; [sessionCookieSameSiteMode] is what [Validate]
    returns. *)
Record Config := mkConfig {
  ServerPort : Z;
  Environment : string;
  DBHost : string;
  DBPort : Z;
  DBName : string;
  DBUser : string;
  DBPassword : string;
  DatabaseURL : string;
  DBMaxConns : Z;
  DBMinConns : Z;
  repoBackendRaw : string;
  AuthCoreBaseURL : string;
  AuthCoreClientID : string;
  AuthCoreClientSecret : string;
  AuthCoreIntrospectPath : string;
  AuthCoreProfilePath : string;
  AuthCoreProfileTTL : Duration;
  AuthCoreIntrospectCacheTTL : Duration;
  SessionCookieName : string;
  SessionCookieSecure : bool;
  SessionCookieSameSite : string;
  SessionCookieDomain : string;
  SessionCookieFallbackMaxAge : Duration;
  LogLevel : string;
  CORSAllowedOrigins : string;
  OGPUserAgent : string;
  FujuModelBaseURL : string;
  FujuModelTenantID : string;
  FujuModelScope : string;
  FujuModelBatchSize : Z;
  FujuModelFlushInterval : Duration;
  FujuModelSendTimeout : Duration;
  FujuModelQueueCapacity : Z;
  R2Endpoint : string;
  R2BucketName : string;
  R2PublicDomain : string;
  R2AccessKeyID : string;
  R2SecretAccessKey : string
}.

(** *** Reading the environment: [os.Getenv] gives the empty string for a
    variable that is not set. *)

Definition environment : Type := string -> string.

Definition getEnv (env : environment) (key defaultValue : string) : string :=
  let value := env key in if bool_decide (value = "") then defaultValue else value.

Definition getEnvInt (env : environment) (key : string) (defaultValue : Z) : Z :=
  let value := env key in
  if bool_decide (value = "") then defaultValue else default defaultValue (Atoi value).

(** Only ASCII strings lower to one of these words. *)
Definition getEnvBool (env : environment) (key : string) (defaultValue : bool) : bool :=
  let value := env key in
  if bool_decide (value = "") then defaultValue
  else
    let v := ToLower (GoText.TrimSpace value) in
    if bool_decide (v ∈ ["true"; "1"; "yes"; "on"]) then true
    else if bool_decide (v ∈ ["false"; "0"; "no"; "off"]) then false
    else defaultValue.

Definition getEnvDuration (env : environment) (key : string) (defaultValue : Duration) : Duration :=
  let value := env key in
  if bool_decide (value = "") then defaultValue else default defaultValue (ParseDuration.parse value).

Definition wrap32 (z : Z) : Z := ((z + 2147483648) mod 4294967296) - 2147483648.

Definition load (env : environment) : Config := {|
  ServerPort := getEnvInt env "SERVER_PORT" 8080;
  Environment := getEnv env "ENVIRONMENT" "development";
  DBHost := getEnv env "DB_HOST" "";
  DBPort := getEnvInt env "DB_PORT" 5432;
  DBName := getEnv env "DB_NAME" "";
  DBUser := getEnv env "DB_USER" "";
  DBPassword := getEnv env "DB_PASSWORD" "";
  DatabaseURL := getEnv env "DATABASE_URL" "";
  DBMaxConns := wrap32 (getEnvInt env "DB_MAX_CONNS" 0);
  DBMinConns := wrap32 (getEnvInt env "DB_MIN_CONNS" 0);
  repoBackendRaw := getEnv env "REPO_BACKEND" "";
  AuthCoreBaseURL := getEnv env "AUTHCORE_BASE_URL" "";
  AuthCoreClientID := getEnv env "AUTHCORE_CLIENT_ID" "";
  AuthCoreClientSecret := getEnv env "AUTHCORE_CLIENT_SECRET" "";
  AuthCoreIntrospectPath := getEnv env "AUTHCORE_INTROSPECT_PATH" "/v1/auth/introspect";
  AuthCoreProfilePath := getEnv env "AUTHCORE_PROFILE_PATH" "/v1/user/profile";
  AuthCoreProfileTTL := getEnvDuration env "AUTHCORE_PROFILE_TTL" Hour;
  AuthCoreIntrospectCacheTTL := getEnvDuration env "AUTHCORE_INTROSPECT_CACHE_TTL" (30 * Second);
  SessionCookieName := getEnv env "SESSION_COOKIE_NAME" "fuju_access";
  SessionCookieSecure := getEnvBool env "SESSION_COOKIE_SECURE" true;
  SessionCookieSameSite := getEnv env "SESSION_COOKIE_SAMESITE" "Lax";
  SessionCookieDomain := getEnv env "SESSION_COOKIE_DOMAIN" "";
  SessionCookieFallbackMaxAge := getEnvDuration env "SESSION_COOKIE_FALLBACK_MAX_AGE" Hour;
  LogLevel := getEnv env "LOG_LEVEL" "info";
  CORSAllowedOrigins := getEnv env "CORS_ALLOWED_ORIGINS" "*";
  OGPUserAgent := getEnv env "OGP_USER_AGENT" "FujuBot/1.0 (+https://fuju.example.com/bot)";
  FujuModelBaseURL := getEnv env "FUJU_MODEL_BASE_URL" "";
  FujuModelTenantID := getEnv env "FUJU_MODEL_TENANT_ID" "";
  FujuModelScope := getEnv env "FUJU_MODEL_SCOPE" "ingest:events";
  FujuModelBatchSize := getEnvInt env "FUJU_MODEL_BATCH_SIZE" 50;
  FujuModelFlushInterval := getEnvDuration env "FUJU_MODEL_FLUSH_INTERVAL" (5 * Second);
  FujuModelSendTimeout := getEnvDuration env "FUJU_MODEL_SEND_TIMEOUT" (5 * Second);
  FujuModelQueueCapacity := getEnvInt env "FUJU_MODEL_QUEUE_CAPACITY" 0;
  R2Endpoint := getEnv env "R2_ENDPOINT" "";
  R2BucketName := getEnv env "R2_BUCKET_NAME" "";
  R2PublicDomain := getEnv env "R2_PUBLIC_DOMAIN" "";
  R2AccessKeyID := getEnv env "R2_ACCESS_KEY_ID" "";
  R2SecretAccessKey := getEnv env "R2_SECRET_ACCESS_KEY" ""
|}.

(** *** The checks *)

Definition RepoBackend (c : Config) : string :=
  if bool_decide (repoBackendRaw c = RepoBackendInMemory) || bool_decide (repoBackendRaw c = RepoBackendPostgres)
  then repoBackendRaw c
  else if bool_decide (Environment c = "development") then RepoBackendInMemory
  else RepoBackendPostgres.

Definition MaxConns (c : Config) : Z := DBMaxConns c.
Definition MinConns (c : Config) : Z := DBMinConns c.

Definition DSN (c : Config) : string :=
  if bool_decide (DatabaseURL c = "")
  then UrlText.String_ (URL.mk "postgres" "" (Some (DBUser c, Some (DBPassword c)))
         (DBHost c +:+ ":" +:+ pretty (DBPort c)) ("/" +:+ DBName c) "" false false "sslmode=disable" "" "")
  else DatabaseURL c.

Definition r2_fields (c : Config) : list (string * string) := [
  ("R2_ENDPOINT", R2Endpoint c); ("R2_BUCKET_NAME", R2BucketName c); ("R2_PUBLIC_DOMAIN", R2PublicDomain c);
  ("R2_ACCESS_KEY_ID", R2AccessKeyID c); ("R2_SECRET_ACCESS_KEY", R2SecretAccessKey c)].

Definition errorf (text : string) : goerror := ErrorString text.

Definition validateR2 (c : Config) : option goerror :=
  let setNames := List.filter (fun f => negb (bool_decide (f.2 = ""))) (r2_fields c) in
  let unsetNames := List.filter (fun f => bool_decide (f.2 = "")) (r2_fields c) in
  if bool_decide (setNames = []) || bool_decide (unsetNames = []) then None
  else Some (errorf "R2 configuration is partial (all five must be set together or all empty)").

Definition required (when : string) (fields : list (string * string)) : option goerror :=
  (fun f => errorf (f.1 +:+ " is required" +:+ when)) <$> List.find (fun f => bool_decide (f.2 = "")) fields.

Definition is_postgres_url (s : string) : bool := HasPrefix s "postgres://" || HasPrefix s "postgresql://".

Definition validate_backend (c : Config) : option goerror :=
  if negb (bool_decide (repoBackendRaw c ∈ [""; RepoBackendInMemory; RepoBackendPostgres]))
  then Some (errorf "REPO_BACKEND must be inmemory or postgres")
  else if bool_decide (RepoBackend c = RepoBackendPostgres)
  then
    if negb (bool_decide (DatabaseURL c = ""))
    then if is_postgres_url (DatabaseURL c) then None
         else Some (errorf "DATABASE_URL must start with postgres:// or postgresql://")
    else required " when REPO_BACKEND=postgres and DATABASE_URL is unset" [("DB_HOST", DBHost c); ("DB_NAME", DBName c); ("DB_USER", DBUser c); ("DB_PASSWORD", DBPassword c)]
  else None.

Definition same_site_mode (s : string) : option Cookie.SameSite :=
  if bool_decide (s = "Lax") then Some Cookie.SameSiteLaxMode
  else if bool_decide (s = "Strict") then Some Cookie.SameSiteStrictMode
  else if bool_decide (s = "None") then Some Cookie.SameSiteNoneMode
  else None.

Definition validate_cookie (c : Config) : goerror + Cookie.SameSite :=
  let secure := SessionCookieSecure c in
  match same_site_mode (SessionCookieSameSite c) with
  | None => inl (errorf "SESSION_COOKIE_SAMESITE must be Lax, Strict, or None")
  | Some mode =>
      if bool_decide (SessionCookieSameSite c = "None") && negb secure
      then inl (errorf "SESSION_COOKIE_SAMESITE=None requires SESSION_COOKIE_SECURE=true")
      else if negb secure && negb (bool_decide (Environment c = "development"))
      then inl (errorf "SESSION_COOKIE_SECURE=true is required when ENVIRONMENT != development")
      else if SessionCookieFallbackMaxAge c <=? 0
      then inl (errorf "SESSION_COOKIE_FALLBACK_MAX_AGE must be > 0")
      else inr mode
  end.

(** The mode of the session cookie, when the configuration is accepted. *)
Definition Validate (c : Config) : goerror + Cookie.SameSite :=
  match validate_backend c with
  | Some e => inl e
  | None =>
      match required "" [("AUTHCORE_BASE_URL", AuthCoreBaseURL c); ("AUTHCORE_CLIENT_ID", AuthCoreClientID c);
                      ("AUTHCORE_CLIENT_SECRET", AuthCoreClientSecret c)] with
      | Some e => inl e
      | None =>
          match validate_cookie c with
          | inl e => inl e
          | inr mode =>
              if xorb (bool_decide (FujuModelBaseURL c = "")) (bool_decide (FujuModelTenantID c = ""))
              then inl (errorf "FUJU_MODEL_BASE_URL and FUJU_MODEL_TENANT_ID must be set together")
              else match validateR2 c with
                   | Some e => inl (Wrapped "R2 configuration: " e "")
                   | None => inr mode
                   end
          end
      end
  end.

Definition Load (env : environment) : goerror + Config * Cookie.SameSite :=
  let c := load env in
  match Validate c with
  | inl e => inl e
  | inr mode => inr (c, mode)
  end.

Definition FujuModelEnabled (c : Config) : bool :=
  negb (bool_decide (FujuModelBaseURL c = "")) && negb (bool_decide (FujuModelTenantID c = "")).

Definition R2Enabled (c : Config) : bool :=
  negb (bool_decide (R2Endpoint c = "")) && negb (bool_decide (R2BucketName c = "")) &&
  negb (bool_decide (R2PublicDomain c = "")) && negb (bool_decide (R2AccessKeyID c = "")) &&
  negb (bool_decide (R2SecretAccessKey c = "")).
