(* ===== verification/Handlers.v ===== *)
(** * internal/handler and the wiring of cmd/server/main.go

    The endpoints: every handler, the views it answers with and their JSON,
    the routes with the middlewares around them, and [serve], the whole
    chain. The multipart reader is net/http's. *)

From S2P Require Import Prelude Errors Monad GoStrings Cursor Domain Repository Backend NetUrl Json JsonOut.
From S2P Require Import PostUC BadgeUC FollowUC UserUC OgpUrl OgpHtml OgpUC ImageUC Server Http.
From Stdlib Require Import Ascii.

Local Open Scope Z_scope.

(** ** Views *)

Module View.
Record badge := mkBadge {
  bID : string; bKey : string; bLabel : string; bDescription : string; bIconURL : string;
  bColor : string; bPriority : Z;
}.

Record publicUser := mkPublicUser {
  uSub : string; uDisplayName : string; uDisplayID : string; uIconURL : string; uBio : string;
  uBannerURL : string; uBadges : list badge; uCreatedAt : Time; uUpdatedAt : Time;
  uDeletedAt : option Time; uProfileRefreshedAt : Time;
}.

Record selfUser := mkSelfUser { public : publicUser; IsAdmin : bool }.

Record author := mkAuthor { aSub : string; aDisplayName : string; aDisplayID : string; aIconURL : string }.

Record preview := mkPreview {
  pURL : string; pTitle : string; pDescription : string; pImageURL : string; pSiteName : string;
  pCanonicalURL : string;
}.

(** [postDetailView]; images are (id, public url, position), tags (id, name). *)
Record postDetail := mkPostDetail {
  dID : string; dUserID : string; dContent : string; dParentPostID : option string;
  dRootPostID : option string; dLikesCount : Z; dRepliesCount : Z; dVisibility : string;
  dCreatedAt : string; dUpdatedAt : string;
  dImages : list (string * string * Z); dTags : list (string * string); dAuthor : option author;
  dPreviews : list preview; dLikedByViewer : bool; dFollowingAuthor : bool;
}.

Record image := mkImage {
  iID : string; iFileName : string; iMimeType : string; iFileSize : Z; iPublicURL : string;
  iUserID : string; iCreatedAt : Time; iUpdatedAt : Time; iDeletedAt : option Time;
}.

Inductive t :=
  | Health
  | PublicUser (u : publicUser)
  | SelfUser (u : selfUser)
  | UserList (data : list publicUser) (limit offset total : Z)
  | Post (d : postDetail)
  | PostList (data : list postDetail) (next_cursor : option string)
  | FollowResult (following : bool) (followers_count : Z)
  | FollowList (data : list publicUser) (next_cursor : option string)
  | Badge (b : badge)
  | Badges (l : list badge)
  | Granted (user_id : string) (b : badge)
  | Image (i : image)
  | ImageList (data : list image) (limit offset total : Z).

Definition toBadgeView (b : Badge.t) : badge :=
  mkBadge (Badge.ID b) (Badge.Key b) (Badge.Label b) (Badge.Description b) (Badge.IconURL b)
    (Badge.Color b) (Badge.Priority b).

Definition toBadgeViews (l : list Badge.t) : list badge := toBadgeView <$> l.

Definition toPublicView (u : User.t) (badges : list Badge.t) : publicUser :=
  mkPublicUser (User.Sub u) (User.DisplayNameCached u) (User.DisplayIDCached u) (User.IconURLCached u)
    (User.Bio u) (User.BannerURL u) (toBadgeViews badges) (User.CreatedAt u) (User.UpdatedAt u)
    (User.DeletedAt u) (User.ProfileRefreshedAt u).

Definition toSelfView (u : User.t) (badges : list Badge.t) : selfUser :=
  mkSelfUser (toPublicView u badges) (User.IsAdmin u).

(** [t.UTC().Format("2006-01-02T15:04:05Z")] *)
Definition second_text (t : Time) : string := Rfc3339.Format (t - t mod Second).

Fixpoint positions {A B} (f : A -> Z -> B) (i : Z) (l : list A) : list B :=
  match l with
  | [] => []
  | x :: l => f x i :: positions f (i + 1) l
  end.

Definition toPostDetailView (d : PostUC.Detail.t) : postDetail :=
  let p := PostUC.Detail.Post d in
  mkPostDetail (Post.ID p) (Post.UserID p) (Post.Content p) (Post.ParentPostID p) (Post.RootPostID p)
    (Post.LikesCount p) (Post.RepliesCount p) (Post.Visibility p)
    (second_text (Post.CreatedAt p)) (second_text (Post.UpdatedAt p))
    (positions (fun i n => (Image.ID i, Image.PublicURL i, n)) 0 (PostUC.Detail.Images d))
    ((fun t => (Tag.ID t, Tag.Name t)) <$> PostUC.Detail.Tags d)
    ((fun u => mkAuthor (User.Sub u) (User.DisplayNameCached u) (User.DisplayIDCached u) (User.IconURLCached u))
      <$> PostUC.Detail.Author d)
    ((fun o => mkPreview (OGPPreview.URL o) (OGPPreview.Title o) (OGPPreview.Description o) (OGPPreview.ImageURL o)
                 (OGPPreview.SiteName o) (OGPPreview.CanonicalURL o)) <$> PostUC.Detail.OGPPreviews d)
    (PostUC.Detail.LikedByViewer d) (PostUC.Detail.FollowingAuthor d).

Definition next_cursor_view (nextCursor : string) : option string :=
  if bool_decide (nextCursor = "") then None else Some nextCursor.

Definition toPostListResponse (details : list PostUC.Detail.t) (nextCursor : string) : t :=
  PostList (toPostDetailView <$> details) (next_cursor_view nextCursor).

(** Follow lists carry no badges. *)
Definition buildFollowListResponse (users : list User.t) (nextCursor : string) : t :=
  FollowList ((fun u => toPublicView u []) <$> users) (next_cursor_view nextCursor).

Definition toPublicImageView (i : Image.t) : image :=
  mkImage (Image.ID i) (Image.FileName i) (Image.MimeType i) (Image.FileSize i) (Image.PublicURL i)
    (Image.UserID i) (Image.CreatedAt i) (Image.UpdatedAt i) (Image.DeletedAt i).
End View.

(** ** The bodies as text

    Times are written in UTC. The header is written before the body: when a
    view cannot be encoded, the body is empty. *)

Module Wire.
Import View JsonOut.

Definition badge_value (b : badge) : value :=
  VObj ([("id", VStr (bID b)); ("key", VStr (bKey b)); ("label", VStr (bLabel b))] ++
        omitempty "description" VStr (nonempty (bDescription b)) ++
        [("icon_url", VStr (bIconURL b)); ("color", VStr (bColor b)); ("priority", VNum (bPriority b))]).

Definition time_member (type key : string) (t : Time) : string + string * value :=
  on_value (fun v => (key, v)) (time_value type t).

Definition deleted_member (t : option Time) : list (string + string * value) :=
  match t with Some t => [time_member "*time.Time" "deleted_at" t] | None => [] end.

(** The members of [publicUserView], which [selfUserView] embeds. *)
Definition public_members (u : publicUser) : string + list (string * value) :=
  on_value (fun times =>
      [("sub", VStr (uSub u)); ("display_name", VStr (uDisplayName u)); ("display_id", VStr (uDisplayID u));
       ("icon_url", VStr (uIconURL u)); ("bio", VStr (uBio u)); ("banner_url", VStr (uBannerURL u));
       ("badges", VArr (badge_value <$> uBadges u))] ++ times)
    (collect ([time_member "time.Time" "created_at" (uCreatedAt u); time_member "time.Time" "updated_at" (uUpdatedAt u)] ++
              deleted_member (uDeletedAt u) ++
              [time_member "time.Time" "profile_refreshed_at" (uProfileRefreshedAt u)])).

Definition public_value (u : publicUser) : string + value := on_value VObj (public_members u).

Definition self_value (u : selfUser) : string + value :=
  on_value (fun l => VObj (l ++ [("is_admin", VBool (IsAdmin u))])) (public_members (public u)).

Definition pointer {A} (f : A -> value) (x : option A) : value := match x with Some a => f a | None => VNull end.

Definition image_item (x : string * string * Z) : value :=
  VObj [("id", VStr x.1.1); ("public_url", VStr x.1.2); ("position", VNum x.2)].

Definition tag_item (x : string * string) : value := VObj [("id", VStr x.1); ("name", VStr x.2)].

Definition author_value (a : author) : value :=
  VObj [("sub", VStr (aSub a)); ("display_name_cached", VStr (aDisplayName a));
        ("display_id_cached", VStr (aDisplayID a)); ("icon_url_cached", VStr (aIconURL a))].

Definition preview_value (p : preview) : value :=
  VObj [("url", VStr (pURL p)); ("title", VStr (pTitle p)); ("description", VStr (pDescription p));
        ("image_url", VStr (pImageURL p)); ("site_name", VStr (pSiteName p)); ("canonical_url", VStr (pCanonicalURL p))].

Definition post_value (d : postDetail) : value :=
  VObj [("id", VStr (dID d)); ("user_id", VStr (dUserID d)); ("content", VStr (dContent d));
        ("parent_post_id", pointer VStr (dParentPostID d)); ("root_post_id", pointer VStr (dRootPostID d));
        ("likes_count", VNum (dLikesCount d)); ("replies_count", VNum (dRepliesCount d));
        ("visibility", VStr (dVisibility d)); ("created_at", VStr (dCreatedAt d)); ("updated_at", VStr (dUpdatedAt d));
        ("images", VArr (image_item <$> dImages d)); ("tags", VArr (tag_item <$> dTags d));
        ("author", pointer author_value (dAuthor d)); ("ogp_previews", VArr (preview_value <$> dPreviews d));
        ("liked_by_viewer", VBool (dLikedByViewer d)); ("following_author", VBool (dFollowingAuthor d))].

Definition image_value (i : image) : string + value :=
  on_value (fun times => VObj (
      [("id", VStr (iID i)); ("file_name", VStr (iFileName i)); ("mime_type", VStr (iMimeType i));
       ("file_size", VNum (iFileSize i)); ("public_url", VStr (iPublicURL i)); ("user_id", VStr (iUserID i))] ++ times))
    (collect ([time_member "time.Time" "created_at" (iCreatedAt i); time_member "time.Time" "updated_at" (iUpdatedAt i)] ++
              deleted_member (iDeletedAt i))).

(** [response.SuccessResponse], [response.ListResponse] and the cursor lists. *)
Definition success (v : value) : value := VObj [("data", v)].

Definition list_response (data : list value) (limit offset total : Z) : value :=
  VObj [("data", VArr data); ("limit", VNum limit); ("offset", VNum offset); ("total", VNum total)].

Definition cursor_list (data : list value) (next_cursor : option string) : value :=
  VObj [("data", VArr data); ("next_cursor", pointer VStr next_cursor)].

(** What is encoded for a view, at the time [now]. *)
Definition render (now : Time) (v : View.t) : string + value :=
  match v with
  | View.Health => inr (VObj [("status", VStr "ok"); ("timestamp", VStr (second_text now))])
  | PublicUser u => on_value success (public_value u)
  | SelfUser u => on_value success (self_value u)
  | UserList data limit offset total =>
      on_value (fun l => list_response l limit offset total) (collect (public_value <$> data))
  | View.Post d => inr (success (post_value d))
  | PostList data next => inr (cursor_list (post_value <$> data) next)
  | View.FollowResult following n =>
      inr (success (VObj [("following", VBool following); ("followers_count", VNum n)]))
  | FollowList data next => on_value (fun l => cursor_list l next) (collect (public_value <$> data))
  | View.Badge b => inr (success (badge_value b))
  | View.Badges l => inr (success (VArr (badge_value <$> l)))
  | Granted user b => inr (success (VObj [("badge", badge_value b); ("status", VStr "granted"); ("user_id", VStr user)]))
  | View.Image i => on_value success (image_value i)
  | ImageList data limit offset total =>
      on_value (fun l => list_response l limit offset total) (collect (image_value <$> data))
  end.

Definition error_value (now : Time) (code message : string) : string + value :=
  on_value (fun t => VObj [("code", VStr code); ("message", VStr message); ("timestamp", t)]) (time_value "time.Time" now).

(** [json.NewEncoder(w).Encode(data)] *)
Definition encode (x : string + value) : string :=
  match x with inl _ => "" | inr v => Marshal v +:+ String "010"%char "" end.

(** The body of an answer; the mux has its own texts. *)
Definition body (now : Time) (r : response View.t) : string :=
  match content r with
  | NoBody => ""
  | PlainText => (if status r =? 405 then "Method Not Allowed" else "404 page not found") +:+ String "010"%char ""
  | ErrorBody code message => encode (error_value now code message)
  | Data v => encode (render now v)
  end.
End Wire.

(** ** Request bodies *)

Module Bodies.
Import Json.

Record create_post := mkCreatePost { cContent : string; cImageIDs : slice; cParent : option string }.

Definition create_post_fields : struct create_post := [
  ("content", fun v t => s ← to_string (cContent t) v; Some (mkCreatePost s (cImageIDs t) (cParent t)));
  ("image_ids", fun v t => s ← to_slice (cImageIDs t) v; Some (mkCreatePost (cContent t) s (cParent t)));
  ("parent_post_id", fun v t => s ← to_string_ptr v; Some (mkCreatePost (cContent t) (cImageIDs t) s))
]%string.

Definition create_post_request (t : create_post) : CreatePostRequest.t :=
  CreatePostRequest.mk (cContent t) (take (cImageIDs t).1 (cImageIDs t).2) (cParent t).

Definition maxPostBodyBytes : Z := 16 * 1024.
Definition maxAdminBodyBytes : Z := 2 ^ 20.

Definition parseCreatePostRequest (r : http_request) : goerror + CreatePostRequest.t :=
  match decodeJSONBody create_post_fields (mkCreatePost "" (O, []) None) maxPostBodyBytes r with
  | inl e => inl e
  | inr t => inr (create_post_request t)
  end.

(** The request type has no JSON tags: its keys are the Go field names. *)
Definition update_profile_fields : struct UpdateUserProfileRequest.t := [
  ("Bio", fun v t => s ← to_string_ptr v; Some (UpdateUserProfileRequest.mk s (UpdateUserProfileRequest.BannerURL t)));
  ("BannerURL", fun v t => s ← to_string_ptr v; Some (UpdateUserProfileRequest.mk (UpdateUserProfileRequest.Bio t) s))
]%string.

(** Neither strict nor bounded, and an empty body is a decoding error. *)
Definition parseUpdateProfileRequest (r : http_request) : goerror + UpdateUserProfileRequest.t :=
  match Decode None false update_profile_fields (UpdateUserProfileRequest.mk None None) (Body r) with
  | Good v => inr v
  | _ => inl (InvalidRequest "invalid request body" (Some json_error))
  end.

Definition with_badge (k l d i c : string) (p : Z) : Badge.t := Badge.mk "" k l d i c p time_zero time_zero.

(** [updateBadgeRequest], filled into a badge without a key. *)
Definition update_badge_fields : struct Badge.t := [
  ("label", fun v b => s ← to_string (Badge.Label b) v;
     Some (with_badge (Badge.Key b) s (Badge.Description b) (Badge.IconURL b) (Badge.Color b) (Badge.Priority b)));
  ("description", fun v b => s ← to_string (Badge.Description b) v;
     Some (with_badge (Badge.Key b) (Badge.Label b) s (Badge.IconURL b) (Badge.Color b) (Badge.Priority b)));
  ("icon_url", fun v b => s ← to_string (Badge.IconURL b) v;
     Some (with_badge (Badge.Key b) (Badge.Label b) (Badge.Description b) s (Badge.Color b) (Badge.Priority b)));
  ("color", fun v b => s ← to_string (Badge.Color b) v;
     Some (with_badge (Badge.Key b) (Badge.Label b) (Badge.Description b) (Badge.IconURL b) s (Badge.Priority b)));
  ("priority", fun v b => n ← to_int32 (Badge.Priority b) v;
     Some (with_badge (Badge.Key b) (Badge.Label b) (Badge.Description b) (Badge.IconURL b) (Badge.Color b) n))
]%string.

(** [createBadgeRequest]: the same and the key. *)
Definition create_badge_fields : struct Badge.t :=
  ("key"%string, fun v b => s ← to_string (Badge.Key b) v;
     Some (with_badge s (Badge.Label b) (Badge.Description b) (Badge.IconURL b) (Badge.Color b) (Badge.Priority b)))
  :: update_badge_fields.

Definition grant_badge_fields : struct GrantBadgeRequest.t := [
  ("badge_key", fun v g => s ← to_string (GrantBadgeRequest.BadgeKey g) v;
     Some (GrantBadgeRequest.mk s (GrantBadgeRequest.ExpiresAt g) (GrantBadgeRequest.Reason g)));
  ("expires_at", fun v g => t ← to_time_ptr v;
     Some (GrantBadgeRequest.mk (GrantBadgeRequest.BadgeKey g) t (GrantBadgeRequest.Reason g)));
  ("reason", fun v g => s ← to_string (GrantBadgeRequest.Reason g) v;
     Some (GrantBadgeRequest.mk (GrantBadgeRequest.BadgeKey g) (GrantBadgeRequest.ExpiresAt g) s))
]%string.

Definition decodeAdminBody {T} (fs : struct T) (zero : T) (r : http_request) : goerror + T :=
  decodeJSONBody fs zero maxAdminBodyBytes r.
End Bodies.

(** [ParseMultipartForm] with [FormFile("file")], over the bytes it may read
    and whether there are more; and [http.DetectContentType]. *)
Class MultipartLib := {
  form_file : string -> bool -> goerror + (goerror + string * string * string);
  DetectContentType : string -> string;
}.

(** [SessionCookieConfig] *)
Record SessionCookieConfig := mkSession {
  sName : string; sSecure : bool; sSameSite : Cookie.SameSite; sDomain : string; sPath : string;
  FallbackMaxAge : Duration;
}.

(** The configuration the wiring passes on. *)
Record wiring := mkWiring {
  profileTTL : Duration;
  session_cookie : SessionCookieConfig;
  allowedOrigins : string;
  imagesEnabled : bool;
}.

Module Handlers.
Section handlers.
Context `{GoRuntime, HostTables, HtmlLib, MultipartLib} {S : Type}.
Context `{!Backend S, !TagExtractor.t S, !AuthCore.Client S, !StorageService.t S}.
Context (w : wiring).
Local Open Scope go_scope.

Abbreviation handler := (handler (S := S) (V := View.t)).

Definition hydrate (token sub : string) : M S User.t := UserUC.GetOrHydrateUser (profileTTL w) token sub.

(** *** handler.go *)

Definition GetUser : handler := fun c r =>
  or_reply (parseSubFromPath r "sub") (fun sub =>
  or_error (UserUC.GetUser sub) (fun user =>
  or_error (BadgeUC.GetUserBadges sub) (fun badges =>
  ret (write_data 200 (View.PublicUser (View.toPublicView user badges)))))).

Definition self_reply (user : User.t) : M S (response View.t) :=
  or_error (BadgeUC.GetUserBadges (User.Sub user)) (fun badges =>
  ret (write_data 200 (View.SelfUser (View.toSelfView user badges)))).

Definition Me : handler := fun c r =>
  match Auth.GetCurrentUserFromContext c with
  | Some user => self_reply user
  | None =>
      need_sub c (fun sub =>
      or_error (hydrate (default "" (Auth.GetAccessTokenFromContext c)) sub) self_reply)
  end.

Definition UpdateUser : handler := fun c r =>
  or_reply (parseSubFromPath r "sub") (fun sub =>
  need_sub c (fun currentSub =>
  or_reply (Bodies.parseUpdateProfileRequest r) (fun req =>
  or_error (UserUC.UpdateUserProfile sub currentSub (Some req)) self_reply))).

Definition ListUsers : handler := fun c r =>
  let '(limit, offset) := parsePaginationParams r in
  or_error (UserUC.ListUsers limit offset) (fun '(users, total) =>
  or_error (BadgeUC.ListUserBadgesBatch (User.Sub <$> users)) (fun badgesBySub =>
  ret (write_data 200 (View.UserList
    ((fun u => View.toPublicView u (default [] (badgesBySub !! User.Sub u))) <$> users) limit offset total)))).

Definition Health : handler := fun c r => ret (write_data 200 View.Health).

(** *** post.go *)

Definition optionalSubFromContext (c : Auth.context) : option string := Auth.GetSubFromContext c.

(** [toPostDetailView(detail)] on the detail of a use case; nil would be a
    nil dereference. *)
Definition detail_reply (code : Z) (detail : option PostUC.Detail.t) : M S (response View.t) :=
  match detail with
  | Some d => ret (write_data code (View.Post (View.toPostDetailView d)))
  | None => panic "nil pointer dereference"
  end.

Definition list_reply (x : list PostUC.Detail.t * string) : M S (response View.t) :=
  ret (write_data 200 (View.toPostListResponse x.1 x.2)).

Definition done_reply (x : unit) : M S (response View.t) := ret no_content.

Definition GetPost (seed : nat) : handler := fun c r =>
  or_reply (parsePostIDFromPath r) (fun postID =>
  or_error (PostUC.Get seed postID (optionalSubFromContext c)) (detail_reply 200)).

Definition CreatePost : handler := fun c r =>
  need_sub c (fun sub =>
  or_reply (Bodies.parseCreatePostRequest r) (fun req =>
  or_error (PostUC.Create create_hook sub (Some req)) (fun d => detail_reply 201 (Some d)))).

Definition DeletePost : handler := fun c r =>
  or_reply (parsePostIDFromPath r) (fun postID =>
  need_sub c (fun sub => or_error (PostUC.Delete postID sub) done_reply)).

Definition ListPosts (seed : nat) : handler := fun c r =>
  or_reply (parseOptionalUserIDQuery r) (fun userID =>
  or_error (PostUC.List seed userID (parseCursorQuery r) (parseLimitQuery r) (optionalSubFromContext c)) list_reply).

Definition ListReplies (seed : nat) : handler := fun c r =>
  or_reply (parsePostIDFromPath r) (fun postID =>
  or_error (PostUC.ListReplies seed postID (parseCursorQuery r) (parseLimitQuery r) (optionalSubFromContext c)) list_reply).

Definition LikePost : handler := fun c r =>
  or_reply (parsePostIDFromPath r) (fun postID =>
  need_sub c (fun sub => or_error (PostUC.Like None sub postID) done_reply)).

Definition UnlikePost : handler := fun c r =>
  or_reply (parsePostIDFromPath r) (fun postID =>
  need_sub c (fun sub => or_error (PostUC.Unlike sub postID) done_reply)).

(** *** timeline.go *)

Definition Home (seed : nat) : handler := fun c r =>
  need_sub c (fun me =>
  or_error (TimelineUC.Home seed me (parseCursorQuery r) (parseLimitQuery r)) list_reply).

Definition UserTimeline (seed : nat) : handler := fun c r =>
  or_reply (parseSubFromPath r "sub") (fun targetSub =>
  or_error (TimelineUC.User seed targetSub (parseCursorQuery r) (parseLimitQuery r) (optionalSubFromContext c)) list_reply).

Definition Global (seed : nat) : handler := fun c r =>
  or_error (TimelineUC.Global seed (parseCursorQuery r) (parseLimitQuery r) (optionalSubFromContext c)) list_reply.

(** *** follow.go *)

Definition follow_reply (x : FollowUC.Result.t) : M S (response View.t) :=
  ret (write_data 200 (View.FollowResult (FollowUC.Result.Following x) (FollowUC.Result.FollowersCount x))).

Definition Follow : handler := fun c r =>
  or_reply (parseSubFromPath r "sub") (fun targetSub =>
  need_sub c (fun me => or_error (FollowUC.Follow None me targetSub) follow_reply)).

Definition Unfollow : handler := fun c r =>
  or_reply (parseSubFromPath r "sub") (fun targetSub =>
  need_sub c (fun me => or_error (FollowUC.Unfollow me targetSub) follow_reply)).

Definition ListFollowers : handler := fun c r =>
  or_reply (parseSubFromPath r "sub") (fun targetSub =>
  or_error (FollowUC.ListFollowers targetSub (parseOpaqueCursorQuery r) (parseLimitQuery r)) (fun '(users, next) =>
  ret (write_data 200 (View.buildFollowListResponse users next)))).

Definition ListFollowing : handler := fun c r =>
  or_reply (parseSubFromPath r "sub") (fun targetSub =>
  or_error (FollowUC.ListFollowing targetSub (parseOpaqueCursorQuery r) (parseLimitQuery r)) (fun '(users, next) =>
  ret (write_data 200 (View.buildFollowListResponse users next)))).

(** *** badge.go *)

Definition ListBadges : handler := fun c r =>
  or_error BadgeUC.ListBadges (fun badges => ret (write_data 200 (View.Badges (View.toBadgeViews badges)))).

Definition no_badge : Badge.t := Bodies.with_badge "" "" "" "" "" 0.

Definition CreateBadge : handler := fun c r =>
  need_sub c (fun adminSub =>
  or_reply (Bodies.decodeAdminBody Bodies.create_badge_fields no_badge r) (fun badge =>
  or_error (BadgeUC.CreateBadge adminSub (Some badge)) (fun created =>
  ret (write_data 201 (View.Badge (View.toBadgeView created)))))).

Definition UpdateBadge : handler := fun c r =>
  or_reply (parseULIDFromPath r "id" "invalid badge id (expected ULID)") (fun badgeID =>
  need_sub c (fun adminSub =>
  or_reply (Bodies.decodeAdminBody Bodies.update_badge_fields no_badge r) (fun patch =>
  or_error (BadgeUC.UpdateBadge adminSub badgeID (Some patch)) (fun updated =>
  ret (write_data 200 (View.Badge (View.toBadgeView updated))))))).

Definition GrantBadge : handler := fun c r =>
  or_reply (parseSubFromPath r "sub") (fun targetSub =>
  need_sub c (fun adminSub =>
  or_reply (Bodies.decodeAdminBody Bodies.grant_badge_fields (GrantBadgeRequest.mk "" None "") r) (fun req =>
  or_error (BadgeUC.GrantBadge adminSub targetSub (Some req)) (fun badge =>
  ret (write_data 201 (View.Granted targetSub (View.toBadgeView badge))))))).

Definition RevokeBadge : handler := fun c r =>
  or_reply (parseSubFromPath r "sub") (fun targetSub =>
  or_reply (parseULIDFromPath r "badge_id" "invalid badge id (expected ULID)") (fun badgeID =>
  need_sub c (fun adminSub => or_error (BadgeUC.RevokeBadge adminSub targetSub badgeID) done_reply))).

(** *** image.go *)

Definition maxImageRequestBytes : Z := MaxImageBytes + 1024 * 1024.

Definition is_image (mimeType : string) : bool := HasPrefix mimeType "image/".

(** The upload a request asks for, after the two stages of MIME checks. *)
Definition parse_upload (sub : string) (r : http_request) : goerror + UploadImageRequest.t :=
  let visible := string_take (Z.to_nat maxImageRequestBytes) (Body r) in
  let cut := maxImageRequestBytes <? Z.of_nat (String.length (Body r)) in
  match form_file visible cut with
  | inl err => inl (InvalidRequest "failed to parse form data" (Some err))
  | inr (inl err) => inl (InvalidRequest "file field is required" (Some err))
  | inr (inr (filename, content_type, fileData)) =>
      if MaxImageBytes <? Z.of_nat (String.length fileData)
      then inl (InvalidRequest "file size exceeds 5MB limit" None)
      else
        let mimeType := if bool_decide (content_type = "") then DetectContentType fileData else content_type in
        if negb (is_image mimeType)
        then inl (InvalidRequest "advertised content type is not an image" None)
        else if negb (is_image (DetectContentType fileData))
        then inl (InvalidRequest "file content is not a recognised image" None)
        else inr (UploadImageRequest.mk filename fileData mimeType 0 sub)
  end.

Definition UploadImage : handler := fun c r =>
  need_sub c (fun sub =>
  or_reply (parse_upload sub r) (fun req =>
  or_error (ImageUC.Upload (Some req)) (fun image =>
  ret (write_data 201 (View.Image (View.toPublicImageView image)))))).

Definition GetUserImages : handler := fun c r =>
  need_sub c (fun sub =>
  or_error (ImageUC.GetUserImages sub) (fun images =>
  ret (write_data 200 (View.ImageList (View.toPublicImageView <$> images) 100 0 (Z.of_nat (length images)))))).

Definition DeleteImage : handler := fun c r =>
  need_sub c (fun sub =>
  or_reply (parseULIDFromPath r "id" "invalid image ID") (fun imageID =>
  or_error (ImageUC.Delete imageID sub) done_reply)).

(** *** session.go *)

Definition minCookieMaxAge : Duration := Second.

Definition session_attrs (value : string) (maxAge : Duration) : Cookie.Attrs :=
  let cfg := session_cookie w in
  Cookie.mkAttrs (sName cfg) value maxAge (sSecure cfg) (sSameSite cfg) (sDomain cfg) (sPath cfg).

(** How long the cookie of a token that expires at [exp] lives. *)
Definition cookie_age (now : Time) (exp : option Time) : Duration :=
  match exp with
  | Some exp => let remaining := time_Sub exp now in
                if minCookieMaxAge <=? remaining then remaining else FallbackMaxAge (session_cookie w)
  | None => FallbackMaxAge (session_cookie w)
  end.

Definition Issue : handler := fun c r =>
  match Auth.GetAccessTokenFromContext c with
  | None => ret (WriteErrorResponse (InternalServer "access token missing from context" None))
  | Some token =>
      let! now := Runtime.Now in
      ret (mkResponse 204 NoBody
             (Some (Cookie.Build (session_attrs token (cookie_age now (Auth.GetExpiresAtFromContext c))))))
  end.

Definition Revoke : handler := fun c r =>
  ret (mkResponse 204 NoBody (Some (Cookie.Build (session_attrs "" (-1))))).

(** ** Routes *)

Inductive segment := Lit (s : string) | Var (name : string).

Fixpoint match_path (pattern : list segment) (path : list string) : option (list (string * string)) :=
  match pattern, path with
  | [], [] => Some []
  | Lit s :: pattern, x :: path => if bool_decide (s = x) then match_path pattern path else None
  | Var n :: pattern, x :: path => vs ← match_path pattern path; Some ((n, x) :: vs)
  | _, _ => None
  end.

Definition authMW (next : handler) : handler := AuthMiddleware (sName (session_cookie w)) next.
Definition authed (next : handler) : handler := authMW (HydrateUserMiddleware hydrate next).
Definition adminOnly (next : handler) : handler := authMW (HydrateUserMiddleware hydrate (AdminMiddleware next)).

Definition route : Type := string * list segment * handler.

Definition image_routes : list route := [
  ("POST", [Lit "v1"; Lit "images"], authed UploadImage);
  ("GET", [Lit "v1"; Lit "images"], authed GetUserImages);
  ("DELETE", [Lit "v1"; Lit "images"; Var "id"], authed DeleteImage)
]%string.

Definition routes (seed : nat) : list route := [
  ("GET", [Lit "health"], Health);
  ("POST", [Lit "v1"; Lit "auth"; Lit "session"], authMW Issue);
  ("DELETE", [Lit "v1"; Lit "auth"; Lit "session"], Revoke);
  ("GET", [Lit "me"], authed Me);
  ("GET", [Lit "users"], ListUsers);
  ("GET", [Lit "users"; Var "sub"], GetUser);
  ("PUT", [Lit "users"; Var "sub"], authed UpdateUser);
  ("GET", [Lit "posts"], ListPosts seed);
  ("POST", [Lit "posts"], authed CreatePost);
  ("GET", [Lit "posts"; Var "id"], GetPost seed);
  ("GET", [Lit "posts"; Var "id"; Lit "replies"], ListReplies seed);
  ("DELETE", [Lit "posts"; Var "id"], authed DeletePost);
  ("POST", [Lit "posts"; Var "id"; Lit "like"], authed LikePost);
  ("DELETE", [Lit "posts"; Var "id"; Lit "like"], authed UnlikePost)
]%string ++ (if imagesEnabled w then image_routes else []) ++ [
  ("POST", [Lit "users"; Var "sub"; Lit "follow"], authed Follow);
  ("DELETE", [Lit "users"; Var "sub"; Lit "follow"], authed Unfollow);
  ("GET", [Lit "users"; Var "sub"; Lit "followers"], ListFollowers);
  ("GET", [Lit "users"; Var "sub"; Lit "following"], ListFollowing);
  ("GET", [Lit "timeline"; Lit "home"], authed (Home seed));
  ("GET", [Lit "timeline"; Lit "user"; Var "sub"], UserTimeline seed);
  ("GET", [Lit "timeline"; Lit "global"], Global seed);
  ("GET", [Lit "v1"; Lit "admin"; Lit "badges"], adminOnly ListBadges);
  ("POST", [Lit "v1"; Lit "admin"; Lit "badges"], adminOnly CreateBadge);
  ("PUT", [Lit "v1"; Lit "admin"; Lit "badges"; Var "id"], adminOnly UpdateBadge);
  ("POST", [Lit "v1"; Lit "admin"; Lit "users"; Var "sub"; Lit "badges"], adminOnly GrantBadge);
  ("DELETE", [Lit "v1"; Lit "admin"; Lit "users"; Var "sub"; Lit "badges"; Var "badge_id"], adminOnly RevokeBadge)
]%string.

(** The ServeMux: a GET pattern also takes HEAD; a path whose patterns have
    other methods is a 405. No two patterns of one method share a path. *)
Definition method_matches (pattern method : string) : bool :=
  bool_decide (pattern = method) || (bool_decide (pattern = "GET") && bool_decide (method = "HEAD")).

Fixpoint dispatch (rs : list route) (other : bool) (r : http_request) : M S (response View.t) :=
  match rs with
  | [] => ret (mkResponse (if other then 405 else 404) PlainText None)
  | (method, pattern, h) :: rs =>
      match match_path pattern (Segments r) with
      | Some vs => if method_matches method (Method r) then h Auth.background (set_PathValues vs r)
                   else dispatch rs true r
      | None => dispatch rs other r
      end
  end.

Definition mux (seed : nat) (r : http_request) : M S (response View.t) := dispatch (routes seed) false r.

(** [CORSMiddleware] around the mux: a preflight is answered by itself. *)
Definition api (seed : nat) (r : http_request) : M S (response View.t) :=
  if bool_decide (Method r = "OPTIONS") then ret (mkResponse 200 NoBody None) else mux seed r.

(** The chain of main.go; the CORS headers are set before the mux runs. *)
Definition serve (seed : nat) (r : http_request) : M S (option string * bool * response View.t) :=
  let! resp := RecoveryMiddleware (api seed r) in
  ret (cors_headers (allowedOrigins w) (Origin r), resp).
End handlers.
End Handlers.
