(* ===== verification/HttpThms.v ===== *)
(** * The HTTP layer and the requests it makes

    A handled HTTP request is a short run of the requests of [Server]: the
    hydration of the session's user, the use case of the route, and the badge
    look-up of the answer, each on behalf of the session's user. [does] is
    that claim about a handler, [serve_does] about the whole chain.

    At the end, both follow counters over runs of requests: the follower
    counters are exact by [server_inv]; those of the other side are exact
    once every follower has a row, which the hydration sees to. *)

From S2P Require Import Prelude Errors Monad GoStrings Domain.
From S2P Require Import MemUsers MemPosts MemFollows MemOGP Repository Backend NetUrl Json.
From S2P Require Import PostUC PostInv PostThms BadgeUC FollowUC UserUC OgpUrl OgpHtml OgpUC WorkerThms ImageUC Frames.
From S2P Require Import Server HydrateThms Contracts Http Handlers.

(** ** What a caller may do *)

(** The token a request carries and the user it was introspected to. *)
Definition principal : Type := option (string * string).

Definition acts_as (who : principal) (u : string) : Prop := u <> "" /\ exists tok, who = Some (tok, u).

(** Who may have a request made. Reads of public data carry no viewer. *)
Definition allowed (who : principal) (rq : request) : Prop :=
  match rq with
  | CreatePost u _ | DeletePost _ u | LikePost u _ | UnlikePost u _ | FollowUser u _ | UnfollowUser u _
  | UpdateProfile _ u _ | WriteBadge u _ | DeleteImage _ u | HomeTimeline _ u _ _ | GetUserImages u => acts_as who u
  | SignIn tok u => u <> "" /\ who = Some (tok, u)
  | UploadImage (Some req) => acts_as who (UploadImageRequest.UserID req)
  | UploadImage None | WorkerCycle => False
  | GetPost _ _ v | ListPosts _ _ _ _ v | ListReplies _ _ _ _ v | UserTimeline _ _ _ _ v | GlobalTimeline _ _ _ v => v = None
  | ListFollowers _ _ _ | ListFollowing _ _ _ | GetUser _ | ListUsers _ _ | GetUserBadges _ | ListUserBadgesBatch _
  | ListBadges => True
  end.

Lemma allowed_nobody rq : allowed None rq -> is_read rq = true.
Proof. unfold allowed, acts_as. destruct rq; try destruct req; naive_solver. Qed.

(** ** Runs of requests *)

Section runs.
Context `{GoRuntime, HostTables, HtmlLib} {S : Type}.
Context `{!Backend S, !TagExtractor.t S, !AuthCore.Client S, !StorageService.t S, !Fetcher.HttpClient S}.
Context (ttl : Duration) (opts : option Fetcher.options).

(** The state each request found and the request; between two of them no
    table changes. *)
Fixpoint ran (steps : list (S * request)) (s s' : S) : Prop :=
  match steps with
  | [] => view s' = view s
  | (s1, rq) :: steps => view s1 = view s /\ ran steps (handle ttl opts rq s1).1 s'
  end.

Definition crashed (st : S * request) : Prop := exists why, (handle ttl opts st.2 st.1).2 = Panic why.

Definition small_at (st : S * request) : Prop := small (view st.1).

(** A request that follows somebody is made for a user with a row. *)
Definition has_row (st : S * request) : Prop :=
  match st.2 with FollowUser a _ => is_Some (users (view st.1) !! a) | _ => True end.

Definition fits (who : principal) (st : S * request) : Prop := allowed who st.2 /\ has_row st.

(** [m] from [s] answers after at most [n] requests, or one of them panicked. *)
Definition does {A} (who : principal) (n : nat) (m : M S A) (s : S) : Prop :=
  exists steps, length steps <= n /\ Forall (fits who) steps /\ ran steps s (m s).1 /\
    match (m s).2 with
    | Ok _ => True
    | Err _ => False
    | Panic _ => Exists crashed steps
    end.

(** [m] runs as the request [rq]. *)
Definition runs_as {A} (m : M S A) (rq : request) : Prop := forall s,
  (m s).1 = (handle ttl opts rq s).1 /\
  forall why, (m s).2 = Panic why -> crashed (s, rq).

Lemma runs_as_done {A} (m : M S A) rq : handle ttl opts rq = done m -> runs_as m rq.
Proof.
  intros E s. unfold crashed. cbn. rewrite E. unfold done, bind, ret.
  destruct (m s) as [s' [a|e|p]]; cbn; split; try done; intros why [= ->]. by exists why.
Qed.

Lemma runs_as_unit (m : M S unit) rq : handle ttl opts rq = m -> runs_as m rq.
Proof. intros E s. unfold crashed. cbn. rewrite E. split; [done|]. intros why Hw. by exists why. Qed.

Lemma ran_moved steps s1 s s' : view s1 = view s -> ran steps s1 s' -> ran steps s s'.
Proof. destruct steps as [|[s2 rq] steps]; cbn; intros E; [congruence|]. intros [-> Hr]. by split. Qed.

Lemma does_weaken {A} who n n' (m : M S A) s : does who n m s -> n <= n' -> does who n' m s.
Proof. intros (steps & ? & ? & ? & ?) ?. exists steps. split_and!; try done. lia. Qed.

Lemma does_ret {A} who n (a : A) s : does who n (ret a) s.
Proof. exists []. split_and!; cbn; [lia|done..]. Qed.

Lemma does_bind_pure {A B} who n (m : M S A) (f : A -> M S B) s :
  view (m s).1 = view s -> (exists a, (m s).2 = Ok a /\ does who n (f a) (m s).1) -> does who n (bind m f) s.
Proof.
  unfold does, bind. destruct (m s) as [s' r]; cbn. intros Hv (a & -> & steps & ? & ? & Hr & ?).
  exists steps. split_and!; try done. by eapply ran_moved.
Qed.

Context {V : Type}.

(** [x, err := m()]: one more request. *)
Lemma does_try {A} who n (m : M S A) (f : goerror + A -> M S (response V)) rq s :
  runs_as m rq -> fits who (s, rq) ->
  (forall e s1, does who n (f (inl e)) s1) ->
  (forall a, (m s).2 = Ok a -> does who n (f (inr a)) (m s).1) ->
  does who (Datatypes.S n) (bind (try m) f) s.
Proof.
  intros Hm Ha He Hk. destruct (Hm s) as [Hs Hp].
  assert (Hnext : forall x, does who n (f x) (m s).1 -> exists steps, length steps <= Datatypes.S n /\
    Forall (fits who) steps /\ ran steps s (f x (m s).1).1 /\
    match (f x (m s).1).2 with Ok _ => True | Err _ => False | Panic _ => Exists crashed steps end).
  { intros x (steps & Hl & Hf & Hr & Hres). exists ((s, rq) :: steps).
    split_and!; [cbn; lia|by constructor|cbn; by rewrite <- Hs|].
    destruct (f x (m s).1).2; [done..|]. by apply Exists_cons_tl. }
  unfold does, try, bind. destruct (m s) as [s1 [a|e|p]] eqn:E; cbn in *.
  - apply Hnext. by apply Hk.
  - apply Hnext. apply He.
  - exists [(s, rq)]. split_and!; [cbn; lia|by apply Forall_singleton|cbn; by rewrite <- Hs|].
    apply Exists_cons_hd. by eapply Hp.
Qed.

Lemma does_or_error {A} who n (m : M S A) (k : A -> M S (response V)) rq s :
  runs_as m rq -> fits who (s, rq) ->
  (forall a, (m s).2 = Ok a -> does who n (k a) (m s).1) ->
  does who (Datatypes.S n) (or_error m k) s.
Proof. intros Hm Ha Hk. by eapply does_try; [| |intros; apply does_ret|]. Qed.

Lemma does_or_reply {A} who n (x : goerror + A) (k : A -> M S (response V)) s :
  (forall a, x = inr a -> does who n (k a) s) -> does who n (or_reply x k) s.
Proof. destruct x; cbn; [intros _; apply does_ret|auto]. Qed.

(** A context the middlewares made for [who]. *)
Definition context_of (who : principal) (c : Auth.context) : Prop := forall u,
  Auth.GetSubFromContext c = Some u ->
  u <> "" /\ exists tok, who = Some (tok, u) /\ Auth.GetAccessTokenFromContext c = Some tok.

Lemma context_of_acts who c u : context_of who c -> Auth.GetSubFromContext c = Some u -> acts_as who u.
Proof. intros Hc E. destruct (Hc u E) as (? & tok & ? & _). split; [done|]. by exists tok. Qed.

Lemma does_need_sub who n c (k : string -> M S (response V)) s :
  context_of who c ->
  (forall u, Auth.GetSubFromContext c = Some u -> acts_as who u -> does who n (k u) s) ->
  does who n (need_sub c k) s.
Proof.
  intros Hc Hk. unfold need_sub. destruct (Auth.GetSubFromContext c) as [u|] eqn:E; [|apply does_ret].
  apply Hk; [done|]. by eapply context_of_acts.
Qed.

(** Consistent tables stay so along a run that stays below the bounds, and
    no request of it panics. *)
Lemma ran_inv (HU : UniqueULIDs) (HC : CivilClock) steps :
  faults S = false -> collaborators (S:=S) -> Forall small_at steps -> forall s s',
  server_inv (view s) -> ran steps s s' -> server_inv (view s') /\ ~ Exists crashed steps.
Proof.
  intros Hf Hcol. induction 1 as [|[s1 rq] steps Hsm _ IH]; cbn; intros s s' Hinv Hr.
  - rewrite Hr. split; [done|]. by intros ?%Exists_nil.
  - destruct Hr as [E Hr]. rewrite <- E in Hinv.
    destruct (handle_inv ttl opts Hf Hcol rq (view s1) Hinv Hsm s1 eq_refl) as [Hnp Hinv'].
    destruct (IH _ _ Hinv' Hr) as [Hi Hn]. split; [done|].
    intros [[why Hw]|Hx]%Exists_cons; [by eapply Hnp|by apply Hn].
Qed.

(** Without a session a run reads. *)
Lemma ran_nobody steps s s' :
  faults S = false -> collaborators (S:=S) -> small (view s) -> Forall (fits None) steps ->
  ran steps s s' -> view s' = view s.
Proof.
  intros Hf Hcol Hsm Hok. revert s Hsm. induction Hok as [|[s1 rq] steps [Hrq _] _ IH]; cbn; intros s Hsm; [done|].
  intros [E Hr]. destruct (read_spec ttl opts rq (allowed_nobody _ Hrq) (view s) Hsm s1 E) as [_ Hv].
  rewrite <- Hv in *. by apply IH.
Qed.
End runs.

(** ** The handlers *)

Section handlers.
Context `{GoRuntime, HostTables, HtmlLib, !MultipartLib} {S : Type}.
Context `{!Backend S, !TagExtractor.t S, !AuthCore.Client S, !StorageService.t S, !Fetcher.HttpClient S}.
Context (w : wiring) (opts : option Fetcher.options).
Import Handlers.

Abbreviation ttl := (profileTTL w).
Abbreviation does := (does (S:=S) ttl opts).
Abbreviation runs_as := (runs_as (S:=S) ttl opts).

(** The user of the context has a row. *)
Definition row_of (c : Auth.context) (s : S) : Prop :=
  forall u, Auth.GetSubFromContext c = Some u -> is_Some (users (view s) !! u).

(** A handler makes at most [n] requests, all fitting. *)
Definition well_behaved (n : nat) (h : Auth.context -> http_request -> M S (response View.t)) : Prop :=
  forall who c r s, context_of who c -> row_of c s -> does who n (h c r) s.

(** So does one that the user may not have reached yet. *)
Definition well_behaved_first (n : nat) (h : Auth.context -> http_request -> M S (response View.t)) : Prop :=
  forall who c r s, context_of who c -> server_inv (view s) -> does who n (h c r) s.

(** The endpoints without a session: called with the empty context. *)
Definition well_behaved_public (n : nat) (h : Auth.context -> http_request -> M S (response View.t)) : Prop :=
  forall who r s, does who n (h Auth.background r) s.

Lemma runs_as_hydrate tok u : runs_as (hydrate (S:=S) w tok u) (SignIn tok u).
Proof. by apply runs_as_done. Qed.

Lemma background_of who : context_of who Auth.background.
Proof. by intros u. Qed.

Lemma well_behaved_weaken n n' h : well_behaved n h -> n <= n' -> well_behaved n' h.
Proof. intros Hh Hn who c r s Hc Hr. eapply does_weaken; [by apply Hh|done]. Qed.

Lemma well_behaved_on_public n h : well_behaved n h -> well_behaved_public n h.
Proof. intros Hh who r s. by apply Hh; [apply background_of|intros u]. Qed.

Lemma public_weaken n n' h : well_behaved_public n h -> n <= n' -> well_behaved_public n' h.
Proof. intros Hh Hn who r s. by eapply does_weaken. Qed.

(** The reply to a badge write, from the badge write of [Server]. *)
Lemma runs_as_write {A} (m : M S A) a x : run_write (S:=S) a x = (m ;;; ret tt)%go -> runs_as m (WriteBadge a x).
Proof. intros E. by apply runs_as_done. Qed.

Lemma Get_found seed p v s d : (PostUC.Get (S:=S) seed p v s).2 = Ok d -> exists x, d = Some x.
Proof.
  unfold PostUC.Get, PostUC.HydrateOne, PostUC.Hydrate, bind, ret, guard, fail, or_missing.
  repeat (case_match; simplify_eq/=; try done); intros [= <-]; by eexists.
Qed.

Ltac handler_step :=
  lazymatch goal with
  | |- well_behaved _ _ => intros ? ? ? ? ? ?
  | |- well_behaved_public _ _ => intros ? ? ?
  | |- HttpThms.does _ _ _ _ (ret _) _ => apply does_ret
  | |- HttpThms.does _ _ _ _ (or_reply _ _) _ => apply does_or_reply; intros ? _
  | |- HttpThms.does _ _ _ _ (need_sub _ _) _ => apply does_need_sub; [first [assumption|apply background_of]|intros ? ? ?]
  | |- HttpThms.does _ _ _ _ (match ?p with _ => _ end) _ => destruct p
  | |- HttpThms.does _ _ _ _ (self_reply _) _ => unfold self_reply
  end.

Ltac as_done := first [by apply runs_as_done|by apply runs_as_unit|by apply runs_as_hydrate|by apply runs_as_write].

(** The use case of the handler is the request [rq]. *)
Tactic Notation "as_request" uconstr(x) :=
  eapply does_or_error with (rq := x); [as_done|split; [try done|try exact I]|intros ? ?].

Lemma self_reply_does who u s : does who 1 (self_reply u) s.
Proof. handler_step. as_request (Server.GetUserBadges _). handler_step. Qed.

Lemma GetUser_does : well_behaved_public 2 GetUser.
Proof. handler_step. unfold GetUser. handler_step. as_request (Server.GetUser _). as_request (Server.GetUserBadges _). handler_step. Qed.

Lemma Me_does : well_behaved 2 (Me w).
Proof.
  intros who c r s Hc _. unfold Me. handler_step; [eapply does_weaken; [apply self_reply_does|lia]|]. apply does_need_sub; [done|].
  intros u Hu Ha. destruct (Hc u Hu) as (Hne & tok & Hw & ->). as_request (SignIn tok u). apply self_reply_does.
Qed.

Lemma UpdateUser_does : well_behaved 2 UpdateUser.
Proof. handler_step. unfold UpdateUser. repeat handler_step. as_request (UpdateProfile _ _ _). apply self_reply_does. Qed.

Lemma ListUsers_does : well_behaved_public 2 ListUsers.
Proof.
  handler_step. unfold ListUsers. handler_step. as_request (Server.ListUsers _ _). handler_step.
  as_request (ListUserBadgesBatch _). handler_step.
Qed.

Lemma GetPost_does seed : well_behaved_public 1 (GetPost seed).
Proof.
  handler_step. unfold GetPost. handler_step. eapply does_or_error with (rq := Server.GetPost _ _ _); [as_done|done|].
  intros d Hd. destruct (Get_found _ _ _ _ _ Hd) as [x ->]. apply does_ret.
Qed.

(** A handler with one use case, as the request [x]. *)
Tactic Notation "one_request" uconstr(x) :=
  repeat handler_step; as_request x; repeat (unfold detail_reply, list_reply, done_reply, follow_reply; handler_step).

Lemma CreatePost_does : well_behaved 1 CreatePost.
Proof. unfold CreatePost. one_request (Server.CreatePost _ _). Qed.

Lemma DeletePost_does : well_behaved 1 DeletePost.
Proof. unfold DeletePost. one_request (Server.DeletePost _ _). Qed.

Lemma ListPosts_does seed : well_behaved_public 1 (ListPosts seed).
Proof. unfold ListPosts. one_request (Server.ListPosts _ _ _ _ _). Qed.

Lemma ListReplies_does seed : well_behaved_public 1 (ListReplies seed).
Proof. unfold ListReplies. one_request (Server.ListReplies _ _ _ _ _). Qed.

Lemma LikePost_does : well_behaved 1 LikePost.
Proof. unfold LikePost. one_request (Server.LikePost _ _). Qed.

Lemma UnlikePost_does : well_behaved 1 UnlikePost.
Proof. unfold UnlikePost. one_request (Server.UnlikePost _ _). Qed.

Lemma Home_does seed : well_behaved 1 (Home seed).
Proof. unfold Home. one_request (HomeTimeline _ _ _ _). Qed.

Lemma UserTimeline_does seed : well_behaved_public 1 (UserTimeline seed).
Proof. unfold UserTimeline. one_request (Server.UserTimeline _ _ _ _ _). Qed.

Lemma Global_does seed : well_behaved_public 1 (Global seed).
Proof. unfold Global. one_request (GlobalTimeline _ _ _ _). Qed.

Lemma Follow_does : well_behaved 1 Follow.
Proof.
  intros who c r s Hc Hrow. unfold Follow. handler_step. apply does_need_sub; [done|]. intros u Hu Ha.
  as_request (FollowUser _ _); [by apply Hrow|]. unfold follow_reply. handler_step.
Qed.

Lemma Unfollow_does : well_behaved 1 Unfollow.
Proof. unfold Unfollow. one_request (UnfollowUser _ _). Qed.

Lemma ListFollowers_does : well_behaved_public 1 ListFollowers.
Proof. unfold ListFollowers. one_request (Server.ListFollowers _ _ _). Qed.

Lemma ListFollowing_does : well_behaved_public 1 ListFollowing.
Proof. unfold ListFollowing. one_request (Server.ListFollowing _ _ _). Qed.

Lemma ListBadges_does : well_behaved 1 ListBadges.
Proof. unfold ListBadges. one_request Server.ListBadges. Qed.

Lemma CreateBadge_does : well_behaved 1 CreateBadge.
Proof. unfold CreateBadge. one_request (WriteBadge _ (WCreate _)). Qed.

Lemma UpdateBadge_does : well_behaved 1 UpdateBadge.
Proof. unfold UpdateBadge. one_request (WriteBadge _ (WUpdate _ _)). Qed.

Lemma GrantBadge_does : well_behaved 1 GrantBadge.
Proof. unfold GrantBadge. one_request (WriteBadge _ (WGrant _ _)). Qed.

Lemma RevokeBadge_does : well_behaved 1 RevokeBadge.
Proof. unfold RevokeBadge. one_request (WriteBadge _ (WRevoke _ _)). Qed.

(** The image is uploaded for the user of the session. *)
Lemma parse_upload_user u r req : parse_upload u r = inr req -> UploadImageRequest.UserID req = u.
Proof.
  unfold parse_upload. destruct (form_file _ _) as [?|[?|[[??]?]]]; [done..|].
  destruct (_ <? _)%Z; [done|]. do 2 (destruct (negb _); [done|]). intros E. apply (inj inr) in E. by subst req.
Qed.

Lemma UploadImage_does : well_behaved 1 UploadImage.
Proof.
  unfold UploadImage. do 2 handler_step. apply does_or_reply. intros req Hreq%parse_upload_user.
  as_request (Server.UploadImage (Some _)); [cbn; by rewrite Hreq|handler_step].
Qed.

Lemma GetUserImages_does : well_behaved 1 GetUserImages.
Proof. unfold GetUserImages. one_request (Server.GetUserImages _). Qed.

Lemma DeleteImage_does : well_behaved 1 DeleteImage.
Proof. unfold DeleteImage. one_request (Server.DeleteImage _ _). Qed.

Lemma Issue_does : well_behaved_first 0 (Issue w).
Proof.
  intros who c r s _ _. unfold Issue. destruct (Auth.GetAccessTokenFromContext c); [|apply does_ret].
  destruct (Runtime_Now_ok s) as [t Ht]. injection Ht as Hv Hr.
  apply does_bind_pure; [done|]. eexists. split; [by symmetry|]. apply does_ret.
Qed.

(** ** The middlewares and the routes *)

(** An introspection changes no table, whatever it answers. *)
Definition remote_session : Prop := forall tok d,
  vwp (S:=S) (AuthCore.Introspect tok) d (fun r d' => d' = d /\ no_panic r).

(** The session a request carries: its token and what the account service
    says of it. *)
Definition principal_of (r : http_request) (s : S) : principal :=
  tok ← extractAuthToken r (sName (session_cookie w));
  match (AuthCore.Introspect tok s).2 with
  | Ok session => Some (tok, AuthCore.Session.Sub session)
  | _ => None
  end.

Lemma extractAuthToken_nonempty r name tok : extractAuthToken r name = Some tok -> tok <> "".
Proof.
  unfold extractAuthToken. intros E ->. destruct (extractBearerToken (Authorization r)) as [t|] eqn:Et.
  - injection E as ->. unfold extractBearerToken in Et. destruct (bool_decide (Authorization r = "")); [done|].
    destruct (Cut _ _) as [[a b] found]. destruct (_ || _ || bool_decide (b = "")) eqn:Eb; [done|].
    apply orb_false_iff in Eb as [_ Eb]. apply bool_decide_eq_false in Eb. by injection Et.
  - destruct (bool_decide (name = "")); [done|]. destruct (request_cookie r name); [|done].
    case_bool_decide; [done|]. by injection E.
Qed.

Lemma authMW_does n h r s :
  remote_session -> well_behaved_first n h -> server_inv (view s) ->
  does (principal_of r s) n (authMW w h Auth.background r) s.
Proof.
  intros Hrs Hh Hinv. unfold authMW, AuthMiddleware. destruct (extractAuthToken r _) as [tok|] eqn:Et; [|apply does_ret].
  destruct (Hrs tok (view s) s eq_refl) as [Hv Hnp]. apply does_bind_pure.
  { unfold try. destruct (AuthCore.Introspect tok s) as [s1 [ss|e|p]]; done. }
  assert (Hp : forall ss, (AuthCore.Introspect tok s).2 = Ok ss -> principal_of r s = Some (tok, AuthCore.Session.Sub ss)).
  { intros ss E. unfold principal_of. rewrite Et. cbn. by rewrite E. }
  unfold try. destruct (AuthCore.Introspect tok s) as [s1 [ss|e|p]]; cbn [fst snd] in *.
  - eexists. split; [done|]. apply Hh; [|by rewrite Hv]. intros u. unfold Auth.GetSubFromContext. cbn. case_bool_decide as Hu; [done|].
    intros [= <-]. split; [done|]. exists tok. split; [by apply Hp|]. unfold Auth.GetAccessTokenFromContext. cbn.
    rewrite bool_decide_eq_false_2; [done|]. by eapply extractAuthToken_nonempty.
  - eexists. split; [done|]. cbn beta iota. destruct (is_invalid_session e); apply does_ret.
  - by destruct (Hnp p).
Qed.

Lemma hydrate_does n h :
  remote_client (S:=S) -> well_behaved n h -> well_behaved_first (Datatypes.S n) (HydrateUserMiddleware (hydrate w) h).
Proof.
  intros Hrc Hh who c r s Hc Hinv. unfold HydrateUserMiddleware.
  destruct (Auth.GetSubFromContext c) as [u|] eqn:Eu; [|apply does_ret]. destruct (Hc u Eu) as (Hne & tok & Hw & ->).
  eapply does_try; [apply runs_as_hydrate|by split|intros; apply does_ret|]. intros user Hok. apply Hh; [done|].
  intros u' Eu'. change (Auth.GetSubFromContext c = Some u') in Eu'. rewrite Eu in Eu'. injection Eu' as <-.
  pose proof (GetOrHydrate_spec (profileTTL w) tok u (view s) Hrc (fi_keys _ _ (si_follows _ Hinv)) s eq_refl) as [_ Hhy].
  destruct Hhy as (_ & _ & _ & Hrow & _). eexists. by apply Hrow.
Qed.

Lemma admin_does n h : well_behaved n h -> well_behaved n (AdminMiddleware h).
Proof.
  intros Hh who c r s Hc Hr. unfold AdminMiddleware. destruct (Auth.GetCurrentUserFromContext c) as [u|]; [|apply does_ret].
  destruct (User.IsAdmin u); [by apply Hh|apply does_ret].
Qed.

(** A route, for the request [r] whose path values are still open. *)
Definition route_ok (r : http_request) (s : S) (x : route (S:=S)) : Prop :=
  forall vs, does (principal_of r s) 3 (x.2 Auth.background (set_PathValues vs r)) s.

Lemma public_route n r s method pattern h : well_behaved_public n h -> n <= 3 -> route_ok r s (method, pattern, h).
Proof. intros Hh Hn vs. eapply does_weaken; [apply Hh|done]. Qed.

Lemma authMW_route n r s method pattern h :
  remote_session -> server_inv (view s) -> well_behaved_first n h -> n <= 3 -> route_ok r s (method, pattern, authMW w h).
Proof. intros Hrs Hinv Hh Hn vs. eapply does_weaken; [by apply (authMW_does n h (set_PathValues vs r))|done]. Qed.

Lemma authed_route n r s method pattern h :
  remote_session -> remote_client (S:=S) -> server_inv (view s) -> well_behaved n h -> n <= 2 ->
  route_ok r s (method, pattern, authed w h).
Proof. intros Hrs Hrc Hinv Hh Hn. apply authMW_route with (n := Datatypes.S n); [done|done|by apply hydrate_does|lia]. Qed.

Lemma admin_route n r s method pattern h :
  remote_session -> remote_client (S:=S) -> server_inv (view s) -> well_behaved n h -> n <= 2 ->
  route_ok r s (method, pattern, adminOnly w h).
Proof. intros Hrs Hrc Hinv Hh Hn. apply authMW_route with (n := Datatypes.S n); [done|done|by apply hydrate_does, admin_does|lia]. Qed.

Create HintDb endpoints.

#[local] Hint Resolve GetUser_does Me_does UpdateUser_does ListUsers_does GetPost_does CreatePost_does DeletePost_does
  ListPosts_does ListReplies_does LikePost_does UnlikePost_does Home_does UserTimeline_does Global_does Follow_does
  Unfollow_does ListFollowers_does ListFollowing_does ListBadges_does CreateBadge_does UpdateBadge_does GrantBadge_does
  RevokeBadge_does UploadImage_does GetUserImages_does DeleteImage_does Issue_does : endpoints.

Ltac endpoint :=
  lazymatch goal with
  | |- route_ok _ _ (_, _, authed _ _) => eapply authed_route; [assumption..|eauto with endpoints|lia]
  | |- route_ok _ _ (_, _, adminOnly _ _) => eapply admin_route; [assumption..|eauto with endpoints|lia]
  | |- route_ok _ _ (_, _, authMW _ _) => eapply authMW_route; [assumption..|eauto with endpoints|lia]
  | |- route_ok _ _ _ => eapply public_route; [eauto with endpoints|lia]
  end.

Lemma Health_does : well_behaved_public 0 Health.
Proof. intros who r s. apply does_ret. Qed.

Lemma Revoke_does : well_behaved_public 0 (Revoke w).
Proof. intros who r s. apply does_ret. Qed.

#[local] Hint Resolve Health_does Revoke_does : endpoints.

Lemma routes_ok seed r s :
  remote_session -> remote_client (S:=S) -> server_inv (view s) -> Forall (route_ok r s) (routes w seed).
Proof.
  intros Hrs Hrc Hinv. unfold routes. apply Forall_app. split; [|apply Forall_app; split].
  - repeat apply Forall_cons_2; [..|apply Forall_nil_2]; endpoint.
  - destruct (imagesEnabled w); [|apply Forall_nil_2]. repeat apply Forall_cons_2; [..|apply Forall_nil_2]; endpoint.
  - repeat apply Forall_cons_2; [..|apply Forall_nil_2]; endpoint.
Qed.

Lemma dispatch_does r s rs other :
  Forall (route_ok r s) rs -> does (principal_of r s) 3 (dispatch rs other r) s.
Proof.
  intros Hrs. revert other. induction Hrs as [|[[method pattern] h] rs Hh _ IH]; intros other; cbn; [apply does_ret|].
  destruct (match_path _ _) as [vs|]; [|apply IH]. destruct (method_matches _ _); [apply Hh|apply IH].
Qed.

Lemma api_does seed r s :
  remote_session -> remote_client (S:=S) -> server_inv (view s) -> does (principal_of r s) 3 (api w seed r) s.
Proof.
  intros Hrs Hrc Hinv. unfold api. case_bool_decide; [apply does_ret|]. by apply dispatch_does, routes_ok.
Qed.

(** What the mux answers is what is sent. *)
Lemma serve_answers seed r s resp :
  (api w seed r s).2 = Ok resp -> (serve w seed r s).2 = Ok (cors_headers (allowedOrigins w) (Origin r), resp).
Proof.
  unfold serve, RecoveryMiddleware, bind, ret. destruct (api w seed r s) as [s1 r1]. cbn [fst snd]. by intros ->.
Qed.

(** The whole chain: an answer always comes, its effects are those of a few
    requests the session allows, and it is the handler's own unless one of
    those panicked. *)
Lemma serve_does seed r s :
  remote_session -> remote_client (S:=S) -> server_inv (view s) -> exists resp steps,
    (serve w seed r s).2 = Ok (cors_headers (allowedOrigins w) (Origin r), resp) /\
    length steps <= 3 /\ Forall (fits (principal_of r s)) steps /\
    ran ttl opts steps s (serve w seed r s).1 /\
    (~ Exists (crashed ttl opts) steps -> (api w seed r s).2 = Ok resp).
Proof.
  intros Hrs Hrc Hinv. destruct (api_does seed r s Hrs Hrc Hinv) as (steps & Hl & Hf & Hr & Hres).
  unfold serve, RecoveryMiddleware, bind, ret. destruct (api w seed r s) as [s1 [resp|e|p]]; cbn in *; [|done|].
  - by exists resp, steps.
  - by eexists _, steps.
Qed.

(** ** Without a session *)

(** The routes the mux serves without a session, of those that change
    something: signing out. *)
Definition signs_out (r : http_request) : bool :=
  bool_decide (Method r = "DELETE") && bool_decide (Segments r = ["v1"; "auth"; "session"]%string).

Definition reading_method (r : http_request) : bool :=
  bool_decide (Method r = "GET") || bool_decide (Method r = "HEAD") || bool_decide (Method r = "OPTIONS").

Definition refused (resp : response View.t) : Prop :=
  set_cookie resp = None /\ (status resp = 401 \/ status resp = 404 \/ status resp = 405 \/ status resp = 503)%Z.

Lemma authMW_nobody h r s :
  remote_session -> principal_of r s = None ->
  exists resp, (authMW w h Auth.background r s).2 = Ok resp /\ refused resp.
Proof.
  intros Hrs. unfold principal_of, authMW, AuthMiddleware. destruct (extractAuthToken r _) as [tok|]; cbn.
  - destruct (Hrs tok (view s) s eq_refl) as [_ Hnp]. unfold bind, try.
    destruct (AuthCore.Introspect tok s) as [s1 [ss|e|p]]; cbn; [done| |by destruct (Hnp p)]. intros _.
    destruct (is_invalid_session e); eexists; (split; [done|]); split; auto.
  - intros _. eexists. split; [done|]. split; auto.
Qed.

Lemma match_literal l path vs : match_path (Lit <$> l) path = Some vs -> path = l.
Proof.
  revert path vs. induction l as [|x l IH]; intros [|y path] vs; cbn; [done..|]. case_bool_decide; [|done].
  intros ->%IH. by subst.
Qed.

(** A route that a request without a session may only be refused on. *)
Definition closed_route (r : http_request) (s : S) (x : route (S:=S)) : Prop :=
  x.1.1 = "GET"%string \/ (x.1.1 = "DELETE"%string /\ x.1.2 = [Lit "v1"; Lit "auth"; Lit "session"]%string) \/
  forall vs, exists resp, (x.2 Auth.background (set_PathValues vs r) s).2 = Ok resp /\ refused resp.

Lemma routes_closed seed r s : remote_session -> principal_of r s = None -> Forall (closed_route r s) (routes w seed).
Proof.
  intros Hrs Hp. unfold routes. apply Forall_app. split; [|apply Forall_app; split].
  1, 3: repeat apply Forall_cons_2; [..|apply Forall_nil_2].
  all: try (by left). all: try (by right; left).
  all: try (right; right; intros vs; by apply authMW_nobody).
  destruct (imagesEnabled w); [|apply Forall_nil_2]. repeat apply Forall_cons_2; [..|apply Forall_nil_2].
  all: try (by left). all: right; right; intros vs; by apply authMW_nobody.
Qed.

Lemma dispatch_closed r s rs other :
  reading_method r = false -> signs_out r = false -> Forall (closed_route r s) rs ->
  exists resp, (dispatch rs other r s).2 = Ok resp /\ refused resp.
Proof.
  intros Hm Hs Hrs. revert other. induction Hrs as [|[[method pattern] h] rs Hh _ IH]; intros other; cbn.
  - eexists. split; [done|]. destruct other; split; auto.
  - destruct (match_path pattern (Segments r)) as [vs|] eqn:Ev; [|apply IH].
    destruct (method_matches method (Method r)) eqn:Em; [|apply IH].
    destruct Hh as [Hh|[[Hh Hpat]|Hh]]; cbn in Hh; [exfalso..|apply Hh].
    + subst. unfold reading_method in Hm. unfold method_matches in Em. cbn in Em. to_prop.
      destruct Em as [Em|Em]; to_prop; congruence.
    + cbn in Hpat. subst. apply (match_literal ["v1"; "auth"; "session"]%string) in Ev. unfold signs_out in Hs.
      unfold method_matches in Em. rewrite Ev, (bool_decide_eq_true_2 (_ :: _ = _)) in Hs by done. cbn in Em.
      rewrite orb_false_r in Em. to_prop. rewrite <- Em in Hs. done.
Qed.

(** A request without a session that is neither a read nor a sign-out is
    refused, and none changes a table. *)
Lemma serve_nobody seed r s :
  faults S = false -> collaborators (S:=S) -> remote_session -> server_inv (view s) -> small (view s) ->
  principal_of r s = None ->
  exists resp, (serve w seed r s).2 = Ok (cors_headers (allowedOrigins w) (Origin r), resp) /\
    view (serve w seed r s).1 = view s /\
    (reading_method r = false -> signs_out r = false -> refused resp).
Proof.
  intros Hf Hcol Hrs Hinv Hsm Hp. destruct (serve_does seed r s Hrs (proj1 (proj2 Hcol)) Hinv) as (resp & steps & Hres & _ & Hall & Hran & Hown).
  rewrite Hp in Hall. exists resp. split; [done|]. split; [by eapply ran_nobody|]. intros Hm Hso.
  destruct (dispatch_closed r s (routes w seed) false Hm Hso (routes_closed seed r s Hrs Hp)) as (resp' & Hr' & Href).
  assert (Hapi : (api w seed r s).2 = Ok resp').
  { unfold api. case_bool_decide as Ho; [|done]. unfold reading_method in Hm. to_prop. done. }
  apply serve_answers in Hapi. rewrite Hres in Hapi. by injection Hapi as <-.
Qed.
End handlers.

(** ** Both follow counters, over runs of requests *)

(** Exactness of the following counters of a database. *)
Definition exact_following (d : DB) : Prop := following_inv (users d) (follows d).

Lemma exact_same d d' : users d' = users d -> follows d' = follows d -> exact_following d -> exact_following d'.
Proof. unfold exact_following. by intros -> ->. Qed.

Lemma profile_following_inv d d' current :
  follows d' = follows d ->
  (forall x, x <> current -> users d' !! x = users d !! x) ->
  (forall old, users d !! current = Some old -> exists new, users d' !! current = Some new /\ profile_frame new = profile_frame old) ->
  (users d !! current = None -> users d' !! current = None) ->
  exact_following d -> exact_following d'.
Proof.
  unfold exact_following. intros Hf Ho Hc Hnone [Hs Hcnt]. rewrite Hf. split.
  - intros a b Hab. destruct (Hs a b Hab) as [u Hu]. destruct (decide (a = current)) as [->|Hne].
    + destruct (Hc u Hu) as (new & Hnew & _). by eexists.
    + rewrite Ho by done. by eexists.
  - intros x u' Hu'. destruct (decide (x = current)) as [->|Hne].
    + destruct (users d !! current) as [old|] eqn:E; [|by rewrite Hnone in Hu'].
      destruct (Hc old eq_refl) as (new & Hnew & Hpf). rewrite Hnew in Hu'. injection Hu' as <-.
      rewrite <- (Hcnt _ _ E). unfold profile_frame in Hpf. by simplify_eq.
    + rewrite Ho in Hu' by done. by apply Hcnt.
Qed.

Section runs.
Context `{GoRuntime, !UniqueULIDs, !CivilClock, !HostTables, !HtmlLib} {S : Type}.
Context `{!Backend S, !TagExtractor.t S, !AuthCore.Client S, !StorageService.t S, !Fetcher.HttpClient S}.
Context (ttl : Duration) (opts : option Fetcher.options).
Hypothesis Hsafe : faults S = false.
Hypothesis Hcol : collaborators (S:=S).

(** A frame that keeps users and follows keeps the counters. *)
Lemma vwp_kept {A} (R : relation DB) (m : M S A) d :
  (forall d d', R d d' -> users d' = users d /\ follows d' = follows d) ->
  keeps R m -> exact_following d -> vwp m d (fun _ d' => exact_following d').
Proof.
  intros HR Hm Hg. eapply vwp_mono; [apply Hm|]. intros r d' [Hu Hf]%HR. by eapply exact_same.
Qed.

Lemma vwp_done_any {A} (m : M S A) d (Q : DB -> Prop) :
  vwp m d (fun _ d' => Q d') -> vwp (done m) d (fun _ d' => Q d').
Proof. intros Hm. apply vwp_bind. eapply vwp_mono; [exact Hm|]. intros [a|e|why] d' HQ; [by apply vwp_ret|done..]. Qed.

Lemma post_frame_kept d d' : post_frame d d' -> users d' = users d /\ follows d' = follows d.
Proof. unfold post_frame. tauto. Qed.

Lemma badge_frame_kept d d' : badge_frame d d' -> users d' = users d /\ follows d' = follows d.
Proof. unfold badge_frame. tauto. Qed.

Lemma image_frame_kept d d' : image_frame d d' -> users d' = users d /\ follows d' = follows d.
Proof. unfold image_frame. tauto. Qed.

(** One request, whose follower has a row. *)
Lemma handle_following rq s :
  server_inv (view s) -> small (view s) -> has_row (s, rq) -> exact_following (view s) ->
  exact_following (view (handle ttl opts rq s).1).
Proof using Type*.
  intros Hinv Hsm Hrow Hg. destruct Hcol as (Hx & Hc & Hst & Hhttp).
  pose proof (si_follows _ Hinv) as Hf.
  enough (vwp (handle ttl opts rq) (view s) (fun _ d' => exact_following d')) as Hw by by apply Hw.
  destruct (is_read rq) eqn:Er.
  { eapply vwp_mono; [by apply read_spec|]. by intros r' d' [_ ->]. }
  destruct rq; try discriminate Er; clear Er; cbn [handle]; try apply vwp_done_any.
  - eapply vwp_kept; [apply post_frame_kept|by apply Create_frame|done].
  - eapply vwp_kept; [apply post_frame_kept|by apply Delete_frame|done].
  - eapply vwp_kept; [apply post_frame_kept|by apply Like_frame|done].
  - eapply vwp_kept; [apply post_frame_kept|by apply Unlike_frame|done].
  - eapply vwp_mono; [apply Follow_spec; [done|done|apply Hsm]|].
    intros r d' [_ Hok]. destruct Hok as (_ & Hk & _); [by left|]. by apply Hk.
  - eapply vwp_mono; [by apply Unfollow_spec|].
    intros r d' [_ Hok]. destruct Hok as (_ & Hk & _); [by left|]. by apply Hk.
  - eapply vwp_mono; [apply GetOrHydrate_spec; [done|apply Hf]|].
    intros r d' [_ (_ & Hfo & _ & _ & _ & _ & Hk)]. unfold exact_following. rewrite Hfo. by apply Hk.
  - eapply vwp_mono.
    + apply vwp_frame; [apply UpdateProfile_users|]. apply vwp_frame; [apply UpdateProfile_follows|apply UpdateProfile_spec].
    + intros r d' (Hnew & Hfo & _ & Ho & Hold & _). eapply profile_following_inv; [done|done| |apply Hnew|done].
      intros old Hu. destruct (Hold old Hu) as (new & ? & ? & _). by exists new.
  - eapply vwp_kept; [apply badge_frame_kept|by apply run_write_frame|done].
  - eapply vwp_kept; [apply image_frame_kept|by apply Upload_frame|done].
  - eapply vwp_kept; [apply image_frame_kept|by apply DeleteImage_frame|done].
  - eapply vwp_mono; [apply runOnce_spec; [done|done|apply Hinv|apply Hinv]|]. intros r d' [_ [Hfr _]].
    destruct Hfr as (Hu & _ & _ & _ & _ & _ & Hfo & _). by eapply exact_same.
Qed.

(** A run whose followers have rows. *)
Lemma ran_following steps : Forall small_at steps -> Forall has_row steps -> forall s s',
  server_inv (view s) -> exact_following (view s) -> ran ttl opts steps s s' -> exact_following (view s').
Proof using Type*.
  induction 1 as [|[s1 rq] steps Hsm _ IH]; intros Hrows s s' Hinv Hg.
  - cbn. by intros ->.
  - apply Forall_cons in Hrows as [Hrow Hrows]. intros [E Hr]. rewrite <- E in Hinv, Hg.
    destruct (handle_inv ttl opts Hsafe Hcol rq (view s1) Hinv Hsm s1 eq_refl) as [_ Hinv'].
    eapply IH; [done|exact Hinv'| |exact Hr]. by apply handle_following.
Qed.
End runs.
