(* ===== verification/ApiThms.v ===== *)
(** * The documented interface: docs/swagger.yaml

    The schemas and the operations of the document, the proof that the bodies
    the handlers write conform (the members the document requires are there
    with their types, and there are no others), the errors each use case can
    end in, and what every route answers. *)

From S2P Require Import Prelude Errors Monad GoStrings Cursor Domain Repository Backend NetUrl OgpUrl OgpUrlThms Json JsonOut.
From S2P Require Import PostUC BadgeUC FollowUC UserUC OgpHtml OgpUC ImageUC Server Http Handlers.
From Stdlib Require Import Ascii.

Local Open Scope string_scope.
Local Open Scope Z_scope.

(** ** Schemas *)

Module OpenAPI.

(** The types of the document; a date-time is an RFC 3339 text. Patterns,
    lengths and ranges are left out: a ULID is a string. *)
Inductive schema :=
  | SString | SDateTime | SInteger | SBoolean
  | SNullable (s : schema)
  | SArray (s : schema)
  | SObject (required optional : list (string * schema)).

Definition is_integer (n : string) : bool := all_bytes (fun c => is_num c || (c =? 45)) n.

(** An object has all required members and no unknown one. *)
Fixpoint conforms (s : schema) (j : Json.json) : bool :=
  match s, j with
  | SString, Json.JStr _ => true
  | SDateTime, Json.JStr t => match Rfc3339.Parse t with Some _ => true | None => false end
  | SInteger, Json.JNum n => is_integer n
  | SBoolean, Json.JBool _ => true
  | SNullable _, Json.JNull => true
  | SNullable s, j => conforms s j
  | SArray s, Json.JArr l => forallb (conforms s) l
  | SObject required optional, Json.JObj l =>
      forallb (fun kv => match JsonOut.member kv.1 l with Some j => conforms kv.2 j | None => false end) required &&
      forallb (fun kv => match JsonOut.member kv.1 l with Some j => conforms kv.2 j | None => true end) optional &&
      forallb (fun kv => existsb (fun k => bool_decide (k.1 = kv.1)) (required ++ optional)%list) l
  | _, _ => false
  end.

Definition Badge : schema := SObject
  [("id", SString); ("key", SString); ("label", SString); ("icon_url", SString); ("color", SString); ("priority", SInteger)]
  [("description", SString)].

Definition user_required : list (string * schema) :=
  [("sub", SString); ("display_name", SString); ("display_id", SString); ("icon_url", SString); ("bio", SString);
   ("banner_url", SString); ("badges", SArray Badge); ("created_at", SDateTime); ("updated_at", SDateTime);
   ("profile_refreshed_at", SDateTime)].

Definition PublicUser : schema := SObject user_required [("deleted_at", SNullable SDateTime)].
Definition SelfUser : schema :=
  SObject (user_required ++ [("is_admin", SBoolean)]) [("deleted_at", SNullable SDateTime)].

Definition PostImage : schema := SObject [("id", SString); ("public_url", SString); ("position", SInteger)] [].
Definition PostTag : schema := SObject [("id", SString); ("name", SString)] [].
Definition PostAuthor : schema := SObject
  [("sub", SString); ("display_name_cached", SString); ("display_id_cached", SString); ("icon_url_cached", SString)] [].
Definition PostOGPPreview : schema := SObject
  [("url", SString); ("title", SString); ("description", SString); ("image_url", SString); ("site_name", SString);
   ("canonical_url", SString)] [].

Definition Post : schema := SObject
  [("id", SString); ("user_id", SString); ("content", SString); ("parent_post_id", SNullable SString);
   ("root_post_id", SNullable SString); ("likes_count", SInteger); ("replies_count", SInteger); ("visibility", SString);
   ("created_at", SDateTime); ("updated_at", SDateTime); ("images", SArray PostImage); ("tags", SArray PostTag);
   ("author", SNullable PostAuthor); ("ogp_previews", SArray PostOGPPreview); ("liked_by_viewer", SBoolean);
   ("following_author", SBoolean)] [].

Definition Image : schema := SObject
  [("id", SString); ("file_name", SString); ("mime_type", SString); ("file_size", SInteger); ("public_url", SString);
   ("user_id", SString); ("created_at", SDateTime); ("updated_at", SDateTime)]
  [("deleted_at", SNullable SDateTime)].

Definition FollowResult : schema := SObject [("following", SBoolean); ("followers_count", SInteger)] [].
Definition HealthResponse : schema := SObject [("status", SString); ("timestamp", SDateTime)] [].
Definition Error : schema := SObject [("code", SString); ("message", SString); ("timestamp", SDateTime)] [].

Definition envelope (s : schema) : schema := SObject [("data", s)] [].
Definition GrantBadgeEnvelope : schema :=
  envelope (SObject [("status", SString); ("user_id", SString); ("badge", Badge)] []).
Definition offset_list (s : schema) : schema :=
  SObject [("data", SArray s); ("limit", SInteger); ("offset", SInteger); ("total", SInteger)] [].
Definition PostListResponse : schema := SObject [("data", SArray Post); ("next_cursor", SNullable SString)] [].
Definition FollowListResponse : schema := SObject [("data", SArray PublicUser); ("next_cursor", SNullable SString)] [].

Import Handlers.

#[export] Instance segment_eq_dec : EqDecision segment.
Proof. solve_decision. Defined.

(** Method, path, the status and the schema of a success, and the statuses
    of the errors. *)
Record operation := mkOperation {
  method : string; path : list segment; ok_status : Z; ok_schema : option schema; refusals : list Z;
}.

Local Open Scope list_scope.

Definition image_operations : list operation := [
  mkOperation "POST" [Lit "v1"; Lit "images"] 201 (Some (envelope Image)) [400; 401; 404; 500];
  mkOperation "GET" [Lit "v1"; Lit "images"] 200 (Some (offset_list Image)) [401; 404; 500];
  mkOperation "DELETE" [Lit "v1"; Lit "images"; Var "id"] 204 None [400; 401; 403; 404; 500]
]%string.

(** Served, but not in the document. *)
Definition session_operations : list operation := [
  mkOperation "POST" [Lit "v1"; Lit "auth"; Lit "session"] 204 None [401; 500];
  mkOperation "DELETE" [Lit "v1"; Lit "auth"; Lit "session"] 204 None []
]%string.

(** The operations, in the order of the routes. *)
Definition operations (images : bool) : list operation :=
  (mkOperation "GET" [Lit "health"] 200 (Some HealthResponse) [] :: session_operations ++ [
  mkOperation "GET" [Lit "me"] 200 (Some (envelope SelfUser)) [401; 500];
  mkOperation "GET" [Lit "users"] 200 (Some (offset_list PublicUser)) [500];
  mkOperation "GET" [Lit "users"; Var "sub"] 200 (Some (envelope PublicUser)) [400; 404; 500];
  mkOperation "PUT" [Lit "users"; Var "sub"] 200 (Some (envelope SelfUser)) [400; 401; 403; 404; 500];
  mkOperation "GET" [Lit "posts"] 200 (Some PostListResponse) [400; 500];
  mkOperation "POST" [Lit "posts"] 201 (Some (envelope Post)) [400; 401; 404; 413; 500];
  mkOperation "GET" [Lit "posts"; Var "id"] 200 (Some (envelope Post)) [400; 404; 500];
  mkOperation "GET" [Lit "posts"; Var "id"; Lit "replies"] 200 (Some PostListResponse) [400; 404; 500];
  mkOperation "DELETE" [Lit "posts"; Var "id"] 204 None [400; 401; 403; 404; 500];
  mkOperation "POST" [Lit "posts"; Var "id"; Lit "like"] 204 None [400; 401; 404; 500];
  mkOperation "DELETE" [Lit "posts"; Var "id"; Lit "like"] 204 None [400; 401; 404; 500]
])%string ++ (if images then image_operations else []) ++ [
  mkOperation "POST" [Lit "users"; Var "sub"; Lit "follow"] 200 (Some (envelope FollowResult)) [400; 401; 404; 500];
  mkOperation "DELETE" [Lit "users"; Var "sub"; Lit "follow"] 200 (Some (envelope FollowResult)) [400; 401; 404; 500];
  mkOperation "GET" [Lit "users"; Var "sub"; Lit "followers"] 200 (Some FollowListResponse) [400; 404; 500];
  mkOperation "GET" [Lit "users"; Var "sub"; Lit "following"] 200 (Some FollowListResponse) [400; 404; 500];
  mkOperation "GET" [Lit "timeline"; Lit "home"] 200 (Some PostListResponse) [401; 500];
  mkOperation "GET" [Lit "timeline"; Lit "user"; Var "sub"] 200 (Some PostListResponse) [400; 404; 500];
  mkOperation "GET" [Lit "timeline"; Lit "global"] 200 (Some PostListResponse) [500];
  mkOperation "GET" [Lit "v1"; Lit "admin"; Lit "badges"] 200 (Some (envelope (SArray Badge))) [401; 403; 500];
  mkOperation "POST" [Lit "v1"; Lit "admin"; Lit "badges"] 201 (Some (envelope Badge)) [400; 401; 403; 409; 500];
  mkOperation "PUT" [Lit "v1"; Lit "admin"; Lit "badges"; Var "id"] 200 (Some (envelope Badge)) [400; 401; 403; 404; 500];
  mkOperation "POST" [Lit "v1"; Lit "admin"; Lit "users"; Var "sub"; Lit "badges"] 201 (Some GrantBadgeEnvelope)
    [400; 401; 403; 404; 409; 500];
  mkOperation "DELETE" [Lit "v1"; Lit "admin"; Lit "users"; Var "sub"; Lit "badges"; Var "badge_id"] 204 None
    [400; 401; 403; 404; 500]
]%string.

Definition listed (c : Z) (l : list Z) : bool := existsb (Z.eqb c) l.

(** What the code answers besides: where a session is needed, that the
    account service is down (503) or does not know the user (404); that an
    image to post is another user's (403); that the row of the caller has no
    subject (400). *)
Definition beyond (o : operation) : list Z :=
  (if listed 401 (refusals o) then [404; 503] else []) ++
  (if bool_decide (method o = "POST" /\ path o = [Lit "posts"]) then [403] else []) ++
  (if bool_decide (method o = "GET" /\ path o = [Lit "me"]) then [400] else [])%string.

Definition answerable (o : operation) : list Z := refusals o ++ beyond o.
End OpenAPI.

Import OpenAPI JsonOut Wire Handlers.

#[local] Arguments Rfc3339.Format : simpl never.
#[local] Arguments View.second_text : simpl never.

(** ** Conforming values *)

Definition typed (s : schema) (v : value) : Prop := conforms s (shown v) = true.

Definition vmember (key : string) (l : list (string * value)) : option value :=
  snd <$> List.find (fun kv => String.eqb kv.1 key) l.

Definition ascii_keys (l : list (string * value)) : bool := forallb (fun kv => all_bytes (fun c => c <? 128) kv.1) l.

Lemma member_shown key l : ascii_keys l = true ->
  member key ((fun kv => (to_valid kv.1, shown kv.2)) <$> l) = shown <$> vmember key l.
Proof.
  unfold member, vmember. induction l as [|[k v] l IH]; [done|]. cbn [ascii_keys forallb fst]. intros [Hk Hl]%andb_true_iff.
  cbn [fmap list_fmap List.find fst snd]. rewrite (to_valid_ascii k) by done.
  destruct (String.eqb_spec k key) as [->|Hne]; [by rewrite bool_decide_eq_true_2|].
  rewrite bool_decide_eq_false_2 by done. by apply IH.
Qed.

(** What each required member has to be, and each optional one that is there. *)
Fixpoint all_fit (required : bool) (l : list (string * value)) (ms : list (string * schema)) : Prop :=
  match ms with
  | [] => True
  | (k, s) :: ms =>
      match vmember k l with Some v => typed s v | None => required = false end /\ all_fit required l ms
  end.

Lemma all_fit_spec required l ms : ascii_keys l = true -> all_fit required l ms ->
  forallb (fun kv => match member kv.1 ((fun kv => (to_valid kv.1, shown kv.2)) <$> l) with
                     | Some j => conforms kv.2 j | None => negb required end) ms = true.
Proof.
  intros Hl. induction ms as [|[k s] ms IH]; [done|]. intros [Hv Hms]. cbn [forallb fst snd].
  rewrite (IH Hms), member_shown by done. destruct (vmember k l); cbn; [|by subst]. unfold typed in Hv. by rewrite Hv.
Qed.

Definition known_keys (ms : list (string * schema)) (l : list (string * value)) : bool :=
  forallb (fun kv => existsb (fun k => String.eqb k.1 kv.1) ms) l.

Lemma typed_object required optional l : ascii_keys l = true -> all_fit true l required -> all_fit false l optional ->
  known_keys (required ++ optional)%list l = true -> typed (SObject required optional) (VObj l).
Proof.
  intros Hl Hr Ho Hk. unfold typed. cbn [shown conforms].
  pose proof (all_fit_spec true l required Hl Hr) as H1. pose proof (all_fit_spec false l optional Hl Ho) as H2.
  cbn [negb] in H1, H2. rewrite H1, H2. cbn [andb].
  revert Hl Hk. clear. unfold ascii_keys, known_keys. generalize (required ++ optional)%list. intros ms.
  induction l as [|[k v] l IH]; [done|]. cbn [forallb fmap list_fmap fst]. intros [Ha Hl]%andb_true_iff [Hk Hks]%andb_true_iff.
  rewrite (IH Hl Hks), andb_true_r, to_valid_ascii by done. cbn [fst]. rewrite existsb_exists in Hk |- *.
  destruct Hk as ([k' s] & Hin & E). exists (k', s). split; [done|]. apply String.eqb_eq in E. by rewrite bool_decide_eq_true_2.
Qed.

Lemma typed_array {A} s (f : A -> value) l : (forall a, typed s (f a)) -> typed (SArray s) (VArr (f <$> l)).
Proof. intros Hf. unfold typed. cbn. induction l as [|a l IH]; [done|]. cbn. by rewrite (Hf a). Qed.

Lemma typed_all s l : Forall (typed s) l -> typed (SArray s) (VArr l).
Proof. unfold typed. cbn. induction 1 as [|a l Ha _ IH]; [done|]. cbn. by rewrite Ha. Qed.

Lemma typed_null s : typed (SNullable s) VNull.
Proof. done. Qed.

Lemma typed_some s v : typed s v -> typed (SNullable s) v.
Proof. unfold typed. by destruct v; cbn; intros Hv. Qed.

Lemma typed_pointer {A} s (f : A -> value) x : (forall a, typed s (f a)) -> typed (SNullable s) (pointer f x).
Proof. intros Hf. destruct x; [apply typed_some, Hf|done]. Qed.

Lemma typed_string s : typed SString (VStr s).
Proof. done. Qed.

Lemma typed_bool b : typed SBoolean (VBool b).
Proof. done. Qed.

Lemma typed_integer n : typed SInteger (VNum n).
Proof.
  unfold typed, is_integer. cbn [shown conforms].
  assert (Hp : forall m : Z, 0 <= m -> all_bytes (fun c => is_num c || (c =? 45)) (pretty m) = true).
  { intros m Hm. eapply all_bytes_impl; [|by apply port_digits]. intros c ->. done. }
  destruct n as [|p|p]; [by apply Hp..|]. change (pretty (Zneg p)) with (String "-" (pretty (Zpos p))).
  cbn [all_bytes]. apply andb_true_iff. split; [done|]. by apply (Hp (Zpos p)).
Qed.

Lemma typed_time t : dated t -> typed SDateTime (VStr (Rfc3339.Format t)).
Proof. intros Ht. unfold typed. cbn [shown conforms]. by rewrite time_read. Qed.

Lemma typed_second t : dated t -> typed SDateTime (VStr (View.second_text t)).
Proof.
  intros Ht. apply typed_time. unfold dated, max_time, Second in *. pose proof (Z.mod_pos_bound t 1000000000 eq_refl).
  pose proof (Z.mod_le t 1000000000). lia.
Qed.

Create HintDb wire.

(** By the type a member has to be of; the named schemas are hints. *)
Ltac fit := lazymatch goal with
  | |- True => exact I
  | |- false = false => reflexivity
  | |- typed SString _ => apply typed_string
  | |- typed SBoolean _ => apply typed_bool
  | |- typed SInteger _ => apply typed_integer
  | |- typed SDateTime _ => first [apply typed_time; assumption | apply typed_second; assumption]
  | |- typed (SNullable _) VNull => apply typed_null
  | |- typed (SNullable _) (pointer _ _) => apply typed_pointer; intros; fit
  | |- typed (SNullable _) _ => apply typed_some; fit
  | |- typed (SArray _) _ => apply typed_array; intros; fit
  | _ => auto with wire nocore
  end.

(** An object with its members written out. *)
Ltac object := apply typed_object; [reflexivity|cbn; split_and?; fit..|reflexivity].

Lemma typed_badge b : typed Badge (badge_value b).
Proof. unfold badge_value, nonempty. case_bool_decide; object. Qed.

Lemma typed_image_item x : typed PostImage (image_item x).
Proof. object. Qed.
Lemma typed_tag_item x : typed PostTag (tag_item x).
Proof. object. Qed.
Lemma typed_author a : typed PostAuthor (author_value a).
Proof. object. Qed.
Lemma typed_preview p : typed PostOGPPreview (preview_value p).
Proof. object. Qed.
#[export] Hint Resolve typed_badge typed_image_item typed_tag_item typed_author typed_preview : wire.

Definition post_dated (d : View.postDetail) : Prop :=
  (exists t, dated t /\ View.dCreatedAt d = View.second_text t) /\ (exists t, dated t /\ View.dUpdatedAt d = View.second_text t).

Lemma typed_post d : post_dated d -> typed Post (post_value d).
Proof. intros [(t & Ht & Ec) (u & Hu & Eu)]. unfold post_value. rewrite Ec, Eu. object. Qed.

(** The times of a view are in the years 1 to 9999. *)
Definition user_dated (u : View.publicUser) : Prop :=
  dated (View.uCreatedAt u) /\ dated (View.uUpdatedAt u) /\ dated (View.uProfileRefreshedAt u) /\
  from_option dated True (View.uDeletedAt u).

Definition image_dated (i : View.image) : Prop :=
  dated (View.iCreatedAt i) /\ dated (View.iUpdatedAt i) /\ from_option dated True (View.iDeletedAt i).

Definition view_dated (v : View.t) : Prop :=
  match v with
  | View.PublicUser u => user_dated u
  | View.SelfUser u => user_dated (View.public u)
  | View.UserList data _ _ _ | View.FollowList data _ => Forall user_dated data
  | View.Post d => post_dated d
  | View.PostList data _ => Forall post_dated data
  | View.Image i => image_dated i
  | View.ImageList data _ _ _ => Forall image_dated data
  | _ => True
  end.

Lemma time_member_ok type key t : dated t -> time_member type key t = inr (key, VStr (Rfc3339.Format t)).
Proof. intros Ht. unfold time_member. by rewrite time_value_ok. Qed.

Lemma dated_bool t : (0 <=? t) && (t <? max_time) = true -> dated t.
Proof. unfold dated. intros [Ha%Z.leb_le Hb%Z.ltb_lt]%andb_true_iff. lia. Qed.

(** ** Nesting *)

Lemma max_list_bound n l : Forall (fun m => (m <= n)%nat) l -> (max_list l <= n)%nat.
Proof. induction 1 as [|m l Hm _ IH]; [apply Nat.le_0_l|]. by apply Nat.max_lub. Qed.

Lemma nest_obj n l : Forall (fun kv => (nest kv.2 <= n)%nat) l -> (nest (VObj l) <= S n)%nat.
Proof. intros Hl. cbn [nest]. by apply le_n_S, max_list_bound, Forall_fmap. Qed.

Lemma nest_all n l : Forall (fun v => (nest v <= n)%nat) l -> (nest (VArr l) <= S n)%nat.
Proof. intros Hl. cbn [nest]. by apply le_n_S, max_list_bound, Forall_fmap. Qed.

Lemma nest_arr {A} n (f : A -> value) l : (forall a, (nest (f a) <= n)%nat) -> (nest (VArr (f <$> l)) <= S n)%nat.
Proof. intros Hf. apply nest_all, Forall_fmap, Forall_true, Hf. Qed.

Lemma nest_pointer {A} n (f : A -> value) x : (forall a, (nest (f a) <= n)%nat) -> (nest (pointer f x) <= n)%nat.
Proof. intros Hf. destruct x; [apply Hf|cbn; lia]. Qed.

(** An object whose members are flat, lists or pointers. *)
Ltac flat := apply nest_obj; repeat (apply Forall_cons; split); [cbn [snd]..|by apply Forall_nil].

Lemma nest_flat v n : nest v = O -> (nest v <= n)%nat.
Proof. lia. Qed.

Create HintDb depth.
#[export] Hint Resolve nest_arr nest_pointer nest_flat : depth.

Lemma nest_badge b : (nest (badge_value b) <= 1)%nat.
Proof. unfold badge_value, nonempty. case_bool_decide; flat; auto with depth. Qed.
Lemma nest_image_item x : (nest (image_item x) <= 1)%nat.
Proof. flat; auto with depth. Qed.
Lemma nest_tag_item x : (nest (tag_item x) <= 1)%nat.
Proof. flat; auto with depth. Qed.
Lemma nest_author a : (nest (author_value a) <= 1)%nat.
Proof. flat; auto with depth. Qed.
Lemma nest_preview p : (nest (preview_value p) <= 1)%nat.
Proof. flat; auto with depth. Qed.

Lemma nest_up m n v : (nest v <= m)%nat -> (m <= n)%nat -> (nest v <= n)%nat.
Proof. lia. Qed.

Lemma nest_up_author a : (nest (author_value a) <= 2)%nat.
Proof. by eapply nest_up; [apply nest_author|lia]. Qed.
#[export] Hint Resolve nest_badge nest_image_item nest_tag_item nest_up_author nest_preview : depth.

Lemma nest_post d : (nest (post_value d) <= 3)%nat.
Proof. flat; auto with depth. Qed.

(** A value in the shape of a schema, and not deep. *)
Definition sound (s : schema) (v : value) : Prop := typed s v /\ (nest v <= 3)%nat.

Lemma public_user_ok u : user_dated u -> exists l, public_members u = inr l /\ sound PublicUser (VObj l) /\
  forall b, sound SelfUser (VObj (l ++ [("is_admin", VBool b)])%list).
Proof.
  intros (Hc & Hu & Hr & Hd). unfold public_members, deleted_member. destruct (View.uDeletedAt u) as [t|]; cbn [from_option] in Hd;
    rewrite !time_member_ok by done; cbn [collect app on_value]; eexists; (split; [reflexivity|]);
    (split; [|intros b]; cbn [app]; (split; [object|flat; auto with depth])).
Qed.

Lemma image_ok i : image_dated i -> exists v, image_value i = inr v /\ sound Image v.
Proof.
  intros (Hc & Hu & Hd). unfold image_value, deleted_member. destruct (View.iDeletedAt i) as [t|]; cbn [from_option] in Hd;
    rewrite !time_member_ok by done; cbn [collect app on_value]; eexists; (split; [reflexivity|]);
    cbn [app]; (split; [object|flat; auto with depth]).
Qed.

Lemma public_ok u : user_dated u -> exists v, public_value u = inr v /\ sound PublicUser v.
Proof. intros (l & E & Hl & _)%public_user_ok. exists (VObj l). unfold public_value. by rewrite E. Qed.

Lemma self_ok u : user_dated (View.public u) -> exists v, self_value u = inr v /\ sound SelfUser v.
Proof.
  intros (l & E & _ & Hl)%public_user_ok. eexists. unfold self_value. rewrite E. split; [reflexivity|apply Hl].
Qed.

Lemma collect_ok {A} (P : A -> Prop) (f : A -> string + value) s l :
  (forall a, P a -> exists v, f a = inr v /\ sound s v) -> Forall P l ->
  exists vs, collect (f <$> l) = inr vs /\ Forall (sound s) vs.
Proof.
  intros Hf. induction 1 as [|a l Ha _ (vs & E & Hvs)]; [by exists []|]. destruct (Hf a Ha) as (v & Ev & Hv).
  exists (v :: vs). rewrite fmap_cons, Ev. cbn [collect]. rewrite E. auto using Forall_cons_2.
Qed.

(** ** What is written *)

(** The schema of a view under its envelope. *)
Definition schema_of (v : View.t) : schema :=
  match v with
  | View.Health => HealthResponse
  | View.PublicUser _ => envelope PublicUser
  | View.SelfUser _ => envelope SelfUser
  | View.UserList _ _ _ _ => offset_list PublicUser
  | View.Post _ => envelope Post
  | View.PostList _ _ => PostListResponse
  | View.FollowResult _ _ => envelope FollowResult
  | View.FollowList _ _ => FollowListResponse
  | View.Badge _ => envelope Badge
  | View.Badges _ => envelope (SArray Badge)
  | View.Granted _ _ => GrantBadgeEnvelope
  | View.Image _ => envelope Image
  | View.ImageList _ _ _ _ => offset_list Image
  end.

Definition deep_sound (s : schema) (v : value) : Prop := typed s v /\ (nest v <= 5)%nat.

Lemma success_ok s v : typed s v -> (nest v <= 4)%nat -> deep_sound (envelope s) (success v).
Proof. intros Hv Hn. split; [object|flat; auto with depth]. Qed.

Lemma list_response_ok s l limit offset total : Forall (sound s) l ->
  deep_sound (offset_list s) (list_response l limit offset total).
Proof.
  intros [Hf Hn]%Forall_and. split; [|flat; auto using nest_all with depth].
  apply typed_object; [reflexivity|cbn; split_and?; try fit; by apply typed_all|exact I|reflexivity].
Qed.

Lemma cursor_list_ok s l next : Forall (sound s) l ->
  deep_sound (SObject [("data", SArray s); ("next_cursor", SNullable SString)] []) (cursor_list l next).
Proof.
  intros [Hf Hn]%Forall_and. split; [|flat; auto using nest_all with depth].
  apply typed_object; [reflexivity|cbn; split_and?; try fit; by apply typed_all|exact I|reflexivity].
Qed.

Lemma sound_4 s v : sound s v -> typed s v /\ (nest v <= 4)%nat.
Proof. intros [Hf Hn]. split; [done|lia]. Qed.

Lemma render_ok now v : dated now -> view_dated v -> exists x, render now v = inr x /\ deep_sound (schema_of v) x.
Proof.
  intros Hnow Hv. destruct v as [|u|u|l ? ? ?|d|l ?|? ?|l ?|b|l|? b|i|l ? ? ?]; cbn [view_dated render schema_of] in *.
  - eexists. split; [reflexivity|split; [object|flat; auto with depth]].
  - destruct (public_ok u Hv) as (x & -> & [Hf Hn]%sound_4). eexists. by split; [reflexivity|apply success_ok].
  - destruct (self_ok u Hv) as (x & -> & [Hf Hn]%sound_4). eexists. by split; [reflexivity|apply success_ok].
  - destruct (collect_ok _ _ _ l public_ok Hv) as (xs & -> & Hxs). eexists. by split; [reflexivity|apply list_response_ok].
  - eexists. split; [reflexivity|]. pose proof (nest_post d). apply success_ok; [by apply typed_post|lia].
  - eexists. split; [reflexivity|]. apply cursor_list_ok, Forall_fmap. eapply Forall_impl; [exact Hv|].
    intros d Hd. split; [by apply typed_post|apply nest_post].
  - eexists. split; [reflexivity|]. apply success_ok; [object|flat; auto with depth].
  - destruct (collect_ok _ _ _ l public_ok Hv) as (xs & -> & Hxs). eexists. by split; [reflexivity|apply cursor_list_ok].
  - eexists. split; [reflexivity|]. pose proof (nest_badge b). apply success_ok; [apply typed_badge|lia].
  - eexists. split; [reflexivity|]. apply success_ok; [fit|]. eapply nest_up; [apply nest_arr, nest_badge|lia].
  - eexists. split; [reflexivity|]. apply success_ok; [object|flat; auto with depth].
  - destruct (image_ok i Hv) as (x & -> & [Hf Hn]%sound_4). eexists. by split; [reflexivity|apply success_ok].
  - destruct (collect_ok _ _ _ l image_ok Hv) as (xs & -> & Hxs). eexists. by split; [reflexivity|apply list_response_ok].
Qed.

Lemma encode_read s x : deep_sound s x -> exists j, read (encode (inr x)) = Some j /\ conforms s j = true.
Proof.
  intros [Hf Hn]. exists (shown x). split; [|done]. unfold encode.
  apply read_Marshal_app; [|done..]. etrans; [exact Hn|]. apply Nat.leb_le. vm_compute. reflexivity.
Qed.

Lemma error_ok now code message : dated now ->
  exists x, error_value now code message = inr x /\ deep_sound OpenAPI.Error x.
Proof.
  intros Hnow. unfold error_value. rewrite time_value_ok by done. eexists.
  split; [reflexivity|split; [object|flat; auto with depth]].
Qed.

(** ** The answers of the routes *)

(** An answer of a handler that owes [ok] and may refuse with [cs]: the
    status of the success, with the schema or without a body, or one of the
    refusals with the error schema. *)
Definition documented (ok : Z * option schema) (cs : list Z) (r : response View.t) : Prop :=
  match content r with
  | NoBody => ok = (status r, None)
  | ErrorBody _ _ => listed (status r) cs = true /\
      forall now, dated now -> exists j, read (body now r) = Some j /\ conforms OpenAPI.Error j = true
  | PlainText => False
  | Data v => exists s, ok = (status r, Some s) /\
      forall now, dated now -> view_dated v -> exists j, read (body now r) = Some j /\ conforms s j = true
  end.

Lemma documented_data cs code v : documented (code, Some (schema_of v)) cs (write_data code v).
Proof.
  exists (schema_of v). split; [done|]. intros now Hnow Hv. destruct (render_ok now v Hnow Hv) as (x & E & Hx).
  unfold body. cbn [content write_data]. rewrite E. by apply encode_read.
Qed.

Lemma documented_error ok cs code c m k : listed code cs = true -> documented ok cs (mkResponse code (ErrorBody c m) k).
Proof.
  intros Hc. split; [done|]. intros now Hnow. destruct (error_ok now c m Hnow) as (x & E & Hx).
  unfold body. cbn [content]. rewrite E. by apply encode_read.
Qed.

Lemma documented_write ok cs e : listed (ToHTTPStatus e) cs = true -> documented ok cs (WriteErrorResponse e).
Proof.
  unfold WriteErrorResponse, buildErrorResponse. destruct (IsAppError e) as [[[]]|]; apply documented_error.
Qed.

Lemma listed_all cs ds c : forallb (fun c => listed c ds) cs = true -> listed c cs = true -> listed c ds = true.
Proof.
  unfold listed. intros Hall (x & Hin & ->%Z.eqb_eq)%existsb_exists. rewrite forallb_forall in Hall. by apply Hall.
Qed.

(** *** The errors of a use case *)

Section errors.
Context {S : Type}.

(** The errors a call may end in have a status of [cs]; a panic counts as
    the 500 that answers it. *)
Definition errors {A} (cs : list Z) (m : M S A) : Prop :=
  forall s, match (m s).2 with Ok _ => True | Err e => listed (ToHTTPStatus e) cs = true | Panic _ => listed 500 cs = true end.

Definition refuses {A} (cs : list Z) (x : goerror + A) : Prop :=
  match x with inl e => listed (ToHTTPStatus e) cs = true | inr _ => True end.

Lemma errors_up {A} cs ds (m : M S A) : errors cs m -> forallb (fun c => listed c ds) cs = true -> errors ds m.
Proof. intros Hm Hall s. specialize (Hm s). destruct (m s).2; [done|..]; by eapply listed_all. Qed.

Lemma errors_ret {A} cs (a : A) : errors cs (ret a).
Proof. by intros s. Qed.

Lemma errors_fail {A} cs e : listed (ToHTTPStatus e) cs = true -> errors (A := A) cs (fail e).
Proof. by intros He s. Qed.

Lemma errors_bind {A B} cs (m : M S A) (k : A -> M S B) : errors cs m -> (forall a, errors cs (k a)) -> errors cs (bind m k).
Proof. intros Hm Hk s. specialize (Hm s). unfold bind. destruct (m s) as [s' [a|e|p]]; cbn in *; [apply Hk|done..]. Qed.

Lemma errors_guard cs b e : (b = true -> listed (ToHTTPStatus e) cs = true) -> errors cs (guard b e).
Proof. intros Hb. unfold guard. destruct b; [by apply errors_fail, Hb|apply errors_ret]. Qed.

Lemma errors_map {A} cs f (m : M S A) : (forall e, listed (ToHTTPStatus (f e)) cs = true) -> listed 500 cs = true ->
  errors cs (map_err f m).
Proof. intros Hf Hp s. unfold map_err. destruct (m s) as [s' [a|e|p]]; cbn; [done|apply Hf|done]. Qed.

Lemma errors_db {A} cs msg (m : M S A) : listed 500 cs = true -> errors cs (or_db msg m).
Proof. intros Hp. by apply errors_map. Qed.

Lemma errors_try {A} cs (m : M S A) : listed 500 cs = true -> errors cs (try m).
Proof. intros Hp s. unfold try. by destruct (m s) as [s' [a|e|p]]. Qed.

Lemma errors_missing {A} cs e (x : option A) : listed (ToHTTPStatus e) cs = true -> errors cs (or_missing e x).
Proof. intros He. by destruct x; [apply errors_ret|apply errors_fail]. Qed.

Lemma errors_invalid cs err : listed 400 cs = true -> errors cs (or_invalid err).
Proof. intros He. by destruct err; [apply errors_fail|apply errors_ret]. Qed.

Lemma errors_each {A} cs (f : A -> M S unit) l : (forall a, errors cs (f a)) -> errors cs (for_each f l).
Proof. intros Hf. induction l as [|a l IH]; [apply errors_ret|]. apply errors_bind; auto. Qed.

Lemma errors_ignore {A} cs (m : M S A) : listed 500 cs = true -> errors cs (ignore m).
Proof. intros Hp. apply errors_bind; [by apply errors_try|]. intros. apply errors_ret. Qed.
End errors.

Ltac member := first [reflexivity|assumption].

(** A call through its steps; what is left are the guards a caller has
    passed already. *)
Ltac refuse := repeat first
  [ apply errors_ret | apply errors_db; member | apply errors_try; member | apply errors_ignore; member
  | apply errors_missing; member | apply errors_invalid; member | apply errors_fail; member
  | apply errors_guard; first [intros _; member | intros ?; to_prop; contradiction]
  | solve [auto with refusals]
  | apply errors_map; [intros ?; member|member] | apply errors_each; intros ?
  | apply errors_bind; [|intros ?]
  | match goal with
    | |- errors _ (match ?x with _ => _ end) => destruct x
    | |- errors _ (run_hook _) => unfold run_hook
    | |- errors _ (let _ := _ in _) => cbv zeta
    end ].

Create HintDb refusals.

Section usecases.
Context `{GoRuntime, HostTables, HtmlLib, MultipartLib} {S : Type}.
Context `{!Backend S, !TagExtractor.t S, !AuthCore.Client S, !StorageService.t S}.

Lemma errors_now cs : errors (S := S) cs Runtime.Now.
Proof.
  intros s. destruct (Runtime_Now_ok s) as [t Ht]. injection Ht as _ Hr. by destruct (Runtime.Now s); cbn in *; subst.
Qed.

Lemma errors_ulid cs : errors (S := S) cs Runtime.MakeULID.
Proof.
  intros s. destruct (Runtime_MakeULID_ok s) as [t Ht]. injection Ht as _ Hr. by destruct (Runtime.MakeULID s); cbn in *; subst.
Qed.

Lemma errors_hydrator cs seed posts viewer : listed 500 cs = true -> errors (S := S) cs (PostUC.Hydrate seed posts viewer).
Proof. intros Hc. unfold PostUC.Hydrate, PostUC.viewer_state. refuse. Qed.

#[local] Hint Resolve errors_now errors_ulid errors_hydrator : refusals.

Lemma errors_enqueue cs p : listed 500 cs = true -> errors (S := S) cs (Enqueuer.EnqueueForPost p).
Proof. intros Hc. unfold Enqueuer.EnqueueForPost, Enqueuer.enqueue_url. refuse. Qed.

Lemma errors_create u req : errors (S := S) [400; 401; 403; 404; 500] (PostUC.Create create_hook u req).
Proof.
  unfold PostUC.Create, PostUC.resolve_root, PostUC.check_image, PostUC.count_reply, create_hook. refuse.
  by apply errors_enqueue.
Qed.

Lemma errors_delete p u : errors (S := S) [401; 403; 404; 500] (PostUC.Delete p u).
Proof. unfold PostUC.Delete, PostUC.uncount_reply. refuse. Qed.

Lemma errors_like u p : errors (S := S) [400; 401; 404; 500] (PostUC.Like None u p).
Proof. unfold PostUC.Like. cbn [fmap option_fmap option_map]. refuse. Qed.

Lemma errors_unlike u p : errors (S := S) [400; 401; 500] (PostUC.Unlike u p).
Proof. unfold PostUC.Unlike. refuse. Qed.

Lemma errors_get seed p v : errors (S := S) [400; 404; 500] (PostUC.Get seed p v).
Proof. unfold PostUC.Get, PostUC.HydrateOne. refuse. Qed.

Lemma errors_list seed u c l v : errors (S := S) [500] (PostUC.List seed u c l v).
Proof. unfold PostUC.List. refuse. Qed.

Lemma errors_replies seed p c l v : errors (S := S) [400; 500] (PostUC.ListReplies seed p c l v).
Proof. unfold PostUC.ListReplies. refuse. Qed.

Lemma errors_home seed u c l : errors (S := S) [401; 500] (TimelineUC.Home seed u c l).
Proof. unfold TimelineUC.Home. refuse. Qed.

Lemma errors_timeline seed u c l v : errors (S := S) [400; 500] (TimelineUC.User seed u c l v).
Proof. unfold TimelineUC.User. refuse. Qed.

Lemma errors_global seed c l v : errors (S := S) [500] (TimelineUC.Global seed c l v).
Proof. unfold TimelineUC.Global. refuse. Qed.

Lemma errors_follow a b : errors (S := S) [400; 401; 404; 500] (FollowUC.Follow None a b).
Proof. unfold FollowUC.Follow, FollowUC.bump. cbn [fmap option_fmap option_map]. refuse. Qed.

Lemma errors_unfollow a b : errors (S := S) [400; 401; 500] (FollowUC.Unfollow a b).
Proof. unfold FollowUC.Unfollow, FollowUC.unbump. refuse. Qed.

Lemma errors_followers u c l : errors (S := S) [400; 500] (FollowUC.ListFollowers u c l).
Proof. unfold FollowUC.ListFollowers. refuse. Qed.

Lemma errors_following u c l : errors (S := S) [400; 500] (FollowUC.ListFollowing u c l).
Proof. unfold FollowUC.ListFollowing. refuse. Qed.

Lemma errors_user u : errors (S := S) [400; 404; 500] (UserUC.GetUser u).
Proof. unfold UserUC.GetUser. refuse. Qed.

(** The subject of a session is not empty. *)
Lemma errors_sign_in ttl token u : u <> ""%string -> errors (S := S) [404; 500] (UserUC.GetOrHydrateUser ttl token u).
Proof. intros Hu. unfold UserUC.GetOrHydrateUser, UserUC.lazyCreate, UserUC.refresh. refuse. Qed.

Lemma errors_update a b req : errors (S := S) [400; 403; 404; 500] (UserUC.UpdateUserProfile a b req).
Proof. unfold UserUC.UpdateUserProfile. refuse. Qed.

Lemma errors_users l o : errors (S := S) [500] (UserUC.ListUsers l o).
Proof. unfold UserUC.ListUsers. refuse. Qed.

Lemma errors_badges u : errors (S := S) [400; 500] (BadgeUC.GetUserBadges u).
Proof. unfold BadgeUC.GetUserBadges. refuse. Qed.

Lemma errors_badge_batch us : errors (S := S) [500] (BadgeUC.ListUserBadgesBatch us).
Proof. unfold BadgeUC.ListUserBadgesBatch. refuse. Qed.

Lemma errors_all_badges : errors (S := S) [500] BadgeUC.ListBadges.
Proof. unfold BadgeUC.ListBadges. refuse. Qed.

Lemma errors_admin cs u : forallb (fun c => listed c cs) [401; 403; 500] = true -> errors (S := S) cs (BadgeUC.ensureAdmin u).
Proof. intros Hc. apply (errors_up [401; 403; 500]); [|done]. unfold BadgeUC.ensureAdmin, AdminUC.IsAdmin. refuse. Qed.
#[local] Hint Extern 1 (errors _ (BadgeUC.ensureAdmin _)) => apply errors_admin; reflexivity : refusals.

Lemma errors_create_badge u b : errors (S := S) [400; 401; 403; 409; 500] (BadgeUC.CreateBadge u b).
Proof. unfold BadgeUC.CreateBadge. refuse. Qed.

Lemma errors_update_badge u i b : errors (S := S) [400; 401; 403; 404; 500] (BadgeUC.UpdateBadge u i b).
Proof. unfold BadgeUC.UpdateBadge. refuse. Qed.

Lemma errors_grant a b req : errors (S := S) [400; 401; 403; 404; 500] (BadgeUC.GrantBadge a b req).
Proof. unfold BadgeUC.GrantBadge. refuse. Qed.

Lemma errors_revoke a b i : errors (S := S) [400; 401; 403; 500] (BadgeUC.RevokeBadge a b i).
Proof. unfold BadgeUC.RevokeBadge. refuse. Qed.

(** The object store answers a failure as an internal error. *)
Definition storage_errors : Prop := forall rq, errors (S := S) [500] (StorageService.Upload rq).

Lemma r2_errors `{!R2.ObjectStore S} bucket domain :
  forall rq, errors (S := S) [500] (StorageService.Upload (t := R2.R2Service bucket domain) rq).
Proof. intros rq. cbn. unfold R2.external. refuse. Qed.

Lemma errors_upload req : storage_errors -> errors (S := S) [400; 500] (ImageUC.Upload req).
Proof.
  intros Hs. assert (Hup : forall rq, errors (S := S) [400; 500] (StorageService.Upload rq)) by (intros rq; by eapply errors_up).
  unfold ImageUC.Upload. refuse.
Qed.

Lemma errors_images u : u <> ""%string -> errors (S := S) [500] (ImageUC.GetUserImages u).
Proof. intros Hu. unfold ImageUC.GetUserImages. refuse. Qed.

Lemma errors_delete_image i u : errors (S := S) [400; 403; 404; 500] (ImageUC.Delete i u).
Proof. unfold ImageUC.Delete. refuse. Qed.
End usecases.

(** *** The answers of a handler *)

Section answers.
Context {S : Type}.

(** Every answer is one the handler owes; it may panic where a 500 is
    allowed, but never ends in an error of Go. *)
Definition answers (ok : Z * option schema) (cs : list Z) (m : M S (response View.t)) : Prop :=
  forall s, match (m s).2 with Ok r => documented ok cs r | Err _ => False | Panic _ => listed 500 cs = true end.

Lemma answers_ret ok cs r : documented ok cs r -> answers ok cs (ret r).
Proof. by intros Hr s. Qed.

Lemma answers_try {A} ok cs (m : M S A) k : errors cs m ->
  (forall x, refuses cs x -> answers ok cs (k x)) -> answers ok cs (bind (try m) k).
Proof.
  intros Hm Hk s. specialize (Hm s). unfold bind, try. destruct (m s) as [s' [a|e|p]]; cbn in *;
    [by apply (Hk (inr a))|by apply (Hk (inl e))|done].
Qed.

Lemma answers_try_any {A} ok cs (m : M S A) k : listed 500 cs = true ->
  (forall x, answers ok cs (k x)) -> answers ok cs (bind (try m) k).
Proof. intros Hc Hk s. unfold bind, try. destruct (m s) as [s' [a|e|p]]; cbn; [apply Hk..|done]. Qed.

Lemma answers_error {A} ok cs (m : M S A) k : errors cs m -> (forall a, answers ok cs (k a)) -> answers ok cs (or_error m k).
Proof. intros Hm Hk. apply answers_try; [done|]. intros [e|a] Hx; [by apply answers_ret, documented_write|apply Hk]. Qed.

Lemma answers_reply {A} ok cs (x : goerror + A) k : refuses cs x -> (forall a, answers ok cs (k a)) -> answers ok cs (or_reply x k).
Proof. intros Hx Hk. destruct x as [e|a]; [by apply answers_ret, documented_write|apply Hk]. Qed.

Lemma session_sub c sub : Auth.GetSubFromContext c = Some sub -> sub <> ""%string.
Proof. unfold Auth.GetSubFromContext. destruct (Auth.subKey c); [|done]. case_bool_decide; congruence. Qed.

Lemma answers_sub ok cs c k : listed 401 cs = true -> (forall u, u <> ""%string -> answers ok cs (k u)) -> answers ok cs (need_sub c k).
Proof.
  intros Hc Hk. unfold need_sub. destruct (Auth.GetSubFromContext c) eqn:E; [by eapply Hk, session_sub|].
  by apply answers_ret, documented_write.
Qed.

(** *** The middlewares *)

Context `{AuthCore.Client S}.

Definition handles ok cs (h : handler (S := S) (V := View.t)) : Prop := forall c r, answers ok cs (h c r).

(** The middlewares may refuse with all of [cs']. *)
Definition includes (cs' cs : list Z) : Prop := forallb (fun c => listed c cs) cs' = true.

Lemma includes_listed c cs' cs : includes cs' cs -> listed c cs' = true -> listed c cs = true.
Proof. apply listed_all. Qed.

Lemma handles_auth ok cs cookieName next : includes [401; 500; 503] cs ->
  handles ok cs next -> handles ok cs (AuthMiddleware cookieName next).
Proof.
  intros Hc Hn c r. unfold AuthMiddleware.
  destruct (extractAuthToken r cookieName); [|by apply answers_ret, documented_error, (includes_listed _ _ _ Hc)].
  apply answers_try_any; [by apply (includes_listed _ _ _ Hc)|]. intros [e|x]; [|apply Hn].
  destruct (is_invalid_session e); by apply answers_ret, documented_error, (includes_listed _ _ _ Hc).
Qed.

Lemma handles_hydrate ok cs hydrate next : includes [401; 404; 500] cs ->
  (forall token sub, sub <> ""%string -> errors [404; 500] (hydrate token sub)) ->
  handles ok cs next -> handles ok cs (HydrateUserMiddleware hydrate next).
Proof.
  intros Hc Hh Hn c r. unfold HydrateUserMiddleware. destruct (Auth.GetSubFromContext c) as [u|] eqn:E;
    [|by apply answers_ret, documented_error, (includes_listed _ _ _ Hc)].
  apply answers_try.
  { eapply errors_up; [by eapply Hh, session_sub|]. unfold includes in Hc. cbn in *. by apply andb_true_iff in Hc as [_ Hc]. }
  intros [e|x] Hx; [|apply Hn]. apply answers_ret. unfold writeHydrateError. cbn in Hx. unfold ToHTTPStatus in Hx.
  destruct (IsAppError e) as [[[]]|]; by apply documented_error.
Qed.

Lemma handles_admin ok cs next : includes [401; 403] cs -> handles ok cs next -> handles ok cs (AdminMiddleware next).
Proof.
  intros Hc Hn c r. unfold AdminMiddleware.
  destruct (Auth.GetCurrentUserFromContext c) as [u|]; [|by apply answers_ret, documented_error, (includes_listed _ _ _ Hc)].
  destruct (User.IsAdmin u); [apply Hn|by apply answers_ret, documented_error, (includes_listed _ _ _ Hc)].
Qed.
End answers.

(** *** The handlers *)

Lemma refuses_ulid cs r name label : listed 400 cs = true -> refuses cs (parseULIDFromPath r name label).
Proof. intros Hc. unfold parseULIDFromPath. by destruct (IsULID _). Qed.

Lemma refuses_user_id cs r : listed 400 cs = true -> refuses cs (parseOptionalUserIDQuery r).
Proof. intros Hc. unfold parseOptionalUserIDQuery. case_bool_decide; [done|]. by destruct (IsULID _). Qed.

Lemma refuses_body {T} cs (fs : Json.struct T) zero n r : listed 400 cs = true -> refuses cs (decodeJSONBody fs zero n r).
Proof. intros Hc. unfold decodeJSONBody. by destruct (Json.Decode _ _ _ _ _). Qed.

Lemma refuses_post cs r : listed 400 cs = true -> refuses cs (Bodies.parseCreatePostRequest r).
Proof.
  intros Hc. unfold Bodies.parseCreatePostRequest.
  pose proof (refuses_body cs Bodies.create_post_fields (Bodies.mkCreatePost "" (O, []) None) Bodies.maxPostBodyBytes r Hc) as Hr.
  by destruct (decodeJSONBody _ _ _ _).
Qed.

Lemma refuses_profile cs r : listed 400 cs = true -> refuses cs (Bodies.parseUpdateProfileRequest r).
Proof. intros Hc. unfold Bodies.parseUpdateProfileRequest. by destruct (Json.Decode _ _ _ _ _). Qed.

Section routes.
Context `{GoRuntime, HostTables, HtmlLib, MultipartLib} {S : Type}.
Context `{!Backend S, !TagExtractor.t S, !AuthCore.Client S, !StorageService.t S}.
Context (w : wiring) (storage_ok : storage_errors (S := S)).

Lemma refuses_upload cs u r : listed 400 cs = true -> refuses cs (parse_upload u r).
Proof.
  intros Hc. unfold parse_upload. destruct (form_file _ _) as [e|[e|[[name type] data]]]; [exact Hc..|].
  destruct (MaxImageBytes <? _); [exact Hc|]. cbv zeta. destruct (negb _); [exact Hc|]. destruct (negb _); [exact Hc|exact I].
Qed.

Lemma answers_data cs code v : answers (S := S) (code, Some (schema_of v)) cs (ret (write_data code v)).
Proof. apply answers_ret, documented_data. Qed.

Lemma answers_done cs x : answers (S := S) (204, None) cs (done_reply x).
Proof. by apply answers_ret. Qed.

Lemma answers_detail cs code d : listed 500 cs = true -> answers (S := S) (code, Some (envelope OpenAPI.Post)) cs (detail_reply code d).
Proof. intros Hc. destruct d as [d|]; [apply (answers_data cs code (View.Post _))|by intros s]. Qed.

Lemma answers_list cs x : answers (S := S) (200, Some PostListResponse) cs (list_reply x).
Proof. apply (answers_data cs 200 (View.PostList _ _)). Qed.

Lemma answers_follow cs x : answers (S := S) (200, Some (envelope OpenAPI.FollowResult)) cs (follow_reply x).
Proof. apply (answers_data cs 200 (View.FollowResult _ _)). Qed.

Lemma answers_self cs u : includes [400; 500] cs -> answers (S := S) (200, Some (envelope OpenAPI.SelfUser)) cs (self_reply u).
Proof.
  intros Hc. apply answers_error; [by eapply errors_up; [apply errors_badges|]|].
  intros badges. apply (answers_data cs 200 (View.SelfUser _)).
Qed.

Create HintDb usecase.
Create HintDb parsing.
#[local] Hint Resolve errors_create errors_delete errors_like errors_unlike errors_get errors_list errors_replies errors_home
  errors_timeline errors_global errors_follow errors_unfollow errors_followers errors_following errors_user errors_sign_in
  errors_update errors_users errors_badges errors_badge_batch errors_all_badges errors_create_badge errors_update_badge
  errors_grant errors_revoke errors_upload errors_images errors_delete_image : usecase.
#[local] Hint Resolve refuses_ulid refuses_user_id refuses_body refuses_post refuses_profile refuses_upload : parsing.

(** Through the guards of a handler to what it writes. *)
Ltac guards := repeat (first
    [ apply answers_reply; [solve [eauto with parsing]|]
    | apply answers_error; [eapply errors_up; [solve [eauto with usecase]|reflexivity]|]
    | apply answers_sub; [reflexivity|] ]; intros;
    repeat match goal with x : _ * _ |- _ => destruct x end);
  first [apply answers_done|apply answers_detail; reflexivity|apply answers_list|apply answers_follow|apply answers_self; reflexivity
        |lazymatch goal with |- answers _ ?cs (ret (write_data ?c ?v)) => apply (answers_data cs c v) end].

Lemma handles_me : handles (200, Some (envelope OpenAPI.SelfUser)) [401; 500; 404; 503; 400] (Me w).
Proof. intros c r. unfold Me, hydrate. destruct (Auth.GetCurrentUserFromContext c); guards. Qed.

Lemma handles_users : handles (S := S) (200, Some (offset_list OpenAPI.PublicUser)) [500] ListUsers.
Proof. intros c r. unfold ListUsers. destruct (parsePaginationParams r); guards. Qed.

Lemma handles_issue : handles (204, None) [401; 500; 404; 503] (Issue (S := S) w).
Proof.
  intros c r. unfold Issue. destruct (Auth.GetAccessTokenFromContext c); [|by apply answers_ret, documented_write].
  intros st. unfold bind. destruct (Runtime_Now_ok st) as [t Ht]. injection Ht as _ Hr.
  by destruct (Runtime.Now st) as [s1 r1]; cbn in *; subst r1.
Qed.

(** A route serves an operation. *)
Definition route_documented (o : operation) (rt : route (S := S)) : Prop :=
  (method o, path o) = rt.1 /\ handles (ok_status o, ok_schema o) (answerable o) rt.2.

Lemma documented_route o a h cs : (method o, path o) = a -> answerable o = cs ->
  handles (ok_status o, ok_schema o) cs h -> route_documented o (a, h).
Proof. by intros Ha <- Hh. Qed.

Lemma handles_authed ok cs h : includes [401; 404; 500; 503] cs -> handles ok cs h -> handles ok cs (authed w h).
Proof.
  intros Hc Hh. assert (Hi : forall cs', includes cs' [401; 404; 500; 503] -> includes cs' cs).
  { intros cs' Hc'. apply forallb_forall. intros c Hin. eapply listed_all; [exact Hc|].
    unfold includes in Hc'. rewrite forallb_forall in Hc'. by apply Hc'. }
  apply handles_auth; [by apply Hi|]. apply handles_hydrate; [by apply Hi| |done]. apply errors_sign_in.
Qed.

(** By the middlewares of the route, then the handler. *)
Ltac document := repeat apply Forall2_cons_2; [
  (eapply documented_route; [reflexivity|vm_compute; reflexivity|cbn [ok_status ok_schema]]; unfold adminOnly;
   first [apply handles_me|apply handles_users
         |apply handles_auth; [reflexivity|apply handles_hydrate; [reflexivity|apply errors_sign_in|apply handles_admin; [reflexivity|]]]
         |apply handles_authed; [reflexivity|]
         |apply handles_auth; [reflexivity|]
         |idtac];
   first [apply handles_me|apply handles_users|apply handles_issue|intros ? ?; first [apply (answers_data _ 200 View.Health)|by apply answers_ret|guards]])..
  |apply Forall2_nil_2].

Lemma routes_documented seed : Forall2 route_documented (operations (imagesEnabled w)) (routes w seed).
Proof.
  unfold operations, routes. apply Forall2_app; [cbn [app session_operations]; document|].
  apply Forall2_app; [|document]. unfold image_operations, image_routes. destruct (imagesEnabled w); document.
Qed.

(** *** The mux *)

(** The operation a request is for. *)
Fixpoint operation_of (ops : list operation) (r : http_request) : option operation :=
  match ops with
  | [] => None
  | o :: ops =>
      match match_path (path o) (Segments r) with
      | Some _ => if method_matches (method o) (Method r) then Some o else operation_of ops r
      | None => operation_of ops r
      end
  end.

(** An answer to a request that is no preflight. *)
Definition answered (o : option operation) (r : response View.t) : Prop :=
  match o with
  | Some o => documented (ok_status o, ok_schema o) (answerable o) r
  | None => content r = PlainText /\ (status r = 404 \/ status r = 405)
  end.

Definition ends_in (o : option operation) (x : res (response View.t)) : Prop :=
  match x with
  | Ok resp => answered o resp
  | Err _ => False
  | Panic _ => exists o', o = Some o' /\ listed 500 (answerable o') = true
  end.

Lemma dispatch_answers ops rs r : Forall2 route_documented ops rs -> forall other s,
  ends_in (operation_of ops r) (dispatch rs other r s).2.
Proof.
  induction 1 as [|o [[m p] h] ops rs [E Hh] _ IH]; intros other s.
  - split; [done|]. destruct other; auto.
  - cbn [fst] in E. injection E as <- <-. cbn [operation_of dispatch]. destruct (match_path (path o) (Segments r)); [|apply IH].
    destruct (method_matches (method o) (Method r)); [|apply IH].
    specialize (Hh Auth.background (set_PathValues l r) s). cbn [snd] in Hh. destruct (h _ _ s).2; [done..|by exists o].
Qed.

Lemma serve_documented seed r s : exists resp,
  (serve w seed r s).2 = Ok (cors_headers (allowedOrigins w) (Origin r), resp) /\
  if bool_decide (Method r = "OPTIONS"%string) then resp = mkResponse 200 NoBody None
  else answered (operation_of (operations (imagesEnabled w)) r) resp.
Proof using storage_ok.
  unfold serve, bind, api. case_bool_decide as E; [by eexists|].
  pose proof (dispatch_answers _ _ r (routes_documented seed) false s) as Hd. change (dispatch (routes w seed) false r) with (mux w seed r) in Hd.
  revert Hd. generalize (operation_of (operations (imagesEnabled w)) r). intros o Hd. unfold RecoveryMiddleware.
  destruct (mux w seed r s) as [s' [resp|e|why]]; cbn [snd ret ends_in] in *; [|done|]; eexists; (split; [done|]); [done|].
  destruct Hd as (o' & -> & Hc). by apply documented_error.
Qed.
End routes.

(** ** Cursors on the wire *)

Section cursors.

Lemma dec6_ascii a n : Base64.dec6 a = Some n -> code a < 128.
Proof.
  unfold Base64.dec6. intros H.
  repeat match type of H with (if ?b then _ else _) = _ => destruct b eqn:?; [to_prop; lia|] end. done.
Qed.

Lemma enc6_ascii n : 0 <= n < 64 -> (code (Base64.enc6 n) <? 128) = true.
Proof. intros Hn. by apply Z.ltb_lt, (dec6_ascii _ n), Base64.dec6_enc6. Qed.

Lemma encode_ascii s : all_bytes (fun c => c <? 128) (Base64.EncodeToString s) = true.
Proof.
  induction s as [|a|a b|a b c s IH] using Base64.string_ind3; [done|..]; cbn [Base64.EncodeToString all_bytes];
    pose proof (Base64.code_range a); try pose proof (Base64.code_range b); try pose proof (Base64.code_range c);
    rewrite ?enc6_ascii by lia_div; done.
Qed.

(** What a client reads under "next_cursor" in a page that ends with [next]. *)
Lemma cursor_list_read l next : Forall (sound PublicUser) l -> all_bytes (fun c => c <? 128) next = true ->
  exists ms, read (encode (inr (cursor_list l (Some next)))) = Some (Json.JObj ms) /\ text_at "next_cursor" ms = Some next.
Proof.
  intros Hl Ha. destruct (cursor_list_ok PublicUser l (Some next) Hl) as [_ Hn]. eexists. split.
  - unfold encode. rewrite read_Marshal_app; [cbn [shown cursor_list]; reflexivity| |done..].
    etrans; [exact Hn|]. apply Nat.leb_le. vm_compute. reflexivity.
  - unfold text_at. rewrite member_shown by reflexivity. cbn [vmember List.find String.eqb Ascii.eqb Bool.eqb fst snd fmap option_fmap option_map shown pointer].
    by rewrite to_valid_ascii.
Qed.

Lemma follow_page_read now page next : Forall user_dated page -> next <> ""%string -> all_bytes (fun c => c <? 128) next = true ->
  exists ms, read (body now (write_data 200 (View.FollowList page (View.next_cursor_view next)))) = Some (Json.JObj ms) /\
    text_at "next_cursor" ms = Some next.
Proof.
  intros Hpage Hne Ha. destruct (collect_ok _ _ _ page public_ok Hpage) as (l & E & Hl). unfold body, View.next_cursor_view.
  cbn [content write_data render]. rewrite bool_decide_eq_false_2 by done. rewrite E. by apply cursor_list_read.
Qed.

(** The value of a key in a query a client has encoded. *)
Lemma QueryGet_encoded r m key v : nonempty_values m -> RawQuery r = String.concat "&" (Normalizer.encode_values m) ->
  m !! key = Some [v] -> QueryGet r key = v.
Proof.
  intros Hm Hr Hk. unfold QueryGet. rewrite Hr. pose proof (ParseQuery_encode m Hm) as Hp.
  unfold UrlText.ParseQuery in Hp. destruct (UrlText.parse_query _ _ _ _) as [m' bad]. destruct bad; [done|].
  injection Hp as ->. cbn. by rewrite Hk.
Qed.
End cursors.
