(* ===== verification/SessionThms.v ===== *)
(** * The session cookie

    [cookie.Build] turns a duration into whole seconds through float64. Below
    2^24 seconds (194 days) the rounding is exact, so a cookie lives at least
    a second and never longer than its token. *)

From S2P Require Import Prelude Errors Monad GoStrings Domain Repository Backend NetUrl Json.
From S2P Require Import UserUC OgpUrl OgpHtml PostUC ImageUC Http Handlers.

Local Open Scope Z_scope.

Section rounding.
Import Cookie.

(** Rounding to 53 bits moves a number by at most half of its last place. *)
Lemma round53_error n : 0 <= n -> 2 * Z.abs (round53 n - n) <= Z.shiftl 1 (Z.log2 n - 52).
Proof.
  intros Hn. unfold round53. set (e := Z.log2 n - 52). destruct (e <=? 0) eqn:E.
  { rewrite Z.sub_diag. cbn. apply Z.shiftl_nonneg. lia. }
  apply Z.leb_gt in E. rewrite !Z.shiftl_mul_pow2, Z.shiftr_div_pow2 by lia.
  set (q := n / 2 ^ e). set (r := n - q * 2 ^ e).
  assert (Hp : 2 ^ e = 2 * 2 ^ (e - 1)) by (rewrite <- Z.pow_succ_r by lia; f_equal; lia).
  assert (Hpos : 0 < 2 ^ (e - 1)) by (apply Z.pow_pos_nonneg; lia).
  assert (Hr : 0 <= r < 2 ^ e).
  { unfold r, q. pose proof (Z.div_mod n (2 ^ e) ltac:(lia)). pose proof (Z.mod_pos_bound n (2 ^ e) ltac:(lia)). lia. }
  destruct ((1 * 2 ^ (e - 1) <? r) || ((r =? 1 * 2 ^ (e - 1)) && Z.odd q)) eqn:Eb; unfold r in *.
  - assert (2 ^ (e - 1) <= n - q * 2 ^ e) by (apply orb_true_iff in Eb as [Eb|Eb]; [lia|apply andb_true_iff in Eb as [Eb _]; lia]).
    lia.
  - apply orb_false_iff in Eb as [Eb _]. lia.
Qed.

(** It does not cross a multiple of the last place. *)
Lemma round53_lower n k j : 0 < n -> Z.log2 n - 52 <= j -> 0 <= j -> k * 2 ^ j <= n -> k * 2 ^ j <= round53 n.
Proof.
  intros Hn Hj Hj0 Hk. unfold round53. set (e := Z.log2 n - 52) in *. destruct (e <=? 0) eqn:E; [done|].
  apply Z.leb_gt in E. rewrite !Z.shiftl_mul_pow2, Z.shiftr_div_pow2 by lia.
  assert (Hp : 2 ^ j = 2 ^ (j - e) * 2 ^ e) by (rewrite <- Z.pow_add_r by lia; f_equal; lia).
  assert (Hq : k * 2 ^ (j - e) <= n / 2 ^ e) by (apply Z.div_le_lower_bound; [lia|]; rewrite Hp in Hk; lia).
  assert (0 < 2 ^ e) by (apply Z.pow_pos_nonneg; lia). rewrite Hp.
  destruct (_ || _); nia.
Qed.

Lemma round53_upper n b : 0 < n < 2 ^ b -> 54 <= b -> round53 n <= n + 2 ^ (b - 54).
Proof.
  intros [Hn Hb] H54. pose proof (round53_error n ltac:(lia)) as He. assert (Hl : Z.log2 n < b) by (by apply Z.log2_lt_pow2).
  assert (0 < 2 ^ (b - 54)) by (apply Z.pow_pos_nonneg; lia).
  destruct (Z.le_gt_cases (Z.log2 n) 52) as [Hs|Hs].
  - unfold round53. rewrite (proj2 (Z.leb_le _ _)) by lia. lia.
  - rewrite Z.shiftl_mul_pow2 in He by lia.
    assert (2 ^ (Z.log2 n - 52) <= 2 ^ (b - 53)) by (apply Z.pow_le_mono_r; lia).
    assert (2 ^ (b - 53) = 2 * 2 ^ (b - 54)) by (rewrite <- Z.pow_succ_r by lia; f_equal; lia). lia.
Qed.

(** The fraction of a second, a little over a billionth below one. *)
Lemma nano_fraction_bound ns :
  0 <= ns < 1000000000 -> 0 <= nano_fraction ns <= (1000000000 - 1) * scale / 1000000000 + 1 + 2 ^ 66.
Proof.
  intros Hns. destruct (decide (ns = 0)) as [->|Hne]; [split; vm_compute; discriminate|].
  assert (Hsc : scale = 1329227995784915872903807060280344576) by (vm_compute; reflexivity).
  unfold nano_fraction. set (q := ns * scale / 1000000000).
  assert (Hq : 0 < q <= (1000000000 - 1) * scale / 1000000000).
  { split; [apply Z.div_str_pos; lia|apply Z.div_le_mono; lia]. }
  assert (Hlor : q <= Z.lor q 1 <= q + 1).
  { pose proof (Z.add_lor_land q 1). pose proof (Z.land_ones q 1 ltac:(lia)) as Hl. change (Z.ones 1) with 1 in Hl.
    pose proof (Z.mod_pos_bound q (2 ^ 1) ltac:(lia)). change (2 ^ 1) with 2 in *. lia. }
  set (x := if _ =? _ then q else Z.lor q 1).
  assert (Hx : q <= x <= q + 1) by (unfold x; destruct (_ =? _); lia).
  assert (Hbits : (1000000000 - 1) * scale / 1000000000 + 1 < 2 ^ 120) by (vm_compute; reflexivity).
  pose proof (round53_upper x 120 ltac:(lia) ltac:(lia)) as Hu. change (120 - 54) with 66 in Hu.
  assert (Hz : 0 <= round53 x).
  { pose proof (round53_lower x 0 (Z.max 0 (Z.log2 x - 52)) ltac:(lia) ltac:(lia) ltac:(lia)) as Hl. lia. }
  lia.
Qed.

(** [int(d.Seconds())] drops the fraction, below 2^24 seconds. *)
Lemma seconds_exact d : 0 <= d < 2 ^ 24 * Second -> seconds d = d / Second.
Proof.
  intros Hd. assert (HS : Second = 1000000000) by reflexivity. assert (Hsc : scale = 2 ^ 120) by reflexivity.
  unfold seconds. rewrite Z.quot_div_nonneg, Z.rem_mod_nonneg by lia.
  set (k := d / Second). assert (Hk : 0 <= k < 2 ^ 24).
  { split; [apply Z.div_pos; lia|apply Z.div_lt_upper_bound; lia]. }
  pose proof (nano_fraction_bound (d mod Second) ltac:(apply Z.mod_pos_bound; lia)) as Hf.
  set (f := nano_fraction (d mod Second)) in *. rewrite Z.shiftr_div_pow2 by lia. rewrite Hsc in *.
  assert (Hgap : (1000000000 - 1) * 2 ^ 120 / 1000000000 + 1 + 2 ^ 66 + 2 ^ 90 < 2 ^ 120) by (vm_compute; reflexivity).
  assert (0 < 2 ^ 66 /\ 0 < 2 ^ 90) by (split; vm_compute; reflexivity).
  set (n := k * 2 ^ 120 + f) in *.
  destruct (decide (n = 0)) as [E|Hn].
  { assert (k = 0) as -> by nia. rewrite E. vm_compute. reflexivity. }
  assert (H144 : 2 ^ 24 * 2 ^ 120 = 2 ^ 144) by (vm_compute; reflexivity).
  assert (Hpos : 0 < n < 2 ^ 144) by nia.
  pose proof (round53_upper n 144 Hpos ltac:(lia)) as Hu. change (144 - 54) with 90 in Hu.
  assert (Hlg : Z.log2 n < 144) by (apply Z.log2_lt_pow2; lia).
  pose proof (round53_lower n k 120 ltac:(lia) ltac:(lia) ltac:(lia) ltac:(unfold n; lia)) as Hl.
  symmetry. set (m := round53 n) in *. apply Z.div_unique with (r := m - k * 2 ^ 120); [left|]; unfold n in *; lia.
Qed.
End rounding.

(** ** The handlers *)

Section session.
Context `{GoRuntime, HostTables, HtmlLib, !MultipartLib} {S : Type}.
Context `{!Backend S, !TagExtractor.t S, !AuthCore.Client S, !StorageService.t S}.
Context (w : wiring).
Import Handlers.

(** How long the cookie issued at [now] for a token that expires at [exp] is kept. *)
Definition kept_for (now : Time) (exp : option Time) : Z := Cookie.seconds (cookie_age w now exp).

(** The cookie of a token with at least a second to live, and fewer than
    2^24 of them, goes when the token does. *)
Lemma kept_until now exp :
  Second <= time_Sub exp now < 2 ^ 24 * Second ->
  kept_for now (Some exp) = time_Sub exp now / Second /\ 1 <= kept_for now (Some exp) /\
  kept_for now (Some exp) * Second <= time_Sub exp now.
Proof.
  intros Hr. assert (HS : Second = 1000000000) by reflexivity. unfold kept_for, cookie_age, minCookieMaxAge.
  rewrite (proj2 (Z.leb_le _ _)) by lia. rewrite seconds_exact by lia. split; [done|].
  pose proof (Z.div_mod (time_Sub exp now) Second ltac:(lia)).
  pose proof (Z.mod_pos_bound (time_Sub exp now) Second ltac:(lia)). nia.
Qed.

(** What [Issue] answers. *)
Lemma Issue_answers c r (s : S) tok :
  Auth.GetAccessTokenFromContext c = Some tok -> exists now, (Runtime.Now s).2 = Ok now /\
  (Issue w c r s).2 = Ok (mkResponse 204 NoBody (Some (Cookie.Build
    (session_attrs w tok (cookie_age w now (Auth.GetExpiresAtFromContext c)))))).
Proof.
  intros E. unfold Issue. rewrite E. unfold bind. destruct (Runtime_Now_ok s) as [t Ht]. injection Ht as Hv Hr.
  destruct (Runtime.Now s) as [s1 r1]. cbn in *. subst r1. by eexists.
Qed.
End session.
