(* ===== verification/AuthThms.v ===== *)
(** * What the account service's client makes of an answer

    [introspection] reads an answer the way RFC 7662 means it; [Introspect]
    and, over it, [AuthMiddleware] follow it. The client is an instance of
    the interface the rest of the server is proved against. *)

From S2P Require Import Prelude Errors Monad GoStrings Domain NetUrl Json OgpUrl OgpUrlThms.
From S2P Require Import Repository Backend PostUC PostThms UserUC AuthCache OgpHtml ImageUC Http AuthClient Handlers HttpThms.

Import AuthHTTP.

Local Open Scope string_scope.
Local Open Scope Z_scope.

(** What an answer says about a token. *)
Inductive verdict := Alive (sub : string) (exp : Z) (name : string) | Inactive | Unknown.

Definition introspection (x : res answer) : verdict :=
  match x with
  | Ok a =>
      if StatusCode a =? 200
      then match decode introspect_fields (mkIntrospect false "" 0 "") a with
           | Some out =>
               if Active out
               then if bool_decide (iSub out = "") then Unknown else Alive (iSub out) (EXP out) (Username out)
               else Inactive
           | None => Unknown
           end
      else Unknown
  | _ => Unknown
  end.

(** The session of a token that expires [exp] seconds after 1970, when that
    is positive, and never otherwise. *)
Definition lasts (exp : Z) (t : Time) : Prop :=
  (exp <= 0 -> t = time_zero) /\ (0 < exp < 2 ^ 62 -> t = (exp + 62135596800) * Second).

Definition is_session (sub : string) (exp : Z) (name : string) (ss : AuthCore.Session.t) : Prop :=
  AuthCore.Session.Sub ss = sub /\ AuthCore.Session.PublicID ss = name /\ lasts exp (AuthCore.Session.ExpiresAt ss).

Lemma session_of_spec out : is_session (iSub out) (EXP out) (Username out) (session_of out).
Proof.
  unfold is_session, session_of, lasts. cbn [AuthCore.Session.Sub AuthCore.Session.ExpiresAt AuthCore.Session.PublicID].
  split; [done|]. split; [done|]. destruct (Z.ltb_spec 0 (EXP out)); [|split; [done|lia]]. split; [lia|].
  intros [_ He]. unfold time_Unix, unix_epoch. rewrite wrap64_small; [done|]. unfold int64_min, int64_max. lia.
Qed.

Section client.
Context {S : Type} `{!Transport S} (c : HTTPClient).

Lemma upstream_unknown text :
  is_invalid_session (upstream text) = false /\ is_sentinel "authcore: upstream error" (upstream text) = true.
Proof. done. Qed.

Lemma check_status_spec status (s : S) :
  exists t, check_status status s = (s, if status =? 200 then Ok tt else Err (upstream t)).
Proof.
  unfold check_status, guard, bind, ret, fail. destruct (500 <=? status) eqn:E1; cbn.
  { eexists. destruct (status =? 200) eqn:E; [lia|done]. }
  destruct ((status =? 401) || (status =? 403)) eqn:E2; cbn.
  { eexists. destruct (status =? 200) eqn:E; [lia|done]. }
  eexists. by destruct (status =? 200).
Qed.

(** What [Introspect] answers is what the service said. *)
Lemma Introspect_verdict tok rq s :
  tok <> "" -> introspect_request c tok = inr rq -> no_panic (Do rq s).2 ->
  (Introspect c tok s).1 = (Do rq s).1 /\
  match introspection (Do rq s).2 with
  | Alive sub exp name => exists ss, is_session sub exp name ss /\ (Introspect c tok s).2 = Ok ss
  | Inactive => (Introspect c tok s).2 = Err AuthCore.ErrInvalidSession
  | Unknown => exists t, (Introspect c tok s).2 = Err (upstream t)
  end.
Proof.
  intros Htok Hrq Hnp. unfold Introspect, send, bind, guard, map_err, ret, fail, or_undecodable.
  rewrite Hrq, (bool_decide_eq_false_2 _ Htok).
  destruct (Do rq s) as [s1 [a|e|why]]; cbn [fst snd introspection]; [|split; [done|by eexists]|by destruct (Hnp why)].
  destruct (check_status_spec (StatusCode a) s1) as [t ->].
  destruct (StatusCode a =? 200); [|split; [done|by eexists]].
  unfold ret, fail. destruct (decode _ _ a) as [out|]; [|split; [done|by eexists]]. destruct (Active out); cbn [negb]; [|done].
  destruct (bool_decide (iSub out = "")); (split; [done|]); [by eexists|].
  eexists. split; [apply session_of_spec|done].
Qed.

Lemma alive_named x sub exp name : introspection x = Alive sub exp name -> sub <> "".
Proof.
  unfold introspection. destruct x as [a|e|why]; try done. destruct (_ =? _); [|done].
  destruct (decode _ _ a) as [out|]; [|done]. destruct (Active out); [|done]. case_bool_decide; [done|]. by intros [= <- _ _].
Qed.

(** Every byte of the token reaches the service. *)
Lemma introspect_form tok rq :
  introspect_request c tok = inr rq ->
  UrlText.ParseQuery (rBody rq) = Some {[ "token" := [tok] ]} /\
  rHeaders rq !! 0%nat = Some ("Authorization", basicAuth (clientID c) (clientSecret c)).
Proof.
  unfold introspect_request, NewRequest. destruct (URL.Parse _); [|done]. intros [= <-]. split; [|done].
  unfold form_Encode. cbn [rBody]. apply ParseQuery_encode.
  intros k vs [<- <-]%lookup_singleton_Some. done.
Qed.

(** The token call answers a token that can be used for some time. *)
Lemma IssueServiceToken_spec scope s tok ttl :
  (IssueServiceToken c scope s).2 = Ok (tok, ttl) -> tok <> "" /\ 0 < ttl.
Proof.
  unfold IssueServiceToken, bind. destruct (send "token" _ s) as [s1 [a|e|why]]; [|done..].
  destruct (check_status_spec (StatusCode a) s1) as [t Ht]. rewrite Ht.
  destruct (StatusCode a =? 200); [|done].
  unfold or_undecodable. destruct (decode _ _ a) as [out|]; [|done]. unfold ret, guard, fail.
  case_bool_decide as Hne; [done|]. intros E. injection E as <- <-. split; [done|]. unfold token_ttl. cbn zeta.
  cbn zeta. destruct (wrap64 _ <=? 0) eqn:El; [done|lia].
Qed.

(** ** Over the middleware *)

Context {V : Type}.

Definition with_session (tok : string) (ss : AuthCore.Session.t) (ctx : Auth.context) : Auth.context :=
  Auth.SetExpiresAtInContext (AuthCore.Session.ExpiresAt ss)
    (Auth.SetAccessTokenInContext tok (Auth.SetSubInContext (AuthCore.Session.Sub ss) ctx)).

(** What the middleware makes of the answer of any client. *)
Lemma AuthMiddleware_answer {T : Type} `{!AuthCore.Client T} cookieName (next : handler (S:=T) (V:=V)) ctx r w tok :
  extractAuthToken r cookieName = Some tok ->
  AuthMiddleware cookieName next ctx r w =
  match AuthCore.Introspect tok w with
  | (w', Ok ss) => next (with_session tok ss ctx) r w'
  | (w', Err e) => (w', Ok (if is_invalid_session e then writeAuthError 401 ErrUnauthorized "invalid session"
                            else writeAuthError 503 ErrExternalService "authentication backend unavailable"))
  | (w', Panic why) => (w', Panic why)
  end.
Proof.
  intros Hx. unfold AuthMiddleware. rewrite Hx. unfold bind, try.
  destruct (AuthCore.Introspect tok w) as [w' [ss|e|why]]; [done| |done]. by destruct (is_invalid_session e).
Qed.
End client.

(** ** The interface *)

Section interface.
Context `{GoRuntime} {S : Type} `{!Backend S, !Transport S} (c : HTTPClient).

(** Sending a request changes no table. *)
Definition quiet : Prop := forall rq d, vwp (S:=S) (Do rq) d (fun r d' => d' = d /\ no_panic r).

Lemma send_quiet what rq d : quiet -> vwp (S:=S) (send what rq) d (fun r d' => d' = d /\ no_panic r).
Proof.
  intros Hq. unfold send. destruct rq as [e|rq]; [by apply vwp_fail|]. apply vwp_map_err.
  eapply vwp_mono; [apply Hq|]. by intros [a|e|why] d' [-> Hnp].
Qed.

Ltac quiet_step :=
  lazymatch goal with
  | |- vwp (bind _ _) _ _ => apply vwp_bind
  | |- vwp (guard _ _) _ _ => apply vwp_guard; intros _
  | |- vwp (or_undecodable ?x) _ _ => unfold or_undecodable; destruct x
  | |- vwp (ret _) _ _ => apply vwp_ret
  | |- vwp (fail _) _ _ => apply vwp_fail
  | |- vwp (check_status _) _ _ => unfold check_status
  | |- vwp (send _ _) _ _ => eapply vwp_mono; [by apply send_quiet|intros [?|?|why] ? [-> Hnp]; [|by split|by destruct (Hnp why)]]
  end.

Lemma Introspect_quiet tok d : quiet -> vwp (S:=S) (Introspect c tok) d (fun r d' => d' = d /\ no_panic r).
Proof. intros Hq. unfold Introspect. repeat (quiet_step; try by split). Qed.

Lemma GetProfile_quiet tok d : quiet -> vwp (S:=S) (GetProfile c tok) d (fun r d' => d' = d /\ no_panic r).
Proof. intros Hq. unfold GetProfile. repeat (quiet_step; try by split). Qed.

(** What the rest of the server asks of the account service's client. *)
Lemma client_remote : quiet ->
  remote_client (S:=S) (H0:=client c) /\ @remote_session _ S _ (client c).
Proof. intros Hq. split; intros tok d; [by apply GetProfile_quiet|by apply Introspect_quiet]. Qed.
End interface.
