(* ===== verification/ConfigThms.v ===== *)
(** * What an accepted configuration guarantees, and the wiring made of it *)

From S2P Require Import Prelude Errors Monad GoStrings Cursor Domain NetUrl OgpUrl OgpUrlThms Json.
From S2P Require Import Repository Backend UserUC OgpHtml ImageUC PostUC Http AuthClient Config Handlers SessionThms.
From Stdlib Require Import Ascii.

Local Open Scope string_scope.
Local Open Scope Z_scope.

(** ** The wiring of main.go *)

Definition wiring_of (c : Config) (mode : Cookie.SameSite) : wiring :=
  mkWiring (AuthCoreProfileTTL c)
    (mkSession (SessionCookieName c) (SessionCookieSecure c) mode (SessionCookieDomain c) "/" (SessionCookieFallbackMaxAge c))
    (CORSAllowedOrigins c) (R2Enabled c).

Definition authcore_options (c : Config) : AuthHTTP.Options :=
  AuthHTTP.mkOptions (AuthCoreBaseURL c) (AuthCoreClientID c) (AuthCoreClientSecret c) (AuthCoreIntrospectPath c)
    (AuthCoreProfilePath c).

(** ** The rules *)

(** All set or all empty. *)
Definition all_or_none (l : list string) : Prop := (forall s, s ∈ l -> s = "") \/ (forall s, s ∈ l -> s <> "").

Record valid (c : Config) : Prop := {
  valid_backend : repoBackendRaw c ∈ [""; RepoBackendInMemory; RepoBackendPostgres];
  valid_database : RepoBackend c = RepoBackendPostgres ->
    (DatabaseURL c <> "" /\ is_postgres_url (DatabaseURL c) = true) \/
    (DatabaseURL c = "" /\ DBHost c <> "" /\ DBName c <> "" /\ DBUser c <> "" /\ DBPassword c <> "");
  valid_authcore : AuthCoreBaseURL c <> "" /\ AuthCoreClientID c <> "" /\ AuthCoreClientSecret c <> "";
  valid_same_site : SessionCookieSameSite c ∈ ["Lax"; "Strict"; "None"];
  valid_secure : SessionCookieSecure c = false -> Environment c = "development" /\ SessionCookieSameSite c <> "None";
  valid_fallback : 0 < SessionCookieFallbackMaxAge c;
  valid_fuju : FujuModelBaseURL c = "" <-> FujuModelTenantID c = "";
  valid_r2 : all_or_none (snd <$> r2_fields c);
}.

Lemma required_spec when fields : required when fields = None <-> forall f, f ∈ fields -> f.2 <> "".
Proof.
  unfold required. destruct (List.find _ fields) as [f|] eqn:E; cbn.
  - apply List.find_some in E as [Hin Hf]. to_prop. split; [done|]. intros Hall. by destruct (Hall f); [apply list_elem_of_In|].
  - split; [|done]. intros _ f Hin. apply list_elem_of_In in Hin. apply (List.find_none _ _ E) in Hin. by to_prop.
Qed.

Lemma list_filter_nil {A} (f : A -> bool) l : List.filter f l = [] <-> forall x, x ∈ l -> f x = false.
Proof.
  induction l as [|a l IH]; cbn; [split; [intros _ x ?%elem_of_nil|]; done|].
  destruct (f a) eqn:E.
  - split; [done|]. intros Hall. specialize (Hall a ltac:(by left)). congruence.
  - rewrite IH. split; intros Hall x.
    + intros [->|Hx]%elem_of_cons; auto.
    + intros Hx. apply Hall. by right.
Qed.

Lemma validateR2_spec c : validateR2 c = None <-> all_or_none (snd <$> r2_fields c).
Proof.
  unfold validateR2, all_or_none.
  transitivity (List.filter (fun f => negb (bool_decide (f.2 = ""))) (r2_fields c) = [] \/
                List.filter (fun f => bool_decide (f.2 = "")) (r2_fields c) = []).
  { destruct (bool_decide _ || bool_decide _) eqn:E; split; try done.
    - apply orb_true_iff in E as [E|E]; apply bool_decide_eq_true in E; auto.
    - apply orb_false_iff in E as [E1 E2]. apply bool_decide_eq_false in E1, E2. tauto. }
  rewrite !list_filter_nil. apply Morphisms_Prop.or_iff_morphism; split; intros Hall.
  - intros s (f & -> & Hf)%list_elem_of_fmap. specialize (Hall f Hf). by to_prop.
  - intros f Hf. rewrite (Hall f.2); [done|]. by apply list_elem_of_fmap_2.
  - intros s (f & -> & Hf)%list_elem_of_fmap. specialize (Hall f Hf). by to_prop.
  - intros f Hf. apply bool_decide_eq_false, Hall. by apply list_elem_of_fmap_2.
Qed.

Lemma validate_backend_spec c : validate_backend c = None <->
  repoBackendRaw c ∈ [""; RepoBackendInMemory; RepoBackendPostgres] /\
  (RepoBackend c = RepoBackendPostgres ->
    (DatabaseURL c <> "" /\ is_postgres_url (DatabaseURL c) = true) \/
    (DatabaseURL c = "" /\ DBHost c <> "" /\ DBName c <> "" /\ DBUser c <> "" /\ DBPassword c <> "")).
Proof.
  unfold validate_backend. case_bool_decide as Hraw; cbn [negb]; [|by split; [|intros [? _]]].
  case_bool_decide as Hpg; [|by split]. case_bool_decide as Hurl; cbn [negb].
  - rewrite required_spec. split.
    + intros Hall. split; [done|]. intros _. right. split; [done|].
      split_and!; [apply (Hall ("DB_HOST", DBHost c))|apply (Hall ("DB_NAME", DBName c))|apply (Hall ("DB_USER", DBUser c))|
        apply (Hall ("DB_PASSWORD", DBPassword c))]; set_solver.
    + intros [_ Hdb]. destruct (Hdb Hpg) as [[? _]|(_ & ? & ? & ? & ?)]; [done|].
      intros f Hf. repeat (apply elem_of_cons in Hf as [->|Hf]; [done|]). by apply elem_of_nil in Hf.
  - destruct (is_postgres_url _) eqn:E; split; try done; [intros _; auto|]. intros [_ Hdb].
    by destruct (Hdb Hpg) as [[_ ?]|[? _]].
Qed.

Lemma validate_cookie_spec c :
  match validate_cookie c with
  | inr mode => same_site_mode (SessionCookieSameSite c) = Some mode /\
      (SessionCookieSecure c = false -> Environment c = "development" /\ SessionCookieSameSite c <> "None") /\
      0 < SessionCookieFallbackMaxAge c
  | inl _ => ~ (is_Some (same_site_mode (SessionCookieSameSite c)) /\
      (SessionCookieSecure c = false -> Environment c = "development" /\ SessionCookieSameSite c <> "None") /\
      0 < SessionCookieFallbackMaxAge c)
  end.
Proof.
  unfold validate_cookie. destruct (same_site_mode _) as [mode|]; [|by intros ([? ?] & _)].
  destruct (bool_decide (SessionCookieSameSite c = "None") && negb (SessionCookieSecure c)) eqn:E1.
  { to_prop. intros (_ & Hs & _). by destruct Hs. }
  destruct (negb (SessionCookieSecure c) && negb (bool_decide (Environment c = "development"))) eqn:E2.
  { to_prop. intros (_ & Hs & _). by destruct Hs. }
  destruct (SessionCookieFallbackMaxAge c <=? 0) eqn:E3; [intros (_ & _ & ?); lia|].
  split; [done|]. split; [|lia]. intros Hsec. rewrite Hsec in *. rewrite andb_true_r in E1. cbn in E2. by to_prop.
Qed.

Lemma same_site_known s : is_Some (same_site_mode s) <-> s ∈ ["Lax"; "Strict"; "None"].
Proof.
  unfold same_site_mode. do 3 (case_bool_decide as Hs; [subst; split; [set_solver|by eexists]|]; revert Hs).
  intros. split; [by intros [? ?]|set_solver].
Qed.

Lemma none_mode s mode : same_site_mode s = Some mode -> mode = Cookie.SameSiteNoneMode -> s = "None".
Proof. unfold same_site_mode. repeat case_bool_decide; try done; by intros [= <-]. Qed.

(** A configuration is accepted exactly when it satisfies the rules, and the
    mode of the cookie is the one it names. *)
Lemma Validate_spec c :
  match Validate c with
  | inr mode => valid c /\ same_site_mode (SessionCookieSameSite c) = Some mode
  | inl _ => ~ valid c
  end.
Proof.
  unfold Validate. destruct (validate_backend c) as [e|] eqn:Eb.
  { intros [? ? _ _ _ _ _ _]. assert (validate_backend c = None) by by apply validate_backend_spec. congruence. }
  apply validate_backend_spec in Eb as [Hb Hdb]. destruct (required _ _) as [e|] eqn:Ea.
  { intros Hv. match type of Ea with ?l = _ => assert (l = None) end; [|congruence]. apply required_spec. intros f Hf.
    destruct (valid_authcore _ Hv) as (? & ? & ?).
    repeat (apply elem_of_cons in Hf as [->|Hf]; [done|]). by apply elem_of_nil in Hf. }
  rewrite required_spec in Ea. pose proof (validate_cookie_spec c) as Hck. destruct (validate_cookie c) as [e|mode].
  { intros Hv. apply Hck. split_and!; [by apply same_site_known, Hv|apply Hv|apply Hv]. }
  destruct (xorb _ _) eqn:Ex.
  { intros Hv. pose proof (valid_fuju _ Hv). revert Ex. repeat case_bool_decide; cbn; try done; tauto. }
  destruct (validateR2 c) as [e|] eqn:Er.
  { intros Hv. assert (validateR2 c = None) by by apply validateR2_spec, Hv. congruence. }
  apply validateR2_spec in Er. destruct Hck as (Hm & Hsec & Hfb). split; [|done]. split; try done.
  - split_and!; [apply (Ea ("AUTHCORE_BASE_URL", AuthCoreBaseURL c))|apply (Ea ("AUTHCORE_CLIENT_ID", AuthCoreClientID c))|
      apply (Ea ("AUTHCORE_CLIENT_SECRET", AuthCoreClientSecret c))]; set_solver.
  - apply same_site_known. by eexists.
  - revert Ex. repeat case_bool_decide; cbn; try done; tauto.
Qed.

(** The image routes exist exactly when all five settings are there. *)
Lemma R2Enabled_spec c : R2Enabled c = true <-> forall s, s ∈ snd <$> r2_fields c -> s <> "".
Proof.
  unfold R2Enabled. rewrite !andb_true_iff, !negb_true_iff, !bool_decide_eq_false. cbn. split.
  - intros [[[[? ?] ?] ?] ?] s Hs. repeat (apply elem_of_cons in Hs as [->|Hs]; [done|]). by apply elem_of_nil in Hs.
  - intros Hall. split_and!; apply Hall; set_solver.
Qed.
