(* ===== verification/Boot.v ===== *)
(** * [cmd/server/main.go]: starting and stopping

    [Boot] is what main does before it serves: it builds the server from its
    configuration, or exits. [Lifecycle] is what follows, as a step relation:
    the listener, the requests being served, the two background loops, the
    signal, and the teardown. Log lines are left out here; an exit is told by
    the text on standard error. An accepted configuration can only fail to
    start for a reason outside the program; the background loops end before
    the database is closed, and after the signal main finishes. *)

From S2P Require Import Prelude Errors Monad GoStrings Domain Repository Backend NetUrl UserUC OgpUrl Dispatcher Http.
From S2P Require Import AuthClient FujuClient Config Handlers ConfigThms.

From Stdlib Require Import Ascii.

Local Open Scope string_scope.
Local Open Scope Z_scope.

(** ** [pkg/db/pgx.go], [NewR2Service] and [main] up to the handlers *)

Module Boot.

(** A [pgxpool.Config], as far as the code touches it. *)
Record pool_config := mkPool { pMaxConns : Z; pMinConns : Z; pDSN : string }.

(** pgxpool and the AWS SDK. *)
Class Drivers := {
  ParseConfig : string -> goerror + pool_config;
  NewWithConfig : pool_config -> option goerror;
  Ping : pool_config -> option goerror;
  LoadDefaultConfig : option goerror;
}.

Section boot.
Context `{Drivers}.

Definition set_max (n : Z) (p : pool_config) : pool_config := if 0 <? n then mkPool n (pMinConns p) (pDSN p) else p.
Definition set_min (n : Z) (p : pool_config) : pool_config := if 0 <? n then mkPool (pMaxConns p) n (pDSN p) else p.

(** [db.NewPool] *)
Definition NewPool (c : Config) : goerror + pool_config :=
  let dsn := DSN c in
  if bool_decide (dsn = "") then inl (ErrorString "db: empty DSN")
  else
    match ParseConfig dsn with
    | inl err => inl (Wrapped "db: parse DSN: " err "")
    | inr poolCfg =>
        let poolCfg := set_min (MinConns c) (set_max (MaxConns c) poolCfg) in
        match NewWithConfig poolCfg with
        | Some err => inl (Wrapped "db: create pool: " err "")
        | None =>
            match Ping poolCfg with
            | Some err => inl (Wrapped "db: ping: " err "")
            | None => inr poolCfg
            end
        end
    end.

(** Which repositories [newRepositorySet] hands out. *)
Inductive backend := OnPostgres (pool : pool_config) | InMemory.

Definition newRepositorySet (c : Config) : goerror + backend :=
  if bool_decide (RepoBackend c = RepoBackendPostgres) then
    match NewPool c with
    | inl err => inl (Wrapped "init postgres pool: " err "")
    | inr pool => inr (OnPostgres pool)
    end
  else if bool_decide (RepoBackend c = RepoBackendInMemory) then inr InMemory
  else inl (ErrorString ("unknown repository backend: " +:+ String "034"%char (RepoBackend c +:+ String "034"%char ""))).

(** The [Options] of the dispatcher, and the values [NewDispatcher] settles on. *)
Record dispatcher := mkDispatcher {
  dBatchSize : Z; dFlushInterval : Duration; dSendTimeout : Duration; dQueueCapacity : Z;
}.

Definition NewDispatcher (hasSender hasLog : bool) (batch : Z) (flush send : Duration) (capacity : Z) : goerror + dispatcher :=
  if negb hasSender then inl (ErrorString "fuju: dispatcher needs a Sender")
  else if negb hasLog then inl (ErrorString "fuju: dispatcher needs a Logger")
  else inr (mkDispatcher (Dispatcher.batch_size batch) (if flush <=? 0 then 5 * Second else flush)
              (if send <=? 0 then 5 * Second else send) (Dispatcher.queue_capacity batch capacity)).

Definition fuju_options (c : Config) : FujuModel.Options :=
  FujuModel.mkOptions (FujuModelBaseURL c) (FujuModelTenantID c) true (FujuModelScope c).

Definition new_fuju (c : Config) : (string * goerror) + option (FujuModel.Client * dispatcher) :=
  if FujuModelEnabled c then
    match FujuModel.New (fuju_options c) with
    | inl err => inl ("Failed to construct fuju client: ", err)
    | inr client =>
        match NewDispatcher true true (FujuModelBatchSize c) (FujuModelFlushInterval c) (FujuModelSendTimeout c)
                (FujuModelQueueCapacity c) with
        | inl err => inl ("Failed to construct fuju dispatcher: ", err)
        | inr d => inr (Some (client, d))
        end
    end
  else inr None.

(** [storage.NewR2Service]; its configuration is never nil. *)
Definition NewR2Service (c : Config) : option goerror :=
  if negb (R2Enabled c) then Some (InvalidRequest "R2 configuration incomplete" None)
  else (fun err => AppError ErrExternalService "failed to load AWS config" 500 (Some err)) <$> LoadDefaultConfig.

(** The object store, when the configuration asks for it. *)
Definition open_images (c : Config) : option goerror := if R2Enabled c then NewR2Service c else None.

Record server := mkServer {
  sBackend : backend; sAuthCore : AuthHTTP.HTTPClient; sWiring : Handlers.wiring;
  sFuju : option (FujuModel.Client * dispatcher); sAddr : string;
}.

(** [main] until it serves; an error is what is printed before [os.Exit(1)]. *)
Definition boot (env : environment) : (string * goerror) + server :=
  match Load env with
  | inl err => inl ("Failed to load configuration: ", err)
  | inr (c, mode) =>
      match newRepositorySet c with
      | inl err => inl ("Failed to initialize repositories: ", err)
      | inr repos =>
          match new_fuju c with
          | inl failure => inl failure
          | inr fuju =>
              (* [wiring_of] serves images exactly when R2 is configured *)
              match open_images c with
              | Some err => inl ("Failed to initialize R2 service: ", err)
              | None => inr (mkServer repos (AuthHTTP.New (authcore_options c)) (wiring_of c mode) fuju
                               (":" +:+ pretty (ServerPort c)))
              end
          end
      end
  end.
End boot.
End Boot.

(** ** Serving and shutting down *)

Module Lifecycle.

(** Where [main] is: before the signal, in [server.Shutdown], about to
    cancel, in [workerWG.Wait], in the deferred clean-up, gone. *)
Inductive main_pc := Serving | Draining | Cancelling | Waiting | CleaningUp | Exited.

Inductive listener := Binding | Listening | BindFailed | ShutDown.

(** The OGP worker: at a test of [ctx.Err()], in [queue.Claim] or asleep after
    it, with a claimed job, or returned. *)
Inductive worker_pc := WorkerIdle | WorkerClaiming | WorkerBusy | WorkerGone.

Record state := mkState {
  main : main_pc;
  http : listener;
  inflight : nat;        (* requests being served *)
  cancelled : bool;      (* the background context *)
  worker : worker_pc;
  bridge : Dispatcher.mode;   (* the fuju dispatcher; [Stopped] when there is none *)
  waitgroup : nat;
  pool_open : bool;
  overran : bool;        (* ghost: [Shutdown] gave up on requests *)
}.

Definition start (fuju : bool) : state :=
  mkState Serving Binding 0 false WorkerIdle (if fuju then Dispatcher.Running else Dispatcher.Stopped)
    (if fuju then 2 else 1) true false.

Inductive step : state -> state -> Prop :=
  (* the goroutine of ListenAndServe *)
  | bind_ok m n c w b g p o : step (mkState m Binding n c w b g p o) (mkState m Listening n c w b g p o)
  | bind_failed m n c w b g p o : step (mkState m Binding n c w b g p o) (mkState m BindFailed n c w b g p o)
  | accept m n c w b g p o : step (mkState m Listening n c w b g p o) (mkState m Listening (S n) c w b g p o)
  | answer m h n c w b g p o : m <> Exited -> step (mkState m h (S n) c w b g p o) (mkState m h n c w b g p o)
  (* the worker: the test of [ctx.Err()], [runOnce] *)
  | not_cancelled m h n b g p o : step (mkState m h n false WorkerIdle b g p o) (mkState m h n false WorkerClaiming b g p o)
  | claimed m h n c b g p o : step (mkState m h n c WorkerClaiming b g p o) (mkState m h n c WorkerBusy b g p o)
  | no_job m h n c b g p o : step (mkState m h n c WorkerClaiming b g p o) (mkState m h n c WorkerIdle b g p o)
  | done_job m h n c b g p o : step (mkState m h n c WorkerBusy b g p o) (mkState m h n c WorkerIdle b g p o)
  | worker_stops m h n b g p o :
      step (mkState m h n true WorkerIdle b (S g) p o) (mkState m h n true WorkerGone b g p o)
  (* the dispatcher: its own steps are in [Dispatcher]; here, its end *)
  | bridge_cancelled m h n w g p o :
      step (mkState m h n true w Dispatcher.Running g p o) (mkState m h n true w Dispatcher.DrainContents g p o)
  | bridge_contents m h n w g p o :
      step (mkState m h n true w Dispatcher.DrainContents g p o) (mkState m h n true w Dispatcher.DrainEvents g p o)
  | bridge_stops m h n w g p o :
      step (mkState m h n true w Dispatcher.DrainEvents (S g) p o) (mkState m h n true w Dispatcher.Stopped g p o)
  (* main *)
  | signal h n c w b g p o : step (mkState Serving h n c w b g p o) (mkState Draining ShutDown n c w b g p o)
  | drained h c w b g p o : step (mkState Draining h 0 c w b g p o) (mkState Cancelling h 0 c w b g p o)
  | shutdown_error h n c w b g p o : step (mkState Draining h (S n) c w b g p o) (mkState Cancelling h (S n) c w b g p true)
  | cancelBackground h n c w b g p o : step (mkState Cancelling h n c w b g p o) (mkState Waiting h n true w b g p o)
  | wait h n c w b p o : step (mkState Waiting h n c w b 0 p o) (mkState CleaningUp h n c w b 0 p o)
  | cleanupRepos h n c w b g p o : step (mkState CleaningUp h n c w b g p o) (mkState Exited h n c w b g false o).

Inductive reachable (fuju : bool) : state -> Prop :=
  | reach_start : reachable fuju (start fuju)
  | reach_step s s' : reachable fuju s -> step s s' -> reachable fuju s'.

(** Every run from here reaches the exit, however the steps interleave. *)
Inductive always_exits : state -> Prop :=
  | has_exited s : main s = Exited -> always_exits s
  | goes_on s : (exists s', step s s') -> (forall s', step s s' -> always_exits s') -> always_exits s.
End Lifecycle.

Section boot.
Context `{Boot.Drivers}.

(** The driver accepts the address of the database, and opens and pings a
    pool of the sizes of the configuration, where it has one, and of the
    driver otherwise. *)
Definition database_up (c : Config) (pool : Boot.pool_config) : Prop :=
  exists parsed, Boot.ParseConfig (DSN c) = inr parsed /\
    Boot.pDSN pool = Boot.pDSN parsed /\
    Boot.pMaxConns pool = (if bool_decide (0 < MaxConns c) then MaxConns c else Boot.pMaxConns parsed) /\
    Boot.pMinConns pool = (if bool_decide (0 < MinConns c) then MinConns c else Boot.pMinConns parsed) /\
    Boot.NewWithConfig pool = None /\ Boot.Ping pool = None.

(** The database and the object store, as far as a configuration needs them. *)
Definition outside_up (c : Config) : Prop :=
  (RepoBackend c = RepoBackendPostgres -> exists pool, database_up c pool) /\
  (R2Enabled c = true -> Boot.LoadDefaultConfig = None).

(** The address is never empty: without one in the environment it is built
    from its parts, and begins with its scheme. *)
Lemma DSN_nonempty c : DSN c <> "".
Proof.
  unfold DSN. case_bool_decide as E; [|done]. unfold UrlText.String_.
  cbn [URL.Scheme URL.Opaque URL.User]. intros Hs. by destruct (_ +:+ _) eqn:E2 in Hs.
Qed.

Lemma NewPool_spec c pool : Boot.NewPool c = inr pool <-> database_up c pool.
Proof.
  unfold Boot.NewPool, database_up. rewrite bool_decide_eq_false_2 by apply DSN_nonempty.
  destruct (Boot.ParseConfig (DSN c)) as [err|parsed]; [by split; [|intros (? & ? & _)]|].
  set (p := Boot.set_min _ _).
  assert (Hp : p = Boot.mkPool (if bool_decide (0 < MaxConns c) then MaxConns c else Boot.pMaxConns parsed)
    (if bool_decide (0 < MinConns c) then MinConns c else Boot.pMinConns parsed) (Boot.pDSN parsed)).
  { subst p. unfold Boot.set_min, Boot.set_max. destruct parsed. cbn.
    destruct (Z.ltb_spec 0 (MaxConns c)), (Z.ltb_spec 0 (MinConns c)); cbn; repeat case_bool_decide; done || lia. }
  clearbody p. split.
  - destruct (Boot.NewWithConfig p) eqn:En; [done|]. destruct (Boot.Ping p) eqn:Ep; [done|].
    intros [= <-]. exists parsed. by subst p.
  - intros (q & [= <-] & H1 & H2 & H3 & Hn & Hpi).
    assert (p = pool) as ->. { subst p. destruct pool. cbn in *. by subst. } by rewrite Hn, Hpi.
Qed.

Lemma RepoBackend_known c : RepoBackend c = RepoBackendPostgres \/ RepoBackend c = RepoBackendInMemory.
Proof.
  unfold RepoBackend. destruct (_ || _) eqn:E.
  - apply orb_true_iff in E as [E|E]; to_prop; auto.
  - clear E. case_bool_decide; auto.
Qed.

Lemma newRepositorySet_spec c :
  Boot.newRepositorySet c =
    if bool_decide (RepoBackend c = RepoBackendPostgres)
    then match Boot.NewPool c with
         | inl err => inl (Wrapped "init postgres pool: " err "")
         | inr pool => inr (Boot.OnPostgres pool)
         end
    else inr Boot.InMemory.
Proof.
  unfold Boot.newRepositorySet. case_bool_decide as E; [done|].
  rewrite bool_decide_eq_true_2; [done|]. by destruct (RepoBackend_known c).
Qed.

(** The checks of the two constructors never fail here. *)
Lemma new_fuju_spec c : exists x, Boot.new_fuju c = inr x /\ (is_Some x <-> FujuModelEnabled c = true) /\
  forall client d, x = Some (client, d) ->
    FujuModel.tenantID client = FujuModelTenantID c /\ FujuModel.scope client = FujuModelScope c /\
    0 < Boot.dBatchSize d /\ 0 < Boot.dFlushInterval d /\ 0 < Boot.dSendTimeout d.
Proof.
  unfold Boot.new_fuju, FujuModel.New, Boot.fuju_options, Boot.NewDispatcher.
  destruct (FujuModelEnabled c) eqn:E; [|exists None; split; [done|]; split; [by split; [intros [? ?]|]|done]].
  unfold FujuModelEnabled in E. apply andb_true_iff in E as [Hb Ht]. to_prop.
  cbn [FujuModel.BaseURL FujuModel.TenantID FujuModel.Tokens FujuModel.Scope negb].
  rewrite !bool_decide_eq_false_2 by done. eexists. split; [done|]. split; [by split; [|eexists]|].
  intros client d [= <- <-]. cbn. split; [done|]. split; [done|]. unfold Dispatcher.batch_size, Second.
  repeat case_match; lia.
Qed.

(** What [main] starts with. *)
Lemma boot_spec env c mode : Load env = inr (c, mode) ->
  match Boot.boot env with
  | inl _ => ~ outside_up c
  | inr sv => outside_up c /\ Boot.sWiring sv = wiring_of c mode /\
      Boot.sAuthCore sv = AuthHTTP.New (authcore_options c) /\
      (is_Some (Boot.sFuju sv) <-> FujuModelEnabled c = true) /\
      (Boot.sBackend sv = Boot.InMemory <-> RepoBackend c = RepoBackendInMemory) /\
      (forall pool, Boot.sBackend sv = Boot.OnPostgres pool -> database_up c pool)
  end.
Proof.
  intros HL. unfold Boot.boot. rewrite HL, newRepositorySet_spec. destruct (new_fuju_spec c) as (x & -> & Hx & _).
  assert (Hr2 : Boot.open_images c = None <-> (R2Enabled c = true -> Boot.LoadDefaultConfig = None)).
  { unfold Boot.open_images, Boot.NewR2Service. destruct (R2Enabled c); [|by split]. cbn. destruct Boot.LoadDefaultConfig; cbn; [|by split].
    split; [done|]. intros Hn. by specialize (Hn eq_refl). }
  case_bool_decide as Hp.
  - destruct (Boot.NewPool c) as [err|pool] eqn:Ep.
    { intros [Hdb _]. destruct (Hdb Hp) as [pool Hpool%NewPool_spec]. congruence. }
    apply NewPool_spec in Ep.
    destruct (Boot.open_images c) eqn:Er; [intros [_ Hs]; apply Hr2 in Hs; congruence|].
    split; [split; [by eauto|by apply Hr2]|]. split_and!; try done; cbn; [|by intros ? [= <-]].
    split; [done|]. by rewrite Hp.
  - destruct (Boot.open_images c) eqn:Er; [intros [_ Hs]; apply Hr2 in Hs; congruence|].
    split; [split; [done|by apply Hr2]|]. split_and!; try done; cbn. split; [|done]. by destruct (RepoBackend_known c).
Qed.
End boot.

(** ** The lifecycle *)

Module LifecycleThms.
Import Lifecycle.

Definition alive (s : state) : nat :=
  (match worker s with WorkerGone => 0 | _ => 1 end + match bridge s with Dispatcher.Stopped => 0 | _ => 1 end)%nat.

(** After [workerWG.Wait]. *)
Definition past_wait (m : main_pc) : Prop := m = CleaningUp \/ m = Exited.

Record lifecycle_inv (s : state) : Prop := {
  counted : waitgroup s = alive s;
  waited : past_wait (main s) -> waitgroup s = 0%nat;
  closed_last : pool_open s = false <-> main s = Exited;
  listener_shut : main s <> Serving <-> http s = ShutDown;
  cancelled_when : cancelled s = true <-> main s = Waiting \/ past_wait (main s);
  no_requests : main s <> Serving -> main s <> Draining -> overran s = false -> inflight s = 0%nat;
  unbound : http s = BindFailed \/ http s = Binding -> inflight s = 0%nat;
}.

Lemma life_start fuju : lifecycle_inv (start fuju).
Proof. destruct fuju; split; cbn; unfold past_wait; naive_solver. Qed.

Lemma life_step s s' : step s s' -> lifecycle_inv s -> lifecycle_inv s'.
Proof.
  intros Hs [Hc Hw Hcl Hl Hca Hn Hu]. destruct Hs; split; unfold past_wait, alive in *; cbn in *; intuition (congruence || lia || eauto).
Qed.

Lemma reachable_life fuju s : reachable fuju s -> lifecycle_inv s.
Proof. induction 1 as [|s s' _ IH Hs]; [apply life_start|by eapply life_step]. Qed.

(** *** Main can finish *)

Definition finishes (s : state) : Prop := exists s', rtc step s s' /\ main s' = Exited.

Lemma step_finishes s s' : step s s' -> finishes s' -> finishes s.
Proof. intros Hs (t & Ht & He). exists t. split; [by eapply rtc_l|done]. Qed.

Lemma always_finishes s : always_exits s -> finishes s.
Proof.
  induction 1 as [s He|s [s' Hs] _ IH]; [by exists s; split; [apply rtc_refl|]|]. by eapply step_finishes, IH.
Qed.

(** What is left to do once the context is cancelled. *)
Definition left_to_do (s : state) : nat :=
  (match main s with Waiting => 2 | CleaningUp => 1 | _ => 0 end + inflight s +
   match worker s with WorkerClaiming => 3 | WorkerBusy => 2 | WorkerIdle => 1 | WorkerGone => 0 end +
   match bridge s with Dispatcher.Running => 3 | Dispatcher.DrainContents => 2 | Dispatcher.DrainEvents => 1
   | Dispatcher.Stopped => 0 end)%nat.

Lemma cancelled_step s s' : lifecycle_inv s -> cancelled s = true -> step s s' ->
  cancelled s' = true /\ (left_to_do s' < left_to_do s)%nat.
Proof.
  intros [_ _ _ Hl Hca _ _] Hc Hs. unfold left_to_do, past_wait in *.
  destruct Hs; cbn in *; intuition (congruence || lia).
Qed.

(** Until main is gone, somebody can move. *)
Lemma cancelled_moves s : lifecycle_inv s -> cancelled s = true -> main s <> Exited -> exists s', step s s'.
Proof.
  destruct s as [m h n c w b g p o]. intros [Hc Hw _ _ Hca _ _] Hcc Hm. unfold alive, past_wait in *. cbn in *. subst c.
  destruct m; try (exfalso; intuition congruence); [|eexists; apply cleanupRepos].
  destruct w; [rewrite Hc; eexists; apply worker_stops|eexists; apply no_job|eexists; apply done_job|].
  destruct b; rewrite Hc; eexists; [apply bridge_cancelled|apply bridge_contents|apply bridge_stops|apply wait].
Qed.

Lemma cancelled_exits s : lifecycle_inv s -> cancelled s = true -> always_exits s.
Proof.
  induction s as [s IH] using (well_founded_induction (Wf_nat.well_founded_ltof _ left_to_do)). intros Hi Hc.
  destruct (main s) eqn:E; try (apply goes_on; [apply cancelled_moves; [done..|congruence]|]; intros s' Hs;
    destruct (cancelled_step s s' Hi Hc Hs) as [Hc' Hlt]; by apply IH; [|eapply life_step|]).
  by apply has_exited.
Qed.

Lemma after_signal_finishes s : lifecycle_inv s -> main s <> Serving -> finishes s.
Proof.
  intros Hi Hm.
  assert (Hcancel : forall h n c w b g p o, lifecycle_inv (mkState Cancelling h n c w b g p o) ->
    finishes (mkState Cancelling h n c w b g p o)).
  { intros h n c w b g p o Hj. pose proof (cancelBackground h n c w b g p o) as Hs. eapply step_finishes; [exact Hs|].
    apply always_finishes, cancelled_exits; [by eapply life_step|done]. }
  destruct (cancelled s) eqn:Hc; [by apply always_finishes, cancelled_exits|].
  pose proof (cancelled_when _ Hi) as Hca. unfold past_wait in Hca. destruct s as [[] h n c w b g p o]; cbn in *; try done; try (exfalso; intuition congruence).
  - destruct n as [|n].
    + pose proof (drained h c w b g p o) as Hs. eapply step_finishes; [exact Hs|]. by eapply Hcancel, life_step.
    + pose proof (shutdown_error h n c w b g p o) as Hs. eapply step_finishes; [exact Hs|]. by eapply Hcancel, life_step.
  - by apply Hcancel.
Qed.

(** A server that could not bind its port goes on without one. *)
Lemma bind_failure_stays fuju s : reachable fuju s -> http s = BindFailed ->
  main s = Serving /\ inflight s = 0%nat /\
  forall s', rtc step s s' -> main s' = Serving -> http s' = BindFailed /\ inflight s' = 0%nat.
Proof.
  intros Hr Hb. pose proof (reachable_life _ _ Hr) as Hi.
  assert (Hm : main s = Serving).
  { destruct (main s) eqn:E; [done|..]; assert (http s = ShutDown) by (apply (listener_shut _ Hi); by rewrite E); congruence. }
  split_and!; [done|apply (unbound _ Hi); by left|]. intros s' Hs Hm'.
  assert (Hgen : lifecycle_inv s' /\ (http s' = BindFailed \/ http s' = ShutDown)).
  { assert (Hb' : http s = BindFailed \/ http s = ShutDown) by by left. clear Hr Hb Hm Hm'.
    induction Hs as [s|s t u Hst _ IH]; [done|]. apply IH; [by eapply life_step|]. destruct Hst; cbn in *; naive_solver. }
  destruct Hgen as [Hi' [Hb'|Hb']]; [|by apply (listener_shut _ Hi') in Hb'].
  split; [done|]. apply (unbound _ Hi'). by left.
Qed.

(** Closing the database is the last thing that happens. *)
Lemma closed_pool s : lifecycle_inv s -> pool_open s = false ->
  main s = Exited /\ worker s = WorkerGone /\ bridge s = Dispatcher.Stopped /\ (overran s = false -> inflight s = 0%nat).
Proof.
  intros [Hc Hw Hcl _ _ Hn _] Hp. assert (Hm : main s = Exited) by by apply Hcl. rewrite Hm in *.
  rewrite Hw in Hc by (by right). unfold alive in Hc. split; [done|].
  split; [by destruct (worker s)|]. split; [by destruct (worker s), (bridge s)|]. by apply Hn.
Qed.
End LifecycleThms.
