(* ===== verification/DsnThms.v ===== *)
(** * The connection string of the settings

    [DSN] writes the settings as a URL; [url.Parse] reads back every one of
    them, whatever bytes the user name, the password and the database name
    are made of. *)

From S2P Require Import Prelude Errors GoStrings Cursor Domain NetUrl OgpUrl OgpUrlThms Http Config.
From Stdlib Require Import Ascii.

Local Open Scope string_scope.
Local Open Scope Z_scope.

(** ** Escaping for paths and user names *)

Definition url_text_byte (c : Z) : bool := (is_alpha c || is_num c || one_of "-_.~$&+,/:;=@%" c).
Definition user_byte (c : Z) : bool := is_alpha c || is_num c || one_of "-_.~$&+,;=%" c.

Definition plain_byte (mode : encoding) (c : Z) : bool :=
  match mode with encodePath => url_text_byte c | _ => user_byte c end.

Definition roundtrips (mode : encoding) : Prop := mode = encodePath \/ mode = encodeUserPassword.

Lemma escape_ascii mode a t : roundtrips mode ->
  all_bytes (plain_byte mode) (escape mode (String a "")) = true /\
  escape mode (String a t) = escape mode (String a "") +:+ escape mode t /\
  unescape mode (escape mode (String a "") +:+ t) = String a <$> unescape mode t.
Proof. intros [-> | ->]; destruct a as [[] [] [] [] [] [] [] []]; repeat split; reflexivity. Qed.

Lemma escape_bytes mode s : roundtrips mode -> all_bytes (plain_byte mode) (escape mode s) = true.
Proof.
  intros Hm. induction s as [|a s IH]; [done|]. destruct (escape_ascii mode a s Hm) as (Hb & -> & _).
  by rewrite all_bytes_app, Hb, IH.
Qed.

Lemma unescape_escape mode s : roundtrips mode -> unescape mode (escape mode s) = Some s.
Proof.
  intros Hm. induction s as [|a s IH]; [done|]. destruct (escape_ascii mode a s Hm) as (_ & -> & _).
  destruct (escape_ascii mode a (escape mode s) Hm) as (_ & _ & ->). by rewrite IH.
Qed.

(** ** Finding separators *)

Lemma free_of_impl f sep s :
  f (code sep) = false -> all_bytes f s = true -> free_of sep s = true.
Proof.
  intros Hf. unfold free_of. apply all_bytes_impl. intros c Hc. apply negb_true_iff, Z.eqb_neq. intros ->. congruence.
Qed.

Lemma LastIndex_free sep s : free_of sep s = true -> LastIndex sep s = None.
Proof.
  induction s as [|a s IH]; [done|]. cbn. intros [Ha Hs]%andb_true_iff. rewrite IH by done.
  by rewrite (proj1 (negb_true_iff _) Ha).
Qed.

Lemma LastIndex_app sep s t : free_of sep t = true -> LastIndex sep (s +:+ String sep t) = Some (String.length s).
Proof.
  intros Ht. induction s as [|a s IH].
  - change ("" +:+ String sep t) with (String sep t). cbn. rewrite LastIndex_free by done. by rewrite Z.eqb_refl.
  - rewrite app_String. cbn. by rewrite IH.
Qed.

Lemma IndexByte_free_app sep s t : free_of sep s = true -> IndexByte sep (s +:+ String sep t) = Some (String.length s).
Proof.
  induction s as [|a s IH]; intros Hs.
  - change ("" +:+ String sep t) with (String sep t). cbn. by rewrite Z.eqb_refl.
  - rewrite app_String. cbn in Hs |- *. apply andb_true_iff in Hs as [Ha%negb_true_iff Hs]. by rewrite Ha, IH.
Qed.

Lemma Count_app sep s t : Count sep (s +:+ t) = (Count sep s + Count sep t)%nat.
Proof. induction s as [|a s IH]; [done|]. rewrite app_String. cbn. rewrite IH. by destruct (code a =? code sep). Qed.

Lemma HasPrefix_head (a b : ascii) s : HasPrefix (String a s) (String b "") = (code a =? code b).
Proof. destruct s; cbn; apply andb_true_r. Qed.

(** ** The DSN *)

(** A host name or an IPv4 address. *)
Definition host_byte (c : Z) : bool := is_alpha c || is_num c || one_of ".-_" c.

Lemma host_text_escape s : all_bytes (fun c => host_byte c || (c =? 58)) s = true ->
  escape encodeHost s = s /\ unescape encodeHost s = Some s.
Proof.
  induction s as [|a s IH]; [done|]. cbn [all_bytes]. intros [Ha Hs]%andb_true_iff. destruct (IH Hs) as [He Hu].
  cbn [escape unescape]. rewrite He, Hu. clear -Ha. destruct a as [[] [] [] [] [] [] [] []]; try discriminate Ha; split; reflexivity.
Qed.

(** The byte of every character written out. *)
Ltac code_values :=
  repeat match goal with
  | |- context [code ?a] => is_ground a; let v := eval vm_compute in (code a) in change (code a) with v
  end.

Section dsn.
Context (user password host db : string) (port : Z).
Hypothesis Hhost : all_bytes host_byte host = true.
Hypothesis Hport : 0 <= port.

Let hostport : string := host +:+ ":" +:+ pretty port.
Let ui : string := escape encodeUserPassword user +:+ ":" +:+ escape encodeUserPassword password.
Let authority : string := ui +:+ "@" +:+ hostport.
Let path : string := escape encodePath ("/" +:+ db).

Let u : URL.t := URL.mk "postgres" "" (Some (user, Some password)) hostport ("/" +:+ db) "" false false "sslmode=disable" "" "".

Lemma hostport_bytes : all_bytes (fun c => host_byte c || (c =? 58)) hostport = true.
Proof.
  unfold hostport. rewrite all_bytes_app. change (":" +:+ pretty port) with (String ":" (pretty port)). cbn [all_bytes].
  rewrite !andb_true_iff. split_and!; [|reflexivity|].
  - eapply all_bytes_impl; [|exact Hhost]. by intros c ->.
  - eapply all_bytes_impl; [|by apply port_digits]. intros c Hc. unfold host_byte. by rewrite Hc, !orb_true_r.
Qed.

Lemma path_slash : path = String "/" (escape encodePath db).
Proof. done. Qed.

Lemma nonempty_String a s : UrlText.nonempty (String a s) = true.
Proof. unfold UrlText.nonempty. by rewrite bool_decide_eq_false_2. Qed.

Lemma hostport_nonempty : UrlText.nonempty hostport = true.
Proof. unfold hostport. by destruct host; apply nonempty_String. Qed.

Lemma dsn_path : UrlText.EscapedPath u = path.
Proof.
  unfold UrlText.EscapedPath, u. cbn [URL.RawPath URL.Path]. unfold UrlText.escaped.
  rewrite (bool_decide_eq_true_2 ("" = "")), bool_decide_eq_false_2 by done. reflexivity.
Qed.

Lemma dsn_text : UrlText.String_ u = "postgres://" +:+ authority +:+ path +:+ "?sslmode=disable".
Proof.
  unfold UrlText.String_. rewrite dsn_path. unfold u.
  cbn [URL.Scheme URL.Opaque URL.User URL.Host URL.Path URL.OmitHost URL.ForceQuery URL.RawQuery URL.Fragment UrlText.is_Some_b].
  rewrite hostport_nonempty, path_slash. change (UrlText.nonempty "postgres") with true. change (UrlText.nonempty "") with false.
  change (UrlText.nonempty "sslmode=disable") with true. cbn [andb orb negb].
  rewrite nonempty_String, (proj1 (host_text_escape _ hostport_bytes)). rewrite HasPrefix_head, Z.eqb_refl. cbn [andb negb].
  assert (Hne : forall t, UrlText.nonempty (("postgres" +:+ ":") +:+ t) = true) by (intros t; exact (nonempty_String "p" _)).
  rewrite Hne. cbn [negb andb]. change ("" +:+ ?t) with t. unfold authority, ui. cbn [UrlText.Userinfo_String].
  rewrite !string_app_empty_r, <-!string_app_assoc. reflexivity.
Qed.

(** *** The bytes of its parts *)

Lemma user_text_bytes s : all_bytes user_byte (escape encodeUserPassword s) = true.
Proof. apply (escape_bytes encodeUserPassword). by right. Qed.

Lemma path_text_bytes : all_bytes url_text_byte path = true.
Proof. apply (escape_bytes encodePath). by left. Qed.

Lemma hostport_free sep : host_byte (code sep) || (code sep =? 58) = false -> free_of sep hostport = true.
Proof. intros Hs. eapply free_of_impl; [|exact hostport_bytes]. exact Hs. Qed.

Definition info_byte (c : Z) : bool := user_byte c || (c =? 58).

Lemma ui_bytes : all_bytes info_byte ui = true.
Proof.
  assert (Hu : forall s, all_bytes info_byte (escape encodeUserPassword s) = true).
  { intros s. eapply all_bytes_impl; [|apply user_text_bytes]. unfold info_byte. by intros c ->. }
  unfold ui. rewrite all_bytes_app, Hu. change (":" +:+ ?t) with (String ":" t). cbn [all_bytes]. by rewrite Hu.
Qed.

Lemma authority_free sep :
  info_byte (code sep) = false -> host_byte (code sep) = false -> (code sep =? 64) = false -> free_of sep authority = true.
Proof.
  intros Hi Hh Ha. unfold authority, free_of. rewrite all_bytes_app. change ("@" +:+ ?t) with (String "@" t). cbn [all_bytes].
  fold (free_of sep ui) (free_of sep hostport). rewrite !andb_true_iff. split_and!.
  - eapply free_of_impl; [exact Hi|exact ui_bytes].
  - apply negb_true_iff. rewrite Z.eqb_sym. exact Ha.
  - apply hostport_free. unfold info_byte in Hi. apply orb_false_iff in Hi as [_ Hi]. by rewrite Hh, Hi.
Qed.

Lemma path_free sep : url_text_byte (code sep) = false -> free_of sep path = true.
Proof. intros Hs. eapply free_of_impl; [exact Hs|exact path_text_bytes]. Qed.

Lemma free_of_app sep s t : free_of sep (s +:+ t) = free_of sep s && free_of sep t.
Proof. apply all_bytes_app. Qed.

(** *** Reading it back *)

Lemma parse_hostport : URL.parseHost hostport = Some hostport.
Proof.
  unfold URL.parseHost. assert (HasPrefix hostport "[" = false) as ->.
  { pose proof hostport_bytes as Hb. destruct hostport as [|a s]; [done|]. rewrite HasPrefix_head. cbn in Hb.
    apply andb_true_iff in Hb as [Ha _]. apply Z.eqb_neq. intros E. by rewrite E in Ha. }
  pose proof (host_text_escape _ hostport_bytes) as [_ Hu].
  assert (Hl : LastIndex ":" hostport = Some (String.length host)).
  { apply LastIndex_app. eapply free_of_impl; [|by apply port_digits]. reflexivity. }
  rewrite Hl. assert (string_drop (String.length host) hostport = String ":" (pretty port)) as -> by apply string_drop_app.
  cbn [URL.validOptionalPort]. rewrite port_digits by done. exact Hu.
Qed.

Lemma drop_S_app s a t : string_drop (S (String.length s)) (s +:+ String a t) = t.
Proof.
  induction s as [|b s IH]; [done|]. exact IH.
Qed.

Lemma parse_authority : URL.parseAuthority authority = Some (Some (user, Some password), hostport).
Proof.
  unfold URL.parseAuthority. change authority with (ui +:+ String "@" hostport).
  rewrite LastIndex_app by by apply hostport_free. rewrite drop_S_app, parse_hostport, string_take_app. cbn [mbind option_bind].
  assert (URL.validUserinfo ui = true) as ->.
  { eapply all_bytes_impl; [|exact ui_bytes]. intros c. unfold info_byte, user_byte. cbn [one_of].
    code_values. rewrite (Z.eqb_sym c 58), !orb_true_iff. tauto. }
  assert (Hfree : forall s, free_of ":" (escape encodeUserPassword s) = true).
  { intros s. eapply free_of_impl; [|apply user_text_bytes]. reflexivity. }
  assert (Contains ":" ui = true) as ->.
  { unfold Contains, ui. rewrite Count_app. change (":" +:+ ?t) with (String ":" t). cbn [Count].
    rewrite Z.eqb_refl. apply negb_true_iff, Nat.eqb_neq. lia. }
  cbn [negb]. unfold ui. change (":" +:+ ?t) with (String ":" t). rewrite Cut_app by apply Hfree.
  rewrite !unescape_escape by by right. reflexivity.
Qed.

Lemma parse_path : URL.set_component encodePath path = Some ("/" +:+ db, "").
Proof.
  unfold URL.set_component, path. rewrite unescape_escape by by left. cbn [mbind option_bind].
  by rewrite bool_decide_eq_true_2.
Qed.
Lemma Count_free sep s : free_of sep s = true -> Count sep s = 0%nat.
Proof.
  intros Hf%Contains_free. unfold Contains in Hf. by apply negb_false_iff, Nat.eqb_eq in Hf.
Qed.

Let body : string := "//" +:+ authority +:+ path.

Lemma body_free sep :
  (47 =? code sep) = false -> info_byte (code sep) = false -> host_byte (code sep) = false -> (code sep =? 64) = false ->
  url_text_byte (code sep) = false -> free_of sep body = true.
Proof.
  intros H47 Hi Hh Ha Hu. unfold body. change ("//" +:+ ?t) with (String "/" (String "/" t)). unfold free_of. cbn [all_bytes].
  change (code "/") with 47. rewrite H47. cbn [negb andb]. fold (free_of sep (authority +:+ path)).
  by rewrite free_of_app, authority_free, path_free.
Qed.

Lemma dsn_split : "postgres://" +:+ authority +:+ path +:+ "?sslmode=disable" = "postgres:" +:+ body +:+ String "?" "sslmode=disable".
Proof. unfold body. by rewrite <-!string_app_assoc. Qed.

(** No control characters. *)
Lemma dsn_printable : URL.stringContainsCTLByte ("postgres:" +:+ body +:+ String "?" "sslmode=disable") = false.
Proof.
  apply negb_false_iff. rewrite !all_bytes_app. rewrite !andb_true_iff. split; [reflexivity|]. split; [|reflexivity].
  unfold body. change ("//" +:+ ?t) with (String "/" (String "/" t)). cbn [all_bytes].
  rewrite !andb_true_iff. split; [by split|]. split; [by split|]. rewrite all_bytes_app.
  assert (Hp : forall c, url_text_byte c || (c =? 58) = true -> ((32 <=? c) && negb (c =? 127)) = true).
  { intros c. unfold url_text_byte, is_alpha, is_num, between. cbn [one_of]. code_values. lia. }
  rewrite !andb_true_iff. split.
  - unfold authority. rewrite all_bytes_app. change ("@" +:+ ?t) with (String "@" t). cbn [all_bytes]. rewrite !andb_true_iff.
    split; [|split; [by split|]].
    + eapply all_bytes_impl; [|exact ui_bytes]. intros c Hc. apply Hp. revert Hc. unfold info_byte, user_byte, url_text_byte.
      cbn [one_of]. code_values. rewrite !orb_true_iff. tauto.
    + eapply all_bytes_impl; [|exact hostport_bytes]. intros c Hc. apply Hp. revert Hc. unfold host_byte, url_text_byte.
      cbn [one_of]. code_values. rewrite !orb_true_iff. tauto.
  - eapply all_bytes_impl; [|exact path_text_bytes]. intros c Hc. apply Hp. by rewrite Hc.
Qed.

Lemma parse_dsn : URL.parse ("postgres:" +:+ body +:+ String "?" "sslmode=disable") = Some u.
Proof.
  unfold URL.parse. rewrite dsn_printable, bool_decide_eq_false_2 by done.
  assert (URL.getScheme ("postgres:" +:+ body +:+ String "?" "sslmode=disable")
          = Some ("postgres", body +:+ String "?" "sslmode=disable")) as -> by reflexivity.
  cbn [mbind option_bind]. change (ToLower "postgres") with "postgres".
  assert (Hq : free_of "?" body = true) by (apply body_free; reflexivity).
  rewrite Count_app, (Count_free _ _ Hq), LastIndex_app, length_append by reflexivity.
  rewrite (bool_decide_eq_false_2 (Some _ = _)) by (cbn [String.length]; intros [= E]; lia).
  rewrite andb_false_r, Cut_app by done.
  assert (HasPrefix body "/" = true) as -> by (unfold body; change ("//" +:+ ?t) with (String "/" (String "/" t)); rewrite HasPrefix_head; reflexivity).
  cbn [negb andb]. rewrite (bool_decide_eq_false_2 ("postgres" = "")) by done. cbn [negb orb andb].
  assert (HasPrefix body "//" = true) as -> by apply (HasPrefix_app "//").
  assert (string_drop 2 body = authority +:+ String "/" (escape encodePath db)) as -> by reflexivity.
  rewrite IndexByte_free_app by (apply authority_free; reflexivity).
  rewrite string_take_app, string_drop_app, parse_authority. cbn [mbind option_bind].
  rewrite <-path_slash, parse_path. reflexivity.
Qed.

Lemma parse_back : URL.Parse (UrlText.String_ u) = Some u.
Proof.
  rewrite dsn_text, dsn_split. unfold URL.Parse. rewrite Cut_free.
  - rewrite parse_dsn. cbn [mbind option_bind]. by rewrite bool_decide_eq_true_2.
  - rewrite !free_of_app. rewrite body_free by reflexivity. reflexivity.
Qed.
End dsn.

Lemma DSN_parses c :
  DatabaseURL c = "" -> all_bytes host_byte (DBHost c) = true -> 0 <= DBPort c ->
  exists u, URL.Parse (DSN c) = Some u /\ URL.Scheme u = "postgres" /\ URL.User u = Some (DBUser c, Some (DBPassword c)) /\
    URL.Host u = DBHost c +:+ ":" +:+ pretty (DBPort c) /\ URL.Path u = "/" +:+ DBName c /\ URL.RawQuery u = "sslmode=disable".
Proof.
  intros Hu Hh Hp. unfold DSN. rewrite bool_decide_eq_true_2 by done.
  eexists. split; [by apply parse_back|]. done.
Qed.
