(* ===== verification/Demo.v ===== *)
(** * A server to evaluate

    Concrete collaborators for the in-memory backend, and the database they
    and a handful of requests produce: the concrete input of the witnesses. *)

From S2P Require Import Prelude Errors Monad GoStrings Domain.
From S2P Require Import MemUsers MemPosts MemTags MemBadges MemFollows MemOGP Repository Backend.
From S2P Require Import PostUC PostInv PostThms BadgeUC FollowUC UserUC OgpUrl OgpHtml OgpUC WorkerThms ImageUC Server Contracts.

Local Open Scope string_scope.

(** Every text is tagged "go". *)
Definition demo_extractor : TagExtractor.t World := {| TagExtractor.Extract _ := ret ["go"] |}.

(** The account service knows everybody by their token. *)
Definition demo_auth : AuthCore.Client World := {|
  AuthCore.Introspect tok := ret (AuthCore.Session.mk tok 9999 tok);
  AuthCore.GetProfile tok := ret (AuthCore.Profile.mk tok tok "https://img.example/a.png" "a@example.com");
|}.

Definition demo_objects : R2.ObjectStore World := {|
  R2.PutObject _ _ _ _ := ret tt;
  R2.DeleteObject _ _ := fail (ErrorString "no such key");
|}.

Definition demo_storage : StorageService.t World :=
  R2.R2Service (H0 := demo_objects) "bucket" "https://cdn.example".

(** One page for every address but those of a host that times out. *)
Definition demo_http : Fetcher.HttpClient World := {|
  Fetcher.Do rq :=
    if NetUrl.HasPrefix (Fetcher.req_url rq) "https://slow.example"
    then fail (Wrapped "Get: " Fetcher.DeadlineExceeded "")
    else ret (Fetcher.mkResponse 200 "text/html; charset=utf-8" (mkReader "<html>" None) None);
|}.

Definition demo_page : node :=
  Node OtherNode "" [] [Node ElementNode "html" [] [
    Node ElementNode "meta" [("name", "twitter:title"); ("content", "card")] [];
    Node ElementNode "meta" [("property", "og:title"); ("content", " Hello ")] [];
    Node ElementNode "title" [] [Node TextNode "page" [] []];
    Node ElementNode "meta" [("property", "og:image"); ("content", "/i.png")] []]].

Definition demo_html : HtmlLib := {| html_Parse _ := inr demo_page |}.

#[export] Existing Instance demo_extractor.
#[export] Existing Instance demo_auth.
#[export] Existing Instance demo_storage.
#[export] Existing Instance demo_http.
#[export] Existing Instance demo_html.
#[export] Existing Instance ascii_tables.

Lemma demo_collaborators : collaborators (S := World).
Proof.
  split; [|split; [|split; [split|]]].
  - intros c d. by apply vwp_ret.
  - intros tok d. by apply vwp_ret.
  - intros rq d s <-. cbn. by exists (Datatypes.S (ulids (db s))); split; [lia|].
  - intros k d s <-. done.
  - intros rq d. cbn. destruct (NetUrl.HasPrefix _ _); [by apply vwp_fail|by apply vwp_ret].
Qed.

Lemma demo_extractor_up : extractor_up (S := World).
Proof. intros c d. apply vwp_ret. split; [done|]. by eexists. Qed.

Lemma demo_storage_up : storage_up (S := World).
Proof. intros rq d s <-. by eexists. Qed.

(** ** The demo run *)

Definition serve (rs : list request) (w : World) : World :=
  foldl (fun w r => (handle 0 None r w).1) w rs.

Definition post_id (n : nat) : string := ulid_seq n.

Definition demo_requests : list request := [
  SignIn "alice" "alice"; SignIn "bob" "bob";
  CreatePost "bob" (Some (CreatePostRequest.mk "hello #go" [] None));
  LikePost "alice" (post_id 1); FollowUser "alice" "bob"
].

Definition demo_start : World := mkWorld 0 empty_DB.
Definition demo_world : World := serve demo_requests demo_start.
Definition demo_db : DB := db demo_world.

(** Serving from a reachable state stays reachable while the tables are small. *)
Definition smallb (d : DB) : bool :=
  (Z.of_nat (size (likes d)) <? int64_max)%Z && (Z.of_nat (size (posts d)) <? int64_max)%Z &&
  (Z.of_nat (size (follows d)) <? int64_max)%Z && (Z.of_nat (size (users d)) <=? int64_max - 100)%Z.

Lemma smallb_small d : smallb d = true -> small d.
Proof. unfold smallb, small, bounded, few_follows. lia. Qed.

Fixpoint small_run (rs : list request) (w : World) : bool :=
  match rs with
  | [] => true
  | r :: rs => smallb (db w) && small_run rs (handle 0 None r w).1
  end.

Lemma serve_reachable rs : forall w,
  reachable 0 None w -> small_run rs w = true -> reachable 0 None (serve rs w).
Proof.
  induction rs as [|r rs IH]; intros w Hw; cbn; [done|]. intros [Hs Hrs]%andb_true_iff. apply IH; [|done].
  apply served; [done|]. by apply smallb_small.
Qed.

Lemma demo_small_run : small_run demo_requests demo_start = true.
Proof. vm_compute. reflexivity. Qed.

Lemma demo_reachable : reachable 0 None demo_world.
Proof. unfold demo_world. exact (serve_reachable demo_requests demo_start (started 0 None demo_start eq_refl) demo_small_run). Qed.

Lemma demo_inv : server_inv demo_db.
Proof. unfold demo_db. exact (reachable_inv 0 None eq_refl demo_collaborators demo_world demo_reachable). Qed.

Lemma demo_small : small demo_db.
Proof. apply smallb_small. vm_compute. reflexivity. Qed.
