(* ===== verification/PostProps.v ===== *)
(** * Properties: the server and its posts

    The theorems about the whole server and about the post use cases, each
    with a witness on the database of [Demo]. *)

From S2P Require Import Prelude Errors Monad Domain Feeds Paging.
From S2P Require Import MemUsers MemPosts MemLikes MemTags MemFollows Repository Backend.
From S2P Require Import PostUC PostInv PostThms BadgeUC FollowUC UserUC OgpUrl OgpHtml OgpUC WorkerThms ImageUC Server.
From S2P Require Import HydrateThms Contracts Demo.

Local Open Scope string_scope.

(** ** The server *)

Section server.
Context `{GoRuntime, !UniqueULIDs, !CivilClock, !HostTables, !HtmlLib} {S : Type}.
Context `{!Backend S, !TagExtractor.t S, !AuthCore.Client S, !StorageService.t S, !Fetcher.HttpClient S}.
Context (ttl : Duration) (opts : option Fetcher.options).

(** C1. Whatever requests a server that started on an empty store has
    served, and in whatever order, its tables are consistent: a live post's
    likes_count and replies_count are the numbers of its likers and of its
    live replies, its root_post_id is the root of its thread, its images
    belong to its author; a user's followers_count is the number of
    followers; badge keys are unique; no preview job has been tried more
    than three times. And it answers the next request, whichever that is,
    without panicking, in a state that is consistent again. *)
Theorem server_invariant s :
  faults S = false -> collaborators (S:=S) -> reachable (S:=S) ttl opts s ->
  server_inv (view s) /\
  forall r, small (view s) -> no_panic (handle ttl opts r s).2 /\ server_inv (view (handle ttl opts r s).1).
Proof.
  intros Hf Hc Hr. split; [exact (reachable_inv ttl opts Hf Hc s Hr)|]. intros r Hs.
  by apply (handle_inv ttl opts Hf Hc r (view s) (reachable_inv ttl opts Hf Hc s Hr) Hs s).
Qed.
End server.

Lemma server_invariant_witness :
  server_inv (view demo_world) /\ no_panic (handle 0 None (LikePost "bob" (post_id 1)) demo_world).2.
Proof.
  split.
  - exact (proj1 (server_invariant 0 None demo_world eq_refl demo_collaborators demo_reachable)).
  - exact (proj1 (proj2 (server_invariant 0 None demo_world eq_refl demo_collaborators demo_reachable)
      (LikePost "bob" (post_id 1)) demo_small)).
Defined.

(** ** Posts *)

Section posts.
Context `{GoRuntime, !UniqueULIDs} {S : Type} `{!Backend S, !TagExtractor.t S}.

(** C7. Like refuses an anonymous caller, an empty id and a post that is
    not there or deleted, and changes nothing then. Otherwise it succeeds and
    adds this like and no other, once, however often it is called. Unlike
    refuses an anonymous caller and an empty id; otherwise it succeeds and
    takes away this like and no other, whether or not it was there. After
    either, the counters equal the number of likers. *)
Theorem like_contract hook u p d :
  faults S = false -> like_hook_ok (S:=S) hook -> post_inv d -> bounded d ->
  vwp (S:=S) (PostUC.Like hook u p) d (fun r d' =>
    verdict r = like_verdict u p d /\ no_panic r /\ post_inv d' /\
    (is_Some (like_verdict u p d) -> d' = d) /\
    (like_verdict u p d = None -> r = Ok tt /\
       forall v q, Likes.liked (likes d') v q <-> (v = u /\ q = p) \/ Likes.liked (likes d) v q)) /\
  vwp (S:=S) (PostUC.Unlike u p) d (fun r d' =>
    verdict r = unlike_verdict u p /\ no_panic r /\ post_inv d' /\
    (is_Some (unlike_verdict u p) -> d' = d) /\
    (unlike_verdict u p = None -> r = Ok tt /\
       forall v q, Likes.liked (likes d') v q <-> Likes.liked (likes d) v q /\ ~ (v = u /\ q = p))).
Proof.
  intros Hf Hh Hinv Hb. split.
  - eapply vwp_mono; [exact (answers_and _ _ _ _ (Like_answers Hf _ _ _ _ Hh) (Like_spec hook u p d Hh Hinv Hb))|].
    intros r d' (Hv & Hd & Hok & Hnp & Hset & Hlike). split_and!; try done; [by apply Hset; left|].
    intros E. destruct (Hok E) as [[] ->]. split; [done|]. by apply Hlike.
  - eapply vwp_mono; [exact (answers_and _ _ _ _ (Unlike_answers Hf _ _ _) (Unlike_spec u p d Hinv))|].
    intros r d' (Hv & Hd & Hok & Hnp & Hset & Hlike). split_and!; try done; [by apply Hset; left|].
    intros E. destruct (Hok E) as [[] ->]. split; [done|]. by apply Hlike.
Qed.

(** C8. Create refuses an anonymous caller, a missing or invalid request, a
    parent that is not there, and an image that is not there or not the
    author's, with the first of these that applies, and changes nothing
    then. Otherwise it adds one row under a fresh id, with the author and
    the text of the request, the root of its parent's thread, both counts at
    zero, and the images of the request in order, all of them the author's;
    no like is stored or lost, no other post changes but the parent, and of
    the parent only the reply count. *)
Theorem create_post_contract hook userSub req d :
  faults S = false -> extractor_up (S:=S) -> post_hook_ok (S:=S) hook -> post_inv d -> bounded d ->
  vwp (S:=S) (PostUC.Create hook userSub req) d (fun r d' =>
    verdict r = create_verdict userSub req d /\ no_panic r /\ post_inv d' /\
    (is_Some (create_verdict userSub req d) -> d' = d) /\
    (create_verdict userSub req d = None -> exists det, r = Ok det /\ created_ok userSub req d det d')).
Proof.
  intros Hf Hx Hh Hinv Hb.
  assert (Hp : pure_extractor (S:=S)).
  { intros c e. eapply vwp_mono; [apply Hx|]. by intros r e' [-> [names ->]]. }
  eapply vwp_mono; [exact (answers_and _ _ _ _ (Create_answers Hf _ _ _ _ Hh Hx Hinv) (CreatePost_spec hook userSub req d Hh Hp Hinv Hb))|].
  intros r d' (Hv & Hd & Hok & Hnp & Hset & Hcr). split_and!; try done; [by apply Hset; left|].
  intros E. destruct (Hok E) as [det ->]. exists det. split; [done|]. by apply Hcr.
Qed.

(** C9. Delete refuses an anonymous caller, a post that is not there and a
    post of someone else, and changes nothing then. Otherwise the post is
    gone for every reader, and the reply count of its parent still equals
    the number of its live replies. *)
Theorem delete_post_contract p u d :
  faults S = false -> post_inv d ->
  vwp (S:=S) (PostUC.Delete p u) d (fun r d' =>
    verdict r = delete_verdict p u d /\ no_panic r /\ post_inv d' /\
    (is_Some (delete_verdict p u d) -> d' = d) /\
    (delete_verdict p u d = None -> r = Ok tt /\ Posts.GetByID p (posts d') = None)).
Proof.
  intros Hf Hinv. eapply vwp_mono; [exact (answers_and _ _ _ _ (Delete_answers Hf _ _ _) (DeletePost_spec p u d Hinv))|].
  intros r d' (Hv & Hd & Hok & Hnp & Hset & Hdel & _). split_and!; try done; [by apply Hset; left|].
  intros E. destruct (Hok E) as [[] ->]. split; [done|]. by apply Hdel.
Qed.

(** C10. On a backend whose calls may fail at any point, none of the four
    writes panics, and one that starts from consistent tables and reports
    success leaves the counters, the threads and the attachments consistent:
    a write cut short by a failing call is reported as an error. *)
Theorem post_writes_settle like_hook post_hook u p req d :
  like_hook_ok (S:=S) like_hook -> post_hook_ok (S:=S) post_hook -> pure_extractor (S:=S) -> post_inv d -> bounded d ->
  let settles {A} (m : M S A) := vwp (S:=S) m d (fun r d' => no_panic r /\ forall a, r = Ok a -> post_inv d') in
  settles (PostUC.Like like_hook u p) /\ settles (PostUC.Unlike u p) /\
  settles (PostUC.Delete p u) /\ settles (PostUC.Create post_hook u req).
Proof.
  intros Hl Hp Hx Hinv Hb settles.
  assert (Hs : forall A (m : M S A) (Q : res A -> DB -> Prop),
    vwp m d (fun r d' => no_panic r /\ (settled S r -> post_inv d') /\ Q r d') -> settles A m).
  { intros A m Q Hm. eapply vwp_mono; [exact Hm|]. intros r d' (Hnp & Hset & _). split; [done|].
    intros a ->. apply Hset. right. by exists a. }
  split_and!; eapply Hs; [by apply Like_spec|by apply Unlike_spec|by apply DeletePost_spec|by apply CreatePost_spec].
Qed.
End posts.

(** Witnesses: bob's post of [Demo], liked by alice. *)

Lemma no_like_hook : like_hook_ok (S:=World) None.
Proof. by intros h u p. Qed.

Lemma no_post_hook : post_hook_ok (S:=World) None.
Proof. by intros h p. Qed.

Lemma demo_posts : post_inv demo_db.
Proof. apply demo_inv. Qed.

Lemma demo_bounded : bounded demo_db.
Proof. apply demo_small. Qed.

Lemma like_contract_witness :
  vwp (S:=World) (PostUC.Like None "bob" (post_id 1)) demo_db (fun r d' =>
    r = Ok tt /\ Likes.liked (likes d') "bob" (post_id 1)) /\
  vwp (S:=World) (PostUC.Unlike "alice" (post_id 1)) demo_db (fun r d' =>
    r = Ok tt /\ ~ Likes.liked (likes d') "alice" (post_id 1)).
Proof.
  split.
  - eapply vwp_mono; [exact (proj1 (like_contract (S:=World) None "bob" (post_id 1) demo_db eq_refl no_like_hook demo_posts demo_bounded))|].
    intros r d' (_ & _ & _ & _ & Hok). destruct Hok as [-> Hl]; [vm_compute; reflexivity|].
    split; [reflexivity|]. apply Hl. left. split; reflexivity.
  - eapply vwp_mono; [exact (proj2 (like_contract (S:=World) None "alice" (post_id 1) demo_db eq_refl no_like_hook demo_posts demo_bounded))|].
    intros r d' (_ & _ & _ & _ & Hok). destruct Hok as [-> Hl]; [vm_compute; reflexivity|].
    split; [reflexivity|]. intros Hx. apply Hl in Hx as [_ Hn]. apply Hn. split; reflexivity.
Defined.

Definition demo_reply : CreatePostRequest.t := CreatePostRequest.mk "hi bob" [] (Some (post_id 1)).

Lemma create_post_contract_witness : vwp (S:=World) (PostUC.Create None "alice" (Some demo_reply)) demo_db (fun r d' =>
  exists det, r = Ok det /\ Post.RootPostID (PostUC.Detail.Post det) = Some (post_id 1)).
Proof.
  eapply vwp_mono; [exact (create_post_contract (S:=World) None "alice" (Some demo_reply) demo_db eq_refl demo_extractor_up no_post_hook demo_posts demo_bounded)|].
  intros r d' (_ & _ & _ & _ & Hok). destruct Hok as (det & -> & Hc); [vm_compute; reflexivity|].
  exists det. split; [reflexivity|]. destruct Hc as (rq & [= <-] & _ & Hc). cbn zeta in Hc.
  destruct Hc as (_ & _ & _ & _ & Hp & _ & _ & _ & _ & Hroot & _). rewrite Hp in Hroot. cbn in Hroot.
  destruct Hroot as (q & Hq & ->). revert Hq. vm_compute. intros [= <-]. reflexivity.
Defined.

Lemma delete_post_contract_witness : vwp (S:=World) (PostUC.Delete (post_id 1) "bob") demo_db (fun r d' =>
  r = Ok tt /\ Posts.GetByID (post_id 1) (posts d') = None).
Proof.
  eapply vwp_mono; [exact (delete_post_contract (S:=World) (post_id 1) "bob" demo_db eq_refl demo_posts)|].
  intros r d' (_ & _ & _ & _ & Hok). apply Hok. vm_compute. reflexivity.
Defined.

Lemma post_writes_settle_witness :
  vwp (S:=World) (PostUC.Like None "bob" (post_id 1)) demo_db (fun r d' => no_panic r /\ forall a, r = Ok a -> post_inv d').
Proof.
  exact (proj1 (post_writes_settle (S:=World) None None "bob" (post_id 1) None demo_db no_like_hook no_post_hook
    (proj1 demo_collaborators) demo_posts demo_bounded)).
Defined.

(** ** Reading *)

Section reading.
Context `{GoRuntime} {S : Type} `{!Backend S}.

Lemma NormalizeLimit_pos limit : (0 < PostUC.NormalizeLimit limit)%Z.
Proof. unfold PostUC.NormalizeLimit, PostUC.DefaultPageLimit. destruct (_ || _) eqn:E; [done|]. to_prop. lia. Qed.

(** C11. A client that follows next_cursor from page to page reads the whole
    home timeline: each live top-level post of the viewer and of the users
    they follow exactly once, newest first, whatever page size it asks for
    and whatever order the maps are iterated in; a number of requests above
    the number of posts is enough. *)
Theorem home_timeline_complete me limit fuel seed d :
  faults S = false -> me <> "" -> post_inv d -> size (posts d) < fuel ->
  exists ps, vwp (S:=S) (home_pages fuel seed me None limit) d (fun r d' =>
      d' = d /\ r = Ok (Some (card d (Some me) <$> ps))) /\
    StronglySorted newer ps /\
    forall p, p ∈ ps <-> exists id, posts d !! id = Some p /\ home_filter d me p = true.
Proof.
  intros Hf Hme Hinv Hfuel. set (l := feed (home_filter d me) (posts d) 0).
  assert (Hl : forall p, p ∈ l <-> exists id, posts d !! id = Some p /\ home_filter d me p = true).
  { intros p. unfold l, feed. rewrite elem_of_collect. naive_solver. }
  exists l. split; [|split; [by apply collect_sorted; apply Hinv|exact Hl]].
  eapply vwp_mono; [apply home_pages_read; try done; apply Hinv|]. intros r d' [-> ->]. split; [done|].
  rewrite read_feed_all; [done|apply Hinv|apply NormalizeLimit_pos|].
  eapply Nat.le_lt_trans; [|exact Hfuel]. apply feed_size.
Qed.

(** C12. Hydrating a page loads images, tags, authors, previews and the
    viewer's flags in one batch per table, and shows for each post, in the
    order of the page, what loading that post alone would show. *)
Theorem hydrate_is_cards seed ps viewer d :
  faults S = false -> Tags.wf (tags d) ->
  vwp (S:=S) (PostUC.Hydrate seed ps viewer) d (fun r d' => d' = d /\ r = Ok (card d viewer <$> ps)).
Proof.
  intros Hf Hwf.
  eapply vwp_mono; [exact (vwp_and _ _ _ _ (Hydrate_answers seed ps viewer d Hf) (Hydrate_spec seed ps viewer d Hwf))|].
  intros r d' ([ds ->] & -> & _ & Hds). split; [done|]. by rewrite (Hds ds eq_refl).
Qed.
End reading.

Lemma home_timeline_complete_witness :
  vwp (S:=World) (home_pages 2 7 "alice" None 1) demo_db (fun r d' => exists ps, r = Ok (Some (card demo_db (Some "alice") <$> ps)) /\
    exists p, p ∈ ps /\ Post.UserID p = "bob").
Proof.
  destruct (home_timeline_complete (S:=World) "alice" 1 2 7 demo_db) as (ps & Hrun & _ & Hps);
    [reflexivity|discriminate|exact demo_posts|vm_compute; exact (le_n 2)|].
  eapply vwp_mono; [exact Hrun|]. intros r d' [_ ->]. exists ps. split; [reflexivity|].
  destruct (posts demo_db !! post_id 1) as [p|] eqn:E; [|vm_compute in E; discriminate E].
  exists p. split.
  - apply Hps. exists (post_id 1). split; [exact E|]. vm_compute in E. injection E as <-. vm_compute. reflexivity.
  - vm_compute in E. injection E as <-. reflexivity.
Defined.

Definition demo_post : Post.t :=
  Post.mk (post_id 1) "bob" "hello #go" None None 1 0 "public" 3 3 None.

Lemma hydrate_is_cards_witness :
  vwp (S:=World) (PostUC.Hydrate 3 [demo_post; demo_post] (Some "alice")) demo_db (fun r d' =>
    r = Ok [card demo_db (Some "alice") demo_post; card demo_db (Some "alice") demo_post]).
Proof.
  eapply vwp_mono; [exact (hydrate_is_cards (S:=World) 3 [demo_post; demo_post] (Some "alice") demo_db eq_refl (inv_tags _ demo_posts))|].
  intros r d' [_ ->]. reflexivity.
Defined.
