(* ===== verification/SocialProps.v ===== *)
(** * Properties: follows, users, badges, tags and images *)

From S2P Require Import Prelude Errors Monad Domain Cursor.
From S2P Require Import MemUsers MemPosts MemLikes MemTags MemBadges MemFollows Repository Backend.
From S2P Require Import PostUC PostInv PostThms NetUrl BadgeUC FollowUC UserUC ImageUC Server Contracts Demo.

Local Open Scope string_scope.

(** ** Follows *)

Section follows.
Context `{GoRuntime, !CivilClock} {S : Type} `{!Backend S}.

Lemma Follow_flag hook a b d :
  follow_hook_ok (S:=S) hook ->
  vwp (S:=S) (FollowUC.Follow hook a b) d (fun r d' => forall x, r = Ok x -> FollowUC.Result.Following x = true).
Proof.
  intros Hh. unfold FollowUC.Follow, FollowUC.bump.
  repeat (ustep; try done); try (by intros x [= <-]). by apply follow_hook_fmap.
Qed.

(** C13. Follow refuses an anonymous caller, an empty or own target and a
    target that is not there or deleted, and changes nothing then. Otherwise
    it succeeds, adds this edge and no other (once, however often it is
    called) and answers the number of followers the target now has. Unfollow
    refuses an anonymous caller and an empty or own target; otherwise it
    succeeds, takes away this edge and no other, and answers the number of
    followers a known target is left with. Both keep every followers_count
    exact, and following_count too; a follow does when the caller has a row. *)
Theorem follow_contract hook a b d :
  faults S = false -> follow_hook_ok (S:=S) hook -> follow_inv (users d) (follows d) -> few_follows (follows d) ->
  vwp (S:=S) (FollowUC.Follow hook a b) d (fun r d' =>
    verdict r = follow_verdict a b d /\ no_panic r /\ (is_Some (follow_verdict a b d) -> d' = d) /\
    follow_inv (users d') (follows d') /\
    (is_Some (users d !! a) -> following_inv (users d) (follows d) -> following_inv (users d') (follows d')) /\
    (follow_verdict a b d = None -> exists x, r = Ok x /\ FollowUC.Result.Following x = true /\
       FollowUC.Result.FollowersCount x = Z.of_nat (size (Follows.followers (follows d') b)) /\
       forall v w, Follows.following (follows d') v w <-> (v = a /\ w = b) \/ Follows.following (follows d) v w)) /\
  vwp (S:=S) (FollowUC.Unfollow a b) d (fun r d' =>
    verdict r = unfollow_verdict a b /\ no_panic r /\ (is_Some (unfollow_verdict a b) -> d' = d) /\
    follow_inv (users d') (follows d') /\
    (following_inv (users d) (follows d) -> following_inv (users d') (follows d')) /\
    (unfollow_verdict a b = None -> exists x, r = Ok x /\
       (is_Some (users d !! b) -> FollowUC.Result.FollowersCount x = Z.of_nat (size (Follows.followers (follows d') b))) /\
       forall v w, Follows.following (follows d') v w <-> Follows.following (follows d) v w /\ ~ (v = a /\ w = b))).
Proof.
  intros Hf Hh Hinv Hfew. split.
  - eapply vwp_mono; [exact (vwp_and _ _ _ _ (Follow_flag hook a b d Hh)
      (answers_and _ _ _ _ (Follow_answers Hf _ _ _ _ Hh) (Follow_spec hook a b d Hh Hinv Hfew)))|].
    intros r d' (Hflag & Hv & Hd & Hok & Hnp & Hset). destruct (Hset (or_introl Hf)) as (Hi & Hg & Hr).
    split_and!; try done. intros E. destruct (Hok E) as [x ->]. exists x. destruct (Hr x eq_refl) as [Hrel Hcnt]. split_and!; auto.
  - eapply vwp_mono; [exact (answers_and _ _ _ _ (Unfollow_answers Hf _ _ _) (Unfollow_spec a b d Hinv))|].
    intros r d' (Hv & Hd & Hok & Hnp & Hset). destruct (Hset (or_introl Hf)) as (Hi & Hg & Hr).
    split_and!; try done. intros E. destruct (Hok E) as [x ->]. exists x. destruct (Hr x eq_refl) as [Hrel Hcnt]. auto.
Qed.
End follows.

Section follow_lists.
Context `{GoRuntime}.

(** C14. A client that follows the cursors of a follower (or following)
    list from page to page reads every edge of that list exactly once,
    newest first and by peer within one instant, for every page size. *)
Theorem follow_list_complete fs sub side limit fuel seed :
  Follows.wf fs -> (0 < limit)%Z -> size fs < fuel ->
  exists l, Follows.read_list fs sub side limit fuel seed None = Some l /\
    StronglySorted (Follows.after side) l /\
    forall f, f ∈ l <->
      fs !! (Follow.FollowerSub f, Follow.FolloweeSub f) = Some f /\ Follows.ownerSub f side = sub.
Proof.
  intros Hwf Hl Hfuel. exists (Follows.follow_list 0 sub side fs). split; [|split].
  - apply Follows.read_list_all; try done. eapply Nat.le_lt_trans; [apply Follows.follow_list_size|done].
  - by apply Follows.follow_list_sorted.
  - intros f. by apply Follows.elem_of_follow_list.
Qed.
End follow_lists.

Lemma no_follow_hook : follow_hook_ok (S:=World) None.
Proof. by intros h u p. Qed.

Lemma follow_contract_witness :
  vwp (S:=World) (FollowUC.Follow None "bob" "alice") demo_db (fun r d' =>
    Follows.following (follows d') "bob" "alice" /\ exists x, r = Ok x /\ FollowUC.Result.Following x = true) /\
  vwp (S:=World) (FollowUC.Unfollow "alice" "bob") demo_db (fun r d' => ~ Follows.following (follows d') "alice" "bob").
Proof.
  split.
  - eapply vwp_mono; [refine (proj1 (follow_contract (S:=World) None "bob" "alice" demo_db _ _ _ _));
      [reflexivity|exact no_follow_hook|exact (si_follows _ demo_inv)|exact (proj1 (proj2 demo_small))]|].
    intros r d' (_ & _ & _ & _ & _ & Hok). destruct Hok as (x & -> & Hx & _ & Hrel); [vm_compute; reflexivity|].
    split; [|exists x; split; [reflexivity|exact Hx]]. apply Hrel. left. split; reflexivity.
  - eapply vwp_mono; [refine (proj2 (follow_contract (S:=World) None "alice" "bob" demo_db _ _ _ _));
      [reflexivity|exact no_follow_hook|exact (si_follows _ demo_inv)|exact (proj1 (proj2 demo_small))]|].
    intros r d' (_ & _ & _ & _ & _ & Hok). destruct Hok as (x & _ & _ & Hrel); [vm_compute; reflexivity|].
    intros Hx. apply Hrel in Hx as [_ Hn]. apply Hn. split; reflexivity.
Defined.

Lemma follow_list_complete_witness : exists f,
  Follows.read_list (follows demo_db) "bob" true 1 2 9 None = Some f /\ f <> [].
Proof.
  destruct (follow_list_complete (follows demo_db) "bob" true 1 2 9) as (l & Hl & _ & Hin);
    [exact (fi_rows _ _ (si_follows _ demo_inv))|reflexivity|vm_compute; exact (le_n 2)|].
  exists l. split; [exact Hl|]. intros E. rewrite E in Hin.
  destruct (follows demo_db !! ("alice", "bob")) as [f|] eqn:Ef; [|vm_compute in Ef; discriminate Ef].
  apply (not_elem_of_nil f), Hin. vm_compute in Ef. injection Ef as <-. vm_compute. split; reflexivity.
Defined.

(** ** Users *)

Section users.
Context `{GoRuntime} {S : Type} `{!Backend S, !AuthCore.Client S}.

(** The account service does not disown a session it has issued. *)
Definition knows_everybody : Prop := forall tok d,
  vwp (S:=S) (AuthCore.GetProfile tok) d (fun r d' => d' = d /\ no_panic r /\
    forall e, r = Err e -> AuthCore.is_not_found e = false).

(** It answers with any other error than "not found". *)
Definition service_down (tok : string) : Prop := forall d,
  vwp (S:=S) (AuthCore.GetProfile tok) d (fun r d' => d' = d /\ exists e, r = Err e /\ AuthCore.is_not_found e = false).

Lemma GetOrHydrate_answers ttl tok sub d :
  faults S = false -> knows_everybody -> sub <> "" ->
  vwp (S:=S) (UserUC.GetOrHydrateUser ttl tok sub) d (fun r d' => exists u, r = Ok u).
Proof.
  intros Hf Hk Hsub. unfold UserUC.GetOrHydrateUser, UserUC.lazyCreate, UserUC.refresh.
  repeat (ustep; try congruence); try (by eexists); try (by to_prop);
    (eapply vwp_mono; [apply Hk|]; intros [p|e|why] d2 (-> & Hnp & He);
      [|rewrite (He e eq_refl)|by destruct (Hnp why)]; repeat (ustep; try congruence); by eexists).
Qed.

(** C16. Signing in with a session the account service knows gives the
    user's row, created on the first visit: never as an administrator. Later
    visits never change what the service does not own (admin flag, counters,
    bio, banner, creation and deletion times), nor anyone else's row, nor who
    follows whom, and the counters stay exact. When the account service is
    down (any error but "not found"), signing in still succeeds, and a known
    user gets the stored row unchanged. *)
Theorem sign_in_contract ttl tok sub d :
  faults S = false -> sub <> "" -> (forall x u, users d !! x = Some u -> User.Sub u = x) ->
  (remote_client (S:=S) -> knows_everybody ->
   vwp (S:=S) (UserUC.GetOrHydrateUser ttl tok sub) d (fun r d' => hydrated sub d d' r /\ exists u, r = Ok u)) /\
  (service_down tok ->
   vwp (S:=S) (UserUC.GetOrHydrateUser ttl tok sub) d (fun r d' =>
     exists u, r = Ok u /\ forall old, users d !! sub = Some old -> u = old)).
Proof.
  intros Hf Hsub Hkeys. split; [intros Hr Hk|by intros; apply GetOrHydrate_fail_open].
  eapply vwp_mono; [exact (vwp_and _ _ _ _ (GetOrHydrate_spec ttl tok sub d Hr Hkeys) (GetOrHydrate_answers ttl tok sub d Hf Hk Hsub))|].
  intros r d' [[_ Hh] Hok]. by split.
Qed.

(** C17. Profiles and the list of users. A profile update is refused unless
    it is the caller's own, has a body, fits the limits (500 bytes of bio and
    1024 of banner, where the documents count characters) and the row is
    there, with the first of these that fails, and changes nothing then.
    Otherwise it stores and answers the caller's row with the bio and the
    banner of the request, each kept when the request does not have it, and
    every other field but the time of the update as it was. It never touches
    another row, nor the caller's counters, admin flag or times of creation
    and deletion, and never makes a text that fits overlong. Listing users
    changes nothing, never reads outside the slice, and answers their number
    with one page, cut by limit and offset out of some order of all the
    users that are not deleted: a limit outside 1 to 100 counts as 20, an
    offset below 0 as 0. *)
Theorem users_contract target current req limit offset d :
  faults S = false ->
  vwp (S:=S) (UserUC.UpdateUserProfile target current req) d (fun r d' =>
    verdict r = profile_verdict target current req d /\ no_panic r /\
    (is_Some (profile_verdict target current req d) -> d' = d) /\
    (profile_verdict target current req d = None -> exists u rq old, r = Ok u /\ req = Some rq /\
       users d !! current = Some old /\ users d' !! current = Some u /\ u = edited rq (User.UpdatedAt u) old) /\
    (forall x, x <> current -> users d' !! x = users d !! x) /\
    (forall old, users d !! current = Some old -> exists new, users d' !! current = Some new /\
       profile_frame new = profile_frame old /\
       ((Z.of_nat (String.length (User.Bio old)) <= 500 -> Z.of_nat (String.length (User.Bio new)) <= 500)%Z) /\
       ((Z.of_nat (String.length (User.BannerURL old)) <= 1024 ->
         Z.of_nat (String.length (User.BannerURL new)) <= 1024)%Z))) /\
  ((Z.of_nat (size (users d)) <= int64_max - 100)%Z ->
   let n := (if bool_decide (1 <= limit <= 100) then limit else 20)%Z in
   vwp (S:=S) (UserUC.ListUsers limit offset) d (fun r d' => d' = d /\
     exists l, l ≡ₚ filter (fun u => User.DeletedAt u = None) (map_to_list (users d)).*2 /\
       r = Ok (take (Z.to_nat n) (drop (Z.to_nat (Z.max 0 offset)) l), Z.of_nat (length l)))).
Proof.
  intros Hf. split.
  - eapply vwp_mono; [exact (vwp_and _ _ _ _ (UpdateProfile_stores target current req d)
      (answers_and _ _ _ _ (UpdateProfile_answers Hf _ _ _ _) (UpdateProfile_spec target current req d)))|].
    intros r d' (Hst & Hv & Hd & Hok & Hnp & Hother & Hold & _). split_and!; try done.
    intros E. destruct (Hok E) as [u ->]. destruct (Hst u eq_refl) as (rq & old & ? & ? & ? & ?). by exists u, rq, old.
  - intros Hsz n. eapply vwp_mono; [by apply ListUsers_spec|]. intros r d' (-> & _ & Hl). split; [done|].
    destruct (Hl (or_introl Hf)) as (l & Hp & ->). exists l. split; [done|].
    replace (UserUC.clamp_limit limit) with n; [replace (UserUC.clamp_offset offset) with (Z.max 0 offset)|]; [done|..].
    + unfold UserUC.clamp_offset. case_match; lia.
    + unfold n, UserUC.clamp_limit. case_bool_decide; destruct ((limit <=? 0) || (100 <? limit))%Z eqn:E; to_prop; lia.
Qed.
End users.

Lemma demo_knows : knows_everybody (S:=World).
Proof. intros tok d s <-. by cbn. Qed.

Lemma demo_keys : forall x u, users demo_db !! x = Some u -> User.Sub u = x.
Proof. apply (fi_keys _ _ (si_follows _ demo_inv)). Qed.

Definition down_auth : AuthCore.Client World := {|
  AuthCore.Introspect _ := fail AuthCore.ErrUpstream;
  AuthCore.GetProfile _ := fail AuthCore.ErrUpstream;
|}.

Lemma sign_in_contract_witness :
  vwp (S:=World) (UserUC.GetOrHydrateUser 0 "carol" "carol") demo_db (fun r d' =>
    exists u, r = Ok u /\ users d' !! "carol" = Some u /\ User.IsAdmin u = false) /\
  exists old, users demo_db !! "bob" = Some old /\
    vwp (S:=World) (@UserUC.GetOrHydrateUser World _ _ down_auth 0 "bob" "bob") demo_db (fun r d' => r = Ok old).
Proof.
  split.
  - eapply vwp_mono; [refine (proj1 (sign_in_contract (S:=World) 0 "carol" "carol" demo_db _ _ demo_keys)
      (proj1 (proj2 demo_collaborators)) demo_knows); [reflexivity|discriminate]|].
    intros r d' ((_ & _ & _ & Hrow & Hadm & _) & u & E). exists u. split; [exact E|]. specialize (Hrow u E). split; [exact Hrow|].
    apply Hadm; [vm_compute; reflexivity|exact Hrow].
  - destruct (users demo_db !! "bob") as [old|] eqn:Hold; [|vm_compute in Hold; discriminate].
    exists old. split; [reflexivity|].
    eapply vwp_mono; [refine (proj2 (@sign_in_contract _ World _ down_auth 0 "bob" "bob" demo_db _ _ demo_keys) _);
      [reflexivity|discriminate|intros d; apply vwp_fail; split; [reflexivity|exists AuthCore.ErrUpstream; split; reflexivity]]|].
    intros r d' (u & -> & Hu). rewrite (Hu old Hold). reflexivity.
Defined.

Lemma users_contract_witness :
  vwp (S:=World) (UserUC.UpdateUserProfile "alice" "alice" (Some (UpdateUserProfileRequest.mk (Some "hello") None))) demo_db
    (fun r d' => exists u, r = Ok u /\ users d' !! "alice" = Some u /\ User.Bio u = "hello") /\
  vwp (S:=World) (UserUC.ListUsers 9999 (-3)) demo_db (fun r d' =>
    exists page, r = Ok (page, 2%Z)).
Proof.
  pose proof (users_contract (S:=World) "alice" "alice" (Some (UpdateUserProfileRequest.mk (Some "hello") None)) 9999 (-3) demo_db
    eq_refl) as [Hup Hls].
  split.
  - eapply vwp_mono; [exact Hup|]. intros r d' (_ & _ & _ & Hok & _).
    destruct Hok as (u & rq & old & -> & [= <-] & _ & Hu & Heq); [vm_compute; reflexivity|].
    exists u. split; [reflexivity|]. split; [exact Hu|]. rewrite Heq. reflexivity.
  - eapply vwp_mono; [exact (Hls (proj2 (proj2 demo_small)))|].
    intros r d' (_ & l & Hp & ->). eexists. rewrite (Permutation_length Hp). reflexivity.
Defined.

(** ** Badges *)

Section badges.
Context `{GoRuntime, !UniqueULIDs} {S : Type} `{!Backend S}.

(** C18. Nobody but a stored administrator grants, revokes, creates or
    updates a badge: for anyone else, on any backend, the call is an error
    that changes nothing. *)
Theorem badge_writes_admin_only sub w d :
  ~ admin d sub -> vwp (S:=S) (run_write sub w) d (fun r d' => d' = d /\ exists e, r = Err e).
Proof. intros Hadm. by apply run_write_admin. Qed.




End badges.

(** A database with an administrator, "root", and one badge of theirs. *)
Definition root_user : User.t := User.mk "root" "root" "root" "" 0 "" "" true 0 0 0 0 None.
Definition admin_db : DB := with_users (<["root" := root_user]> (users demo_db)) demo_db.




Lemma badge_writes_admin_only_witness :
  vwp (S:=World) (run_write "bob" (WRevoke "alice" "x")) admin_db (fun r d' => d' = admin_db /\ exists e, r = Err e).
Proof.
  refine (badge_writes_admin_only (S:=World) "bob" (WRevoke "alice" "x") admin_db _).
  intros (u & Hu & Ha). vm_compute in Hu. injection Hu as <-. discriminate Ha.
Defined.


(** ** Tags *)

Section tags.
Context `{GoRuntime, !UniqueULIDs}.

(** C20. Upserting tag names gives one tag per distinct non-empty name,
    each stored under its id, makes tags only for names that had none, keeps
    every existing tag, and keeps the name index exact: the nil lookup the
    code would make for a dangling index entry cannot happen. *)
Theorem upsert_tags_contract now n names st :
  Tags.wf st -> Tags.fresh_from n st ->
  exists n' st' out, Tags.UpsertByNames now n names st = (n', st', Ok out) /\
    Tags.wf st' /\ Tags.fresh_from n' st' /\ Tags.tags st ⊆ Tags.tags st' /\
    NoDup (Tag.Name <$> out) /\ (forall x, x ∈ Tag.Name <$> out <-> x ∈ names /\ x <> "") /\
    (forall t, t ∈ out -> Tags.tags st' !! Tag.ID t = Some t).
Proof.
  intros Hwf Hfr. destruct (Tags.upsert_loop_spec now names ∅ n st Hwf Hfr) as (n' & st' & out & E & Hw & Hf & _ & Hsub & Hn & Hin).
  destruct (Tags.wanted_names_spec ∅ names) as [Hnd Hel]. rewrite <-Hn in Hnd, Hel.
  exists n', st', out. split_and!; try done. intros x. rewrite Hel. set_solver.
Qed.
End tags.

Lemma upsert_tags_contract_witness : exists n' st' out,
  Tags.UpsertByNames 5 2 ["go"; ""; "rocq"; "go"] (tags demo_db) = (n', st', Ok out) /\ Tag.Name <$> out ≡ₚ ["go"; "rocq"].
Proof.
  destruct (upsert_tags_contract 5 2 ["go"; ""; "rocq"; "go"] (tags demo_db) (inv_tags _ (si_posts _ demo_inv)) (proj2 (inv_fresh _ (si_posts _ demo_inv))))
    as (n' & st' & out & E & _ & _ & _ & Hnd & Hel & _).
  exists n', st', out. split; [exact E|]. apply NoDup_Permutation; [exact Hnd|apply (bool_decide_unpack _); vm_compute; exact I|].
  intros x. rewrite Hel. clear. set_solver.
Defined.

(** ** Images *)

Section images.
Context `{GoRuntime, !UniqueULIDs} {S : Type} `{!Backend S, !StorageService.t S}.

(** C21. An upload is refused without a request, for an empty file and
    for one above 5 MiB. Otherwise it adds exactly one image, under a fresh
    id, owned by the uploader, of the size of the data sent, whatever size
    the request claimed. Deleting an image is refused without an id, for an
    image that is not there and for one of someone else; otherwise it
    succeeds even when the object store fails, the image is gone for every
    reader, and no other row changes. What is refused changes nothing. *)
Theorem image_contract req imageID userSub d :
  faults S = false -> remote_storage (S:=S) -> storage_up (S:=S) -> image_inv d -> post_inv d ->
  vwp (S:=S) (ImageUC.Upload req) d (fun r d' =>
    verdict r = upload_verdict req /\ no_panic r /\ image_inv d' /\ post_inv d' /\
    (is_Some (upload_verdict req) -> d' = d) /\
    (upload_verdict req = None -> exists im rq, r = Ok im /\ req = Some rq /\ uploaded rq d d' im)) /\
  vwp (S:=S) (ImageUC.Delete imageID userSub) d (fun r d' =>
    verdict r = delete_image_verdict imageID userSub d /\ no_panic r /\ image_inv d' /\ post_inv d' /\
    (is_Some (delete_image_verdict imageID userSub d) -> d' = d) /\
    (forall x, x <> imageID -> images d' !! x = images d !! x) /\
    (delete_image_verdict imageID userSub d = None -> r = Ok tt /\ Images.GetByID imageID (images d') = None)).
Proof.
  intros Hf Hr Hup Hi Hp. split.
  - eapply vwp_mono; [exact (answers_and _ _ _ _ (Upload_answers Hf _ _ Hr Hup) (Upload_spec req d Hr Hi Hp))|].
    intros r d' (Hv & Hd & Hok & Hnp & Hi' & Hp' & Him). split_and!; try done. intros E. destruct (Hok E) as [im ->].
    destruct (Him im eq_refl) as (rq & -> & Hu). by exists im, rq.
  - eapply vwp_mono; [exact (answers_and _ _ _ _ (DeleteImage_answers Hf _ _ _ Hr) (Delete_image_spec imageID userSub d Hr Hi Hp))|].
    intros r d' (Hv & Hd & Hok & Hnp & Hi' & Hp' & Ho & Him). split_and!; try done. intros E. destruct (Hok E) as [[] ->].
    split; [done|]. by apply Him.
Qed.
End images.

Definition demo_upload : UploadImageRequest.t := UploadImageRequest.mk "../cat.png" "0123" "image/png" 1 "alice".
Definition image_world : World := (ImageUC.Upload (Some demo_upload) demo_world).1.
Definition image_db : DB := db image_world.

Lemma demo_remote_storage : remote_storage (S:=World).
Proof. apply demo_collaborators. Qed.

Lemma image_db_inv : image_inv image_db /\ post_inv image_db.
Proof.
  unfold image_db, image_world.
  pose proof (Upload_spec (S:=World) (Some demo_upload) demo_db demo_remote_storage (si_images _ demo_inv) (si_posts _ demo_inv) demo_world eq_refl) as Hu.
  exact (conj (proj1 (proj2 Hu)) (proj1 (proj2 (proj2 Hu)))).
Qed.

Lemma image_contract_witness :
  vwp (S:=World) (ImageUC.Upload (Some demo_upload)) demo_db (fun r d' =>
    exists im, r = Ok im /\ Image.UserID im = "alice" /\ Image.FileSize im = 4%Z) /\
  vwp (S:=World) (ImageUC.Delete (ulid_seq 3) "alice") image_db (fun r d' => r = Ok tt).
Proof.
  split.
  - eapply vwp_mono; [refine (proj1 (image_contract (S:=World) (Some demo_upload) "" "" demo_db _ demo_remote_storage demo_storage_up (si_images _ demo_inv) (si_posts _ demo_inv))); reflexivity|].
    intros r d' (_ & _ & _ & _ & _ & Hok). destruct Hok as (im & rq & -> & [= <-] & _ & _ & Hu & _ & Hsz & _); [vm_compute; reflexivity|].
    exists im. split; [reflexivity|]. split; [exact Hu|exact Hsz].
  - eapply vwp_mono; [refine (proj2 (image_contract (S:=World) None (ulid_seq 3) "alice" image_db _ demo_remote_storage demo_storage_up (proj1 image_db_inv) (proj2 image_db_inv))); reflexivity|].
    intros r d' (_ & _ & _ & _ & _ & _ & Hok). apply Hok. vm_compute. reflexivity.
Defined.
