(* ===== verification/RaceProps.v ===== *)
(** * Properties: what concurrency does to the counters and the queues *)

From S2P Require Import Prelude Errors Monad Domain.
From S2P Require Import MemUsers MemPosts MemLikes MemFollows Repository Backend.
From S2P Require Import PostUC PostInv PostThms FollowUC UserUC LikeRace Dispatcher Server Demo.
Import Posts Likes.

Local Open Scope Z_scope.

(** Counters that agree with their rows, and stay below [bound]. *)
Definition counted_upto (bound : Z) (ps : gmap string Post.t) (ls : gmap string (gmap string Time)) : Prop :=
  forall p q, ps !! p = Some q -> live q = true ->
    Post.LikesCount q = Z.of_nat (size (likers ls p)) /\ Post.LikesCount q <= bound.

(** C28. However the repository calls of concurrent likes and unlikes
    interleave, likes_count never falls below the number of likers, counting
    the increments and decrements still under way; once all requests have
    ended, it is at least the number of likers. It is exactly that when no
    request overlapped another one of the same user on the same post. *)
Theorem likes_never_undercount excl n ps ls bound s' ths' :
  counted_upto bound ps ls -> bound + Z.of_nat n <= int64_max ->
  steps excl n (mkShared ps ls, []) (s', ths') ->
  forall p q, tposts s' !! p = Some q -> live q = true ->
    Z.of_nat (size (likers (tlikes s') p)) <= Post.LikesCount q + total (incs p) ths' - total (decs p) ths' /\
    (ths' = [] -> Z.of_nat (size (likers (tlikes s') p)) <= Post.LikesCount q) /\
    (ths' = [] -> excl = true -> Post.LikesCount q = Z.of_nat (size (likers (tlikes s') p))).
Proof.
  intros Hc Hb Hs p q Hq Hl. destruct (rest_inv ps ls bound Hc) as [Hr He].
  destruct (race_run excl n _ _ _ _ _ Hs Hb Hr) as [[_ Hd] Hx]. pose proof (Hd p q Hq Hl) as Hp. unfold drift in Hp.
  split_and!; [lia|intros ->; cbn in Hp; lia|]. intros -> E. destruct (Hx E He) as [_ _ Hexact].
  specialize (Hexact p q Hq Hl). unfold drift in Hexact. cbn in Hexact. lia.
Qed.

Definition lone_post : Post.t := Post.mk "p" "bob" "hello" None None 0 0 "public" 1 1 None.
Definition lone : shared := mkShared {["p"%string := lone_post]} ∅.

Lemma lone_counted : counted_upto 0 (tposts lone) (tlikes lone).
Proof.
  intros p q Hq _. cbn in Hq. apply lookup_singleton_Some in Hq as [<- <-]. split; [vm_compute; reflexivity|cbn; lia].
Qed.

(** A like and an unlike of the same user, the decrement before the increment. *)
Definition crossing : list event := [
  Start (WillCheck "amy" "p"); Start (WillDelete "amy" "p");
  Call 1 5; Call 1 5; Call 0 5; Call 0 5; Call 0 5].

Lemma crossing_runs : exists s, plays false crossing (lone, []) = Some (s, []) /\
  size (likers (tlikes s) "p") = 0%nat /\ Post.LikesCount <$> tposts s !! "p"%string = Some 1.
Proof. eexists. split; [vm_compute; reflexivity|]. split; vm_compute; reflexivity. Qed.

(** Two users and no overlap. *)
Definition disjoint_run : list event := [
  Start (WillCheck "amy" "p"); Start (WillCheck "bob" "p"); Call 0 5; Call 1 5; Call 0 5; Call 1 6; Call 0 6; Call 0 6].

Lemma likes_never_undercount_witness :
  (exists s, plays false crossing (lone, []) = Some (s, []) /\
     forall p q, tposts s !! p = Some q -> live q = true -> Z.of_nat (size (likers (tlikes s) p)) <= Post.LikesCount q) /\
  (exists s, plays true disjoint_run (lone, []) = Some (s, []) /\
     forall p q, tposts s !! p = Some q -> live q = true -> Post.LikesCount q = Z.of_nat (size (likers (tlikes s) p))).
Proof.
  split.
  - destruct crossing_runs as (s & Hs & _). exists s. split; [exact Hs|]. intros p q Hq Hl.
    refine (proj1 (proj2 (likes_never_undercount false 7 (tposts lone) (tlikes lone) 0 s [] lone_counted _ _ p q Hq Hl)) eq_refl);
      [discriminate|exact (plays_steps false crossing _ _ Hs)].
  - eexists. split; [vm_compute; reflexivity|]. intros p q Hq Hl.
    refine (proj2 (proj2 (likes_never_undercount true 8 (tposts lone) (tlikes lone) 0 _ [] lone_counted _ _ p q Hq Hl)) eq_refl eq_refl);
      [discriminate|apply (plays_steps true disjoint_run); vm_compute; reflexivity].
Defined.

(** ** Where the counters drift *)

Definition lone_db : DB := with_posts (tposts lone) empty_DB.

(** The third call of a like, the increment, meets a broken connection. *)
Definition third_call (t : nat) : bool := Nat.eqb t 2.

(** Two ways likes_count stops being the number of likers. A like and
    an unlike by the same user that overlap can end with a count of one and
    no liker, because the decrement stops at zero. And a like whose increment
    fails after its row is stored is reported as an error; the retry finds
    the row and reports success, and the liker is never counted. *)
Theorem like_counter_drifts :
  (exists s, steps false 7 (lone, []) (s, []) /\
     size (likers (tlikes s) "p") = 0%nat /\ Post.LikesCount <$> tposts s !! "p"%string = Some 1) /\
  (let w := mkFlaky (broken := third_call) (mkWorld 0 lone_db) in
   let first := PostUC.Like None "amy" "p" w in
   let retry := PostUC.Like None "amy" "p" first.1 in
   (exists e, first.2 = Err e) /\ retry.2 = Ok tt /\
   size (likers (likes (view retry.1)) "p") = 1%nat /\
   Post.LikesCount <$> posts (view retry.1) !! "p"%string = Some 0).
Proof.
  split.
  - destruct crossing_runs as (s & Hs & Hcount). exists s. split; [exact (plays_steps false crossing _ _ Hs)|exact Hcount].
  - cbv zeta. split; [eexists; vm_compute; reflexivity|]. repeat split; vm_compute; reflexivity.
Qed.

(** ** The analytics dispatcher *)

Import Dispatcher.

(** C29. In every state of the dispatcher, for both of its streams: every
    item that entered the queue is in exactly one place, handed to the
    sender, in the batch, in the queue or dropped to make room; items are
    handed over in the order they entered; the queue never exceeds its
    capacity; while it runs, no batch sent is empty or longer than the batch
    size; after shutdown nothing is left in the batch; and nothing is dropped
    or refused before a full queue's worth of items has been accepted. *)
Theorem dispatcher_streams cap size s :
  (0 < size)%nat -> Dispatcher.reachable cap size s ->
  stream_inv cap size (status s) (content_calls s) (contents s) /\
  stream_inv cap size (status s) (event_calls s) (events s).
Proof. intros Hs Hr. by apply reachable_dispatcher_inv. Qed.

Definition demo_event (n : string) : Fuju.Event := Fuju.like_event 5 n "p".

Lemma dispatcher_streams_witness : exists s, Dispatcher.reachable 1 2 s /\ dropped (events s) = [demo_event "amy"] /\
  (length (ch (events s)) <= 1)%nat.
Proof.
  set (st q d calls := mkState new_stream (mk q [] [] (d ++ q) d []) [] calls Running).
  assert (H0 : Dispatcher.reachable 1 2 (st [demo_event "amy"] [] [])).
  { eapply reach_step; [eapply reach_step; [apply reach_start|apply (call_event 1 2 _ _ _ _ _ (demo_event "amy"))]|].
    refine (event_select 1 2 _ _ _ [] (Offer (demo_event "amy")) [] _ _ None _). reflexivity. }
  assert (H1 : Dispatcher.reachable 1 2 (st [demo_event "bob"] [demo_event "amy"] [])).
  { set (amy := demo_event "amy"). set (bob := demo_event "bob").
    assert (Ha : Dispatcher.reachable 1 2 (st [amy] [] [Offer bob])).
    { eapply reach_step; [exact H0|apply (call_event 1 2 _ _ _ _ _ bob)]. }
    assert (Hb : Dispatcher.reachable 1 2 (st [amy] [] [DropOldest bob])).
    { eapply reach_step; [exact Ha|]. exact (event_select 1 2 _ (events (st [amy] [] [])) _ [] (Offer bob) [] _ _ (Some (DropOldest bob)) eq_refl). }
    assert (Hc : Dispatcher.reachable 1 2 (st [] [amy] [Retry bob])).
    { eapply reach_step; [exact Hb|]. exact (event_select 1 2 _ (events (st [amy] [] [])) _ [] (DropOldest bob) [] _ _ (Some (Retry bob)) eq_refl). }
    eapply reach_step; [exact Hc|]. exact (event_select 1 2 _ (events (st [] [amy] [])) _ [] (Retry bob) [] _ _ None eq_refl). }
  exists (st [demo_event "bob"] [demo_event "amy"] []). split; [exact H1|]. split; [reflexivity|].
  exact (queue_bound _ _ _ _ _ (proj2 (dispatcher_streams 1 2 _ (le_S _ _ (le_n 1)) H1))).
Defined.
