(* ===== verification/OgpProps.v ===== *)
(** * Properties: link previews

    The SSRF guard, URL extraction and normalisation, the page parser, and
    the queue between the posts and the preview worker. *)

From Stdlib Require Import Ascii.
From S2P Require Import Prelude Errors Monad GoStrings Domain Cursor.
From S2P Require Import MemPosts MemOGP Repository Backend PostUC PostThms.
From S2P Require Import NetUrl NetIP Sha256 OgpUrl OgpUrlThms OgpHtml OgpUC WorkerThms ImageUC Server Contracts Demo.

Local Open Scope string_scope.

(** ** The guard *)

(** C33. The guard blocks exactly the addresses that are not public: for an
    IPv4 address (also mapped into IPv6) 0/8, 10/8, 127/8, 169.254/16,
    172.16/12, 192.168/16, multicast and broadcast; for an IPv6 address the
    unspecified one, loopback, link-local, unique-local and multicast. A nil
    address is blocked. The client dials only the first address a name
    resolved to, and only when none of the resolved addresses is blocked;
    and it follows a redirect only below the limit, to http or https, and
    never to a literal address that is blocked. *)
Theorem ssrf_guard_contract str :
  NetIP.IsBlockedIP None = true /\
  (forall ip, NetIP.wf ip ->
    (NetIP.IsBlockedIP (Some ip) = true <->
     match NetIP.To4 ip with
     | Some v4 => NetIP.private_v4 (NetIP.byte 0 v4) (NetIP.byte 1 v4) (NetIP.byte 2 v4) (NetIP.byte 3 v4)
     | None => NetIP.private_v6 ip
     end)) /\
  (forall ips ip, NetIP.dial_target str ips = inr ip ->
     head ips = Some ip /\ forall x, x ∈ ips -> NetIP.IsBlockedIP (Some x) = false) /\
  (forall u via, NetIP.CheckRedirect str u via = None ->
     (via < NetIP.MaxRedirects)%Z /\ exists v, u = Some v /\
       (URL.Scheme v = "http" \/ URL.Scheme v = "https") /\
       forall ip, NetIP.ParseIP (NetIP.Hostname v) = Some ip -> NetIP.IsBlockedIP (Some ip) = false).
Proof.
  split; [done|]. split; [by apply NetIPThms.IsBlockedIP_spec|]. split; [apply NetIPThms.dial_target_spec|].
  intros u via. unfold NetIP.CheckRedirect, NetIP.checkURL.
  destruct (Z.leb_spec NetIP.MaxRedirects via); [done|]. intros Hc. split; [done|].
  destruct u as [v|]; [|done]. exists v. split; [done|].
  destruct (_ && _) eqn:Es; [done|]. split.
  - apply andb_false_iff in Es as [Es%negb_false_iff|Es%negb_false_iff]; apply bool_decide_eq_true_1 in Es; auto.
  - intros ip E. rewrite E in Hc. by destruct (NetIP.IsBlockedIP (Some ip)).
Qed.

Lemma ssrf_guard_contract_witness : NetIP.IsBlockedIP (Some (NetIP.v4_mapped [192; 168; 0; 7])%Z) = true.
Proof.
  apply (ssrf_guard_contract (fun _ => "") ).
  - split; [right; reflexivity|]. repeat constructor; discriminate.
  - cbn. unfold NetIP.private_v4. do 5 right. left. split; reflexivity.
Defined.

(** ** URLs *)

(** C34. The URLs taken from a post are those its links leave. A link is
    http:// or https:// and at least one byte that is no white space, quote,
    backquote or angle bracket; the links of the text are found from the
    left, each as early and as long as possible. From the end of each,
    punctuation is cut, and ) while it has more of them than (. What is left of
    the first five, each text counted once, is the answer, in the order of
    the text. None of them is empty, no two are equal, and none ends in ] or
    }, balanced or not. *)
Theorem extract_urls_contract content :
  exists ms us, links_in content ms /\ Forall2 trimmed ms us /\
    Extractor.ExtractURLs content = take 5 (distinct us) /\
    NoDup (Extractor.ExtractURLs content) /\
    forall u, u ∈ Extractor.ExtractURLs content -> u <> "" /\ forall t, u <> t +:+ "]" /\ u <> t +:+ "}".
Proof.
  destruct (ExtractURLs_spec content) as (ms & us & Hl & Ht & Hne & E). exists ms, us. rewrite E.
  assert (Hsub : forall u, u ∈ take 5 (distinct us) -> u ∈ us).
  { intros u Hu. apply elem_of_distinct. rewrite <-(take_drop 5 (distinct us)). apply elem_of_app. by left. }
  split_and!; try done.
  - pose proof (distinct_NoDup us) as Hn. rewrite <-(take_drop 5 (distinct us)) in Hn. by apply NoDup_app in Hn as [Hn _].
  - intros u Hu%Hsub. split; [by eapply Forall_forall in Hne|].
    apply list_elem_of_lookup in Hu as [k Hk]. destruct (Forall2_lookup_r _ _ _ _ _ Ht Hk) as (m & _ & cut & _ & Hend & _).
    intros t. split; intros ->; apply Hend; eexists _, _; (split; [reflexivity|]); left;
      apply (bool_decide_unpack _); vm_compute; exact I.
Qed.


Lemma extract_urls_contract_witness : exists ms us,
  links_in "(see https://b.example/(x)). http://[::1] https://b.example/(x)" ms /\ Forall2 trimmed ms us /\
  take 5 (distinct us) = ["https://b.example/(x)"; "http://[::1"].
Proof.
  destruct (extract_urls_contract "(see https://b.example/(x)). http://[::1] https://b.example/(x)")
    as (ms & us & Hl & Ht & E & _).
  exists ms, us. split; [exact Hl|]. split; [exact Ht|]. rewrite <-E. vm_compute. reflexivity.
Defined.

Section normal.
Context `{GoRuntime, HostTables}.

End normal.



(** ** The page *)

(** C36. From a page, the title is the last og:title, or without one the
    first twitter:title, or the text of the first <title>; the image is the
    first of og:image and twitter:image in the order of the page, so that an
    earlier twitter:image wins over og:image; and the image and canonical
    URLs of the preview are absolute http(s) URLs or empty. *)
Theorem metadata_contract root base :
  let tags := Parser.walk root in
  let m := Parser.metadata root base in
  Parser.Metadata.Title m =
    (let meta := match last (contents og_title tags) with Some t => t | None => default "" (head (contents twitter_title tags)) end in
     if bool_decide (meta = "") then default "" (head (titles tags)) else meta) /\
  Parser.Metadata.ImageURL m = Parser.resolveSafeURL base (default "" (head (contents any_image tags))) /\
  (forall url, url = Parser.Metadata.ImageURL m \/ url = Parser.Metadata.CanonicalURL m -> url <> "" ->
     exists u, URL.Parse url = Some u /\ (URL.Scheme u = "http" \/ URL.Scheme u = "https")).
Proof.
  cbv zeta. unfold Parser.metadata.
  pose proof (fold_title (Parser.walk root) "" Parser.Metadata.empty) as Ht.
  pose proof (fold_image (Parser.walk root) "" Parser.Metadata.empty) as Hi.
  pose proof (fold_first_title (Parser.walk root) "" Parser.Metadata.empty) as Hf.
  destruct (foldl _ _ _) as [title m]. cbn [fst snd] in *. rewrite (bool_decide_eq_true_2 ("" = "")) in Hf by done.
  cbn [Parser.Metadata.Title Parser.Metadata.ImageURL Parser.Metadata.empty] in *.
  rewrite (bool_decide_eq_true_2 ("" = "")) in Hi by done. rewrite (bool_decide_eq_true_2 ("" = "")) in Ht by done.
  unfold Parser.if_empty. rewrite <-Ht, <-Hi, <-Hf.
  split; [|split].
  - cbn. by case_bool_decide.
  - cbn. by case_bool_decide.
  - intros url [->| ->]; cbn; apply resolveSafeURL_safe.
Qed.

(** ** The queue *)

Section queue.
Context `{GoRuntime, !UniqueULIDs, !HostTables, !HtmlLib} {S : Type} `{!Backend S, !Fetcher.HttpClient S}.

(** C37. The create hook never fails and changes no table but previews and
    jobs, whatever the backend does; it adds no job but for a URL of the
    post, and attaches no preview but a good cached one. On a backend that
    works, it forgets no URL: each one that normalises has a preview in the
    cache that has not expired, or a job for this post, under the position
    of the URL in the text. *)
Theorem enqueue_contract post d :
  vwp (S:=S) (Enqueuer.EnqueueForPost (Some post)) d (fun r d' => r = Ok tt /\ enqueued post d d' /\
    (faults S = false -> jobs_fresh d -> jobs_fresh d' /\ exists t,
       forall i raw n, Extractor.ExtractURLs (Post.Content post) !! i = Some raw ->
         Normalizer.Normalize raw = inr n -> covered post (clock t) i n d')).
Proof.
  intros s Hs. pose proof (EnqueueForPost_spec post d s Hs) as [Hr He]. split; [done|]. split; [done|].
  intros Hf Hfr. exact (EnqueueForPost_covers post d Hf Hfr s Hs).
Qed.

(** C38. The worker drains the queue: on a backend that works, whatever
    the pages answer, three cycles per job leave no job queued, every job
    tried at most three times, and nothing but previews, jobs and
    attachments changed. *)
Theorem worker_drains opts n d :
  faults S = false -> remote_http (S:=S) -> OGPQueue.wf (jobs d) -> attempts_ok (jobs d) -> 3 * size (jobs d) <= n ->
  vwp (S:=S) (Worker.run opts n) d (fun r d' => r = Ok tt /\ hook_frame d d' /\
    attempts_ok (jobs d') /\ forall id j, jobs d' !! id = Some j -> ~ OGPQueue.queued j).
Proof.
  intros Hf Hh Hwf Hat Hn. eapply vwp_mono; [by apply run_drains|].
  intros r d' (-> & Hfr & Hwf' & Hat' & Hb). split; [done|]. split; [done|]. split; [done|].
  apply backlog_0; [done|]. pose proof (backlog_bound (jobs d) Hat). lia.
Qed.
End queue.

Definition linked_post : Post.t := Post.mk "p" "bob" "see https://a.b/x" None None 0 0 "public" 1 1 None.
Definition one_job : OGPJob.t := OGPJob.mk "j" "h" "https://a.b/x" "p" 0 5 None None OGPJobQueued 0 "".
Definition job_db : DB := with_jobs {["j" := one_job]} empty_DB.

Lemma job_db_ok : OGPQueue.wf (jobs job_db) /\ attempts_ok (jobs job_db).
Proof.
  split; intros id j Hj; cbn in Hj; apply lookup_singleton_Some in Hj as [<- <-]; [reflexivity|].
  cbn. unfold Worker.MaxAttempts. split; [lia|]. intros _. lia.
Qed.

Lemma enqueue_contract_witness : vwp (S:=World) (Enqueuer.EnqueueForPost (Some linked_post)) empty_DB (fun r d' =>
  exists t n, covered linked_post (clock t) 0 n d').
Proof.
  eapply vwp_mono; [exact (enqueue_contract (S:=World) linked_post empty_DB)|].
  intros r d' (_ & _ & Hc). destruct (Hc eq_refl) as (_ & t & Hcov); [intros k _; reflexivity|].
  exists t, "https://a.b/x". apply (Hcov 0 "https://a.b/x"); vm_compute; reflexivity.
Defined.

Lemma worker_drains_witness : vwp (S:=World) (Worker.run None 3) job_db (fun r d' =>
  forall id j, jobs d' !! id = Some j -> ~ OGPQueue.queued j).
Proof.
  eapply vwp_mono; [refine (worker_drains (S:=World) None 3 job_db _ _ (proj1 job_db_ok) (proj2 job_db_ok) _);
    [reflexivity|apply demo_collaborators|vm_compute; exact (le_n 3)]|].
  intros r d' (_ & _ & _ & Hq). exact Hq.
Defined.

(** A connection on which every write of the preview cache breaks: five
    calls make a cycle, and the cache is written by the fourth. *)
Definition cache_write (t : nat) : bool := Nat.eqb (t mod 5) 3.

Definition flaky_page : Fetcher.HttpClient (Flaky cache_write) := {|
  Fetcher.Do rq := ret (Fetcher.mkResponse 200 "text/html" (mkReader "<html>" None) None);
|}.

#[local] Existing Instance flaky_page.

(** While the preview cache cannot be written, a job whose page loads
    is put back in the queue without end, beyond the three attempts the
    worker grants a failing page: after five cycles it is queued with five
    attempts. *)
Theorem requeue_without_bound :
  let w := mkFlaky (broken := cache_write) (mkWorld 0 job_db) in
  let after := view (Worker.run None 5 w).1 in
  (OGPJob.Status <$> jobs after !! "j", OGPJob.Attempts <$> jobs after !! "j") = (Some OGPJobQueued, Some 5%Z) /\
  (Worker.MaxAttempts < 5)%Z.
Proof. cbv zeta. split; [vm_compute; reflexivity|reflexivity]. Qed.
