(* ===== verification/HttpProps.v ===== *)
(** * Properties: the HTTP layer, the session and the extractor of tags *)

From S2P Require Import Prelude Errors Monad GoStrings Cursor Domain NetUrl Json JsonOut.
From S2P Require Import MemUsers MemPosts MemLikes Repository Backend.
From S2P Require Import PostUC PostInv PostThms BadgeUC FollowUC UserUC AuthCache OgpUrl OgpUrlThms OgpHtml OgpUC WorkerThms ImageUC.
From S2P Require Import Frames Server HydrateThms Contracts TagExtract Http Handlers HttpThms ApiThms SessionThms Demo.

Local Open Scope Z_scope.

(** ** The HTTP layer *)

Section http.
Context `{GoRuntime, !UniqueULIDs, !CivilClock, !HostTables, !HtmlLib, !MultipartLib} {S : Type}.
Context `{!Backend S, !TagExtractor.t S, !AuthCore.Client S, !StorageService.t S, !Fetcher.HttpClient S}.
Context (w : wiring) (opts : option Fetcher.options).

(** C2. Every HTTP request is answered, and what it does to the database
    is what a run of at most three use cases does, each of which the session
    of the request allows: writes act as the user the account service named
    for the token, who has a row by the time he follows somebody, reads of
    public data show no viewer, nobody drives the worker. While the tables
    stay below 2^63 rows, no handler panics, a consistent database is left
    consistent, and the numbers of users a user follows stay exact. *)
Theorem http_refines_server seed r (s : S) :
  faults S = false -> collaborators (S:=S) -> remote_session (S:=S) -> server_inv (view s) ->
  exists resp steps,
    (Handlers.serve w seed r s).2 = Ok (cors_headers (allowedOrigins w) (Origin r), resp) /\
    (length steps <= 3)%nat /\ Forall (fits (principal_of w r s)) steps /\
    ran (profileTTL w) opts steps s (Handlers.serve w seed r s).1 /\
    (Forall small_at steps ->
      server_inv (view (Handlers.serve w seed r s).1) /\
      (exact_following (view s) -> exact_following (view (Handlers.serve w seed r s).1)) /\
      (Handlers.api w seed r s).2 = Ok resp).
Proof.
  intros Hf Hcol Hrs Hinv.
  destruct (serve_does (S:=S) w opts seed r s Hrs (proj1 (proj2 Hcol)) Hinv) as (resp & steps & Hres & Hl & Hall & Hran & Hown).
  exists resp, steps. split_and!; try done. intros Hsm.
  destruct (ran_inv (S:=S) (profileTTL w) opts _ _ steps Hf Hcol Hsm s _ Hinv Hran) as [Hi Hn].
  split; [done|]. split; [|by apply Hown]. intros Hg.
  eapply (ran_following (S:=S) (profileTTL w) opts Hf Hcol steps Hsm); [|exact Hinv|exact Hg|exact Hran].
  eapply Forall_impl; [exact Hall|]. by intros st [_ Hrow].
Qed.

(** C3. A request that carries no token the account service accepts changes
    nothing. Unless it reads or signs out it is refused, with 401, 404, 405
    or, when the account service is down, 503, and sets no cookie. *)
Theorem http_needs_session seed r (s : S) :
  faults S = false -> collaborators (S:=S) -> remote_session (S:=S) -> server_inv (view s) -> small (view s) ->
  principal_of w r s = None ->
  exists resp, (Handlers.serve w seed r s).2 = Ok (cors_headers (allowedOrigins w) (Origin r), resp) /\
    view (Handlers.serve w seed r s).1 = view s /\
    (reading_method r = false -> signs_out r = false -> refused resp).
Proof. intros. by eapply (serve_nobody (S:=S)). Qed.

(** C4. The interface documented in docs/swagger.yaml is the one served.
    Every request but a preflight is answered as the operation of its method
    and path says: with the status of its success and a body that is one JSON
    text of the documented schema, every required member there with its type
    and no unknown one, or no body where none is documented; or else with an
    error, whose body has the error schema and whose status the operation
    lists, or is one of [beyond]: 503 and 404 where a session is needed, 403
    for an image of somebody else, 400 for a row without a subject. Only a
    request no operation is for gets the 404 or the 405 of the mux. (The
    times are those of the years 1 to 9999; net/http drops the body of an
    answer to HEAD.) *)
Theorem api_contract seed r (s : S) : storage_errors (S:=S) -> exists resp,
  (Handlers.serve w seed r s).2 = Ok (cors_headers (allowedOrigins w) (Origin r), resp) /\
  if bool_decide (Method r = "OPTIONS"%string) then resp = mkResponse 200 NoBody None
  else answered (operation_of (OpenAPI.operations (imagesEnabled w)) r) resp.
Proof. intros Hs. by apply serve_documented. Qed.

(** C24. The cookie a sign-in sets holds the token, has the name, domain,
    path and policies of the configuration, and is out of reach of scripts.
    The time a token has left runs from the clock the handler reads to the
    token's expiry. One that has between a second and 2^24 seconds left is
    kept for the whole seconds of that time, at least one, and so never
    outlives its token. A token without an expiry, or with less than a second
    left, is kept for the whole seconds of the configured time. Signing out
    answers the same cookie without a value, to be deleted at once. *)
Theorem session_cookie_contract c r (s : S) tok :
  let cfg := session_cookie w in
  let configured ck := Cookie.CName ck = sName cfg /\ Cookie.CDomain ck = sDomain cfg /\
    Cookie.CPath ck = (if bool_decide (sPath cfg = "") then "/" else sPath cfg)%string /\
    Cookie.CSecure ck = sSecure cfg /\ Cookie.CSameSite ck = sSameSite cfg /\ Cookie.CHttpOnly ck = true in
  Auth.GetAccessTokenFromContext c = Some tok ->
  (exists now ck, (Runtime.Now s).2 = Ok now /\
    (Handlers.Issue w c r s).2 = Ok (mkResponse 204 NoBody (Some ck)) /\
    configured ck /\ Cookie.CValue ck = tok /\
    (forall exp, Auth.GetExpiresAtFromContext c = Some exp ->
      Second <= time_Sub exp now < 2 ^ 24 * Second ->
      Cookie.CMaxAge ck = time_Sub exp now / Second /\ 1 <= Cookie.CMaxAge ck /\
      Cookie.CMaxAge ck * Second <= time_Sub exp now) /\
    (match Auth.GetExpiresAtFromContext c with Some exp => time_Sub exp now < Second | None => True end ->
      0 <= FallbackMaxAge cfg < 2 ^ 24 * Second ->
      Cookie.CMaxAge ck = FallbackMaxAge cfg / Second)) /\
  exists ck, (Handlers.Revoke w c r s).2 = Ok (mkResponse 204 NoBody (Some ck)) /\
    configured ck /\ Cookie.CValue ck = ""%string /\ Cookie.CMaxAge ck = -1.
Proof.
  intros cfg configured Htok. split; [|by eexists].
  destruct (Issue_answers (S:=S) w c r s tok Htok) as (now & Hnow & Hi). eexists now, _.
  split; [exact Hnow|]. split; [exact Hi|]. split; [done|]. split; [done|].
  unfold Cookie.Build. cbn [Cookie.CMaxAge Cookie.MaxAge Handlers.session_attrs].
  assert (HS : Second = 1000000000) by reflexivity. split.
  - intros exp -> Hr. pose proof (kept_until w now exp Hr) as Hk. unfold kept_for in Hk.
    assert (Hpos : 0 <= Handlers.cookie_age w now (Some exp)).
    { unfold Handlers.cookie_age, Handlers.minCookieMaxAge. rewrite (proj2 (Z.leb_le _ _)) by lia. lia. }
    rewrite (proj2 (Z.ltb_ge _ _)) by done. exact Hk.
  - intros Hr Hfb.
    assert (Handlers.cookie_age w now (Auth.GetExpiresAtFromContext c) = FallbackMaxAge cfg) as ->.
    { unfold Handlers.cookie_age, Handlers.minCookieMaxAge. destruct (Auth.GetExpiresAtFromContext c); [|done].
      by rewrite (proj2 (Z.leb_gt _ _)) by lia. }
    rewrite (proj2 (Z.ltb_ge _ _)) by lia. by apply seconds_exact.
Qed.
End http.

(** *** A wiring, and requests to it *)

Definition demo_cookie : SessionCookieConfig := mkSession "fuju_session" true Cookie.SameSiteLaxMode "" "/" (3600 * Second).
Definition demo_wiring : wiring := mkWiring 0 demo_cookie "https://fuju.example" true.

(** Every form is a PNG file. *)
Definition demo_forms : MultipartLib := {|
  form_file _ _ := inr (inr ("a.png", "image/png", "0123"))%string;
  DetectContentType _ := "image/png"%string;
|}.

#[export] Existing Instance demo_forms.

Lemma demo_session : remote_session (S:=World).
Proof. intros tok d. by apply vwp_ret. Qed.

Definition like_request (header : string) : http_request :=
  mkRequest "POST" ["posts"; post_id 1; "like"]%string "" header "https://fuju.example" [] "" [].

Lemma http_refines_server_witness : exists resp steps,
  (Handlers.serve demo_wiring 7 (like_request "Bearer bob") demo_world).2 =
    Ok (Some "https://fuju.example"%string, true, resp) /\ status resp = 204 /\
  Forall (fits (Some ("bob", "bob")%string)) steps /\
  ran 0 None steps demo_world (Handlers.serve demo_wiring 7 (like_request "Bearer bob") demo_world).1.
Proof.
  destruct (http_refines_server (S:=World) demo_wiring None 7 (like_request "Bearer bob") demo_world)
    as (resp & steps & Hres & _ & Hall & Hran & _); [reflexivity|exact demo_collaborators|exact demo_session|exact demo_inv|].
  exists resp, steps. split; [|split; [|split; [exact Hall|exact Hran]]].
  - rewrite Hres. vm_compute. reflexivity.
  - revert Hres. vm_compute. intros [= <-]. reflexivity.
Defined.

Lemma http_needs_session_witness : exists resp,
  (Handlers.serve demo_wiring 7 (like_request "") demo_world).2 = Ok (Some "https://fuju.example"%string, true, resp) /\
  view (Handlers.serve demo_wiring 7 (like_request "") demo_world).1 = demo_db /\ refused resp.
Proof.
  destruct (http_needs_session (S:=World) demo_wiring None 7 (like_request "") demo_world)
    as (resp & Hres & Hv & Href); [reflexivity|exact demo_collaborators|exact demo_session|exact demo_inv|exact demo_small|reflexivity|].
  exists resp. split; [|split; [exact Hv|apply Href; vm_compute; reflexivity]]. rewrite Hres. vm_compute. reflexivity.
Defined.

Definition get_request (path : list string) : http_request :=
  mkRequest "GET" path "" "" "https://fuju.example" [] "" [].

(** The page of all posts, and the client reading it. *)
Definition posts_page : View.t := Eval vm_compute in
  match (Handlers.serve demo_wiring 7 (get_request ["posts"]%string) demo_world).2 with
  | Ok (_, resp) => match content resp with Data v => v | _ => View.Health end
  | _ => View.Health
  end.

Lemma api_contract_witness : exists resp j,
  (Handlers.serve demo_wiring 7 (get_request ["posts"]%string) demo_world).2 = Ok (Some "https://fuju.example"%string, true, resp) /\
  JsonOut.read (Wire.body (5 * Second) resp) = Some j /\ OpenAPI.conforms OpenAPI.PostListResponse j = true.
Proof.
  destruct (api_contract (S:=World) demo_wiring 7 (get_request ["posts"]%string) demo_world (r2_errors (H6:=demo_objects) "bucket" "https://cdn.example"))
    as (resp & Hres & Ha).
  rewrite bool_decide_eq_false_2 in Ha by discriminate.
  replace (operation_of _ _) with
    (Some (OpenAPI.mkOperation "GET" [Handlers.Lit "posts"] 200 (Some OpenAPI.PostListResponse) [400; 500]))%string in Ha
    by (vm_compute; reflexivity).
  assert (resp = write_data 200 posts_page) as ->.
  { apply (f_equal (fun x => match x with Ok y => y.2 | _ => resp end)) in Hres. cbv beta iota in Hres.
    cbn [snd] in Hres. rewrite <- Hres. vm_compute. reflexivity. }
  destruct Ha as (sch & [= <-] & Hb). destruct (Hb (5 * Second)) as (j & Hj & Hc).
  { apply dated_bool. vm_compute. reflexivity. }
  { unfold posts_page. repeat constructor; exists time_zero; (split; [apply dated_bool|]; vm_compute; reflexivity). }
  exists (write_data 200 posts_page), j. split; [vm_compute; reflexivity|by split].
Defined.

Definition bob_session : Auth.context := Auth.mkContext (Some "bob"%string) (Some "bob"%string) (Some (10 * Second)) None.

Lemma session_cookie_contract_witness : exists ck,
  (Handlers.Issue (S:=World) demo_wiring bob_session (like_request "Bearer bob") demo_world).2 = Ok (mkResponse 204 NoBody (Some ck)) /\
  Cookie.CValue ck = "bob"%string /\ 1 <= Cookie.CMaxAge ck.
Proof.
  destruct (session_cookie_contract (S:=World) demo_wiring bob_session (like_request "Bearer bob") demo_world "bob" eq_refl)
    as [(now & ck & _ & Hi & _ & Hv & _) _].
  exists ck. split; [exact Hi|]. split; [exact Hv|]. revert Hi. vm_compute. intros [= <-]. discriminate.
Defined.

(** *** What the routes leave out *)

(** JSON text, with the quotes written as backticks. *)
Fixpoint json_text (s : string) : string :=
  match s with
  | EmptyString => EmptyString
  | String a s => String (if Cursor.code a =? 96 then Ascii.ascii_of_nat 34 else a) (json_text s)
  end.

(** The documented body of a profile update, [{"banner_url": ...}], is
    accepted and changes nothing: the decoder knows the field by its Go name
    only. *)
Theorem banner_url_ignored :
  Bodies.parseUpdateProfileRequest
    (mkRequest "PUT" ["users"; post_id 1]%string "" "Bearer bob" "" []
      (json_text "{`bio`:`hi`,`banner_url`:`https://img.example/b.png`}") []) =
  inr (UpdateUserProfileRequest.mk (Some "hi"%string) None).
Proof. vm_compute. reflexivity. Qed.

(** A body over the limit of 16 KiB, for which the document has a 413, is
    answered like any other body that does not decode. *)
Theorem post_over_limit_is_400 :
  exists resp, (Handlers.serve demo_wiring 7
    (mkRequest "POST" ["posts"]%string "" "Bearer bob" "" []
      (json_text ("{`content`:`" +:+ String.concat "" (List.repeat "x" (Z.to_nat (16 * 1024))) +:+ "`}")) []) demo_world).2 =
    Ok (None, false, resp) /\
  status resp = 400 /\ content resp = ErrorBody ErrInvalidRequest "invalid request body".
Proof. eexists. split; [vm_compute; reflexivity|]. split; reflexivity. Qed.

Definition read_request (header : string) : http_request :=
  mkRequest "GET" ["posts"; post_id 1]%string "" header "" [] "" [].

(** Alice likes the post, and signs her request to read it; the answer says
    she does not, since the route does not look at who asks. *)
Theorem public_read_has_no_viewer :
  Likes.IsLikedBy "alice" (post_id 1) (likes demo_db) = true /\
  exists resp d, (Handlers.serve demo_wiring 7 (read_request "Bearer alice") demo_world).2 = Ok (None, false, resp) /\
    content resp = Data (View.Post d) /\ View.dLikesCount d = 1 /\ View.dLikedByViewer d = false.
Proof.
  split; [vm_compute; reflexivity|]. eexists _, _. split; [vm_compute; reflexivity|].
  split; [cbn; reflexivity|]. split; reflexivity.
Qed.

(** ** Cursors *)

(** C15. The cursor a page of followers ends with survives the way to the
    client and back: the client reads it in the JSON of the page, whatever
    users are on it, and when it sends what it has read, percent-encoded
    among any other parameters, the server decodes the very instant, to the
    nanosecond, and the very peer the cursor was made from. This holds for
    every instant of the years 1 to 9999 and every non-empty peer. *)
Theorem cursor_roundtrip now users t peer :
  Forall (fun u => user_dated (View.toPublicView u [])) users -> JsonOut.dated t -> peer <> "" ->
  exists ms c,
    JsonOut.read (Wire.body now (write_data 200 (View.buildFollowListResponse users (EncodeFollow t peer)))) = Some (Json.JObj ms) /\
    JsonOut.text_at "next_cursor" ms = Some c /\
    forall r query, nonempty_values query -> query !! "cursor"%string = Some [c] ->
      RawQuery r = String.concat "&" (Normalizer.encode_values query) ->
      DecodeFollow (parseOpaqueCursorQuery r) = Some (t, peer).
Proof.
  intros Hu Ht Hp. destruct (follow_page_read now _ (EncodeFollow t peer) (proj2 (Forall_fmap _ _ _) Hu)) as (ms & Hr & Hc);
    [apply EncodeFollow_nonempty|apply encode_ascii|].
  exists ms, (EncodeFollow t peer). split; [done|]. split; [done|]. intros r query Hq Hk Hraw.
  unfold parseOpaqueCursorQuery. rewrite (QueryGet_encoded _ _ _ _ Hq Hraw Hk).
  rewrite bool_decide_eq_false_2 by apply EncodeFollow_nonempty. by apply Decode_EncodeFollow.
Qed.

Definition next_page (c : string) : http_request :=
  mkRequest "GET" ["users"; "bob"; "followers"]%string ("cursor=" +:+ c +:+ "&limit=10") "" "" [] "" [].

Definition bob : User.t := UserUC.fresh_user "bob" (3 * Second).

Lemma cursor_roundtrip_witness : exists ms c,
  JsonOut.read (Wire.body (5 * Second) (write_data 200 (View.buildFollowListResponse [bob] (EncodeFollow 123456789012345678 "alice")))) =
    Some (Json.JObj ms) /\
  JsonOut.text_at "next_cursor" ms = Some c /\
  DecodeFollow (parseOpaqueCursorQuery (next_page c)) = Some (123456789012345678%Z, "alice"%string).
Proof.
  destruct (cursor_roundtrip (5 * Second) [bob] 123456789012345678 "alice") as (ms & c & Hr & Hc & Hd);
    [repeat constructor; vm_compute; congruence|apply dated_bool; vm_compute; reflexivity|discriminate|].
  exists ms, c. split; [exact Hr|]. split; [exact Hc|].
  assert (c = EncodeFollow 123456789012345678 "alice") as ->.
  { revert Hr Hc. vm_compute. intros [= <-]. vm_compute. by intros [= <-]. }
  apply (Hd (next_page (EncodeFollow 123456789012345678 "alice"))
           (<["cursor" := [EncodeFollow 123456789012345678 "alice"]]> {["limit" := ["10"]]})%string).
  - apply map_Forall_insert_2; [discriminate|]. by apply map_Forall_singleton.
  - reflexivity.
  - vm_compute. reflexivity.
Defined.

(** ** The caches of the account service's client *)

(** C25. Whatever goroutines introspect tokens, log out and sweep at the
    same time: a session [Introspect] returns is one the account service gave
    for that very token; one served from the cache is younger than the TTL
    and had not expired at the call; at most one goroutine asks the account
    service about a token at a time; and one that waits for another's answer
    finds it published, or a goroutine that still has to publish it. *)
Theorem introspect_cache_contract ttl st i tok now :
  IntrospectCache.reachable ttl st ->
  (forall h r ss, IntrospectCache.threads st !! i = Some (IntrospectCache.Returned tok now h r) ->
     r = Ok ss -> exists t, IntrospectCache.said (IntrospectCache.upstream st) tok t ss) /\
  (forall e r, IntrospectCache.threads st !! i = Some (IntrospectCache.Returned tok now (Some e) r) ->
     let ss := IntrospectCache.session e in
     r = Ok ss /\ time_Sub now (IntrospectCache.fetchedAt e) < ttl /\
     (AuthCore.Session.ExpiresAt ss = time_zero \/ now < AuthCore.Session.ExpiresAt ss)) /\
  (forall c j n c', IntrospectCache.threads st !! i = Some (IntrospectCache.Calling tok now c) ->
     IntrospectCache.threads st !! j = Some (IntrospectCache.Calling tok n c') -> i = j) /\
  (forall c, IntrospectCache.threads st !! i = Some (IntrospectCache.Joined tok now c) ->
     (exists a, IntrospectCache.calls st !! c = Some (tok, Some a)) \/
     (exists j th, IntrospectCache.threads st !! j = Some th /\ IntrospectCache.carries th = Some (tok, c))).
Proof.
  intros Hr. pose proof (IntrospectCache.inv_threads _ _ (IntrospectCache.cache_reachable_inv ttl st Hr)) as Hth. split_and!.
  - intros h r ss Hi Hok. destruct (Hth _ _ Hi) as [Hs _]. by apply Hs.
  - intros e r Hi. destruct (Hth _ _ Hi) as [_ Hh]. destruct (Hh e eq_refl) as (-> & [? ?]%IntrospectCache.isFresh_spec & _).
    by split_and!.
  - intros c j n c' Hi Hj. by eapply IntrospectCache.one_upstream_call.
  - intros c Hi. by eapply IntrospectCache.waiter_is_served.
Qed.

(** C26. The service token a caller gets was issued by the account service
    for the scope the caller names: fetched for this very call, whose failure
    is then the answer, or by an earlier call and still good for longer than
    the lead time. *)
Theorem service_token_contract lead calls i now want issue asked r :
  calls !! i = Some (now, want, issue) ->
  ServiceToken.serve lead calls ServiceToken.NewCachedServiceTokenSource !! i = Some (asked, r) ->
  if (asked : bool) then r = (match issue with inl e => inl e | inr (tok, _) => inr tok end)
  else exists tok t0 ttl, r = inr tok /\ (t0, want, inr (tok, ttl)) ∈ take i calls /\ now + lead < t0 + ttl.
Proof. intros Hi Hr. exact (ServiceToken.serve_spec lead calls [] ServiceToken.NewCachedServiceTokenSource i now want issue asked r (or_introl eq_refl) Hi Hr). Qed.

(** *** A run of each *)

Definition demo_ss : AuthCore.Session.t := AuthCore.Session.mk "amy" 100 "pub".

(** Two callers of one token: the first asks, the second waits for it. *)
Lemma demo_cache_run : exists st, IntrospectCache.reachable 30 st /\
  IntrospectCache.threads st !! 1%nat = Some (IntrospectCache.Returned "tok" 5 None (Ok demo_ss)).
Proof.
  set (a := IntrospectCache.mkAnswer (Some demo_ss) None). eexists. split.
  - eapply IntrospectCache.reach_step; [|eapply (IntrospectCache.wake _ _ _ _ _ _ 1%nat "tok" 5 0%nat a)].
    + eapply IntrospectCache.reach_step; [|eapply (IntrospectCache.close _ _ _ _ _ _ 0%nat "tok" 5 0%nat a)].
      * eapply IntrospectCache.reach_step; [|eapply (IntrospectCache.store _ _ _ _ _ _ 0%nat "tok" 5 0%nat a)].
        -- eapply IntrospectCache.reach_step; [|eapply (IntrospectCache.respond _ _ _ _ _ _ 0%nat "tok" 5 0%nat a)].
           ++ eapply IntrospectCache.reach_step; [|eapply (IntrospectCache.join _ _ _ _ _ _ 1%nat "tok" 5 9%nat)].
              ** eapply IntrospectCache.reach_step; [|eapply (IntrospectCache.arrive _ _ _ _ _ _ 1%nat "tok")].
                 --- eapply IntrospectCache.reach_step; [|eapply (IntrospectCache.lead _ _ _ _ _ _ 0%nat "tok" 5 0%nat)].
                     +++ eapply IntrospectCache.reach_step; [apply (IntrospectCache.reach_initial 30 5)|].
                         apply (IntrospectCache.arrive _ _ _ _ _ _ 0%nat "tok"). reflexivity.
                     +++ apply lookup_insert_eq.
                     +++ reflexivity.
                     +++ reflexivity.
                 --- reflexivity.
              ** apply lookup_insert_eq.
              ** reflexivity.
           ++ reflexivity.
        -- apply lookup_insert_eq.
      * apply lookup_insert_eq.
    + reflexivity.
    + reflexivity.
  - reflexivity.
Qed.

Lemma introspect_cache_contract_witness : exists st t, IntrospectCache.reachable 30 st /\
  IntrospectCache.said (IntrospectCache.upstream st) "tok" t demo_ss.
Proof.
  destruct demo_cache_run as (st & Hr & Hi).
  destruct (proj1 (introspect_cache_contract 30 st 1 "tok" 5 Hr) None (Ok demo_ss) demo_ss Hi eq_refl) as [t Ht].
  exists st, t. split; [exact Hr|exact Ht].
Defined.

Definition demo_calls : list ServiceToken.call := [
  (0, "read", inr ("t1", 300)); (100, "read", inl (ErrorString "down")); (260, "read", inr ("t2", 300))]%string.

Lemma service_token_contract_witness :
  ServiceToken.serve 60 demo_calls ServiceToken.NewCachedServiceTokenSource !! 1%nat = Some (false, inr "t1"%string) /\
  exists t0 ttl, (t0, "read"%string, inr ("t1"%string, ttl)) ∈ take 1 demo_calls /\ 160 < t0 + ttl.
Proof.
  split; [vm_compute; reflexivity|].
  pose proof (service_token_contract 60 demo_calls 1 100 "read" (inl (ErrorString "down")) false (inr "t1"%string)) as H.
  destruct H as (tok & t0 & ttl & E & Hin & Hl); [reflexivity|vm_compute; reflexivity|].
  injection E as <-. exists t0, ttl. split; [exact Hin|exact Hl].
Defined.

(** ** Tags of a text *)

Section tags.
Context `{HostTables, UnicodeTables}.
Import RegexTagExtractor.

End tags.
