(* ===== verification/ConfigProps.v ===== *)
(** * Properties: the account service's client and the configuration *)

From S2P Require Import Prelude Errors Monad GoStrings Cursor Domain NetUrl Json OgpUrl OgpUrlThms.
From S2P Require Import Repository Backend PostUC PostThms UserUC AuthCache OgpHtml OgpUC ImageUC Server Http AuthClient Config Handlers.
From S2P Require Import HttpThms SessionThms AuthThms ConfigThms DsnThms Demo HttpProps.

Local Open Scope string_scope.
Local Open Scope Z_scope.

(** ** The account service *)

Section auth.
Context {S V : Type} `{!AuthHTTP.Transport S, !Runtime.t S} (c : AuthHTTP.HTTPClient) (configured : Duration).

(** The client [main] hands to the middleware: the HTTP client behind the
    introspection cache. *)
#[local] Instance wired : AuthCore.Client (Cached.t S) :=
  Cached.client (Client0:=AuthHTTP.client c) (IntrospectCache.effective_ttl configured).

(** C22. What happens to a request with a token, one request at a time, on
    the client as main wires it. A session of this very token that the cache
    took less than the TTL ago (the configured one, or 30 seconds), and that
    has not expired by the clock, is used, and nothing is asked. Otherwise
    the account service is asked, and is sent the token byte for byte: the
    request is let through exactly when it answers 200 with an active token
    of a named user, as that user and with the expiry of the answer, seconds
    after 1970 or none, and that session is cached from then; it is refused
    with 401 exactly when it answers 200 and calls the token inactive, and
    with 503 on any other status, on a body that does not decode, and when it
    cannot be reached; of a refusal nothing is cached. No other token's entry
    changes. *)
Theorem auth_verdict_contract cookieName (next : handler (S:=Cached.t S) (V:=V)) ctx r w tok rq s now :
  extractAuthToken r cookieName = Some tok -> AuthHTTP.introspect_request c tok = inr rq ->
  IntrospectCache.inFlight (Cached.store w) !! tok = None ->
  Runtime.Now (Cached.inner w) = (s, Ok now) -> no_panic (AuthHTTP.Do rq s).2 ->
  let ttl := if configured <=? 0 then 30 * Second else configured in
  let entry := IntrospectCache.items (Cached.store w) !! tok in
  let usable e := time_Sub now (IntrospectCache.fetchedAt e) < ttl /\
    (AuthCore.Session.ExpiresAt (IntrospectCache.session e) = time_zero \/
     now < AuthCore.Session.ExpiresAt (IntrospectCache.session e)) in
  let out := AuthMiddleware cookieName next ctx r w in
  UrlText.ParseQuery (AuthHTTP.rBody rq) = Some {[ "token" := [tok] ]} /\
  (forall e, entry = Some e -> usable e ->
     out = next (with_session tok (IntrospectCache.session e) ctx) r (Cached.mk (Cached.store w) s)) /\
  ((forall e, entry = Some e -> ~ usable e) -> exists store,
     (forall x, x <> tok -> IntrospectCache.items store !! x = IntrospectCache.items (Cached.store w) !! x) /\
     let w' := Cached.mk store (AuthHTTP.Do rq s).1 in
     match introspection (AuthHTTP.Do rq s).2 with
     | Alive sub exp name => sub <> "" /\ exists ss, is_session sub exp name ss /\
         IntrospectCache.items store !! tok = Some (IntrospectCache.mkEntry ss now) /\
         out = next (with_session tok ss ctx) r w'
     | Inactive => IntrospectCache.items store !! tok = None /\
         out = (w', Ok (writeAuthError 401 ErrUnauthorized "invalid session"))
     | Unknown => IntrospectCache.items store !! tok = None /\
         out = (w', Ok (writeAuthError 503 ErrExternalService "authentication backend unavailable"))
     end).
Proof.
  intros Hx Hrq Hfl Hnow Hnp ttl entry usable out.
  assert (Hout : out = _) by exact (AuthMiddleware_answer cookieName next ctx r w tok Hx).
  cbn [AuthCore.Introspect wired Cached.client] in Hout. rewrite Hout. clear Hout out.
  split; [by eapply introspect_form|]. split.
  - intros e He Hu. by rewrite (Cached.Introspect_hit (Client0:=AuthHTTP.client c) (IntrospectCache.effective_ttl configured) tok w s now e).
  - intros Hno. destruct (Cached.Introspect_miss (Client0:=AuthHTTP.client c) (IntrospectCache.effective_ttl configured) tok w s now Hnow Hfl Hno) as (store & Hother & Hm).
    exists store. split; [exact Hother|].
    destruct (Introspect_verdict c tok rq s (extractAuthToken_nonempty r _ _ Hx) Hrq Hnp) as [Hs Hv].
    cbn [AuthCore.Introspect AuthHTTP.client] in Hm. destruct (AuthHTTP.Introspect c tok s) as [s1 r1]. cbn [fst snd] in Hs, Hv.
    subst s1. cbv zeta. destruct (introspection _) as [sub exp name| |] eqn:Ei.
    + destruct Hv as (ss & Hss & ->). destruct Hm as [Hitem Hm]. split; [by eapply alive_named|]. exists ss.
      split; [done|]. split; [done|]. by rewrite Hm.
    + subst r1. destruct Hm as [Hitem Hm]. split; [done|]. by rewrite Hm.
    + destruct Hv as [t ->]. destruct Hm as [Hitem Hm]. split; [done|]. by rewrite Hm.
Qed.
End auth.

(** A service that answers the same to everything, and a clock that stands. *)
Definition canned (status : Z) (body : string) : AuthHTTP.Transport unit :=
  {| AuthHTTP.Do _ := ret (AuthHTTP.mkAnswer status body false) |}.

#[local] Instance stopped_clock : Runtime.t unit :=
  {| Runtime.Now := ret (1000 * Second); Runtime.MakeULID := ret "" |}.

Definition demo_account_service : AuthHTTP.HTTPClient := AuthHTTP.New (AuthHTTP.mkOptions "https://auth.example/" "sns" "s3cret" "" "").

(** Who the caller of [like_request] is, to a service that answers [body] and
    a cache of these entries, kept for 30 seconds. *)
Definition who_asks (body : string) (items : gmap string IntrospectCache.entry) : res (response (option string)) :=
  (AuthMiddleware (H:=wired (H:=canned 200 (json_text body)) demo_account_service 0) "fuju"
    (fun c r => ret (mkResponse 200 (Data (Auth.GetSubFromContext c)) None)) Auth.background (like_request "Bearer t&k=1")
    (Cached.mk (IntrospectCache.mkCache items ∅) tt)).2.

Definition seen_amy (at_ : Time) : gmap string IntrospectCache.entry :=
  {[ "t&k=1" := IntrospectCache.mkEntry (AuthCore.Session.mk "amy" time_zero "") at_ ]}.

Lemma auth_verdict_contract_witness :
  who_asks "{`active`:true,`sub`:`amy`,`exp`:1700000000}" ∅ = Ok (mkResponse 200 (Data (Some "amy")) None) /\
  who_asks "{`active`:false}" (seen_amy (980 * Second)) = Ok (mkResponse 200 (Data (Some "amy")) None) /\
  who_asks "{`active`:false}" (seen_amy (970 * Second)) = Ok (writeAuthError 401 ErrUnauthorized "invalid session").
Proof.
  destruct (AuthHTTP.introspect_request demo_account_service "t&k=1") as [e|rq] eqn:Erq; [vm_compute in Erq; discriminate Erq|].
  assert (Hc : forall body items, _) by exact (fun body items =>
    auth_verdict_contract (H:=canned 200 (json_text body)) demo_account_service 0 "fuju"
      (fun c r => ret (mkResponse 200 (Data (Auth.GetSubFromContext c)) None)) Auth.background (like_request "Bearer t&k=1")
      (Cached.mk (IntrospectCache.mkCache items ∅) tt) "t&k=1" rq tt (1000 * Second) eq_refl Erq eq_refl eq_refl
      ltac:(intros why; discriminate)).
  split; [|split].
  - destruct (Hc "{`active`:true,`sub`:`amy`,`exp`:1700000000}" ∅) as (_ & _ & Hmiss). cbv zeta in Hmiss.
    destruct Hmiss as (store & _ & Hv); [intros e He; discriminate He|]. revert Hv. vm_compute introspection.
    intros (_ & ss & (Hsub & _ & _) & _ & Hout). unfold who_asks. rewrite Hout. destruct ss. cbn in Hsub. rewrite Hsub. reflexivity.
  - destruct (Hc "{`active`:false}" (seen_amy (980 * Second))) as (_ & Hhit & _). cbv zeta in Hhit.
    unfold who_asks. rewrite (Hhit (IntrospectCache.mkEntry (AuthCore.Session.mk "amy" time_zero "") (980 * Second))); [reflexivity|reflexivity|].
    split; [reflexivity|left; reflexivity].
  - destruct (Hc "{`active`:false}" (seen_amy (970 * Second))) as (_ & _ & Hmiss). cbv zeta in Hmiss.
    destruct Hmiss as (store & _ & Hv).
    + intros e He. vm_compute in He. injection He as <-. intros [Hlt _]. vm_compute in Hlt. discriminate Hlt.
    + revert Hv. vm_compute introspection. intros [_ Hout]. unfold who_asks. rewrite Hout. reflexivity.
Defined.

(** ** The configuration *)

(** C23. The settings an environment gives are accepted exactly when they
    satisfy the rules of [valid]: a known backend with a database to reach,
    the account service's address and credentials, a known SameSite mode,
    a Secure cookie outside development and with SameSite=None, a positive
    fallback age, and the paired settings set together. The wiring made of
    accepted settings has a cookie of the mode they name, Secure outside
    development and whenever SameSite is None, with a positive fallback age,
    and it serves images when and only when the object store is configured.
    The connection string assembled from the DB_* settings is a URL that
    names exactly these settings: the user, the password and the database
    are read back unchanged whatever bytes they are made of. *)
Theorem config_contract env :
  match Load env with
  | inl _ => ~ valid (load env)
  | inr (c, mode) =>
      c = load env /\ valid c /\ same_site_mode (SessionCookieSameSite c) = Some mode /\
      let w := wiring_of c mode in
      (Environment c <> "development" -> sSecure (session_cookie w) = true) /\
      (sSameSite (session_cookie w) = Cookie.SameSiteNoneMode -> sSecure (session_cookie w) = true) /\
      0 < FallbackMaxAge (session_cookie w) /\ (imagesEnabled w = true <-> R2Endpoint c <> "") /\
      (DatabaseURL c = "" -> all_bytes host_byte (DBHost c) = true -> 0 <= DBPort c -> exists u,
        URL.Parse (DSN c) = Some u /\ URL.Scheme u = "postgres" /\ URL.User u = Some (DBUser c, Some (DBPassword c)) /\
        URL.Host u = DBHost c +:+ ":" +:+ pretty (DBPort c) /\ URL.Path u = "/" +:+ DBName c /\
        URL.RawQuery u = "sslmode=disable")
  end.
Proof.
  unfold Load. pose proof (Validate_spec (load env)) as Hv. destruct (Validate (load env)) as [e|mode]; [done|].
  destruct Hv as [Hv Hm]. split_and!; try done; cbn [wiring_of session_cookie sSecure sSameSite FallbackMaxAge imagesEnabled].
  - intros He. apply not_false_iff_true. intros Hs. by destruct (valid_secure _ Hv Hs).
  - intros Hn. apply not_false_iff_true. intros Hs. destruct (valid_secure _ Hv Hs) as [_ Hnone]. by apply none_mode in Hm; [|subst].
  - apply Hv.
  - rewrite R2Enabled_spec. pose proof (valid_r2 _ Hv) as [Hall|Hall].
    + split; [intros Hs; apply Hs; by left|]. intros He. destruct He. apply Hall. by left.
    + split; [|done]. intros _. apply Hall. by left.
  - apply DSN_parses.
Qed.

(** The environment of a small deployment. *)
Definition demo_env (extra : list (string * string)) : environment := fun key =>
  match List.find (fun kv => bool_decide (kv.1 = key)) (extra ++ [
    ("ENVIRONMENT", "production"); ("DB_HOST", "db.internal"); ("DB_NAME", "fuju"); ("DB_USER", "sns"); ("DB_PASSWORD", "p@ss/w?rd:#%");
    ("AUTHCORE_BASE_URL", "https://auth.example"); ("AUTHCORE_CLIENT_ID", "sns"); ("AUTHCORE_CLIENT_SECRET", "s3cret")])
  with Some kv => kv.2 | None => "" end.

Lemma config_contract_witness : exists c mode u, Load (demo_env []) = inr (c, mode) /\
  sSecure (session_cookie (wiring_of c mode)) = true /\ URL.Parse (DSN c) = Some u /\
  URL.User u = Some ("sns", Some "p@ss/w?rd:#%").
Proof.
  pose proof (config_contract (demo_env [])) as Hc. destruct (Load (demo_env [])) as [e|[c mode]] eqn:E; [vm_compute in E; discriminate E|].
  destruct Hc as (Hl & _ & _ & Hs & _ & _ & _ & Hd). subst c.
  destruct Hd as (u & Hp & _ & Hu & _); [vm_compute; reflexivity|vm_compute; reflexivity|vm_compute; discriminate|].
  exists (load (demo_env [])), mode, u. split; [reflexivity|]. split; [apply Hs; vm_compute; discriminate|].
  split; [exact Hp|]. rewrite Hu. vm_compute. reflexivity.
Defined.

(** A fallback age below a second is accepted, and makes the session cookie
    without a Max-Age the check means to exclude. *)
Theorem short_fallback_session_cookie :
  exists c mode, Load (demo_env [("SESSION_COOKIE_FALLBACK_MAX_AGE", "500ms")]) = inr (c, mode) /\
  let ctx := Auth.mkContext (Some "amy") (Some "tok") None None in
  exists (s : World) r ck, (Handlers.Issue (wiring_of c mode) ctx r s).2 = Ok (mkResponse 204 NoBody (Some ck)) /\ Cookie.CMaxAge ck = 0.
Proof.
  eexists _, _. split; [vm_compute; reflexivity|]. cbv zeta. exists demo_world, (like_request ""). eexists.
  split; [vm_compute; reflexivity|]. reflexivity.
Qed.
