(* ===== verification/OpsProps.v ===== *)
(** * Properties: the log, the bridge to the recommendation service, the process *)

From S2P Require Import Prelude Errors Monad GoStrings Cursor Domain NetUrl OgpUrl Json JsonOut Logging.
From S2P Require Import Repository Backend PostUC PostThms UserUC AuthCache Dispatcher Http AuthClient FujuClient Config Handlers ConfigThms.
From S2P Require Import Boot Demo HttpProps ConfigProps.
From Stdlib Require Import Ascii.

Local Open Scope string_scope.
Local Open Scope Z_scope.

(** ** The log *)

(** C31. Whatever the messages, fields and errors contain, reading the log
    back line by line gives exactly the documents of the calls that were not
    dropped, in order: no text can end a line or start another. A call is
    dropped only below the level, or when one of its values cannot be
    encoded; a document holds the time, the level, the message, the error,
    and exactly the keys that a pair of the fields gives a value, each with
    the value of its last pair. The values must not be nested deeper than the
    reader goes (ten thousand levels). The status of an access line is the
    one written first. *)
Theorem log_contract level_name calls ws :
  let level := Logger.New level_name in
  (forall k v, k ∈ calls -> document level k = Some v -> (JsonOut.nest v <= Json.maxNestingDepth)%nat) ->
  the_log (Logger.writer (foldl (fun o k => perform level k o) (Logger.mkOutput "" "") calls)) =
    (fun v => Some (JsonOut.shown v)) <$> omap (document level) calls /\
  (forall k, k ∈ calls -> document level k = None -> rank (sev k) < level \/ ~ call_encodable k) /\
  (forall k v, k ∈ calls -> document level k = Some v -> level <= rank (sev k) /\ exists rest,
     v = JsonOut.VObj ([("timestamp", JsonOut.VStr (Logger.timestamp (at_ k))); ("level", JsonOut.VStr (label (sev k)));
                        ("message", JsonOut.VStr (message k))] ++ rest)%list /\
     ((exists key a, last_given (fields k) key a) -> exists fs, ("fields", JsonOut.VObj fs) ∈ rest /\
        forall key x, (key, x) ∈ fs <-> exists a, last_given (fields k) key a /\ Logger.any_value a = inr x) /\
     (forall e, sev k = IsError (Some e) -> Error e <> "" -> ("error", JsonOut.VStr (Error e)) ∈ rest)) /\
  Access.recorded ws = match ws with Access.WriteHeader code :: _ => code | _ => 200 end.
Proof.
  intros level Hn. rewrite perform_all. split_and!; [apply read_the_log| | |apply recorded_first].
  - apply Forall_forall. intros v (k & Hk & Hv)%list_elem_of_omap. by eapply Hn.
  - intros k _ Hd. pose proof (document_spec level k) as Hs. by rewrite Hd in Hs.
  - intros k v _ Hd. pose proof (document_spec level k) as Hs. rewrite Hd in Hs. by destruct Hs as (? & _ & Hs).
Qed.

(** Someone tries to write a line of their own. *)
Definition forged : string := "hello" +:+ Logger.newline +:+ "{}".

Definition demo_calls : list call := [
  mkCall IsDebug 0 Logger.background "hidden" [];
  mkCall IsInfo 63900000000123000000 Logger.background forged [Logger.AStr "n"; Logger.AInt 1; Logger.AStr "n"; Logger.AInt 2; Logger.AStr "odd"];
  mkCall (IsError (Some (ErrorString "boom"))) 0 Logger.background "failed" []].

Lemma log_contract_witness : exists t a,
  the_log (Logger.writer (foldl (fun o k => perform Logger.InfoLevel k o) (Logger.mkOutput "" "") demo_calls)) =
    [Some (Json.JObj [("timestamp", Json.JStr t); ("level", Json.JStr "INFO"); ("message", Json.JStr forged);
                      ("fields", Json.JObj [("n", Json.JNum "2")])]); Some a].
Proof.
  destruct (log_contract "info" demo_calls []) as [Hlog _].
  - intros k v Hk Hv. apply Nat.leb_le. repeat (apply elem_of_cons in Hk as [->|Hk]; [vm_compute in Hv; try discriminate; injection Hv as <-; vm_compute; reflexivity|]).
    by apply not_elem_of_nil in Hk.
  - change (Logger.New "info") with Logger.InfoLevel in Hlog. rewrite Hlog. eexists _, _. vm_compute. reflexivity.
Defined.

(** ** The bridge to the recommendation service *)

Section bridge.
Context (Quote : string -> string) (c : FujuModel.Client).





End bridge.

(** Three events, the first with text that is no UTF-8, one by one: the first
    is answered with an error, the second finds no token, the third reaches
    the service although the answer is lost. *)
Definition demo_events : list Fuju.Event := [
  Fuju.mkEvent "amy" "p" Fuju.EventComment 63900000000123000000 (Some ("hi" +:+ String "255" ""));
  Fuju.like_event 63900000001000000000 "bob" "p"; Fuju.like_event 63900000002000000000 "eve" "p"].
Definition demo_client : FujuModel.Client := FujuModel.mkClient "https://fuju.example" "sns_a" "".




(** With the token source of the server: the network, and the cached token. *)
Record linked := mkLinked { svc : network; src : ServiceToken.source }.

#[local] Instance linked_transport : AuthHTTP.Transport linked :=
  {| AuthHTTP.Do rq s := let '(w, a) := AuthHTTP.Do rq (svc s) in (mkLinked w (src s), a) |}.

(** At the time [now], when the account service would issue the token "new". *)
#[local] Instance linked_tokens (now : Time) : FujuModel.ServiceTokenSource linked :=
  {| FujuModel.GetServiceToken want s :=
       let '(source, (_, r)) := ServiceToken.GetServiceToken (60 * Second) now want (inr ("new", Hour)) (src s) in
       (mkLinked (svc s) source, match r with inl e => Err e | inr tok => Ok tok end) |}.

(** A token the recommendation service rejects stays in use until it
    expires: the two batches go out, and are lost, with the same one. *)
Example rejected_token_kept :
  let s := mkLinked (mkNetwork [] [] [Answered (AuthHTTP.mkAnswer 401 "" false); Answered (AuthHTTP.mkAnswer 401 "" false)])
             (ServiceToken.mkSource "revoked" (2 * Hour) "") in
  let sent := (for_each (Flush.flushEvents (H0:=linked_tokens Hour) (fun s => s) demo_client) ((fun e => [e]) <$> take 2 demo_events) s).1 in
  (fun rq => List.hd_error (AuthHTTP.rHeaders rq)) <$> received (svc sent) =
    [Some ("Authorization", "Bearer revoked"); Some ("Authorization", "Bearer revoked")].
Proof. vm_compute. reflexivity. Qed.

(** ** Starting and stopping *)

Import Lifecycle LifecycleThms.

(** C32. An accepted configuration starts unless the database or the object
    store it names refuses (its address, the pool of the configured sizes, or
    the ping; the credentials of the store), and starts with the cookie
    policy, routes, back end and bridge it asks for, on that pool: the checks
    of the constructors never fail. Of the process that runs then: the database is closed last, after
    the worker and the bridge have returned, and with no request in flight
    unless [Shutdown] gave up on one; once the signal has come main can
    always finish, and once it has cancelled the loops every run ends,
    with main's exit; but if the port could not be bound, main goes on
    waiting and no request is ever served. *)
Theorem lifecycle_contract `{Boot.Drivers} env c mode :
  Load env = inr (c, mode) ->
  match Boot.boot env with
  | inl _ => ~ outside_up c
  | inr sv =>
      outside_up c /\ Boot.sWiring sv = wiring_of c mode /\ (is_Some (Boot.sFuju sv) <-> FujuModelEnabled c = true) /\
      (Boot.sBackend sv = Boot.InMemory <-> RepoBackend c = RepoBackendInMemory) /\
      (forall pool, Boot.sBackend sv = Boot.OnPostgres pool -> database_up c pool) /\
      forall s, reachable (bool_decide (is_Some (Boot.sFuju sv))) s ->
        (pool_open s = false -> main s = Exited /\ worker s = WorkerGone /\ bridge s = Dispatcher.Stopped /\
           (overran s = false -> inflight s = 0%nat)) /\
        (main s <> Serving -> exists s', rtc step s s' /\ main s' = Exited) /\
        (cancelled s = true -> always_exits s) /\
        (http s = BindFailed -> main s = Serving /\ forall s', rtc step s s' -> main s' = Serving -> inflight s' = 0%nat)
  end.
Proof.
  intros HL. pose proof (boot_spec env c mode HL) as Hb. destruct (Boot.boot env) as [f|sv]; [done|].
  destruct Hb as (Hup & Hw & _ & Hf & Hbk & Hpool). split_and!; try done. intros s Hr. pose proof (reachable_life _ _ Hr) as Hi. split_and!.
  - intros Hp. by apply closed_pool.
  - by apply after_signal_finishes.
  - by apply cancelled_exits.
  - intros Hbf. destruct (bind_failure_stays _ _ Hr Hbf) as (Hm & _ & Hs). split; [done|]. intros s' Ht Hm'. by apply Hs.
Qed.

#[local] Instance willing_drivers : Boot.Drivers := {|
  Boot.ParseConfig dsn := inr (Boot.mkPool 4 0 dsn);
  Boot.NewWithConfig _ := None; Boot.Ping _ := None; Boot.LoadDefaultConfig := None;
|}.

Definition ops_env : environment := demo_env [("FUJU_MODEL_BASE_URL", "https://fuju.example/"); ("FUJU_MODEL_TENANT_ID", "sns_a")].

(** The port is taken. *)
Definition unbound_state : state := mkState Serving BindFailed 0 false WorkerIdle Dispatcher.Running 2 true false.

Lemma lifecycle_contract_witness : exists sv, Boot.boot ops_env = inr sv /\ is_Some (Boot.sFuju sv) /\
  forall s', rtc step unbound_state s' -> main s' = Serving -> inflight s' = 0%nat.
Proof.
  destruct (Load ops_env) as [err|[c mode]] eqn:HL; [vm_compute in HL; discriminate HL|].
  pose proof (lifecycle_contract ops_env c mode HL) as Hc.
  destruct (Boot.boot ops_env) as [f|sv] eqn:Hb; [vm_compute in Hb; discriminate Hb|].
  exists sv. split; [reflexivity|]. destruct Hc as (_ & _ & _ & _ & _ & Hrun).
  assert (Hsome : is_Some (Boot.sFuju sv)).
  { vm_compute in Hb. injection Hb as <-. eexists. reflexivity. }
  split; [exact Hsome|]. rewrite bool_decide_eq_true_2 in Hrun by exact Hsome.
  destruct (Hrun unbound_state) as (_ & _ & _ & Hunbound); [|exact (proj2 (Hunbound eq_refl))].
  eapply reach_step; [apply reach_start|apply bind_failed].
Defined.
